(* ===== verification/_CoqProject ===== *)
-Q . S2P
Prelude.v
Js.v
Numbers.v
Contracts.v
StateMachine.v
Topology.v
Compatibility.v
BuilderDraft.v
Executable.v
Schemas.v
CanonicalSchemas.v
JsonSchema.v
OpenApi.v
ConfigurationForm.v
Portability.v
Graph.v
Database.v
Integrity.v
Statements.v
Repository.v
RepositoryProofs.v
RunLogs.v
Dates.v
RunQueue.v
RunQueueProofs.v
RunCreation.v
Actions.v
Frames.v
QueueClaims.v
Paths.v
Development.v
DevelopmentProofs.v
DevelopmentRuns.v
Files.v
Http.v
Documents.v
Retention.v
Collector.v
CollectorProofs.v
Accounts.v
Migrations.v
MigrationProofs.v
AccountProofs.v
Uploads.v
UploadProofs.v
SchedulerService.v
ContractSchemas.v
PipelineRoutes.v
PipelineRouteProofs.v
ControlPlane.v
BrowserClient.v
BrowserProofs.v
QueryCache.v
QueryCacheProofs.v
CachedControlPlane.v
Wizard.v
WizardProofs.v
AccountHistory.v
TokenProofs.v
SystemStatus.v
ApiConformance.v
ServiceConfig.v
CapabilityClient.v
SystemStatusProofs.v
ServerProcess.v
Workspaces.v
WorkspaceProofs.v
BuilderProofs.v
TriggerDraft.v
PipelineEditor.v
EditorProofs.v
EditorSaves.v
Scenario.v
StoreWitnesses.v
ServiceWitnesses.v
BuilderWitnesses.v
AccountWitnesses.v
SystemWitnesses.v
CacheWitnesses.v
EditorWitnesses.v
