(* ===== verification/Prelude.v ===== *)
(** * PantaETL: verification library

    PantaETL is a self-hosted ETL system. Users compose pipelines (a graph of
    Source, Transform and Export components with triggers) in a web
    application, a scheduler turns triggers and requests into runs and jobs,
    workers execute jobs, and a garbage collector removes what has expired.
    This library models the TypeScript part of the program, from the contract
    packages to the HTTP routes, and proves what makes it correct.

    ** The parts and the files that model them

    - Language and contracts: [Js] (numbers, JSON, strings), [Numbers] (the
      number a text denotes, rounded to a double), [Contracts] (the
      records and unions of packages/contracts and the exceptions the
      packages throw), [Schemas] (what the validators accept), [Documents]
      (their JSON shapes, read and written).
    - Domain package (packages/pipeline/src): [StateMachine]
      (state-machine.ts), [Topology] (topology.ts), [Compatibility]
      (compatibility.ts), [Executable] (executable-validation.ts),
      [Portability] (portability.ts). Pure functions.
    - Store (packages/database/src): [Database] is the relational schema as
      tables of records with the SQL statements the code issues, each
      enforcing the keys, foreign keys and checks it runs into; [Integrity]
      states the schema's constraints as an invariant and proves that every
      statement preserves it; [Statements] gives their exact effects; [Frames]
      which tables they leave alone.
    - Pipeline repository (packages/database/src/pipelines): [Graph] (the
      graph validation of create.ts), [Repository] (create, read, update,
      delete, duplicate, execution state), [RepositoryProofs], [Actions] (run,
      enable, disable of actions.ts).
    - Runs (apps/scheduler/src): [RunQueue] (run-queue.ts, schedule-claims.ts
      and packages/database/src/queue.ts), [RunQueueProofs], [RunCreation],
      [QueueClaims]; [RunLogs] (run-log-retention.ts, observability.ts).
    - Retention (packages/database/src/retention.ts and
      apps/garbage-collector/src): [Retention], [Collector],
      [CollectorProofs], over the file model of [Files] and [Paths].
    - Uploads (apps/web/src/uploads): [Uploads], [UploadProofs].
    - Services over HTTP: [Http], [SchedulerService]
      (apps/scheduler/src/internal-run-route.ts and the server),
      [PipelineRoutes] (apps/web/src/pipelines, apps/web/src/pipeline-api),
      [PipelineRouteProofs], [ControlPlane] (apps/web/src/routes/api behind a
      session).
    - Accounts (apps/web/src/auth): [Accounts] (admin.ts, initial-setup.ts,
      route-guard.ts, api-token.ts and the token routes, over the tables of
      users.ts), [AccountProofs] (setup and resets), [AccountHistory]
      (sequences of events), [TokenProofs].
    - Canonical schemas (schemas/contracts/*.json): [CanonicalSchemas] (the
      documents as data), [JsonSchema] (packages/contracts/src/json-schema.ts
      and the fragments the package reads; what a schema accepts, as a
      specification), [ContractSchemas] (they accept what the
      validators of [Documents] and [Schemas] accept); the API description
      (packages/contracts/src/api/openapi.ts): [OpenApi], [ApiConformance]
      (the answers of the routes against it).
    - Settings, health and configuration (apps/web/src/system,
      apps/web/src/capabilities, packages/config): [SystemStatus],
      [SystemStatusProofs]; the processes of the services: [ServerProcess]; the
      environment of the scheduler and the collector
      (their config.ts): [ServiceConfig].
    - Development stack (scripts/development.mjs): [Development] (each command
      as a program over the answers of the operating system),
      [DevelopmentProofs] (what any of its traces does), [DevelopmentRuns]
      (its waits on machines that answer, and the output of the services).
    - Pages (components/system-workspace.tsx, components/settings-workspace.tsx,
      routes/login.tsx, routes/welcome.tsx, locales/index.ts and the providers
      of apps/web/src): [Workspaces], [WorkspaceProofs], over the dates and
      numbers of the language ([Dates], [Numbers]: their texts, read back).
    - Migrations (packages/database/scripts/adopt-migration-history.mjs):
      [Migrations], [MigrationProofs].
    - Browser (apps/web/src/data): [BrowserClient], [BrowserProofs] (from the
      client through the control plane and the scheduler); [QueryCache] (keys,
      queries and mutations over the query library's cache),
      [QueryCacheProofs] (the promise [PipelineServer] a cache relies on),
      [CachedControlPlane] (the composed service keeps that promise);
      [CapabilityClient] (the client of the component catalog).
    - Editors (apps/web/src/components): [BuilderDraft], [BuilderProofs] (the
      wizard's draft), [Wizard], [WizardProofs] (the wizard and its page over
      the cache and the control plane), [ConfigurationForm] (the forms of
      components, their secrets and the picker), [TriggerDraft] (schedules),
      [PipelineEditor] (the workspace, its editor and the action controls),
      [EditorProofs] (its requests), [EditorSaves] (what they do in the store).
    - [Scenario], [StoreWitnesses], [ServiceWitnesses], [BuilderWitnesses],
      [AccountWitnesses], [SystemWitnesses],
      [CacheWitnesses], [EditorWitnesses]: instances of
      the parameters, concrete stores, and the theorems with hypotheses applied to them.

    ** How state, errors and time are modelled

    An operation that reads or writes the store is a state-passing function
    [M S E A] over the store [Database] (or [World], the store with the files
    of the storage root, or [Directory], the store with the accounts); its
    result is [Ok] or the exception it throws. [transaction] rolls back on an exception. A row list is in the order a
    scan returns it. Transactions are serial: a [FOR UPDATE] that would wait
    is a transaction that runs later, and the rows [SKIP LOCKED] passes over
    are an argument ([locked]) the theorems quantify over. [Promise.all] runs
    its operations in list order; each is one statement or transaction.
    Times are milliseconds; where the code reads the clock the time is an
    argument. [defaultRandom()] and [randomUUID()] draw from the supply
    [Uuids], which [UuidLaws] requires not to repeat. JSONB columns hold JSON
    documents; documents come from [JSON.parse], so their keys are distinct.
    Columns of type integer are checked to be 32-bit where the code writes
    numbers it did not bound. The development script is an interaction tree
    over the calls it makes: its traces are what it does against any operating
    system. Pages of the browser are state machines over user actions and
    answers, which come in any order.

    Code outside the repository is a parameter: the UUID format of the schema
    library ([Formats], with [UuidText] for the text it has), the cron
    library ([CronParser], with [CronLaws]: the next occurrence is later), the
    file system ([FileSystem]: it may refuse any removal or write), password
    hashing ([PasswordHashing], with [PasswordVerification]: a hash admits
    the password it was made of and no other), the digest of tokens
    ([Sha256]), the URL parser ([UrlParser]), the cache of the query
    library ([QueryClient], [QueryClientLaws]), what [JSON.parse] makes of a
    text and the texts [JSON.stringify] writes, the answers of the operating
    system to the development script ([Machine], [TickingMachine]: its clock
    advances while the script sleeps), the catalog of installed components, and the session that the authentication library resolves.
    Random bytes and salts are arguments. The files of witnesses instantiate
    what the theorems assume. UUIDs are compared as their canonical text.

    ** Loops and fuel

    Structural recursion wherever the code iterates over an array. The
    traversals of graphs take fuel: [Graph.visitGraph] the number of initial
    steps and edges (each pop is paid by one), [Graph.assertNoCycle] the
    number of steps plus one as its stack depth, [Executable.walkLinearChain]
    the number of steps plus two, [BuilderDraft.orderStepsByEdges] the number
    of steps plus one, [SystemStatus.workspaceRoot] the depth of the module
    plus one. The waits of the development script are [ITree.iter] loops
    without fuel; that they end is proved of ticking machines. [JsonSchema.validate] takes fuel
    for the references it follows: three for each level of the document and a
    constant of the schema. Running out is a distinct result, and theorems show that it
    does not happen: for [orderStepsByEdges] on every graph the repository
    accepts, for the others always.

    ** What is proved

    - Graphs: validation accepts exactly the valid graphs; the executable
      check accepts exactly linear, configured, compatible chains; walks
      terminate and visit what is reachable.
    - Repository: creation, update, deletion, duplication, enabling and
      disabling, case by case with their errors, with reading back, atomicity,
      the edit lock, and the integrity of the store.
    - Runs: creation is total in a consistent store with a known effect; only
      the run that holds a pipeline's lock has jobs; claims of schedules and
      jobs are exclusive and in order; the pure state machine refines a FIFO
      queue and serves every queued run.
    - Retention and uploads: expiry queries are bounded pages; paths stay
      beneath the storage root; a cleanup pass never orphans a file; an
      upload lives until it expires or for as long as a pipeline reads it.
    - Services: documents round trip through JSON; a pipeline created and a
      run requested in the browser mean what the repository and the scheduler
      do; no sequence of calls by other users changes what an owner reads.
    - Contracts: the validators accept exactly the documents the canonical
      schemas describe; every answer of the API is described, an upload's 503
      excepted; the references of its description lead to the canonical
      fragments, save for the local ones of components without an identifier.
    - Browser cache: what the cache holds as valid is what the server would
      answer, after any interaction of its user, save for the execution state
      after a run.
    - Migrations: adopting the history of an old database writes nothing when
      it is inconsistent, leaves no gap, and resumes where it stopped.
    - Accounts: the published first-run password operates nothing, whatever
      happens; setup and resets replace exactly one credential; an API token
      authenticates its owner until the owner revokes it.
    - Settings and health: the retention setting governs the runs to come;
      services agree on their storage root; a health report means what the
      probed services know; the period of the collector's timer is what was
      configured up to the range of timers, and a millisecond beyond; a request
      the scheduler cannot answer ends its process, none ends the collector's.
    - Development stack: every command signals only processes it may, starts
      services only on free ports after the migrations, and removes volumes
      only in a reset; its waits end; output is prefixed line by line.
    - Pages: the settings page stores the period that was typed and shows what
      is stored; the system page shows the report as it was computed; the
      first-run page completes one setup or says why not.
    - Editors: the wizard only saves pipelines that are valid, and exactly
      the complete drafts; a saved draft reopens as itself; a browser's wizard
      works on one pipeline; the forms of components hand out declared values
      that are no secret; schedules round trip through cron; the workspace
      saves and deletes the pipeline it shows, a save without an edit changes
      nothing, and a pipeline that ran is refused with its steps.

    ** What is not modelled

    The markup of React components, styling and message catalogs (rendering); the
    authentication library itself
    (sign-in, its own password change, sessions and their expiry) and
    password hashing; logging of the scheduler and the
    collector; headers of responses; the libraries that compile
    JSON Schemas; generated migrations (data); concurrency below the transaction (PostgreSQL's); the
    contents of files; the Python workers (another program). Responses carry
    the pipeline they serialise as a value, not as text. *)

From Stdlib Require Export Ascii.
From stdpp Require Export base gmap strings list sorting relations.
From Stdlib Require Export ZArith Lia.

(** ** Outcomes: a value returned, or an exception thrown *)

Inductive outcome (E A : Type) : Type :=
  | Ok (a : A)
  | Throw (e : E).
Arguments Ok {E A} a.
Arguments Throw {E A} e.

#[export] Instance outcome_ret {E} : MRet (outcome E) := λ A a, Ok a.
#[export] Instance outcome_bind {E} : MBind (outcome E) := λ A B k m,
  match m with Ok a => k a | Throw e => Throw e end.
#[export] Instance outcome_eq_dec {E A} `{EqDecision E, EqDecision A} :
  EqDecision (outcome E A).
Proof. solve_decision. Defined.

(** [is_ok o] holds when a call returned. *)
Definition is_ok {E A} (o : outcome E A) : bool :=
  match o with Ok _ => true | Throw _ => false end.

(** ** Stateful code: the state is kept when an exception is thrown, and
    [transaction] is what rolls it back. *)

Definition M (S E A : Type) : Type := S → outcome E A * S.

#[export] Instance M_ret {S E} : MRet (M S E) := λ A a s, (Ok a, s).
#[export] Instance M_bind {S E} : MBind (M S E) := λ A B k m s,
  match m s with
  | (Ok a, s') => k a s'
  | (Throw e, s') => (Throw e, s')
  end.

Definition throw {S E A} (e : E) : M S E A := λ s, (Throw e, s).
Definition lift {S E A} (o : outcome E A) : M S E A := λ s, (o, s).
Definition gets {S E A} (f : S → A) : M S E A := λ s, (Ok (f s), s).
Definition puts {S E} (f : S → S) : M S E unit := λ s, (Ok (), f s).

(** [transaction m] commits the state of [m] when it returns and restores
    the initial state when it throws. *)
Definition transaction {S E A} (m : M S E A) : M S E A := λ s,
  match m s with
  | (Ok a, s') => (Ok a, s')
  | (Throw e, _) => (Throw e, s)
  end.

(** [try_catch m h]: the handler runs in the state the exception left. *)
Definition try_catch {S E A} (m : M S E A) (h : E → M S E A) : M S E A := λ s,
  match m s with
  | (Ok a, s') => (Ok a, s')
  | (Throw e, s') => h e s'
  end.

(** [for (const x of l) body] with an accumulated result. *)
Fixpoint for_each {S E A B} (f : A → M S E B) (l : list A) : M S E (list B) :=
  match l with
  | [] => mret []
  | x :: l => y ← f x; ys ← for_each f l; mret (y :: ys)
  end.

(** ** Inversion of monadic runs *)

Section monad_facts.
Context {S E A B : Type}.
Implicit Types (m : M S E A) (k : A → M S E B).

Lemma bind_run m k s :
  (m ≫= k) s = match m s with
               | (Ok a, s') => k a s'
               | (Throw e, s') => (Throw e, s')
               end.
Proof. done. Qed.

Lemma bind_ok m k s b s' :
  (m ≫= k) s = (Ok b, s') ↔ ∃ a s1, m s = (Ok a, s1) ∧ k a s1 = (Ok b, s').
Proof.
  rewrite bind_run. destruct (m s) as [[a|e] s1]; naive_solver.
Qed.

Lemma outcome_bind_ok (o : outcome E A) (f : A → outcome E B) b :
  (o ≫= f) = Ok b ↔ ∃ a, o = Ok a ∧ f a = Ok b.
Proof. destruct o; simpl; naive_solver. Qed.

Lemma transaction_ok m s a s' :
  transaction m s = (Ok a, s') ↔ m s = (Ok a, s').
Proof. unfold transaction. destruct (m s) as [[?|?] ?]; naive_solver. Qed.

Lemma transaction_throw m s e s' :
  transaction m s = (Throw e, s') ↔ s' = s ∧ ∃ s1, m s = (Throw e, s1).
Proof. unfold transaction. destruct (m s) as [[?|?] ?]; naive_solver. Qed.

Lemma ret_ok (a a' : A) (s s' : S) :
  (mret a : M S E A) s = (Ok a', s') ↔ a = a' ∧ s = s'.
Proof. unfold mret, M_ret. naive_solver. Qed.

Lemma throw_ok (e : E) (s s' : S) (a : A) :
  (throw e : M S E A) s = (Ok a, s') ↔ False.
Proof. unfold throw. naive_solver. Qed.

Lemma lift_ok (o : outcome E A) (s s' : S) (a : A) :
  lift o s = (Ok a, s') ↔ o = Ok a ∧ s = s'.
Proof. unfold lift. naive_solver. Qed.
End monad_facts.

Lemma for_each_fmap {S E A B C} (f : B → M S E C) (g : A → B) (l : list A) s :
  for_each f (g <$> l) s = for_each (λ x, f (g x)) l s.
Proof.
  revert s. induction l as [|x l IH]; intros s; csimpl; [done|].
  rewrite !bind_run. destruct (f (g x) s) as [[y|e] s1]; [|done]. by rewrite !bind_run, IH.
Qed.

Lemma for_each_total {S E A B} (f : A → M S E B) (g : A → B) (l : list A) s :
  (∀ x, x ∈ l → f x s = (Ok (g x), s)) → for_each f l s = (Ok (g <$> l), s).
Proof.
  induction l as [|x l IH]; intros Hf; [done|]. csimpl. rewrite bind_run, Hf by (by left).
  rewrite bind_run, IH; [done|]. intros. apply Hf. by right.
Qed.

(** A map filled from a list of entries with distinct keys. *)
Lemma lookup_foldl_insert {A V} (key : A → string) (value : A → V) (l : list A)
    (m : gmap string V) x :
  NoDup (key <$> l) → x ∈ l →
  foldl (λ m a, <[key a := value a]> m) m l !! key x = Some (value x).
Proof.
  assert (∀ l (m : gmap string V) k, k ∉ key <$> l →
    foldl (λ m a, <[key a := value a]> m) m l !! k = m !! k) as Hne.
  { clear. induction l as [|a l IH]; intros m k Hk; csimpl in *; [done|].
    apply not_elem_of_cons in Hk as [? ?]. rewrite IH by done. by rewrite lookup_insert_ne. }
  revert m. induction l as [|a l IH]; intros m; [by intros _ ?%elem_of_nil|]. csimpl.
  intros [Ha Hnd]%NoDup_cons [->|Hin]%elem_of_cons; [|by apply IH].
  rewrite Hne by done. apply lookup_insert_eq.
Qed.

(** [minv H] decomposes a successful run into the runs of its parts. *)
Ltac minv_step H :=
  first
    [ apply bind_ok in H as (? & ? & ? & H)
    | apply outcome_bind_ok in H as (? & ? & H)
    | rewrite transaction_ok in H
    | apply ret_ok in H as [? ?]
    | apply lift_ok in H as [H ?]
    | apply throw_ok in H as [] ].
Ltac minv H := repeat minv_step H; simplify_eq.

(** [run_m] runs the monadic structure of the goal. *)
Ltac run_m :=
  unfold mret, M_ret, mbind, M_bind, outcome_bind, outcome_ret, gets, puts, lift, throw;
  cbv beta iota.

(** A decidable fact about concrete values, by evaluation. *)
Ltac decide_fact := apply (bool_decide_unpack _); vm_compute; exact I.

(** Case analysis on every scrutinee of the goal or of a hypothesis. *)
Ltac case_all := repeat (case_match; simplify_eq/=; try done).

(** ** Lists *)

Section lists.
Context {A : Type}.
Implicit Types (l k : list A) (x y : A).

Lemma NoDup_snoc l x : NoDup (l ++ [x]) ↔ x ∉ l ∧ NoDup l.
Proof.
  rewrite NoDup_app. split.
  - intros (Hl & Hx & _). split; [|done]. intros ?. eapply Hx; [done|left].
  - intros [Hx Hl]. split; [done|]. split; [|apply NoDup_singleton].
    intros y Hy ->%list_elem_of_singleton. done.
Qed.

Lemma elem_of_snoc l x y : y ∈ l ++ [x] ↔ y ∈ l ∨ y = x.
Proof. by rewrite elem_of_app, list_elem_of_singleton. Qed.

Lemma take_elem_of n l x : x ∈ take n l → x ∈ l.
Proof. intros H. rewrite <-(take_drop n l). apply elem_of_app. by left. Qed.

Lemma head_elem_of l x : head l = Some x → x ∈ l.
Proof. destruct l; simpl; [done|]. intros [= ->]. left. Qed.

Lemma nonempty_elem l : l ≠ [] → ∃ x, x ∈ l.
Proof. destruct l as [|x l]; [done|]. exists x. left. Qed.

Lemma list_bind_nil {B} (f : A → list B) l : l ≫= f = [] ↔ ∀ x, x ∈ l → f x = [].
Proof.
  induction l as [|x l IH]; csimpl; [by split; [intros _ ? ?%elem_of_nil|]|].
  rewrite app_nil, IH. setoid_rewrite elem_of_cons. naive_solver.
Qed.

Lemma list_bind_singleton_nil {B} (P : Prop) `{Decision P} (y : B) :
  (if decide P then [] else [y]) = [] ↔ P.
Proof. by case_decide. Qed.

Lemma head_filter_None (P : A → Prop) `{∀ x, Decision (P x)} l :
  head (filter P l) = None ↔ ∀ x, x ∈ l → ¬ P x.
Proof.
  split.
  - intros H' x Hx HP.
    assert (x ∈ filter P l) as Hf by (by apply list_elem_of_filter).
    destruct (filter P l); [by apply not_elem_of_nil in Hf|done].
  - intros Hall. destruct (filter P l) as [|y k] eqn:E; [done|].
    assert (y ∈ filter P l) as [? ?]%list_elem_of_filter
      by (rewrite E; left).
    naive_solver.
Qed.

(** Rows with distinct keys are determined by their key. *)
Lemma NoDup_fmap_eq {B} (f : A → B) l x y :
  NoDup (f <$> l) → x ∈ l → y ∈ l → f x = f y → x = y.
Proof.
  induction l as [|z l IH]; [by intros _ ?%elem_of_nil|]. csimpl.
  intros [Hz Hnd]%NoDup_cons Hx Hy Heq.
  apply elem_of_cons in Hx as [->|Hx]; apply elem_of_cons in Hy as [->|Hy];
    [done|exfalso..|by apply IH]; apply Hz; [rewrite Heq|rewrite <-Heq]; by apply list_elem_of_fmap_2.
Qed.

Lemma filter_none (P : A → Prop) `{∀ x, Decision (P x)} l : (∀ x, x ∈ l → ¬ P x) → filter P l = [].
Proof.
  induction l as [|x l IH]; intros HP; [done|]. rewrite filter_cons, decide_False by (apply HP; left).
  apply IH. intros. apply HP. by right.
Qed.

Lemma filter_all (P : A → Prop) `{∀ x, Decision (P x)} l : (∀ x, x ∈ l → P x) → filter P l = l.
Proof.
  induction l as [|x l IH]; intros HP; [done|]. rewrite filter_cons, decide_True by (apply HP; left).
  f_equal. apply IH. intros. apply HP. by right.
Qed.

Lemma filter_key_singleton {B} `{EqDecision B} (f : A → B) l x :
  NoDup (f <$> l) → x ∈ l → filter (λ y, f y = f x) l = [x].
Proof.
  induction l as [|y l IH]; [by intros _ ?%elem_of_nil|]. csimpl.
  intros [Hy Hnd]%NoDup_cons [->|Hx]%elem_of_cons; rewrite filter_cons.
  - rewrite decide_True by done. f_equal. apply filter_none. intros z Hz Heq.
    apply Hy. rewrite <-Heq. by apply list_elem_of_fmap_2.
  - rewrite decide_False; [by apply IH|]. intros Heq. apply Hy. rewrite Heq.
    by apply list_elem_of_fmap_2.
Qed.

Lemma list_filter_ext_in (P Q : A → Prop) `{∀ x, Decision (P x), ∀ x, Decision (Q x)} l :
  (∀ x, x ∈ l → P x ↔ Q x) → filter P l = filter Q l.
Proof.
  induction l as [|x l IH]; intros HPQ; [done|]. rewrite !filter_cons.
  rewrite IH by (intros; apply HPQ; by right).
  destruct (HPQ x) as [? ?]; [left|].
  destruct (decide (P x)), (decide (Q x)); naive_solver.
Qed.
End lists.

(** A JavaScript [Set] iterates in insertion order: a list without
    duplicates, extended on the right. *)
Definition set_add {A} `{EqDecision A} (x : A) (l : list A) : list A :=
  if decide (x ∈ l) then l else l ++ [x].

Section set_add.
Context {A : Type} `{EqDecision A}.
Implicit Types (l : list A) (x y : A).

Lemma elem_of_set_add x y l : y ∈ set_add x l ↔ y = x ∨ y ∈ l.
Proof.
  unfold set_add. case_decide; [naive_solver|].
  rewrite elem_of_snoc. naive_solver.
Qed.

Lemma NoDup_set_add x l : NoDup l → NoDup (set_add x l).
Proof.
  unfold set_add. case_decide; [done|]. intros. by apply NoDup_snoc.
Qed.
End set_add.

(** ** Sorting: [ORDER BY] as a stable merge sort *)

Definition order_by {A} (R : relation A) `{∀ x y, Decision (R x y)} (l : list A) : list A :=
  merge_sort R l.

Section order_by.
Context {A} (R : relation A) `{∀ x y, Decision (R x y)}.
Implicit Types (l : list A) (x y : A).

Lemma order_by_Permutation l : order_by R l ≡ₚ l.
Proof. apply merge_sort_Permutation. Qed.

Lemma elem_of_order_by x l : x ∈ order_by R l ↔ x ∈ l.
Proof. by rewrite order_by_Permutation. Qed.

Lemma length_order_by l : length (order_by R l) = length l.
Proof. by rewrite order_by_Permutation. Qed.

Lemma order_by_StronglySorted `{!Transitive R, !Total R} l :
  StronglySorted R (order_by R l).
Proof. by apply (StronglySorted_merge_sort _). Qed.

(** The first row of an ordered query is a least one. *)
Lemma order_by_head_least `{!Reflexive R, !Transitive R, !Total R} x l :
  head (order_by R l) = Some x → x ∈ l ∧ ∀ y, y ∈ l → R x y.
Proof.
  intros Hh. pose proof (order_by_StronglySorted l) as Hs.
  split; [by apply elem_of_order_by, head_elem_of|].
  intros y Hy. rewrite <-elem_of_order_by in Hy.
  destruct (order_by R l) as [|z k]; [done|]. simplify_eq/=.
  apply StronglySorted_cons in Hs as [Hz _]. rewrite Forall_forall in Hz.
  apply elem_of_cons in Hy as [->|Hy]; [done|]. by apply Hz.
Qed.
End order_by.

(** ** Sort keys: a column, a list of columns, [NULLS LAST] *)

Definition on {A B} (f : A → B) (R : relation B) : relation A := λ x y, R (f x) (f y).
Definition then_by {A} (R1 R2 : relation A) : relation A := λ x y, R1 x y ∧ (R1 y x → R2 x y).
Definition nulls_last (x y : option Z) : Prop :=
  match x, y with
  | Some x, Some y => (x ≤ y)%Z
  | _, None => True
  | None, Some _ => False
  end.

#[global] Typeclasses Opaque on then_by nulls_last.

(** A preorder in which any two rows compare: what a sort key is. *)
Class SortKey {A} (R : relation A) := {
  sort_refl : Reflexive R;
  sort_trans : Transitive R;
  sort_total : Total R }.
#[export] Hint Mode SortKey ! ! : typeclass_instances.

#[export] Instance on_dec {A B} (f : A → B) R `{∀ x y, Decision (R x y)} x y : Decision (on f R x y).
Proof. unfold on. apply _. Defined.
#[export] Instance then_by_dec {A} (R1 R2 : relation A) `{∀ x y, Decision (R1 x y)}
  `{∀ x y, Decision (R2 x y)} x y : Decision (then_by R1 R2 x y).
Proof. unfold then_by. apply _. Defined.
#[export] Instance nulls_last_dec x y : Decision (nulls_last x y).
Proof. destruct x, y; simpl; apply _. Defined.

#[export] Instance Z_sort : SortKey Z.le.
Proof. split; [intros ?; lia|intros ???; lia|intros ??; lia]. Qed.
#[export] Instance string_sort : SortKey String.le.
Proof. split; apply _. Qed.
#[export] Instance nulls_last_sort : SortKey nulls_last.
Proof.
  split.
  - intros [x|]; simpl; lia || done.
  - intros [x|] [y|] [z|]; simpl; lia || done.
  - intros [x|] [y|]; simpl; lia || naive_solver.
Qed.
#[export] Instance on_sort {A B} (f : A → B) R `{!SortKey R} : SortKey (on f R).
Proof.
  unfold on. split; [intros x|intros x y z|intros x y];
    [apply sort_refl|apply sort_trans|apply sort_total].
Qed.
#[export] Instance then_by_sort {A} (R1 R2 : relation A) `{∀ x y, Decision (R1 x y), !SortKey R1,
  !SortKey R2} : SortKey (then_by R1 R2).
Proof.
  pose proof (sort_refl (R := R1)). pose proof (sort_refl (R := R2)).
  pose proof (sort_trans (R := R1)) as T1. pose proof (sort_trans (R := R2)) as T2. split.
  - by intros x.
  - intros x y z [Hxy1 Hxy2] [Hyz1 Hyz2]. split; [by eapply T1|]. intros Hzx.
    eapply T2; [apply Hxy2|apply Hyz2]; by eapply T1.
  - intros x y. unfold then_by.
    destruct (decide (R1 x y)), (decide (R1 y x));
      destruct (sort_total (R := R1) x y), (sort_total (R := R2) x y); naive_solver.
Qed.

(** The least row under a sort key. *)
Lemma order_by_head {A} (R : relation A) `{∀ x y, Decision (R x y), !SortKey R} l x :
  head (order_by R l) = Some x → x ∈ l ∧ ∀ y, y ∈ l → R x y.
Proof. apply order_by_head_least; [apply sort_refl|apply sort_trans|apply sort_total]. Qed.

(** What a limit keeps sorts before what it drops. *)
Lemma StronglySorted_prefix {A} (R : relation A) l n x y :
  StronglySorted R l → x ∈ take n l → y ∈ drop n l → R x y.
Proof.
  revert n. induction l as [|z l IH]; intros [|n] Hl; simpl; try by intros ?%elem_of_nil.
  apply StronglySorted_cons in Hl as [Hz Hl]. rewrite Forall_forall in Hz.
  intros [->|Hx]%elem_of_cons Hy; [|by eapply IH].
  apply Hz. rewrite <-(take_drop n l). apply elem_of_app. by right.
Qed.

Lemma order_by_prefix {A} (R : relation A) `{∀ x y, Decision (R x y), !SortKey R} l n x y :
  x ∈ take n (order_by R l) → y ∈ drop n (order_by R l) → R x y.
Proof.
  apply StronglySorted_prefix. pose proof (sort_trans (R := R)). pose proof (sort_total (R := R)).
  by apply order_by_StronglySorted.
Qed.
