(* ===== verification/Js.v ===== *)
(** * JavaScript values

    The fragment of ECMAScript the program uses: numbers as far as the code
    observes them, JSON documents, and the string methods. A string is a
    sequence of code units below 256, so [String.length] is the
    [length] property. *)

From S2P Require Import Prelude.

(** ** Numbers *)

(** What [Number.isInteger], [Number.isSafeInteger] and the comparisons can
    tell apart: an integral double, a fraction [num/den] that is not
    integral, or a value that is not finite. *)
Inductive jsnumber : Type :=
  | NInt (z : Z)
  | NFrac (num : Z) (den : positive)
  | NNaN
  | NInfinity (negative : bool).

#[export] Instance jsnumber_eq_dec : EqDecision jsnumber.
Proof. solve_decision. Defined.

Definition MAX_SAFE_INTEGER : Z := 2 ^ 53 - 1.

Definition isInteger (n : jsnumber) : option Z :=
  match n with NInt z => Some z | _ => None end.

Definition isSafeInteger (n : jsnumber) : option Z :=
  match n with
  | NInt z => if decide (Z.abs z ≤ MAX_SAFE_INTEGER)%Z then Some z else None
  | _ => None
  end.

(** ** JSON documents *)

Inductive Json : Type :=
  | JNull
  | JBool (b : bool)
  | JNumber (n : jsnumber)
  | JString (s : string)
  | JArray (l : list Json)
  | JObject (fields : list (string * Json)).

(** An induction principle that reaches the elements. *)
Lemma Json_ind_nested (P : Json → Prop) :
  P JNull → (∀ b, P (JBool b)) → (∀ n, P (JNumber n)) → (∀ s, P (JString s)) →
  (∀ l, Forall P l → P (JArray l)) →
  (∀ fields, Forall (λ f, P f.2) fields → P (JObject fields)) →
  ∀ j, P j.
Proof.
  intros Hnull Hbool Hnum Hstr Harr Hobj.
  fix IH 1. intros [|b|n|s|l|fields].
  - apply Hnull.
  - apply Hbool.
  - apply Hnum.
  - apply Hstr.
  - apply Harr. induction l as [|x l IHl]; constructor; [apply IH|apply IHl].
  - apply Hobj. induction fields as [|[k v] fields IHf]; constructor; [apply IH|apply IHf].
Qed.

(** [obj\[key\]] on an object literal: the last binding of a key wins. *)
Fixpoint get_field (fields : list (string * Json)) (key : string) : option Json :=
  match fields with
  | [] => None
  | (k, v) :: fields =>
      match get_field fields key with
      | Some w => Some w
      | None => if decide (k = key) then Some v else None
      end
  end.

(** [v === text] for a value that may be undefined. *)
Definition isText (v : option Json) (text : string) : bool :=
  match v with Some (JString s) => bool_decide (s = text) | _ => false end.

(** [JSON.parse(JSON.stringify(v))]: numbers that are not finite become
    [null], everything else is copied. *)
Fixpoint json_copy (j : Json) : Json :=
  match j with
  | JNumber NNaN | JNumber (NInfinity _) => JNull
  | JArray l => JArray (json_copy <$> l)
  | JObject fields => JObject ((λ f, (f.1, json_copy f.2)) <$> fields)
  | _ => j
  end.

(** Documents every number of which is finite, as parsed JSON text has. *)
Fixpoint json_finite (j : Json) : bool :=
  match j with
  | JNumber NNaN | JNumber (NInfinity _) => false
  | JArray l => forallb json_finite l
  | JObject fields => forallb (λ f, json_finite f.2) fields
  | _ => true
  end.

Lemma json_copy_finite j : json_finite j = true → json_copy j = j.
Proof.
  induction j as [| |n| |l IH|fields IH] using Json_ind_nested; simpl; try done.
  - by destruct n.
  - intros Hl. f_equal. induction IH as [|x l Hx _ IHl]; csimpl in *; [done|].
    apply andb_prop in Hl as [? ?]. by rewrite Hx, IHl.
  - intros Hl. f_equal. induction IH as [|[k x] l Hx _ IHl]; csimpl in *; [done|].
    apply andb_prop in Hl as [? ?]. by rewrite Hx, IHl.
Qed.

Lemma json_copy_idemp j : json_copy (json_copy j) = json_copy j.
Proof.
  induction j as [| |n| |l IH|fields IH] using Json_ind_nested; simpl; try done.
  - by destruct n.
  - f_equal. induction IH as [|x l Hx _ IHl]; csimpl; [done|]. by rewrite Hx, IHl.
  - f_equal. induction IH as [|x l Hx _ IHl]; csimpl; [done|]. by rewrite Hx, IHl.
Qed.

(** ** String methods *)

Definition startsWith (p s : string) : bool := String.prefix p s.

(** [s.slice(n)] for [0 <= n]. *)
Fixpoint slice (n : nat) (s : string) : string :=
  match n, s with
  | O, _ => s
  | S n, EmptyString => EmptyString
  | S n, String _ s => slice n s
  end.

Definition endsWith (p s : string) : bool :=
  (String.length p <=? String.length s)%nat &&
  String.eqb (slice (String.length s - String.length p) s) p.

(** [s.includes(p)] *)
Fixpoint includes (p s : string) : bool :=
  startsWith p s || match s with EmptyString => false | String _ s => includes p s end.

(** White space and line terminators of ECMAScript below 256. *)
Definition is_white (c : ascii) : bool :=
  let n := Ascii.nat_of_ascii c in
  (9 <=? n)%nat && (n <=? 13)%nat || (n =? 32)%nat || (n =? 160)%nat.

Fixpoint trim_start (s : string) : string :=
  match s with
  | String c s' => if is_white c then trim_start s' else s
  | EmptyString => EmptyString
  end.

(** [s.trimEnd()]: a character is dropped when only white space follows. *)
Fixpoint trim_end (s : string) : string :=
  match s with
  | EmptyString => EmptyString
  | String c s' =>
      match trim_end s' with
      | EmptyString => if is_white c then EmptyString else String c EmptyString
      | t => String c t
      end
  end.

Definition trim (s : string) : string := trim_end (trim_start s).

(** [s.toLowerCase()] on ASCII letters. *)
Definition lower (c : ascii) : ascii :=
  let n := Ascii.nat_of_ascii c in
  if ((65 <=? n)%nat && (n <=? 90)%nat) then Ascii.ascii_of_nat (n + 32) else c.

Fixpoint toLowerCase (s : string) : string :=
  match s with
  | EmptyString => EmptyString
  | String c s => String (lower c) (toLowerCase s)
  end.

(** [l.join(sep)] *)
Definition join (sep : string) (l : list string) : string := String.concat sep l.

(** [every char satisfies p], the shape of the character-class patterns. *)
Fixpoint all_chars (p : ascii → bool) (s : string) : bool :=
  match s with
  | EmptyString => true
  | String c s => p c && all_chars p s
  end.

Lemma all_chars_app p s t : all_chars p (s +:+ t) = all_chars p s && all_chars p t.
Proof. induction s as [|c s IH]; [done|]. simpl. rewrite <-andb_assoc. f_equal. exact IH. Qed.

Definition is_digit (c : ascii) : bool :=
  let n := Ascii.nat_of_ascii c in (48 <=? n)%nat && (n <=? 57)%nat.
Definition is_lower_letter (c : ascii) : bool :=
  let n := Ascii.nat_of_ascii c in (97 <=? n)%nat && (n <=? 122)%nat.
Definition is_upper_letter (c : ascii) : bool :=
  let n := Ascii.nat_of_ascii c in (65 <=? n)%nat && (n <=? 90)%nat.

(** Whether a character occurs in a string. *)
Fixpoint has_char (c : ascii) (s : string) : bool :=
  match s with
  | EmptyString => false
  | String d s => bool_decide (c = d) || has_char c s
  end.

Lemma has_char_app c s t : has_char c (s +:+ t) = has_char c s || has_char c t.
Proof. induction s as [|d s IH]; simpl; [done|]. by rewrite IH, orb_assoc. Qed.

Lemma string_length_app (s t : string) : String.length (s +:+ t) = String.length s + String.length t.
Proof. induction s as [|c s IH]; [done|]. change (S (String.length (s +:+ t)) = S (String.length s) + String.length t). by rewrite IH. Qed.

(** Two strings cut at the first occurrence of the same separator agree on
    both sides: the fact behind every composite key of the program. *)
Lemma separated_inj (c : ascii) (s1 s2 t1 t2 : string) :
  has_char c s1 = false → has_char c s2 = false →
  s1 +:+ String c t1 = s2 +:+ String c t2 → s1 = s2 ∧ t1 = t2.
Proof.
  revert s2. induction s1 as [|d s1 IH]; intros [|e s2]; simpl; intros H1 H2 Heq;
    simplify_eq/=; try done.
  - by rewrite bool_decide_eq_true_2 in H2.
  - by rewrite bool_decide_eq_true_2 in H1.
  - apply orb_false_iff in H1 as [_ ?]. apply orb_false_iff in H2 as [_ ?].
    destruct (IH s2) as [-> ->]; done.
Qed.
