(* ===== verification/Numbers.v ===== *)
(** * Numbers and their texts

    [Number(text)], the conversion the configuration readers and the
    forms rely on: the literal is read as an exact rational and rounded to
    the nearest double, ties to even. [String(n)], the shortest decimal text
    that is read as the number. The sign of zero is not observed. *)

From stdpp Require Import pretty.
From S2P Require Import Prelude Js.

Open Scope Z_scope.

(** ** Doubles *)

(** The quotient rounded to the nearest integer, ties to even. *)
Definition round_div (n d : Z) : Z :=
  let q := n / d in
  let r := n mod d in
  if decide (2 * r < d) then q
  else if decide (d < 2 * r) then q + 1
  else if Z.even q then q else q + 1.

(** A rational as the number it is. *)
Definition rational (n : Z) (d : positive) : jsnumber :=
  let g := Z.gcd n (Zpos d) in
  match Zpos d / g with
  | Zpos 1 => NInt (n / g)
  | Zpos d' => NFrac (n / g) d'
  | _ => NNaN
  end.

(** The exponent of the double next to a positive rational: its significand
    is below [2^53], and the least exponent is that of the subnormals. *)
Definition double_exponent (n : Z) (d : positive) : Z :=
  let e := Z.log2 n - Z.log2 (Zpos d) - 53 in
  let '(n', d') := if decide (0 <= e + 53) then (n, Zpos d * 2 ^ (e + 53)) else (n * 2 ^ (- (e + 53)), Zpos d) in
  Z.max (-1074) (if decide (d' <= n') then e + 1 else e).

Definition positive_double (n : Z) (d : positive) : jsnumber :=
  let e := double_exponent n d in
  if decide (0 <= e) then
    let value := round_div n (Zpos d * 2 ^ e) * 2 ^ e in
    if decide (2 ^ 1024 <= value) then NInfinity false else NInt value
  else rational (round_div (n * 2 ^ (- e)) (Zpos d)) (Z.to_pos (2 ^ (- e))).

Definition negate (n : jsnumber) : jsnumber :=
  match n with
  | NInt z => NInt (- z)
  | NFrac num den => NFrac (- num) den
  | NNaN => NNaN
  | NInfinity negative => NInfinity (negb negative)
  end.

(** ** Numeric literals *)

Definition digit_of (c : ascii) : Z := Z.of_nat (Ascii.nat_of_ascii c) - 48.

(** The value of a digit in a radix up to 16. *)
Definition radix_digit (radix : Z) (c : ascii) : option Z :=
  let v := if is_digit c then Some (digit_of c)
           else if is_lower_letter c then Some (digit_of c - 39)
           else if is_upper_letter c then Some (digit_of c - 7)
           else None in
  match v with
  | Some v => if decide (v < radix) then Some v else None
  | None => None
  end.

(** All of a string as digits of a radix. *)
Fixpoint digits_value (radix acc : Z) (s : string) : option Z :=
  match s with
  | EmptyString => Some acc
  | String c s => match radix_digit radix c with
                  | Some v => digits_value radix (acc * radix + v) s
                  | None => None
                  end
  end.

(** The leading digits of a string, and the rest. *)
Fixpoint span_digits (s : string) : string * string :=
  match s with
  | EmptyString => ("", "")
  | String c s' => if is_digit c then let '(digits, rest) := span_digits s' in (String c digits, rest) else ("", s)
  end.

Definition natural (s : string) : Z := default 0 (digits_value 10 0 s).

Definition scaled (mantissa exponent : Z) : jsnumber :=
  if decide (mantissa = 0) then NInt 0
  else if decide (0 <= exponent) then positive_double (mantissa * 10 ^ exponent) 1
  else positive_double mantissa (Z.to_pos (10 ^ (- exponent))).

(** [ExponentPart], or nothing. *)
Definition exponent_part (s : string) : option Z :=
  match s with
  | EmptyString => Some 0
  | String c s' =>
      if decide (c = "e"%char ∨ c = "E"%char) then
        let '(negative, digits) := match s' with
                                   | String "-" t => (true, t)
                                   | String "+" t => (false, t)
                                   | t => (false, t)
                                   end in
        if decide (digits = "") then None
        else if all_chars is_digit digits then Some (if negative then - natural digits else natural digits)
        else None
      else None
  end.

(** [StrUnsignedDecimalLiteral] *)
Definition unsigned_decimal (s : string) : option jsnumber :=
  if decide (s = "Infinity") then Some (NInfinity false) else
  let '(whole, rest) := span_digits s in
  let '(fraction, rest') := match rest with
                            | String "." t => span_digits t
                            | t => ("", t)
                            end in
  if decide (whole = "" ∧ fraction = "") then None
  else match exponent_part rest' with
       | Some e => Some (scaled (natural (whole +:+ fraction)) (e - Z.of_nat (String.length fraction)))
       | None => None
       end.

(** [NonDecimalIntegerLiteral] after its prefix. *)
Definition radix_literal (radix : Z) (s : string) : jsnumber :=
  if decide (s = "") then NNaN
  else match digits_value radix 0 s with
       | Some 0 => NInt 0
       | Some n => positive_double n 1
       | None => NNaN
       end.

(** [Number(s)] *)
Definition Number (text : string) : jsnumber :=
  match trim text with
  | EmptyString => NInt 0
  | String "0" (String ("x" | "X") s) => radix_literal 16 s
  | String "0" (String ("o" | "O") s) => radix_literal 8 s
  | String "0" (String ("b" | "B") s) => radix_literal 2 s
  | String "-" s => default NNaN (negate <$> unsigned_decimal s)
  | String "+" s => default NNaN (unsigned_decimal s)
  | s => default NNaN (unsigned_decimal s)
  end.

Example Number_examples :
  Number "3010" = NInt 3010 ∧ Number " 12 " = NInt 12 ∧ Number "" = NInt 0 ∧ Number "1e3" = NInt 1000 ∧
  Number "0x10" = NInt 16 ∧ Number "1.5" = NFrac 3 2 ∧ Number ".5e1" = NInt 5 ∧ Number "12a" = NNaN ∧
  Number "-" = NNaN ∧ Number "1e400" = NInfinity false ∧ Number "9007199254740993" = NInt 9007199254740992 ∧
  Number "0.1" = NFrac 3602879701896397 36028797018963968 ∧ Number "1e-400" = NInt 0 ∧ Number "65535.0" = NInt 65535 ∧
  Number "-7" = NInt (-7) ∧ Number "5e-324" = rational 1 (Z.to_pos (2 ^ 1074)) ∧ Number "1_000" = NNaN ∧ Number "." = NNaN.
Proof. vm_compute. repeat split. Qed.

(** ** What decimal text means *)

(** One case per member of an explicit list. *)
#[local] Ltac each_member H tac :=
  repeat (apply elem_of_cons in H as [->|H]; [tac|]); by apply elem_of_nil in H.

Lemma digit_cases c : is_digit c = true →
  c ∈ ["0"; "1"; "2"; "3"; "4"; "5"; "6"; "7"; "8"; "9"]%char.
Proof.
  destruct c as [[] [] [] [] [] [] [] []]; intros H; vm_compute in H; try discriminate H;
    apply (bool_decide_unpack _); vm_compute; exact I.
Qed.

Lemma digit_plain c : is_digit c = true → is_white c = false.
Proof. intros H%digit_cases. each_member H ltac:(reflexivity). Qed.

Lemma trim_digits s : all_chars is_digit s = true → trim s = s.
Proof.
  intros Hs. unfold trim.
  assert (trim_start s = s) as ->.
  { destruct s as [|c s]; [done|]. simpl in *. apply andb_prop in Hs as [Hc _]. by rewrite digit_plain. }
  induction s as [|c s IH]; [done|]. simpl in *. apply andb_prop in Hs as [Hc Hs].
  rewrite IH by done. destruct s; [by rewrite digit_plain|done].
Qed.

Lemma span_all_digits s : all_chars is_digit s = true → span_digits s = (s, "").
Proof. induction s as [|c s IH]; simpl; [done|]. intros [-> Hs]%andb_prop. by rewrite IH. Qed.

Lemma string_app_nil (s : string) : s +:+ "" = s.
Proof. induction s as [|c s IH]; [done|]. change (String c (s +:+ "") = String c s). by rewrite IH. Qed.

Lemma unsigned_digits s : s ≠ "" → all_chars is_digit s = true → unsigned_decimal s = Some (scaled (natural s) 0).
Proof.
  intros Hne Hs. unfold unsigned_decimal. rewrite decide_False by (intros ->; discriminate Hs).
  rewrite span_all_digits by done. rewrite decide_False by (by intros [? _]).
  simpl. by rewrite string_app_nil.
Qed.

Lemma Number_digits s : s ≠ "" → all_chars is_digit s = true → Number s = scaled (natural s) 0.
Proof.
  intros Hne Hs. pose proof (unsigned_digits s Hne Hs) as Hu. unfold Number. rewrite trim_digits by done.
  destruct s as [|c s]; [done|]. simpl in Hs. apply andb_prop in Hs as [Hc Hs].
  apply digit_cases, elem_of_cons in Hc as [->|Hc]; [|each_member Hc ltac:(by rewrite Hu)].
  destruct s as [|c s]; [by rewrite Hu|]. simpl in Hs. apply andb_prop in Hs as [Hc _].
  apply digit_cases in Hc. each_member Hc ltac:(by rewrite Hu).
Qed.

Lemma round_div_1 n : round_div n 1 = n.
Proof. unfold round_div. rewrite Z.div_1_r, Z.mod_1_r. by rewrite decide_True. Qed.

(** Integers up to [2^53] are doubles. *)
Lemma double_integer n : 0 < n <= 2 ^ 53 → positive_double n 1 = NInt n.
Proof.
  intros [Hpos Hle]. pose proof (Z.log2_spec n Hpos) as [Hlow Hhigh].
  assert (Z.log2 n <= 53) as Hlog by (rewrite <-(Z.log2_pow2 53) by done; by apply Z.log2_le_mono).
  pose proof (Z.log2_nonneg n) as Hlog0.
  assert (double_exponent n 1 = Z.log2 n - 52) as He.
  { unfold double_exponent. change (Z.log2 1) with 0.
    replace (Z.log2 n - 0 - 53 + 53) with (Z.log2 n) by lia. rewrite decide_True by done.
    rewrite decide_True by lia. lia. }
  unfold positive_double. rewrite He. destruct (decide (0 <= Z.log2 n - 52)) as [Hge|Hlt].
  - destruct (decide (n = 2 ^ 53)) as [->|Hn]; [vm_compute; reflexivity|].
    assert (Z.log2 n < 53) by (apply Z.log2_lt_pow2; lia).
    replace (Z.log2 n - 52) with 0 by lia. rewrite Z.pow_0_r, !Z.mul_1_r, round_div_1.
    rewrite decide_False; [done|]. apply Z.lt_nge. apply Z.le_lt_trans with (2 ^ 53); [done|]. vm_compute. reflexivity.
  - set (k := - (Z.log2 n - 52)). assert (0 < k) by lia.
    rewrite round_div_1. assert (0 < 2 ^ k) by (apply Z.pow_pos_nonneg; lia).
    unfold rational. rewrite Z2Pos.id by done.
    assert (Z.gcd (n * 2 ^ k) (2 ^ k) = 2 ^ k) as ->.
    { rewrite Z.gcd_comm. apply Z.divide_gcd_iff; [lia|]. by exists n. }
    rewrite Z_div_same by lia. f_equal. apply Z_div_mult. lia.
Qed.

Lemma digits_value_pretty x s : digits_value 10 0 (pretty_N_go x s) = digits_value 10 (Z.of_N x) s.
Proof.
  revert s. induction (N.lt_wf_0 x) as [x _ IH]. intros s. destruct (decide (0 < x)%N) as [Hx|Hx].
  - rewrite pretty_N_go_step by done. rewrite IH by (apply N.div_lt; lia). simpl.
    pose proof (N.mod_lt x 10 ltac:(done)) as Hm. pose proof (N.div_mod x 10 ltac:(done)) as Hd.
    set (q := (x / 10)%N) in *. set (r := (x mod 10)%N) in *.
    assert (radix_digit 10 (pretty_N_char r) = Some (Z.of_N r)) as ->.
    { clear -Hm. assert (r ∈ [0; 1; 2; 3; 4; 5; 6; 7; 8; 9]%N) as Hr.
      { rewrite !elem_of_cons, elem_of_nil. lia. }
      each_member Hr ltac:(reflexivity). }
    f_equal. lia.
  - assert (x = 0%N) as -> by lia. by rewrite pretty_N_go_0.
Qed.

Lemma pretty_go_digits x s : all_chars is_digit (pretty_N_go x s) = all_chars is_digit s.
Proof.
  revert s. induction (N.lt_wf_0 x) as [x _ IH]. intros s. destruct (decide (0 < x)%N) as [Hx|Hx].
  - rewrite pretty_N_go_step by done. rewrite IH by (apply N.div_lt; lia). simpl.
    pose proof (N.mod_lt x 10 ltac:(done)) as Hm. set (r := (x mod 10)%N) in *.
    assert (r ∈ [0; 1; 2; 3; 4; 5; 6; 7; 8; 9]%N) as Hr by (rewrite !elem_of_cons, elem_of_nil; lia).
    each_member Hr ltac:(reflexivity).
  - assert (x = 0%N) as -> by lia. by rewrite pretty_N_go_0.
Qed.

(** A natural number in decimal is read as itself, up to [2^53]. *)
Lemma Number_pretty (n : N) : (n <= 2 ^ 53)%N → Number (pretty n) = NInt (Z.of_N n).
Proof.
  intros Hn. destruct (decide (n = 0%N)) as [->|Hz]; [reflexivity|].
  assert (pretty n = pretty_N_go n "") as Hp by (unfold pretty, pretty_N; by rewrite decide_False).
  assert (all_chars is_digit (pretty n) = true) as Hd by (by rewrite Hp, pretty_go_digits).
  rewrite Number_digits; [|intros Heq|done].
  - unfold scaled, natural. rewrite Hp, digits_value_pretty. simpl. rewrite decide_False by lia.
    rewrite Z.mul_1_r. apply double_integer. change (2 ^ 53) with (Z.of_N (2 ^ 53)). lia.
  - rewrite Hp in Heq. pose proof (digits_value_pretty n "") as Hv. rewrite Heq in Hv. simpl in Hv. injection Hv. lia.
Qed.

(** ** [String(n)] *)

(** The position of the decimal point of a positive rational: the least [n]
    with [num/den < 10^n]. *)
Definition point_position (num : Z) (den : positive) : Z :=
  let digits z := Z.of_nat (String.length (pretty (Z.to_N z))) in
  if decide (Zpos den <= num) then digits (num / Zpos den)
  else 1 - digits ((Zpos den + num - 1) / num - 1).

Definition zeros (n : Z) : string := String.concat "" (repeat "0" (Z.to_nat n)).

(** A decimal significand and exponent as the number they denote. *)
Definition decimal (s e : Z) : jsnumber := scaled s e.

(** The significand of [k] digits that denotes the number, nearest first. *)
Definition significand (num : Z) (den : positive) (n k : Z) : option Z :=
  let '(a, b) := if decide (0 <= k - n) then (num * 10 ^ (k - n), Zpos den) else (num, Zpos den * 10 ^ (n - k)) in
  let low := a / b in
  let candidates := if decide (2 * (a mod b) <= b) then [low; low + 1] else [low + 1; low] in
  head (filter (λ s, decimal s (n - k) = rational num den) candidates).

(** The shortest significand, of at most 17 digits. *)
Definition shortest (num : Z) (den : positive) (n : Z) : Z * Z :=
  default (0, 1) (head (omap (λ k, (λ s, (s, k)) <$> significand num den n k) (Z.of_nat <$> seq 1 17))).

Definition digits_at (s : string) (k n : Z) : string :=
  if decide (k <= n <= 21) then s +:+ zeros (n - k)
  else if decide (0 < n <= 21) then String.substring 0 (Z.to_nat n) s +:+ "." +:+ String.substring (Z.to_nat n) (Z.to_nat (k - n)) s
  else if decide (-6 < n <= 0) then "0." +:+ zeros (- n) +:+ s
  else
    let exponent := (if decide (n - 1 < 0) then "e-" else "e+") +:+ pretty (Z.to_N (Z.abs (n - 1))) in
    if decide (k = 1) then s +:+ exponent
    else String.substring 0 1 s +:+ "." +:+ String.substring 1 (Z.to_nat (k - 1)) s +:+ exponent.

Definition positive_string (num : Z) (den : positive) : string :=
  let n := point_position num den in
  let '(s, k) := shortest num den n in
  if decide (s = 10 ^ k) then digits_at (pretty (Z.to_N (10 ^ (k - 1)))) k (n + 1)
  else digits_at (pretty (Z.to_N s)) k n.

Definition numberToString (v : jsnumber) : string :=
  match v with
  | NNaN => "NaN"
  | NInfinity negative => if negative then "-Infinity" else "Infinity"
  | NInt z => if decide (z = 0) then "0"
              else if decide (z < 0) then "-" +:+ positive_string (- z) 1 else positive_string z 1
  | NFrac num den => if decide (num < 0) then "-" +:+ positive_string (- num) den else positive_string num den
  end.

Example numberToString_examples :
  (numberToString ∘ Number <$> ["0"; "-0"; "15"; "007"; "1.5"; "0.1"; "-3"; "1e21"; "123456789012345680000"; "1e-6"; "1e-7";
     "5e-324"; "1.7976931348623157e308"; "4.35"; "9007199254740993"; "0.30000000000000004"; "123.456e-10"; ""; "x"; "100"; "2e22"; "1e23"; "9.5"]) =
    ["0"; "0"; "15"; "7"; "1.5"; "0.1"; "-3"; "1e+21"; "123456789012345680000"; "0.000001"; "1e-7";
     "5e-324"; "1.7976931348623157e+308"; "4.35"; "9007199254740992"; "0.30000000000000004"; "1.23456e-8"; "0"; "NaN"; "100"; "2e+22"; "1e+23"; "9.5"].
Proof. vm_compute. reflexivity. Qed.

(** *** Integers are written in digits, and read back *)

Lemma pretty_go_length x s j : (x < 10 ^ N.of_nat j)%N → (String.length (pretty_N_go x s) <= j + String.length s)%nat.
Proof.
  revert x s. induction j as [|j IH]; intros x s Hx.
  - change (10 ^ N.of_nat 0)%N with 1%N in Hx. assert (x = 0%N) as -> by lia. by rewrite pretty_N_go_0.
  - destruct (decide (0 < x)%N) as [Hpos|Hz]; [|assert (x = 0%N) as -> by lia; rewrite pretty_N_go_0; lia].
    rewrite pretty_N_go_step by done. etransitivity; [apply IH|simpl; lia].
    rewrite Nat2N.inj_succ, N.pow_succ_r' in Hx. apply N.Div0.div_lt_upper_bound. lia.
Qed.

Lemma pretty_length (n : N) j : (0 < n < 10 ^ N.of_nat j)%N → (1 <= String.length (pretty n) <= j)%nat.
Proof.
  intros [Hpos Hlt]. assert (pretty n = pretty_N_go n "") as -> by (unfold pretty, pretty_N; rewrite decide_False by lia; done).
  split; [|pose proof (pretty_go_length n "" j Hlt); simpl in *; lia].
  destruct (pretty_N_go n "") eqn:E; [|simpl; lia]. pose proof (digits_value_pretty n "") as Hv. rewrite E in Hv. simpl in Hv.
  injection Hv. lia.
Qed.

Lemma zeros_succ m : 0 <= m → zeros (m + 1) = String "0" (zeros m).
Proof.
  intros Hm. unfold zeros. rewrite Z2Nat.inj_add by lia. change (Z.to_nat 1) with 1%nat. rewrite Nat.add_1_r. simpl.
  by destruct (Z.to_nat m).
Qed.

Lemma digits_value_zeros m acc : 0 <= m → digits_value 10 acc (zeros m) = Some (acc * 10 ^ m).
Proof.
  intros Hm. revert acc. pattern m. apply natlike_ind; [|clear m Hm; intros m Hm IH acc|done].
  - intros acc. simpl. f_equal. lia.
  - unfold Z.succ. rewrite zeros_succ by done. simpl. rewrite Z.add_0_r, IH. f_equal. rewrite Z.pow_add_r by lia. lia.
Qed.

Lemma zeros_digits m : 0 <= m → all_chars is_digit (zeros m) = true.
Proof.
  intros Hm. pattern m. apply natlike_ind; [done| |done]. clear m Hm. intros m Hm IH. unfold Z.succ. by rewrite zeros_succ.
Qed.

Lemma digits_value_app a acc s t : digits_value 10 acc s = Some a → digits_value 10 acc (s +:+ t) = digits_value 10 a t.
Proof.
  revert acc. induction s as [|c s IH]; intros acc; simpl; [by intros [= ->]|].
  destruct (radix_digit 10 c); [apply IH|done].
Qed.

(** A positive integer and zeros behind it. *)
Lemma Number_with_zeros s m : 0 < s → 0 <= m → Number (pretty (Z.to_N s) +:+ zeros m) = scaled (s * 10 ^ m) 0.
Proof.
  intros Hs Hm. assert (pretty (Z.to_N s) = pretty_N_go (Z.to_N s) "") as Hp by (unfold pretty, pretty_N; by rewrite decide_False by lia).
  assert (digits_value 10 0 (pretty (Z.to_N s)) = Some s) as Hv by (rewrite Hp, digits_value_pretty; simpl; f_equal; lia).
  rewrite Number_digits.
  - unfold natural. rewrite (digits_value_app s) by done. by rewrite digits_value_zeros.
  - intros Heq. destruct (pretty (Z.to_N s)); [|done]. simpl in Hv. injection Hv. lia.
  - rewrite all_chars_app, zeros_digits by done. rewrite Hp, pretty_go_digits. done.
Qed.

Lemma head_omap_split {A B} (f : A → option B) l1 x l2 y : f x = Some y →
  ∃ x' y', head (omap f (l1 ++ x :: l2)) = Some y' ∧ f x' = Some y' ∧ x' ∈ l1 ++ [x].
Proof.
  intros Hx. induction l1 as [|a l1 IH]; simpl.
  - exists x, y. rewrite Hx. split_and!; [done..|by left].
  - destruct (f a) as [b|] eqn:Ha; [exists a, b; split_and!; [done..|by left]|].
    destruct IH as (x' & y' & ? & ? & ?). exists x', y'. split_and!; [done..|by right].
Qed.

(** The shortest text of an integer has no more digits than the integer, and
    what it denotes is the integer. *)
Lemma shortest_integer z N : 0 < z <= 2 ^ 53 → 1 <= N <= 17 →
  ∃ s k, shortest z 1 N = (s, k) ∧ 1 <= k <= N ∧ 0 < s ∧ decimal s (N - k) = NInt z.
Proof.
  intros Hz HN.
  assert (rational z 1 = NInt z) as Hr by (unfold rational; rewrite Z.gcd_1_r; simpl; by rewrite Z.div_1_r).
  assert (∀ s k, significand z 1 N k = Some s → 0 < s ∧ decimal s (N - k) = NInt z) as Hsig.
  { intros s k. unfold significand. assert (∀ p : Z * Z, 0 <= p.1 → 0 <= p.2 → (let '(a, b) := p in
      let low := a / b in
      let candidates := if decide (2 * (a mod b) <= b) then [low; low + 1] else [low + 1; low] in
      head (filter (λ s, decimal s (N - k) = rational z 1) candidates)) = Some s → 0 < s ∧ decimal s (N - k) = NInt z) as Hgo.
    { intros [a b] Ha Hb Hh. simpl in Ha, Hb. apply head_elem_of, list_elem_of_filter in Hh as [Hd Hs]. rewrite Hr in Hd. split; [|done].
      pose proof (Z.div_pos a b) as Hq. destruct (decide (b = 0)) as [->|Hb0]; [rewrite Z.div_0_r in Hs|];
        (assert (0 <= s) by (case_decide; set_solver by lia));
        (assert (s ≠ 0) by (intros ->; injection Hd; lia)); lia. }
    apply Hgo; case_decide; simpl; try apply Z.mul_nonneg_nonneg; try apply Z.pow_nonneg; lia. }
  assert (significand z 1 N N = Some z) as HN'.
  { unfold significand. rewrite Z.sub_diag. rewrite decide_True by done. rewrite Z.pow_0_r, Z.mul_1_r, Z.div_1_r, Z.mod_1_r.
    rewrite decide_True by done. rewrite filter_cons_True; [done|]. rewrite Hr. unfold decimal, scaled.
    rewrite decide_False by lia. rewrite decide_True by done. rewrite Z.pow_0_r, Z.mul_1_r. by apply double_integer. }
  assert (Z.of_nat <$> seq 1 17 = (Z.of_nat <$> seq 1 (Z.to_nat N - 1)) ++ N :: (Z.of_nat <$> seq (S (Z.to_nat N)) (17 - Z.to_nat N))) as Hseq.
  { replace 17%nat with ((Z.to_nat N - 1) + S (17 - Z.to_nat N))%nat at 1 by lia. rewrite seq_app, fmap_app. f_equal.
    replace (1 + (Z.to_nat N - 1))%nat with (Z.to_nat N) by lia. simpl. f_equal. lia. }
  unfold shortest. rewrite Hseq.
  destruct (head_omap_split (λ k, (λ s, (s, k)) <$> significand z 1 N k) (Z.of_nat <$> seq 1 (Z.to_nat N - 1)) N
    (Z.of_nat <$> seq (S (Z.to_nat N)) (17 - Z.to_nat N)) (z, N)) as (k & [s k'] & Hhead & Hk & Hin); [by rewrite HN'|].
  rewrite Hhead. apply fmap_Some in Hk as (s' & Hs' & [= -> ->]). exists s', k. split; [done|].
  destruct (Hsig _ _ Hs') as [? ?]. split; [|done]. apply elem_of_app in Hin as [Hin| ->%list_elem_of_singleton]; [|lia].
  apply list_elem_of_fmap in Hin as (i & -> & Hi%elem_of_seq). lia.
Qed.

(** [Number(String(n))] is [n], for the natural numbers up to [2^53]. *)
Theorem Number_String z : 0 <= z <= 2 ^ 53 → Number (numberToString (NInt z)) = NInt z.
Proof.
  intros Hz. destruct (decide (z = 0)) as [->|Hz0]; [reflexivity|]. unfold numberToString.
  rewrite decide_False by done. rewrite decide_False by lia. unfold positive_string, point_position.
  rewrite decide_True by lia. rewrite Z.div_1_r. cbv zeta.
  assert (1 <= String.length (pretty (Z.to_N z)) <= 17)%nat as HN.
  { apply pretty_length. change (10 ^ N.of_nat 17)%N with 100000000000000000%N. change (2 ^ 53) with 9007199254740992 in Hz. lia. }
  set (N := Z.of_nat (String.length (pretty (Z.to_N z)))).
  destruct (shortest_integer z N) as (s & k & -> & Hk & Hs & Hd); [lia|lia|].
  assert (∀ s' m, 0 < s' → 0 <= m → s' * 10 ^ m = s * 10 ^ (N - k) → Number (pretty (Z.to_N s') +:+ zeros m) = NInt z) as Hread.
  { intros s' m Hs' Hm Heq. rewrite Number_with_zeros by done. rewrite Heq, <-Hd. unfold decimal, scaled.
    rewrite !(decide_False (P := _ = 0)) by (try apply Z.neq_mul_0; try split; try apply Z.pow_nonzero; lia).
    rewrite !decide_True by lia. by rewrite Z.pow_0_r, Z.mul_1_r. }
  case_decide as Hround; unfold digits_at; rewrite decide_True by lia; apply Hread; try lia.
  rewrite Hround, <-!Z.pow_add_r by lia. f_equal. lia.
Qed.
