(* ===== verification/Contracts.v ===== *)
(** * The contract data model

    The records of [packages/contracts/src/generated] with the enumerations
    of [packages/database/src/schema/enums.ts], the request documents of
    [packages/contracts/src/api/pipelines.ts], their validators, and the
    exceptions the packages throw. *)

From S2P Require Import Prelude Js.

(** ** Enumerations *)

Module PipelineState.
Inductive t := draft | enabled | disabled.
#[global] Instance t_eq_dec : EqDecision t.
Proof. solve_decision. Defined.
End PipelineState.

Module RunState.
Inductive t :=
  | queued | running | succeeded | completed_with_warnings | failed | cancelled.
#[global] Instance t_eq_dec : EqDecision t.
Proof. solve_decision. Defined.
End RunState.

Module JobState.
Inductive t := queued | running | succeeded | failed | cancelled.
#[global] Instance t_eq_dec : EqDecision t.
Proof. solve_decision. Defined.
End JobState.

Module ComponentKind.
Inductive t := source | transform | export.
#[global] Instance t_eq_dec : EqDecision t.
Proof. solve_decision. Defined.
End ComponentKind.

Module DataFamily.
Inductive t := any | document | tabular | file.
#[global] Instance t_eq_dec : EqDecision t.
Proof. solve_decision. Defined.
End DataFamily.

Module StorageKind.
Inductive t := local | s3.
#[global] Instance t_eq_dec : EqDecision t.
Proof. solve_decision. Defined.
End StorageKind.

Module OperationalEventKind.
Inductive t :=
  | run_queued | run_started | run_succeeded | run_completed_with_warnings
  | run_failed | run_cancelled
  | step_queued | step_started | step_succeeded | step_completed_with_warnings
  | step_failed | step_cancelled
  | job_claimed | job_retried.
#[global] Instance t_eq_dec : EqDecision t.
Proof. solve_decision. Defined.
End OperationalEventKind.

Module ConfigFieldType.
Inductive t := text | textarea | number | boolean | select | json | file.
#[global] Instance t_eq_dec : EqDecision t.
Proof. solve_decision. Defined.
End ConfigFieldType.

Module FieldWidth.
Inductive t := short | medium | full.
#[global] Instance t_eq_dec : EqDecision t.
Proof. solve_decision. Defined.
End FieldWidth.

(** Which run states release the lock of their pipeline. *)
Definition terminalRunStates : list RunState.t :=
  [RunState.succeeded; RunState.completed_with_warnings; RunState.failed; RunState.cancelled].
Definition activeRunStates : list RunState.t := [RunState.queued; RunState.running].

Lemma run_state_partition s : s ∈ activeRunStates ↔ s ∉ terminalRunStates.
Proof.
  unfold activeRunStates, terminalRunStates.
  rewrite !elem_of_cons, !elem_of_nil. destruct s; naive_solver.
Qed.

(** ** Pipelines *)

Record SecretBinding := { binding_key : string; binding_binding : string }.

Record ComponentConfiguration := {
  values : list (string * Json);
  secretBindings : list SecretBinding }.

Record PipelineStep := {
  step_id : string;
  step_kind : ComponentKind.t;
  componentType : string;
  componentVersion : string;
  configuration : ComponentConfiguration }.

Record PipelineEdge := { fromStepId : string; toStepId : string }.

#[export] Instance PipelineEdge_eq_dec : EqDecision PipelineEdge.
Proof. solve_decision. Defined.

Inductive Trigger :=
  | ManualTrigger (id pipelineId : string) (enabled : bool)
  | ScheduleTrigger (id pipelineId : string) (enabled : bool) (cron timezone : string).

Record Pipeline := {
  contractVersion : string;
  pipeline_id : string;
  ownerUserId : string;
  pipeline_name : string;
  pipeline_state : PipelineState.t;
  createdAt : Z;
  updatedAt : Z;
  steps : list PipelineStep;
  edges : list PipelineEdge;
  triggers : list Trigger }.

(** ** Component metadata *)

Record ConfigOption := { option_value : string; option_labelKey : string }.

Record ConfigField := {
  field_key : string;
  field_type : ConfigFieldType.t;
  labelKey : string;
  field_required : bool;
  field_secret : bool;
  field_descriptionKey : option string;
  placeholderKey : option string;
  field_width : option FieldWidth.t;
  defaultValue : option Json;
  options : option (list ConfigOption) }.

Record ComponentMetadata := {
  meta_kind : ComponentKind.t;
  meta_type : string;
  meta_version : string;
  displayNameKey : string;
  descriptionKey : string;
  configFields : list ConfigField;
  inputFamilies : list DataFamily.t;
  outputFamilies : list DataFamily.t }.

(** ** Requests *)

Inductive WritablePipelineTrigger :=
  | WritableManual (enabled : bool)
  | WritableSchedule (cron : string) (enabled : bool) (timezone : string).

Record PipelineCreateRequest := {
  create_contractVersion : string;
  create_edges : list PipelineEdge;
  create_name : string;
  create_steps : list PipelineStep;
  create_triggers : list WritablePipelineTrigger }.

(** An absent field is [None]. *)
Record PipelineUpdateRequest := {
  update_edges : option (list PipelineEdge);
  update_name : option string;
  update_state : option PipelineState.t;
  update_steps : option (list PipelineStep);
  update_triggers : option (list WritablePipelineTrigger) }.

(** ** Violations and exceptions *)

Inductive PipelineExecutableViolation :=
  | missing_source
  | multiple_sources (stepIds : list string)
  | missing_export
  | multiple_exports (stepIds : list string)
  | branching_step (stepId : string)
  | disconnected_step (stepId : string)
  | unavailable_component (stepId componentType componentVersion : string)
  | missing_config_value (stepId configKey : string)
  | missing_secret_binding (stepId configKey : string)
  | incompatible_adjacent_steps (upstreamStepId downstreamStepId reason : string).

#[export] Instance PipelineExecutableViolation_eq_dec : EqDecision PipelineExecutableViolation.
Proof. solve_decision. Defined.

Inductive PipelineActionConflictReason := locked | not_enabled | not_executable | not_found.

Inductive PipelineRunEnqueueConflictReason := run_not_enabled | run_not_found.

(** What the scheduler service may answer the control plane with. *)
Inductive SchedulerConflictCode :=
  | scheduler_pipeline_locked | scheduler_pipeline_not_enabled | scheduler_pipeline_not_found.

(** One component capability: a type and a version. *)
Record Capability := { capability_type : string; capability_version : string }.

#[export] Instance Capability_eq_dec : EqDecision Capability.
Proof. solve_decision. Defined.

(** Why a first-run credential change is refused. *)
Inductive AdminSetupRejection :=
  already_completed | email_in_use | invalid_email | reused_default_password | weak_password.

(** The exceptions of the packages, by their class, with the fields a
    handler can observe. [JsError] is a plain [Error], [ZodError] a failed
    [schema.parse], [DatabaseError] a constraint PostgreSQL enforces. *)
Inductive exn :=
  | JsError (message : string)
  | ZodError
  | DatabaseError (constraint : string)
  | PipelineStateTransitionError (message : string)
  | IncompatiblePipelineComponentsError (message : string)
  | PipelineNotExecutableError (violations : list PipelineExecutableViolation)
  | UnavailablePipelineCapabilityError (missingCapabilities : list Capability)
  | InvalidPipelineTopologyError (message : string)
  | PipelineActionConflictError (reason : PipelineActionConflictReason) (message : string)
      (violations : option (list PipelineExecutableViolation))
  | PipelineRunEnqueueConflictError (reason : PipelineRunEnqueueConflictReason) (message : string)
  | PipelineSchedulerConflictError (code : SchedulerConflictCode)
  | PipelineDeletionLockedError
  | PipelineDeletionHasRunHistoryError
  | AdminSetupError (reason : AdminSetupRejection).

(** Code that throws without touching shared state. *)
Abbreviation result := (outcome exn).
