(* ===== verification/StateMachine.v ===== *)
(** * The pipeline execution state machine

    [packages/pipeline/src/state-machine.ts]: one active run and a FIFO
    backlog per pipeline, with the availability state next to them. *)

From S2P Require Import Prelude Js Contracts.

(** ** State *)

(** [state: "queued" | "running"] of an active run. *)
Inductive ActivePhase := active_queued | active_running.

#[export] Instance ActivePhase_eq_dec : EqDecision ActivePhase.
Proof. solve_decision. Defined.

Record ActivePipelineRun := {
  active_id : string;
  active_state : ActivePhase;
  cancellationRequested : bool }.

Record PipelineExecutionState := {
  pipelineState : PipelineState.t;
  activeRun : option ActivePipelineRun;
  queuedRunIds : list string }.

(** ** Operations *)

Definition createPipelineExecutionState (pipelineState : PipelineState.t) : PipelineExecutionState :=
  {| pipelineState := pipelineState; activeRun := None; queuedRunIds := [] |}.

Definition isPipelineEditable (state : PipelineExecutionState) : bool :=
  match activeRun state with None => true | Some _ => false end.

Definition assertPipelineEditable (state : PipelineExecutionState) : result unit :=
  if isPipelineEditable state then Ok ()
  else Throw (PipelineStateTransitionError
    "Pipeline configuration is locked while a run is queued or active.").

Definition setPipelineState (state : PipelineExecutionState) (next : PipelineState.t) :
    result PipelineExecutionState :=
  assertPipelineEditable state;;
  Ok {| pipelineState := next; activeRun := activeRun state;
        queuedRunIds := queuedRunIds state |}.

Definition containsRun (state : PipelineExecutionState) (runId : string) : bool :=
  bool_decide (active_id <$> activeRun state = Some runId) ||
  bool_decide (runId ∈ queuedRunIds state).

Definition assertPipelineCanRun (state : PipelineExecutionState) : result unit :=
  if decide (pipelineState state = PipelineState.enabled) then Ok ()
  else Throw (PipelineStateTransitionError
    "Only an enabled pipeline can be queued for execution. Review and enable this pipeline first.").

Definition queuedActiveRun (runId : string) : ActivePipelineRun :=
  {| active_id := runId; active_state := active_queued; cancellationRequested := false |}.

Definition enqueuePipelineRun (state : PipelineExecutionState) (runId : string) :
    result PipelineExecutionState :=
  assertPipelineCanRun state;;
  if decide (String.length runId = 0) then
    Throw (PipelineStateTransitionError "A pipeline run requires an identifier.")
  else if containsRun state runId then
    Throw (PipelineStateTransitionError "A run cannot be queued more than once.")
  else match activeRun state with
  | None =>
      Ok {| pipelineState := pipelineState state;
            activeRun := Some (queuedActiveRun runId);
            queuedRunIds := queuedRunIds state |}
  | Some run =>
      Ok {| pipelineState := pipelineState state; activeRun := Some run;
            queuedRunIds := queuedRunIds state ++ [runId] |}
  end.

Definition requireActiveRun (state : PipelineExecutionState) : result ActivePipelineRun :=
  match activeRun state with
  | None => Throw (PipelineStateTransitionError "The pipeline has no active run.")
  | Some run => Ok run
  end.

Definition startActiveRun (state : PipelineExecutionState) : result PipelineExecutionState :=
  run ← requireActiveRun state;
  if decide (active_state run ≠ active_queued) then
    Throw (PipelineStateTransitionError "Only a queued run can begin execution.")
  else if cancellationRequested run then
    Throw (PipelineStateTransitionError "A cancelled run cannot begin execution.")
  else Ok {| pipelineState := pipelineState state;
             activeRun := Some {| active_id := active_id run;
                                  active_state := active_running;
                                  cancellationRequested := cancellationRequested run |};
             queuedRunIds := queuedRunIds state |}.

Definition requestActiveRunCancellation (state : PipelineExecutionState) :
    result PipelineExecutionState :=
  run ← requireActiveRun state;
  if cancellationRequested run then
    Throw (PipelineStateTransitionError "Cancellation has already been requested.")
  else Ok {| pipelineState := pipelineState state;
             activeRun := Some {| active_id := active_id run;
                                  active_state := active_state run;
                                  cancellationRequested := true |};
             queuedRunIds := queuedRunIds state |}.

Definition isTerminalRunState (state : RunState.t) : bool :=
  bool_decide (state ≠ RunState.queued) && bool_decide (state ≠ RunState.running).

(** [!nextRunId] is true of an absent and of an empty identifier. *)
Definition completeActiveRun (state : PipelineExecutionState) (terminalState : RunState.t) :
    result PipelineExecutionState :=
  requireActiveRun state;;
  if negb (isTerminalRunState terminalState) then
    Throw (PipelineStateTransitionError "Only a terminal run state can release a pipeline.")
  else match queuedRunIds state with
  | [] | EmptyString :: _ =>
      Ok {| pipelineState := pipelineState state; activeRun := None; queuedRunIds := [] |}
  | nextRunId :: remainingRunIds =>
      Ok {| pipelineState := pipelineState state;
            activeRun := Some (queuedActiveRun nextRunId);
            queuedRunIds := remainingRunIds |}
  end.

(** ** Steps and reachability *)

Inductive Event :=
  | SetState (next : PipelineState.t)
  | Enqueue (runId : string)
  | Start
  | Cancel
  | Complete (terminalState : RunState.t).

Definition apply_event (state : PipelineExecutionState) (e : Event) :
    result PipelineExecutionState :=
  match e with
  | SetState next => setPipelineState state next
  | Enqueue runId => enqueuePipelineRun state runId
  | Start => startActiveRun state
  | Cancel => requestActiveRunCancellation state
  | Complete terminalState => completeActiveRun state terminalState
  end.

(** A transition is an operation that returned. *)
Inductive step : PipelineExecutionState → Event → PipelineExecutionState → Prop :=
  | step_event state e state' : apply_event state e = Ok state' → step state e state'.

Inductive steps_to : PipelineExecutionState → list Event → PipelineExecutionState → Prop :=
  | steps_nil state : steps_to state [] state
  | steps_cons s1 e s2 es s3 : step s1 e s2 → steps_to s2 es s3 → steps_to s1 (e :: es) s3.

Definition reachable (state : PipelineExecutionState) : Prop :=
  ∃ initial es, steps_to (createPipelineExecutionState initial) es state.

(** ** The abstract queue *)

(** The runs the pipeline still owes, oldest first. *)
Definition pending (state : PipelineExecutionState) : list string :=
  option_list (active_id <$> activeRun state) ++ queuedRunIds state.

Record wf (state : PipelineExecutionState) : Prop := {
  wf_idle : activeRun state = None → queuedRunIds state = [];
  wf_nodup : NoDup (pending state);
  wf_nonempty : "" ∉ pending state }.

(** What the machine promises: availability and a FIFO queue of runs. *)
Record Queue := { available : PipelineState.t; owed : list string }.

Definition abstract (state : PipelineExecutionState) : Queue :=
  {| available := pipelineState state; owed := pending state |}.

Definition queue_event (q : Queue) (e : Event) : option Queue :=
  match e with
  | SetState next =>
      if decide (owed q = []) then Some {| available := next; owed := [] |} else None
  | Enqueue runId =>
      if decide (available q = PipelineState.enabled ∧ runId ≠ "" ∧ runId ∉ owed q)
      then Some {| available := available q; owed := owed q ++ [runId] |} else None
  | Start | Cancel => if decide (owed q = []) then None else Some q
  | Complete terminalState =>
      match owed q with
      | [] => None
      | _ :: rest =>
          if decide (terminalState ∈ terminalRunStates)
          then Some {| available := available q; owed := rest |} else None
      end
  end.

Fixpoint queue_events (q : Queue) (es : list Event) : option Queue :=
  match es with
  | [] => Some q
  | e :: es => q' ← queue_event q e; queue_events q' es
  end.

(** ** Lemmas *)

Lemma isTerminalRunState_spec s :
  isTerminalRunState s = bool_decide (s ∈ terminalRunStates).
Proof. by destruct s. Qed.

Lemma containsRun_spec state runId :
  containsRun state runId = bool_decide (runId ∈ pending state).
Proof.
  unfold containsRun, pending. rewrite <-bool_decide_or. apply bool_decide_ext.
  destruct (activeRun state) as [run|]; simpl.
  - rewrite elem_of_cons. naive_solver.
  - naive_solver.
Qed.

Lemma pending_nil state : wf state → pending state = [] ↔ activeRun state = None.
Proof.
  intros [Hidle _ _]. unfold pending. destruct (activeRun state) as [run|]; simpl.
  - split; done.
  - rewrite Hidle by done. done.
Qed.

Lemma length_zero_iff_empty (s : string) : String.length s = 0 ↔ s = "".
Proof. by destruct s. Qed.

Lemma create_wf initial : wf (createPipelineExecutionState initial).
Proof. split; [done|apply NoDup_nil_2|apply not_elem_of_nil]. Qed.

Lemma setPipelineState_ok state next state' :
  setPipelineState state next = Ok state' ↔
  activeRun state = None ∧
  state' = {| pipelineState := next; activeRun := None; queuedRunIds := queuedRunIds state |}.
Proof.
  unfold setPipelineState, assertPipelineEditable, isPipelineEditable.
  destruct (activeRun state) as [run|]; simpl; naive_solver.
Qed.

Lemma enqueue_ok state runId state' :
  enqueuePipelineRun state runId = Ok state' →
  pipelineState state = PipelineState.enabled ∧ runId ≠ "" ∧ runId ∉ pending state ∧
  pipelineState state' = pipelineState state ∧
  match activeRun state with
  | None => activeRun state' = Some (queuedActiveRun runId) ∧
            queuedRunIds state' = queuedRunIds state
  | Some run => activeRun state' = Some run ∧ queuedRunIds state' = queuedRunIds state ++ [runId]
  end.
Proof.
  unfold enqueuePipelineRun, assertPipelineCanRun.
  destruct (decide (pipelineState state = _)); simpl; [|done].
  case_decide as Hlen; [done|].
  rewrite length_zero_iff_empty in Hlen. rewrite containsRun_spec.
  case_bool_decide; [done|]. destruct (activeRun state); naive_solver.
Qed.

Lemma enqueue_pending state runId state' :
  wf state → enqueuePipelineRun state runId = Ok state' →
  pending state' = pending state ++ [runId].
Proof.
  intros Hwf (_ & _ & _ & _ & Hrun)%enqueue_ok. unfold pending.
  destruct (activeRun state) as [run|] eqn:E; destruct Hrun as [-> ->]; simpl; [done|].
  by rewrite (wf_idle _ Hwf).
Qed.

Lemma startActiveRun_ok state state' :
  startActiveRun state = Ok state' →
  ∃ run, activeRun state = Some run ∧ active_state run = active_queued ∧
    cancellationRequested run = false ∧
    state' = {| pipelineState := pipelineState state;
                activeRun := Some {| active_id := active_id run; active_state := active_running;
                                     cancellationRequested := false |};
                queuedRunIds := queuedRunIds state |}.
Proof.
  unfold startActiveRun, requireActiveRun. destruct (activeRun state) as [run|]; simpl; [|done].
  case_decide as Hq; [done|].
  destruct (cancellationRequested run) eqn:Hc; [done|]. naive_solver.
Qed.

Lemma cancel_ok state state' :
  requestActiveRunCancellation state = Ok state' →
  ∃ run, activeRun state = Some run ∧ cancellationRequested run = false ∧
    state' = {| pipelineState := pipelineState state;
                activeRun := Some {| active_id := active_id run; active_state := active_state run;
                                     cancellationRequested := true |};
                queuedRunIds := queuedRunIds state |}.
Proof.
  unfold requestActiveRunCancellation, requireActiveRun.
  destruct (activeRun state) as [run|]; simpl; [|done].
  destruct (cancellationRequested run) eqn:Hc; [done|]. naive_solver.
Qed.

(** Completion pops the oldest run and promotes the next one. *)
Lemma complete_ok state terminalState state' :
  wf state → completeActiveRun state terminalState = Ok state' →
  terminalState ∈ terminalRunStates ∧ pipelineState state' = pipelineState state ∧
  (∃ runId, pending state = runId :: pending state') ∧
  activeRun state' = queuedActiveRun <$> head (queuedRunIds state) ∧
  queuedRunIds state' = tail (queuedRunIds state).
Proof.
  intros Hwf. unfold completeActiveRun, requireActiveRun.
  destruct (activeRun state) as [run|] eqn:Ha; simpl; [|done].
  rewrite isTerminalRunState_spec. case_bool_decide as Ht; simpl; [|done].
  assert (pending state = active_id run :: queuedRunIds state) as Hp
    by (unfold pending; by rewrite Ha).
  pose proof (wf_nonempty _ Hwf) as Hne. rewrite Hp in Hne |- *.
  destruct (queuedRunIds state) as [|[|c r] rest]; simpl.
  - intros [= <-]. naive_solver.
  - exfalso. apply Hne. right. left.
  - intros [= <-]. naive_solver.
Qed.

Lemma complete_enabled state terminalState :
  activeRun state ≠ None → terminalState ∈ terminalRunStates →
  is_ok (completeActiveRun state terminalState) = true.
Proof.
  intros Ha Ht. unfold completeActiveRun, requireActiveRun.
  destruct (activeRun state) as [run|]; [simpl|done].
  rewrite isTerminalRunState_spec, bool_decide_eq_true_2 by done. simpl. by case_all.
Qed.

(** Every operation preserves well-formedness. *)
Lemma apply_event_wf state e state' :
  wf state → apply_event state e = Ok state' → wf state'.
Proof.
  intros Hwf. destruct e as [next|runId| | |ts]; simpl.
  - intros [Ha ->]%setPipelineState_ok. pose proof (wf_idle _ Hwf Ha) as Hq.
    split; unfold pending; simpl; rewrite Hq; [done|apply NoDup_nil_2|apply not_elem_of_nil].
  - intros He. pose proof (enqueue_pending _ _ _ Hwf He) as Hp.
    apply enqueue_ok in He as (_ & Hne & Hni & _ & Hrun). split.
    + intros Ha. destruct (activeRun state); naive_solver.
    + rewrite Hp. apply NoDup_snoc. split; [done|apply Hwf].
    + rewrite Hp, elem_of_snoc. intros [?|?]; [by apply (wf_nonempty _ Hwf)|done].
  - intros (run & Ha & _ & _ & ->)%startActiveRun_ok. destruct Hwf as [Hi Hn He].
    unfold pending in *. rewrite Ha in *. by split.
  - intros (run & Ha & _ & ->)%cancel_ok. destruct Hwf as [Hi Hn He].
    unfold pending in *. rewrite Ha in *. by split.
  - intros Hc. apply (complete_ok _ _ _ Hwf) in Hc as (_ & _ & [r Hp] & Ha & Hq).
    destruct Hwf as [_ Hn He]. rewrite Hp in Hn, He.
    apply NoDup_cons in Hn as [_ Hn]. rewrite not_elem_of_cons in He. split; [|done|naive_solver].
    rewrite Ha, Hq. by destruct (queuedRunIds state); intros [=].
Qed.

Lemma step_iff s e s' : step s e s' ↔ apply_event s e = Ok s'.
Proof. split; [by intros [? ? ? ?]|by constructor]. Qed.

Lemma steps_to_wf state es state' : wf state → steps_to state es state' → wf state'.
Proof.
  intros Hwf Hs. induction Hs as [|s1 e s2 es s3 He%step_iff _ IH]; [done|].
  by apply IH, (apply_event_wf s1 e).
Qed.

Lemma event_refines_queue state e state' :
  wf state → apply_event state e = Ok state' →
  queue_event (abstract state) e = Some (abstract state').
Proof.
  intros Hwf. unfold abstract, queue_event. destruct e as [next|runId| | |ts]; simpl.
  - intros [Ha ->]%setPipelineState_ok. pose proof (wf_idle _ Hwf Ha) as Hq.
    rewrite decide_True by (by apply pending_nil). unfold pending. simpl. by rewrite Hq.
  - intros He. pose proof (enqueue_pending _ _ _ Hwf He) as ->.
    apply enqueue_ok in He as (? & ? & ? & -> & _). by rewrite decide_True.
  - intros (run & Ha & _ & _ & ->)%startActiveRun_ok. unfold pending. by rewrite Ha.
  - intros (run & Ha & _ & ->)%cancel_ok. unfold pending. by rewrite Ha.
  - intros Hc. apply (complete_ok _ _ _ Hwf) in Hc as (Ht & -> & [r ->] & _).
    by rewrite decide_True.
Qed.

(** Conversely an event of the queue that is not about the phase of the
    active run is never rejected by the machine. *)
Lemma queue_event_enabled state e :
  wf state → e ≠ Start → e ≠ Cancel → queue_event (abstract state) e ≠ None →
  is_ok (apply_event state e) = true.
Proof.
  intros Hwf Hs Hc. unfold abstract, queue_event. destruct e as [next|runId| | |ts]; simpl; try done.
  - case_decide as Hp; [|done]. intros _. apply (pending_nil _ Hwf) in Hp.
    unfold setPipelineState, assertPipelineEditable, isPipelineEditable. by rewrite Hp.
  - case_decide as Hp; [|done]. intros _. destruct Hp as (He & Hne & Hni).
    unfold enqueuePipelineRun, assertPipelineCanRun. destruct (decide (pipelineState state = _)); [simpl|done].
    rewrite decide_False by (by rewrite length_zero_iff_empty).
    rewrite containsRun_spec, bool_decide_eq_false_2 by done. by case_match.
  - destruct (pending state) as [|r rest] eqn:Hp; [done|]. case_decide; [|done]. intros _.
    apply complete_enabled; [|done]. intros Ha%(pending_nil _ Hwf). congruence.
Qed.

(** Releasing the pipeline [n] times. *)
Fixpoint drain (n : nat) (state : PipelineExecutionState) : result PipelineExecutionState :=
  match n with
  | O => Ok state
  | S n => state' ← completeActiveRun state RunState.succeeded; drain n state'
  end.

Lemma drain_pending n state :
  wf state → n ≤ length (pending state) →
  ∃ state', drain n state = Ok state' ∧ wf state' ∧ pending state' = drop n (pending state).
Proof.
  revert state. induction n as [|n IH]; intros state Hwf Hn; simpl; [by eauto|].
  assert (activeRun state ≠ None) as Ha.
  { intros Ha%(pending_nil _ Hwf). rewrite Ha in Hn. simpl in Hn. lia. }
  pose proof (complete_enabled state RunState.succeeded Ha) as He.
  destruct (completeActiveRun state RunState.succeeded) as [s1|] eqn:Hc; simpl; cycle 1.
  { exfalso. by specialize (He ltac:(left)). }
  pose proof (apply_event_wf state (Complete RunState.succeeded) s1 Hwf Hc) as Hwf1.
  apply (complete_ok _ _ _ Hwf) in Hc as (_ & _ & [r Hp] & _).
  rewrite Hp in Hn |- *. simpl in *. apply IH; [done|lia].
Qed.

Lemma pending_head state r rest :
  wf state → pending state = r :: rest →
  ∃ run, activeRun state = Some run ∧ active_id run = r.
Proof.
  intros Hwf Hp. unfold pending in Hp. destruct (activeRun state) as [run|] eqn:Ha.
  - exists run. simpl in Hp. split; congruence.
  - rewrite (wf_idle _ Hwf Ha) in Hp. done.
Qed.

(** ** Properties *)

(** In every state a pipeline can reach, no run is queued twice, the
    backlog is empty while no run is active, and no identifier is empty. *)
Theorem reachable_wf state : reachable state → wf state.
Proof. intros (initial & es & Hs). eapply steps_to_wf; [apply create_wf|exact Hs]. Qed.

(** C28: the machine refines a FIFO queue of runs: every trace of operations
    from a fresh pipeline is a trace of the abstract queue, ending in the
    queue the state represents. *)
Theorem machine_refines_queue initial es state :
  steps_to (createPipelineExecutionState initial) es state →
  queue_events {| available := initial; owed := [] |} es = Some (abstract state).
Proof.
  change {| available := initial; owed := [] |}
    with (abstract (createPipelineExecutionState initial)).
  generalize (create_wf initial). generalize (createPipelineExecutionState initial).
  intros s0 Hwf Hs. induction Hs as [s|s1 e s2 es s3 [? ? ? He] _ IH]; simpl; [done|].
  rewrite (event_refines_queue _ _ _ Hwf He). simpl. apply IH. by eapply apply_event_wf.
Qed.

(** C38: every queued run gets its turn, in order: [k] completions of a
    reachable pipeline succeed as long as it owes more than [k] runs and make
    the [k]-th owed run active; completing them all leaves it editable. *)
Theorem owed_runs_become_active state k :
  reachable state → k ≤ length (pending state) →
  ∃ state', drain k state = Ok state' ∧
    (active_id <$> activeRun state') = pending state !! k ∧
    (k = length (pending state) → isPipelineEditable state' = true).
Proof.
  intros (initial & es & Hs) Hk.
  assert (wf state) as Hwf by (eapply steps_to_wf; [apply create_wf|exact Hs]).
  destruct (drain_pending k state Hwf Hk) as (s' & Hd & Hwf' & Hp).
  exists s'. split; [done|]. rewrite <-(Nat.add_0_r k), <-lookup_drop, Nat.add_0_r, <-Hp.
  split.
  - destruct (pending s') as [|r rest] eqn:E.
    + apply (pending_nil _ Hwf') in E. by rewrite E.
    + by destruct (pending_head _ _ _ Hwf' E) as (run & -> & <-).
  - intros ->. rewrite drop_all in Hp. apply (pending_nil _ Hwf') in Hp.
    unfold isPipelineEditable. by rewrite Hp.
Qed.

(** Configuration changes are accepted exactly while nothing is owed,
    and enqueueing exactly for an enabled pipeline and a new, non-empty
    identifier; a rejected operation throws and returns no state. *)
Theorem operations_guarded state e :
  wf state → e ≠ Start → e ≠ Cancel →
  is_ok (apply_event state e) = bool_decide (queue_event (abstract state) e ≠ None).
Proof.
  intros Hwf Hs Hc. case_bool_decide as Hq.
  - by apply queue_event_enabled.
  - destruct (apply_event state e) as [s'|] eqn:He; [|done].
    apply (event_refines_queue _ _ _ Hwf) in He. by rewrite He in Hq.
Qed.

(** ** Witnesses *)

Definition example_events : list Event :=
  [SetState PipelineState.enabled; Enqueue "run-a"; Enqueue "run-b"; Start;
   Enqueue "run-c"; Complete RunState.failed].

Definition example_state : PipelineExecutionState :=
  {| pipelineState := PipelineState.enabled; activeRun := Some (queuedActiveRun "run-b");
     queuedRunIds := ["run-c"] |}.

Lemma example_steps :
  steps_to (createPipelineExecutionState PipelineState.draft) example_events example_state.
Proof. unfold example_events. repeat (eapply steps_cons; [apply step_event; reflexivity|]). apply steps_nil. Defined.

Lemma reachable_wf_witness : wf example_state.
Proof. apply reachable_wf. exists PipelineState.draft, example_events. apply example_steps. Defined.

Lemma machine_refines_queue_witness :
  queue_events {| available := PipelineState.draft; owed := [] |} example_events
  = Some {| available := PipelineState.enabled; owed := ["run-b"; "run-c"] |}.
Proof. exact (machine_refines_queue _ _ _ example_steps). Defined.

Lemma owed_runs_become_active_witness :
  ∃ state', drain 1 example_state = Ok state' ∧
    (active_id <$> activeRun state') = Some "run-c" ∧
    (1 = length (pending example_state) → isPipelineEditable state' = true).
Proof.
  apply (owed_runs_become_active example_state 1).
  - exists PipelineState.draft, example_events. apply example_steps.
  - simpl. lia.
Defined.

Lemma operations_guarded_witness :
  is_ok (apply_event (createPipelineExecutionState PipelineState.draft) (Enqueue "run-a")) = false.
Proof.
  rewrite operations_guarded; [reflexivity|apply create_wf|done|done].
Defined.
