(* ===== verification/Topology.v ===== *)
(** * Pipeline topology

    [packages/pipeline/src/topology.ts]: the steps of a pipeline indexed by
    identifier and its edges grouped by either end. *)

From S2P Require Import Prelude Js Contracts.

Record PipelineTopologyInput := {
  input_steps : list PipelineStep;
  input_edges : list PipelineEdge }.

Record PipelineTopology := {
  stepsById : gmap string PipelineStep;
  outgoingEdgesByStepId : gmap string (list PipelineEdge);
  incomingEdgesByStepId : gmap string (list PipelineEdge) }.

(** [existing.push(edge)] extends the list the map holds. *)
Definition addEdge (edgesByStepId : gmap string (list PipelineEdge)) (stepId : string)
    (edge : PipelineEdge) : gmap string (list PipelineEdge) :=
  match edgesByStepId !! stepId with
  | Some existing => <[stepId := existing ++ [edge]]> edgesByStepId
  | None => <[stepId := [edge]]> edgesByStepId
  end.

Definition buildPipelineTopology (pipeline : PipelineTopologyInput) : PipelineTopology :=
  {| stepsById :=
       foldl (λ m step, <[step_id step := step]> m) ∅ (input_steps pipeline);
     outgoingEdgesByStepId :=
       foldl (λ m edge, addEdge m (fromStepId edge) edge) ∅ (input_edges pipeline);
     incomingEdgesByStepId :=
       foldl (λ m edge, addEdge m (toStepId edge) edge) ∅ (input_edges pipeline) |}.

(** [topology.outgoingEdgesByStepId.get(id) ?? \[\]] *)
Definition outgoing (topology : PipelineTopology) (id : string) : list PipelineEdge :=
  default [] (outgoingEdgesByStepId topology !! id).
Definition incoming (topology : PipelineTopology) (id : string) : list PipelineEdge :=
  default [] (incomingEdgesByStepId topology !! id).

(** An edge of the graph joins two identifiers. *)
Definition edge_between (pipeline : PipelineTopologyInput) (u v : string) : Prop :=
  ∃ e, e ∈ input_edges pipeline ∧ fromStepId e = u ∧ toStepId e = v.

(** ** Lemmas *)

(** A non-empty list or nothing: what the grouping maps hold. *)
Definition group (l : list PipelineEdge) : option (list PipelineEdge) :=
  match l with [] => None | _ => Some l end.

Lemma default_group l : default [] (group l) = l.
Proof. by destruct l. Qed.

Lemma addEdge_lookup m id id' e :
  addEdge m id e !! id' =
  if decide (id = id') then Some (default [] (m !! id) ++ [e]) else m !! id'.
Proof.
  unfold addEdge. destruct (m !! id) as [l|] eqn:E; case_decide; subst;
    by rewrite ?lookup_insert_eq, ?lookup_insert_ne by done.
Qed.

Lemma foldl_addEdge (end_of : PipelineEdge → string) (es done_ : list PipelineEdge) m :
  (∀ id, m !! id = group (filter (λ e, end_of e = id) done_)) →
  ∀ id, foldl (λ m e, addEdge m (end_of e) e) m es !! id =
        group (filter (λ e, end_of e = id) (done_ ++ es)).
Proof.
  revert m done_. induction es as [|e es IH]; intros m done_ Hm id; simpl.
  - by rewrite app_nil_r.
  - rewrite (IH _ (done_ ++ [e])), <-(assoc_L (++)); [done|].
    intros id'. rewrite addEdge_lookup, Hm, default_group, filter_app, filter_cons.
    case_decide; simpl; [subst id'|by rewrite app_nil_r, Hm].
    by destruct (filter _ done_).
Qed.

Lemma foldl_insert_lookup {A} (key : A → string) (l : list A) (m : gmap string A) k x :
  foldl (λ m x, <[key x := x]> m) m l !! k = Some x →
  (x ∈ l ∧ key x = k) ∨ m !! k = Some x.
Proof.
  revert m. induction l as [|y l IH]; intros m Hl; simpl in *; [by right|].
  apply IH in Hl as [[? ?]|Hl]; [left; split; [by right|done]|].
  rewrite lookup_insert in Hl. case_decide; [|by right].
  simplify_eq. left. split; [left|done].
Qed.

Lemma foldl_insert_dom {A} (key : A → string) (l : list A) (m : gmap string A) k :
  is_Some (foldl (λ m x, <[key x := x]> m) m l !! k) ↔
  k ∈ key <$> l ∨ is_Some (m !! k).
Proof.
  revert m. induction l as [|y l IH]; intros m; csimpl.
  - rewrite elem_of_nil. naive_solver.
  - rewrite IH, elem_of_cons, lookup_insert. case_decide; naive_solver.
Qed.

Lemma outgoing_build pipeline id :
  outgoing (buildPipelineTopology pipeline) id =
  filter (λ e, fromStepId e = id) (input_edges pipeline).
Proof.
  unfold outgoing, buildPipelineTopology. simpl.
  rewrite (foldl_addEdge fromStepId _ []); [apply default_group|done].
Qed.

Lemma incoming_build pipeline id :
  incoming (buildPipelineTopology pipeline) id =
  filter (λ e, toStepId e = id) (input_edges pipeline).
Proof.
  unfold incoming, buildPipelineTopology. simpl.
  rewrite (foldl_addEdge toStepId _ []); [apply default_group|done].
Qed.

Lemma stepsById_dom pipeline id :
  is_Some (stepsById (buildPipelineTopology pipeline) !! id) ↔
  id ∈ step_id <$> input_steps pipeline.
Proof.
  simpl. rewrite (foldl_insert_dom step_id), lookup_empty.
  split; [intros [?|[? ?]]; done|by left].
Qed.

Lemma stepsById_lookup pipeline id step :
  stepsById (buildPipelineTopology pipeline) !! id = Some step →
  step ∈ input_steps pipeline ∧ step_id step = id.
Proof. simpl. intros [?|?]%(foldl_insert_lookup step_id); [done|by simplify_map_eq]. Qed.

(** ** Property *)

(** The indexes are exactly the graph: an identifier is indexed as a
    step iff a step of the pipeline has it, the step found has it, and the
    edges grouped under an identifier are the edges of that end, in order. *)
Theorem buildPipelineTopology_spec pipeline id :
  let topology := buildPipelineTopology pipeline in
  (is_Some (stepsById topology !! id) ↔ id ∈ step_id <$> input_steps pipeline) ∧
  (∀ step, stepsById topology !! id = Some step →
     step ∈ input_steps pipeline ∧ step_id step = id) ∧
  outgoing topology id = filter (λ e, fromStepId e = id) (input_edges pipeline) ∧
  incoming topology id = filter (λ e, toStepId e = id) (input_edges pipeline).
Proof.
  split_and!; [apply stepsById_dom|apply stepsById_lookup|apply outgoing_build|apply incoming_build].
Qed.
