(* ===== verification/Compatibility.v ===== *)
(** * Component compatibility

    [packages/pipeline/src/compatibility.ts]: which data families can flow
    from one component to the next. *)

From S2P Require Import Prelude Js Contracts.

Record ComponentCompatibilityResult := {
  compatible : bool;
  compatibleFamilies : list DataFamily.t;
  reason : option string }.

Definition familiesAreCompatible (outputFamily inputFamily : DataFamily.t) : bool :=
  bool_decide (outputFamily = DataFamily.any) ||
  bool_decide (inputFamily = DataFamily.any) ||
  bool_decide (outputFamily = inputFamily).

(** The family that crosses the boundary between two compatible ones. *)
Definition exchangedFamily (outputFamily inputFamily : DataFamily.t) : DataFamily.t :=
  if decide (outputFamily = DataFamily.any) then inputFamily else outputFamily.

Definition supportedFamilies (outputs inputs : list DataFamily.t) : list DataFamily.t :=
  foldl (λ acc outputFamily,
    foldl (λ acc inputFamily,
      if familiesAreCompatible outputFamily inputFamily
      then set_add (exchangedFamily outputFamily inputFamily) acc
      else acc) acc inputs) [] outputs.

Definition incompatible (why : string) : ComponentCompatibilityResult :=
  {| compatible := false; compatibleFamilies := []; reason := Some why |}.

Definition checkComponentCompatibility (upstream downstream : ComponentMetadata) :
    ComponentCompatibilityResult :=
  if decide (meta_kind upstream = ComponentKind.export) then
    incompatible "An Export cannot provide data to another component."
  else if decide (meta_kind downstream = ComponentKind.source) then
    incompatible "A Source cannot consume data from another component."
  else match supportedFamilies (outputFamilies upstream) (inputFamilies downstream) with
  | [] => incompatible ("Component " +:+ meta_type upstream +:+
            " cannot provide a dataset accepted by " +:+ meta_type downstream +:+ ".")
  | families => {| compatible := true; compatibleFamilies := families; reason := None |}
  end.

Definition assertComponentsCompatible (upstream downstream : ComponentMetadata) : result unit :=
  let result := checkComponentCompatibility upstream downstream in
  if compatible result then Ok ()
  else Throw (IncompatiblePipelineComponentsError
         (default "Pipeline components are incompatible." (reason result))).

(** ** Lemmas *)

Section inner.
Context (o : DataFamily.t).
Let inner (acc inputs : list DataFamily.t) :=
  foldl (λ acc i, if familiesAreCompatible o i then set_add (exchangedFamily o i) acc else acc)
    acc inputs.

Lemma inner_NoDup inputs acc : NoDup acc → NoDup (inner acc inputs).
Proof.
  unfold inner. revert acc. induction inputs as [|i inputs IH]; intros acc Ha; simpl; [done|].
  apply IH. case_match; [by apply NoDup_set_add|done].
Qed.

Lemma inner_elem_of f inputs acc :
  f ∈ inner acc inputs ↔
  f ∈ acc ∨ ∃ i, i ∈ inputs ∧ familiesAreCompatible o i = true ∧ f = exchangedFamily o i.
Proof.
  unfold inner. revert acc. induction inputs as [|i inputs IH]; intros acc; simpl.
  - split; [by left|]. intros [?|(? & Hn & _)]; [done|by apply elem_of_nil in Hn].
  - rewrite IH. split.
    + destruct (familiesAreCompatible o i) eqn:E; [rewrite elem_of_set_add|].
      * intros [[->|?]|(j & ? & ? & ?)]; [right; exists i|by left|right; exists j]; set_solver.
      * intros [?|(j & ? & ? & ?)]; [by left|right; exists j]; set_solver.
    + intros [Hf|(j & [->|Hj]%elem_of_cons & Hc & ->)].
      * left. case_match; [by apply elem_of_set_add; right|done].
      * left. rewrite Hc. apply elem_of_set_add. by left.
      * right. eauto.
Qed.
End inner.

Lemma supportedFamilies_elem_of f outputs inputs :
  f ∈ supportedFamilies outputs inputs ↔
  ∃ o i, o ∈ outputs ∧ i ∈ inputs ∧ familiesAreCompatible o i = true ∧ f = exchangedFamily o i.
Proof.
  unfold supportedFamilies.
  assert (∀ acc, f ∈ foldl (λ acc o, foldl (λ acc i, if familiesAreCompatible o i
      then set_add (exchangedFamily o i) acc else acc) acc inputs) acc outputs ↔
    f ∈ acc ∨ ∃ o i, o ∈ outputs ∧ i ∈ inputs ∧ familiesAreCompatible o i = true ∧
      f = exchangedFamily o i) as ->.
  { induction outputs as [|o outputs IH]; intros acc; simpl.
    - split; [by left|]. intros [?|(? & ? & Hn & _)]; [done|by apply elem_of_nil in Hn].
    - rewrite IH, inner_elem_of. split.
      + intros [[?|(i & ? & ? & ?)]|(o' & i & ? & ? & ? & ?)]; [by left| |];
          right; [exists o, i|exists o', i]; set_solver.
      + intros [?|(o' & i & [->|?]%elem_of_cons & ? & ? & ?)]; [by do 2 left| |].
        * left. right. eauto.
        * right. eauto 10. }
  rewrite elem_of_nil. naive_solver.
Qed.

Lemma supportedFamilies_NoDup outputs inputs : NoDup (supportedFamilies outputs inputs).
Proof.
  unfold supportedFamilies. generalize (NoDup_nil_2 (A:=DataFamily.t)).
  generalize (@nil DataFamily.t). induction outputs as [|o outputs IH]; intros acc Ha; simpl; [done|].
  by apply IH, inner_NoDup.
Qed.

Lemma familiesAreCompatible_spec o i :
  familiesAreCompatible o i = true ↔ o = DataFamily.any ∨ i = DataFamily.any ∨ o = i.
Proof.
  unfold familiesAreCompatible. rewrite !orb_true_iff, !bool_decide_eq_true. naive_solver.
Qed.

(** Whether a dataset can flow, said without the loops. *)
Definition can_feed (upstream downstream : ComponentMetadata) : Prop :=
  meta_kind upstream ≠ ComponentKind.export ∧
  meta_kind downstream ≠ ComponentKind.source ∧
  ∃ o i, o ∈ outputFamilies upstream ∧ i ∈ inputFamilies downstream ∧
         (o = DataFamily.any ∨ i = DataFamily.any ∨ o = i).

Lemma compatible_spec upstream downstream :
  compatible (checkComponentCompatibility upstream downstream) = true ↔
  can_feed upstream downstream.
Proof.
  unfold checkComponentCompatibility, can_feed.
  case_decide as Hu; [split; [done|naive_solver]|].
  case_decide as Hd; [split; [done|naive_solver]|].
  destruct (supportedFamilies _ _) as [|f fs] eqn:E; simpl.
  - split; [done|]. intros (_ & _ & o & i & Ho & Hi & Hc%familiesAreCompatible_spec).
    exfalso. apply (not_elem_of_nil (exchangedFamily o i)). rewrite <-E.
    apply supportedFamilies_elem_of. naive_solver.
  - split; [intros _|done]. split_and!; [done|done|].
    assert (f ∈ f :: fs) as Hf by left. rewrite <-E in Hf.
    apply supportedFamilies_elem_of in Hf as (o & i & ? & ? & ?%familiesAreCompatible_spec & _).
    eauto.
Qed.

(** ** Property *)

(** A connection is reported compatible iff the upstream component is no
    Export, the downstream one no Source, and some declared output family
    meets some declared input family ([any] meets all); the families reported
    are exactly the ones that can cross, each once, and a reason is given
    exactly when there is none. [assertComponentsCompatible] agrees. *)
Theorem checkComponentCompatibility_spec upstream downstream :
  let result := checkComponentCompatibility upstream downstream in
  (compatible result = true ↔ can_feed upstream downstream) ∧
  NoDup (compatibleFamilies result) ∧
  (∀ f, f ∈ compatibleFamilies result ↔
     meta_kind upstream ≠ ComponentKind.export ∧ meta_kind downstream ≠ ComponentKind.source ∧
     ∃ o i, o ∈ outputFamilies upstream ∧ i ∈ inputFamilies downstream ∧
       familiesAreCompatible o i = true ∧ f = exchangedFamily o i) ∧
  (reason result = None ↔ can_feed upstream downstream) ∧
  (assertComponentsCompatible upstream downstream = Ok () ↔ can_feed upstream downstream).
Proof.
  cbv zeta. rewrite <-compatible_spec. unfold assertComponentsCompatible, checkComponentCompatibility.
  destruct (decide (meta_kind upstream = _)); simpl.
  { split_and!; try (intros; set_solver); by constructor. }
  destruct (decide (meta_kind downstream = _)); simpl.
  { split_and!; try (intros; set_solver); by constructor. }
  pose proof (supportedFamilies_NoDup (outputFamilies upstream) (inputFamilies downstream)).
  pose proof (λ f, supportedFamilies_elem_of f (outputFamilies upstream) (inputFamilies downstream)) as Hf.
  destruct (supportedFamilies _ _) as [|g gs]; simpl; split_and!; try done.
  - intros f. split; [by intros ?%elem_of_nil|]. intros (_ & _ & ?). by apply Hf.
  - intros f. rewrite Hf. naive_solver.
Qed.
