(* ===== verification/BuilderDraft.v ===== *)
(** * The pipeline builder

    [apps/web/src/components/pipeline]: pipeline-builder-draft.ts (the
    editing state of the wizard and its operations),
    pipeline-builder-graph.ts (the graph a draft stands for),
    pipeline-builder-persistence.ts (requests from a draft and drafts from a
    persisted pipeline) and pipeline-builder-compatibility.ts. The identifier
    [createId()] would return is an argument. *)

From S2P Require Import Prelude Js Contracts Compatibility.

(** ** pipeline-builder-draft.ts *)

Record Selection := {
  selection_id : string;
  metadata : ComponentMetadata;
  selection_secretBindings : list SecretBinding;
  selection_values : list (string * Json) }.

Inductive PipelineBuilderStep := step_source | step_transforms | step_export.

Record PipelineBuilderDraft := {
  dirty : bool;
  draft_export : option Selection;
  draft_name : string;
  draft_source : option Selection;
  transforms : list Selection }.

Definition createEmptyPipelineBuilderDraft : PipelineBuilderDraft :=
  {| dirty := false; draft_export := None; draft_name := ""; draft_source := None; transforms := [] |}.

(** [Partial<Omit<PipelineBuilderDraft, "dirty">>] *)
Record DraftChanges := {
  change_export : option (option Selection);
  change_name : option string;
  change_source : option (option Selection);
  change_transforms : option (list Selection) }.

Definition updatePipelineBuilderDraft (draft : PipelineBuilderDraft) (changes : DraftChanges) :
    PipelineBuilderDraft :=
  {| dirty := true;
     draft_export := default (draft_export draft) (change_export changes);
     draft_name := default (draft_name draft) (change_name changes);
     draft_source := default (draft_source draft) (change_source changes);
     transforms := default (transforms draft) (change_transforms changes) |}.

Definition changing_source (s : Selection) : DraftChanges :=
  {| change_export := None; change_name := None; change_source := Some (Some s); change_transforms := None |}.
Definition changing_export (s : Selection) : DraftChanges :=
  {| change_export := Some (Some s); change_name := None; change_source := None; change_transforms := None |}.
Definition changing_transforms (l : list Selection) : DraftChanges :=
  {| change_export := None; change_name := None; change_source := None; change_transforms := Some l |}.
Definition changing_name (name : string) : DraftChanges :=
  {| change_export := None; change_name := Some name; change_source := None; change_transforms := None |}.

Definition nextPipelineBuilderStep (step : PipelineBuilderStep) : option PipelineBuilderStep :=
  match step with
  | step_source => Some step_transforms
  | step_transforms => Some step_export
  | step_export => None
  end.

Definition previousPipelineBuilderStep (step : PipelineBuilderStep) : option PipelineBuilderStep :=
  match step with
  | step_source => None
  | step_transforms => Some step_source
  | step_export => Some step_transforms
  end.

Definition with_values (v : list (string * Json)) (s : Selection) : Selection :=
  {| selection_id := selection_id s; metadata := metadata s;
     selection_secretBindings := selection_secretBindings s; selection_values := v |}.

Definition nextPipelineBuilderComponentSelection (current : option Selection) (m : ComponentMetadata)
    (newId : string) : Selection :=
  match current with
  | Some s =>
      if decide (meta_type (metadata s) = meta_type m ∧ meta_version (metadata s) = meta_version m)
      then {| selection_id := selection_id s; metadata := m;
              selection_secretBindings := selection_secretBindings s; selection_values := selection_values s |}
      else {| selection_id := selection_id s; metadata := m; selection_secretBindings := []; selection_values := [] |}
  | None => {| selection_id := newId; metadata := m; selection_secretBindings := []; selection_values := [] |}
  end.

Definition setPipelineBuilderSource (draft : PipelineBuilderDraft) (m : ComponentMetadata) (newId : string) :
    PipelineBuilderDraft :=
  updatePipelineBuilderDraft draft
    (changing_source (nextPipelineBuilderComponentSelection (draft_source draft) m newId)).

Definition setPipelineBuilderSourceValues (draft : PipelineBuilderDraft) (v : list (string * Json)) :
    PipelineBuilderDraft :=
  match draft_source draft with
  | None => draft
  | Some s => updatePipelineBuilderDraft draft (changing_source (with_values v s))
  end.

Definition setPipelineBuilderExport (draft : PipelineBuilderDraft) (m : ComponentMetadata) (newId : string) :
    PipelineBuilderDraft :=
  updatePipelineBuilderDraft draft
    (changing_export (nextPipelineBuilderComponentSelection (draft_export draft) m newId)).

Definition setPipelineBuilderExportValues (draft : PipelineBuilderDraft) (v : list (string * Json)) :
    PipelineBuilderDraft :=
  match draft_export draft with
  | None => draft
  | Some s => updatePipelineBuilderDraft draft (changing_export (with_values v s))
  end.

Definition isPipelineBuilderDraftComplete (draft : PipelineBuilderDraft) : bool :=
  bool_decide (is_Some (draft_source draft)) && bool_decide (is_Some (draft_export draft)).

Definition pipelineBuilderChainTail (draft : PipelineBuilderDraft) : option ComponentMetadata :=
  match last (transforms draft) with
  | Some s => Some (metadata s)
  | None => metadata <$> draft_source draft
  end.

Definition markPipelineBuilderDraftSaved (draft : PipelineBuilderDraft) : PipelineBuilderDraft :=
  {| dirty := false; draft_export := draft_export draft; draft_name := draft_name draft;
     draft_source := draft_source draft; transforms := transforms draft |}.

Definition addPipelineBuilderTransform (draft : PipelineBuilderDraft) (m : ComponentMetadata) (newId : string) :
    PipelineBuilderDraft :=
  let transform := {| selection_id := newId; metadata := m; selection_secretBindings := []; selection_values := [] |} in
  updatePipelineBuilderDraft draft (changing_transforms (transforms draft ++ [transform])).

Definition setPipelineBuilderTransformValues (draft : PipelineBuilderDraft) (id : string)
    (v : list (string * Json)) : PipelineBuilderDraft :=
  updatePipelineBuilderDraft draft
    (changing_transforms ((λ s, if decide (selection_id s = id) then with_values v s else s) <$> transforms draft)).

Definition removePipelineBuilderTransform (draft : PipelineBuilderDraft) (id : string) : PipelineBuilderDraft :=
  updatePipelineBuilderDraft draft (changing_transforms (filter (λ s, selection_id s ≠ id) (transforms draft))).

Inductive Direction := up | down.

(** Positions are integers: the one above the first is not a position. *)
Definition movePipelineBuilderTransform (draft : PipelineBuilderDraft) (id : string) (direction : Direction) :
    PipelineBuilderDraft :=
  match fst <$> list_find (λ s, selection_id s = id) (transforms draft) with
  | None => draft
  | Some index =>
      let targetIndex := (match direction with up => Z.of_nat index - 1 | down => Z.of_nat index + 1 end)%Z in
      if decide (targetIndex < 0 ∨ Z.of_nat (length (transforms draft)) ≤ targetIndex)%Z then draft
      else
        let target := Z.to_nat targetIndex in
        match transforms draft !! index, transforms draft !! target with
        | Some moved, Some displaced =>
            updatePipelineBuilderDraft draft (changing_transforms
              (imap (λ position s, if decide (position = index) then displaced
                                   else if decide (position = target) then moved else s) (transforms draft)))
        | _, _ => draft
        end
  end.

(** ** pipeline-builder-graph.ts *)

Definition pipelineStepFromSelection (s : Selection) : PipelineStep :=
  {| step_id := selection_id s; step_kind := meta_kind (metadata s);
     componentType := meta_type (metadata s); componentVersion := meta_version (metadata s);
     configuration := {| values := selection_values s; secretBindings := selection_secretBindings s |} |}.

(** The populated slots in order. *)
Definition selections (draft : PipelineBuilderDraft) : list Selection :=
  omap id ([draft_source draft] ++ (Some <$> transforms draft) ++ [draft_export draft]).

Definition derivePipelineBuilderSteps (draft : PipelineBuilderDraft) : list PipelineStep :=
  pipelineStepFromSelection <$> selections draft.

Definition derivePipelineBuilderEdges (steps : list PipelineStep) : list PipelineEdge :=
  zip_with (λ a b, {| fromStepId := step_id a; toStepId := step_id b |}) steps (tail steps).

Definition derivePipelineBuilderGraph (draft : PipelineBuilderDraft) : list PipelineStep * list PipelineEdge :=
  let steps := derivePipelineBuilderSteps draft in (steps, derivePipelineBuilderEdges steps).

(** ** pipeline-builder-persistence.ts *)

Definition isPipelineBuilderDraftPersistable (draft : PipelineBuilderDraft) : bool :=
  (0 <? String.length (trim (draft_name draft)))%nat &&
  (bool_decide (is_Some (draft_source draft)) || (0 <? length (transforms draft))%nat ||
   bool_decide (is_Some (draft_export draft))).

Definition createPipelineCreateRequestFromDraft (draft : PipelineBuilderDraft) : PipelineCreateRequest :=
  let '(steps, edges) := derivePipelineBuilderGraph draft in
  {| create_contractVersion := "v1"; create_edges := edges;
     create_name := trim (draft_name draft); create_steps := steps;
     create_triggers := [WritableManual false] |}.

Definition createPipelineUpdateRequestFromDraft (draft : PipelineBuilderDraft) : PipelineUpdateRequest :=
  let '(steps, edges) := derivePipelineBuilderGraph draft in
  {| update_edges := Some edges; update_name := Some (trim (draft_name draft));
     update_state := None; update_steps := Some steps; update_triggers := None |}.

(** The loop of [orderStepsByEdges], for as many turns as [fuel] allows:
    [None] when it would go on. *)
Fixpoint follow (fuel : nat) (stepsById : gmap string PipelineStep) (nextIdByStepId : gmap string string)
    (current : option PipelineStep) : option (list PipelineStep) :=
  match current with
  | None => Some []
  | Some step =>
      match fuel with
      | 0 => None
      | S fuel =>
          ordered ← follow fuel stepsById nextIdByStepId
            (nextIdByStepId !! step_id step ≫= λ nextId, stepsById !! nextId);
          Some (step :: ordered)
      end
  end.

Definition orderStepsByEdges (steps : list PipelineStep) (edges : list PipelineEdge) :
    option (list PipelineStep) :=
  if decide (length steps = 0) then Some steps
  else
    let stepsById : gmap string PipelineStep := foldl (λ m step, <[step_id step := step]> m) ∅ steps in
    let nextIdByStepId : gmap string string := foldl (λ m e, <[fromStepId e := toStepId e]> m) ∅ edges in
    let targetIds := toStepId <$> edges in
    match head (filter (λ step, step_id step ∉ targetIds) steps) with
    | None => Some steps
    | Some first => follow (S (length steps)) stepsById nextIdByStepId (Some first)
    end.

Definition selectionOf (resolveMetadata : PipelineStep → option ComponentMetadata) (step : PipelineStep) :
    option Selection :=
  m ← resolveMetadata step;
  Some {| selection_id := step_id step; metadata := m;
          selection_secretBindings := secretBindings (configuration step);
          selection_values := values (configuration step) |}.

Definition ofKind (kind : ComponentKind.t) (l : list Selection) : list Selection :=
  filter (λ s, meta_kind (metadata s) = kind) l.

(** The outer [option] is [None] when the ordering goes on for ever. *)
Definition createPipelineBuilderDraftFromPipeline (pipeline : Pipeline)
    (resolveMetadata : PipelineStep → option ComponentMetadata) : option (option PipelineBuilderDraft) :=
  orderedSteps ← orderStepsByEdges (steps pipeline) (edges pipeline);
  Some (
    chosen ← mapM (selectionOf resolveMetadata) orderedSteps;
    Some {| dirty := false; draft_export := head (ofKind ComponentKind.export chosen);
            draft_name := pipeline_name pipeline;
            draft_source := head (ofKind ComponentKind.source chosen);
            transforms := ofKind ComponentKind.transform chosen |}).

Definition createPipelineBuilderMetadataResolver
    (capabilitiesByKind : ComponentKind.t → option (list ComponentMetadata)) (step : PipelineStep) :
    option ComponentMetadata :=
  components ← capabilitiesByKind (step_kind step);
  head (filter (λ component, meta_type component = componentType step ∧
    meta_version component = componentVersion step) components).

(** ** pipeline-builder-compatibility.ts *)

Record ComponentPickerOptionState := { disabled_option : bool; option_reason : option string }.

Definition createPipelineBuilderCompatibilityResolver (chainTail : option ComponentMetadata)
    (incompatibleReason : string) (component : ComponentMetadata) : ComponentPickerOptionState :=
  match chainTail with
  | None => {| disabled_option := false; option_reason := None |}
  | Some upstream =>
      if compatible (checkComponentCompatibility upstream component)
      then {| disabled_option := false; option_reason := None |}
      else {| disabled_option := true; option_reason := Some incompatibleReason |}
  end.
