(* ===== verification/Executable.v ===== *)
(** * Executable validation

    [packages/pipeline/src/executable-validation.ts]: whether a pipeline is a
    complete Source-to-Export chain the deployment can run. The walk along
    the chain is a [while] loop; its fuel is the number of indexed steps plus
    two, and [walk_loop_total] shows it never runs out. *)

From S2P Require Import Prelude Js Contracts Topology Compatibility.

(** ** Result *)

Inductive PipelineExecutableResult :=
  | executable
  | not_executable_because (violations : list PipelineExecutableViolation).

(** ** Catalog *)

Definition componentKey (type version : string) : string := type +:+ "@" +:+ version.

(** [new Map(entries)]: a later entry replaces an earlier one. *)
Definition indexComponentsByKey (components : list ComponentMetadata) : gmap string ComponentMetadata :=
  foldl (λ m component,
    <[componentKey (meta_type component) (meta_version component) := component]> m) ∅ components.

(** ** Configuration of one step *)

Definition hasConfigValue (values : list (string * Json)) (key : string) : bool :=
  match get_field values key with
  | None | Some JNull => false
  | Some (JString s) => negb (bool_decide (s = ""))
  | Some _ => true
  end.

Definition checkStepConfiguration (step : PipelineStep) (metadata : ComponentMetadata) :
    list PipelineExecutableViolation :=
  let boundSecretKeys := binding_key <$> secretBindings (configuration step) in
  configFields metadata ≫= λ field,
    if negb (field_required field) then []
    else if field_secret field then
      if decide (field_key field ∈ boundSecretKeys) then []
      else [missing_secret_binding (step_id step) (field_key field)]
    else if hasConfigValue (values (configuration step)) (field_key field) then []
    else [missing_config_value (step_id step) (field_key field)].

(** ** The chain walk *)

(** [None] when the fuel runs out. *)
Fixpoint walk_loop (fuel : nat) (topology : PipelineTopology)
    (visitedStepIds : gset string) (currentStepId : option string) : option (list string) :=
  match fuel with
  | O => None
  | S fuel =>
      match currentStepId with
      | None => Some []
      | Some current =>
          if decide (current ∈ visitedStepIds) then Some []
          else
            let next := match outgoing topology current with
                        | [onlyOutgoingEdge] => Some (toStepId onlyOutgoingEdge)
                        | _ => None
                        end in
            chain ← walk_loop fuel topology ({[current]} ∪ visitedStepIds) next;
            Some (current :: chain)
      end
  end.

Definition walkLinearChain (topology : PipelineTopology) (startStepId : string) : list string :=
  default [] (walk_loop (S (S (size (outgoingEdgesByStepId topology)))) topology ∅ (Some startStepId)).

(** ** Connectivity *)

(** One turn of the loop over adjacent chain members. *)
Definition checkAdjacent (metadataByStepId : gmap string ComponentMetadata)
    (chainStepIds : list string) (index : nat) : list PipelineExecutableViolation :=
  match chainStepIds !! index, chainStepIds !! S index with
  | Some upstreamStepId, Some downstreamStepId =>
      match metadataByStepId !! upstreamStepId, metadataByStepId !! downstreamStepId with
      | Some upstreamMetadata, Some downstreamMetadata =>
          let result := checkComponentCompatibility upstreamMetadata downstreamMetadata in
          if compatible result then []
          else [incompatible_adjacent_steps upstreamStepId downstreamStepId
                  (default "Adjacent components are incompatible." (reason result))]
      | _, _ => []
      end
  | _, _ => []
  end.

Definition checkChainConnectivity (pipeline : PipelineTopologyInput) (topology : PipelineTopology)
    (sourceStepId : string) (metadataByStepId : gmap string ComponentMetadata) :
    list PipelineExecutableViolation :=
  let chainStepIds := walkLinearChain topology sourceStepId in
  (input_steps pipeline ≫= λ step,
    if decide (step_id step ∈ chainStepIds) then [] else [disconnected_step (step_id step)]) ++
  (seq 0 (length chainStepIds - 1) ≫= checkAdjacent metadataByStepId chainStepIds).

(** ** The check *)

Definition stepsOfKind (kind : ComponentKind.t) (l : list PipelineStep) : list PipelineStep :=
  filter (λ step, step_kind step = kind) l.

(** One turn of the loop over the steps: the violations so far and the
    metadata resolved so far. *)
Definition checkStep (topology : PipelineTopology) (componentsByKey : gmap string ComponentMetadata)
    (acc : list PipelineExecutableViolation * gmap string ComponentMetadata) (step : PipelineStep) :
    list PipelineExecutableViolation * gmap string ComponentMetadata :=
  let '(violations, metadataByStepId) := acc in
  let outgoingCount := length (outgoing topology (step_id step)) in
  let incomingCount := length (incoming topology (step_id step)) in
  let violations :=
    if decide (1 < outgoingCount ∨ 1 < incomingCount)
    then violations ++ [branching_step (step_id step)] else violations in
  match componentsByKey !! componentKey (componentType step) (componentVersion step) with
  | None => (violations ++ [unavailable_component (step_id step) (componentType step)
                              (componentVersion step)], metadataByStepId)
  | Some metadata => (violations ++ checkStepConfiguration step metadata,
                      <[step_id step := metadata]> metadataByStepId)
  end.

Definition endpointViolations (pipeline : PipelineTopologyInput) : list PipelineExecutableViolation :=
  match stepsOfKind ComponentKind.source (input_steps pipeline) with
  | [] => [missing_source]
  | [_] => []
  | sourceSteps => [multiple_sources (step_id <$> sourceSteps)]
  end ++
  match stepsOfKind ComponentKind.export (input_steps pipeline) with
  | [] => [missing_export]
  | [_] => []
  | exportSteps => [multiple_exports (step_id <$> exportSteps)]
  end.

Definition checkPipelineExecutable (pipeline : PipelineTopologyInput)
    (availableComponents : list ComponentMetadata) : PipelineExecutableResult :=
  let topology := buildPipelineTopology pipeline in
  let componentsByKey := indexComponentsByKey availableComponents in
  let sourceSteps := stepsOfKind ComponentKind.source (input_steps pipeline) in
  let exportSteps := stepsOfKind ComponentKind.export (input_steps pipeline) in
  let '(violations, metadataByStepId) :=
    foldl (checkStep topology componentsByKey) (endpointViolations pipeline, ∅)
      (input_steps pipeline) in
  let violations :=
    match sourceSteps, exportSteps with
    | sourceStep :: _, [_] =>
        violations ++ checkChainConnectivity pipeline topology (step_id sourceStep) metadataByStepId
    | _, _ => violations
    end in
  match violations with
  | [] => executable
  | _ => not_executable_because violations
  end.

Definition assertPipelineExecutable (pipeline : PipelineTopologyInput)
    (availableComponents : list ComponentMetadata) : result unit :=
  match checkPipelineExecutable pipeline availableComponents with
  | executable => Ok ()
  | not_executable_because violations => Throw (PipelineNotExecutableError violations)
  end.

Definition describeViolation (violation : PipelineExecutableViolation) : string :=
  match violation with
  | missing_source => "no Source step"
  | multiple_sources stepIds => "multiple Source steps (" +:+ join ", " stepIds +:+ ")"
  | missing_export => "no Export step"
  | multiple_exports stepIds => "multiple Export steps (" +:+ join ", " stepIds +:+ ")"
  | branching_step stepId =>
      "step " +:+ stepId +:+ " branches instead of forming a linear chain"
  | disconnected_step stepId =>
      "step " +:+ stepId +:+ " is not connected to the Source-to-Export chain"
  | unavailable_component stepId type version =>
      "step " +:+ stepId +:+ " uses unavailable component " +:+ type +:+ "@" +:+ version
  | missing_config_value stepId configKey =>
      "step " +:+ stepId +:+ " is missing required configuration value " +:+ configKey
  | missing_secret_binding stepId configKey =>
      "step " +:+ stepId +:+ " is missing required secret binding " +:+ configKey
  | incompatible_adjacent_steps upstreamStepId downstreamStepId why =>
      upstreamStepId +:+ " -> " +:+ downstreamStepId +:+ ": " +:+ why
  end.

(** ** The walk *)

(** The step a chain member leads to. *)
Definition successor (topology : PipelineTopology) (id : string) : option string :=
  match outgoing topology id with
  | [edge] => Some (toStepId edge)
  | _ => None
  end.

(** The walk as a relation: it stops at a branch, a dead end or a step it
    has visited. *)
Inductive chain (topology : PipelineTopology) :
    gset string → option string → list string → Prop :=
  | chain_end V : chain topology V None []
  | chain_loop V c : c ∈ V → chain topology V (Some c) []
  | chain_cons V c ch :
      c ∉ V → chain topology ({[c]} ∪ V) (successor topology c) ch →
      chain topology V (Some c) (c :: ch).

Section walk.
Context (topology : PipelineTopology).
Implicit Types (V : gset string) (cur : option string) (ch : list string).

Lemma walk_loop_chain fuel V cur ch :
  walk_loop fuel topology V cur = Some ch → chain topology V cur ch.
Proof.
  revert V cur ch. induction fuel as [|fuel IH]; intros V cur ch; simpl; [done|].
  destruct cur as [c|]; [|intros [= <-]; constructor].
  case_decide; [intros [= <-]; by constructor|].
  intros (ch' & Hw & [= <-])%bind_Some. constructor; [done|]. by apply IH.
Qed.

Lemma walk_loop_total fuel V cur :
  size (dom (outgoingEdgesByStepId topology) ∖ V) + 2 ≤ fuel →
  is_Some (walk_loop fuel topology V cur).
Proof.
  revert V cur. induction fuel as [|fuel IH]; intros V cur Hf; [lia|]. simpl.
  destruct cur as [c|]; [|by eexists]. case_decide as Hc; [by eexists|].
  fold (successor topology c).
  destruct (successor topology c) as [v|] eqn:Hs.
  - assert (is_Some (outgoingEdgesByStepId topology !! c)) as Hd.
    { unfold successor, outgoing in Hs. by destruct (outgoingEdgesByStepId topology !! c). }
    apply elem_of_dom in Hd.
    assert (size (dom (outgoingEdgesByStepId topology) ∖ ({[c]} ∪ V)) <
            size (dom (outgoingEdgesByStepId topology) ∖ V)) as Hlt.
    { apply subset_size. set_solver. }
    destruct (IH ({[c]} ∪ V) (Some v)) as [ch Hch]; [lia|].
    exists (c :: ch). by rewrite Hch.
  - destruct fuel as [|fuel]; [lia|]. simpl. by eexists.
Qed.

Lemma walkLinearChain_chain start : chain topology ∅ (Some start) (walkLinearChain topology start).
Proof.
  unfold walkLinearChain. set (fuel := S _).
  assert (is_Some (walk_loop fuel topology ∅ (Some start))) as [ch Hch].
  { apply walk_loop_total. rewrite difference_empty_L, size_dom. unfold fuel. lia. }
  rewrite Hch. by apply walk_loop_chain in Hch.
Qed.

Lemma chain_fresh V cur ch : chain topology V cur ch → ∀ u, u ∈ ch → u ∉ V.
Proof.
  induction 1 as [| |V c ch Hc _ IH]; intros u Hu; [by apply elem_of_nil in Hu..|].
  apply elem_of_cons in Hu as [->|Hu]; [done|]. specialize (IH u Hu). set_solver.
Qed.

Lemma chain_NoDup V cur ch : chain topology V cur ch → NoDup ch.
Proof.
  induction 1 as [| |V c ch Hc Hch IH]; [by constructor..|].
  constructor; [|done]. intros Hin. apply (chain_fresh _ _ _ Hch) in Hin. set_solver.
Qed.

Lemma chain_head V c ch : chain topology V (Some c) ch → c ∉ V → ∃ ch', ch = c :: ch'.
Proof. inversion 1; subst; [done|]. eauto. Qed.

Lemma chain_pair V cur ch i u v :
  chain topology V cur ch → ch !! i = Some u → ch !! S i = Some v →
  successor topology u = Some v.
Proof.
  intros Hch. revert i. induction Hch as [| |V c ch Hc Hch IH]; intros [|i] Hu Hv;
    simplify_eq/=; [|by eauto].
  inversion Hch; by simplify_eq/=.
Qed.

(** A member's successor is a member too, unless it was visited before. *)
Lemma chain_closed V cur ch u v :
  chain topology V cur ch → u ∈ ch → successor topology u = Some v → v ∈ ch ∨ v ∈ V.
Proof.
  induction 1 as [| |V c ch Hc Hch IH]; intros Hu Hv; [by apply elem_of_nil in Hu..|].
  apply elem_of_cons in Hu as [->|Hu].
  - rewrite Hv in Hch. inversion Hch; subst; set_solver.
  - destruct (IH Hu Hv); set_solver.
Qed.

(** Every member but the first follows another member. *)
Lemma chain_pred V c ch v :
  chain topology V (Some c) ch → v ∈ ch → v ≠ c →
  ∃ i u, ch !! i = Some u ∧ ch !! S i = Some v.
Proof.
  intros Hch Hv Hne. apply list_elem_of_lookup in Hv as [[|i] Hi].
  - inversion Hch; by simplify_eq/=.
  - destruct (lookup_lt_is_Some_2 ch i) as [u Hu]; [apply lookup_lt_Some in Hi; lia|].
    eauto.
Qed.
End walk.

(** ** The graph of a pipeline *)

(** Steps are identified and edges join steps: what persistence enforces. *)
Record graph_ok (pipeline : PipelineTopologyInput) : Prop := {
  graph_ids : NoDup (step_id <$> input_steps pipeline);
  graph_from : ∀ e, e ∈ input_edges pipeline → fromStepId e ∈ step_id <$> input_steps pipeline;
  graph_to : ∀ e, e ∈ input_edges pipeline → toStepId e ∈ step_id <$> input_steps pipeline }.

Definition linear (pipeline : PipelineTopologyInput) : Prop :=
  ∀ step, step ∈ input_steps pipeline →
    length (filter (λ e, fromStepId e = step_id step) (input_edges pipeline)) ≤ 1 ∧
    length (filter (λ e, toStepId e = step_id step) (input_edges pipeline)) ≤ 1.

Lemma singleton_filter {A} (P : A → Prop) `{∀ x, Decision (P x)} (l : list A) x :
  length (filter P l) ≤ 1 → x ∈ l → P x → filter P l = [x].
Proof.
  intros Hlen Hx HP. assert (x ∈ filter P l) as Hin by (by apply list_elem_of_filter).
  destruct (filter P l) as [|y [|z k]]; simpl in *; [by apply elem_of_nil in Hin| |lia].
  by apply list_elem_of_singleton in Hin as ->.
Qed.

Section graph.
Context (pipeline : PipelineTopologyInput).
Let topology := buildPipelineTopology pipeline.

Lemma successor_edge u v : successor topology u = Some v → edge_between pipeline u v.
Proof.
  unfold successor, topology. rewrite outgoing_build.
  destruct (filter _ _) as [|e [|]] eqn:E; try done. intros [= <-].
  assert (e ∈ filter (λ e, fromStepId e = u) (input_edges pipeline)) as Hin
    by (rewrite E; left).
  apply list_elem_of_filter in Hin as [<- ?]. by exists e.
Qed.

Context (Hok : graph_ok pipeline) (Hlin : linear pipeline).

Lemma edge_successor e :
  e ∈ input_edges pipeline → successor topology (fromStepId e) = Some (toStepId e).
Proof.
  intros He. unfold successor, topology. rewrite outgoing_build.
  pose proof (graph_from _ Hok e He) as (step & Hid & Hst)%list_elem_of_fmap.
  destruct (Hlin step Hst) as [Ho _]. rewrite <-Hid in Ho.
  by rewrite (singleton_filter _ _ e Ho He).
Qed.

Lemma edge_target_unique e e' :
  e ∈ input_edges pipeline → e' ∈ input_edges pipeline →
  toStepId e = toStepId e' → fromStepId e = fromStepId e'.
Proof.
  intros He He' Heq.
  pose proof (graph_to _ Hok e He) as (step & Hid & Hst)%list_elem_of_fmap.
  destruct (Hlin step Hst) as [_ Hi]. rewrite <-Hid in Hi.
  pose proof (singleton_filter _ _ e Hi He eq_refl) as H1.
  pose proof (singleton_filter _ _ e' Hi He' (eq_sym Heq)) as H2. congruence.
Qed.

(** The walk from [s] visits exactly what is reachable from [s]. *)
Lemma walk_reachable s u :
  u ∈ walkLinearChain topology s ↔ rtc (edge_between pipeline) s u.
Proof.
  pose proof (walkLinearChain_chain topology s) as Hch. split.
  - destruct (chain_head _ _ _ _ Hch ltac:(set_solver)) as [ch' Heq].
    intros [i Hi]%list_elem_of_lookup. revert u Hi.
    induction i as [|i IH]; intros u Hi.
    + rewrite Heq in Hi. by simplify_eq/=.
    + destruct (lookup_lt_is_Some_2 (walkLinearChain topology s) i) as [w Hw].
      { apply lookup_lt_Some in Hi. lia. }
      apply rtc_r with w; [by apply IH|]. apply successor_edge. by eapply chain_pair.
  - revert u. apply (rtc_ind_r (λ u, u ∈ walkLinearChain topology s)).
    + destruct (chain_head _ _ _ _ Hch ltac:(set_solver)) as [ch' ->]. left.
    + intros v w _ (e & He & <- & <-) IH. pose proof (edge_successor e He) as Hs.
      destruct (chain_closed _ _ _ _ _ _ Hch IH Hs); set_solver.
Qed.

(** The consecutive pairs of the walk are the edges reachable from [s]
    that do not return to [s]. *)
Lemma walk_pairs s u v :
  (∃ i, walkLinearChain topology s !! i = Some u ∧ walkLinearChain topology s !! S i = Some v) ↔
  rtc (edge_between pipeline) s u ∧ edge_between pipeline u v ∧ v ≠ s.
Proof.
  pose proof (walkLinearChain_chain topology s) as Hch.
  destruct (chain_head _ _ _ _ Hch ltac:(set_solver)) as [ch' Heq]. split.
  - intros (i & Hu & Hv). split_and!.
    + apply walk_reachable, list_elem_of_lookup. eauto.
    + apply successor_edge. by eapply chain_pair.
    + intros ->. pose proof (chain_NoDup _ _ _ _ Hch) as Hnd.
      assert (0 = S i); [|done].
      apply (NoDup_lookup (walkLinearChain topology s) _ _ s); [done| |done].
      by rewrite Heq.
  - intros (Hr & (e & He & <- & <-) & Hne).
    assert (toStepId e ∈ walkLinearChain topology s) as Hin.
    { apply walk_reachable. apply rtc_r with (fromStepId e); [done|]. by exists e. }
    destruct (chain_pred _ _ _ _ _ Hch Hin Hne) as (i & w & Hw & Hv).
    pose proof (chain_pair _ _ _ _ _ _ _ Hch Hw Hv) as (e' & He' & <- & Ht)%successor_edge.
    exists i. by rewrite (edge_target_unique e e').
Qed.
End graph.

(** ** What an executable pipeline is *)

(** Every required field of the component has a value or a secret binding. *)
Definition configured (step : PipelineStep) (metadata : ComponentMetadata) : Prop :=
  ∀ field, field ∈ configFields metadata → field_required field = true →
    if field_secret field
    then field_key field ∈ binding_key <$> secretBindings (configuration step)
    else hasConfigValue (values (configuration step)) (field_key field) = true.

(** The metadata the catalog holds for the component of a step. *)
Definition catalogued (components : list ComponentMetadata) (step : PipelineStep) :
    option ComponentMetadata :=
  indexComponentsByKey components !! componentKey (componentType step) (componentVersion step).

Record executable_chain (pipeline : PipelineTopologyInput)
    (components : list ComponentMetadata) (source : PipelineStep) : Prop := {
  ec_source : stepsOfKind ComponentKind.source (input_steps pipeline) = [source];
  ec_export : ∃ output, stepsOfKind ComponentKind.export (input_steps pipeline) = [output];
  ec_linear : linear pipeline;
  ec_ready : ∀ step, step ∈ input_steps pipeline →
    ∃ metadata, catalogued components step = Some metadata ∧ configured step metadata;
  ec_reached : ∀ step, step ∈ input_steps pipeline →
    rtc (edge_between pipeline) (step_id source) (step_id step);
  ec_compatible : ∀ e upstream downstream mu md,
    e ∈ input_edges pipeline → toStepId e ≠ step_id source →
    upstream ∈ input_steps pipeline → step_id upstream = fromStepId e →
    downstream ∈ input_steps pipeline → step_id downstream = toStepId e →
    catalogued components upstream = Some mu → catalogued components downstream = Some md →
    can_feed mu md }.

(** ** Lemmas about the passes *)

Lemma checkStepConfiguration_nil step metadata :
  checkStepConfiguration step metadata = [] ↔ configured step metadata.
Proof.
  unfold checkStepConfiguration, configured. rewrite list_bind_nil.
  split; intros H field Hf; specialize (H field Hf).
  - intros Hr. rewrite Hr in H. simpl in H.
    destruct (field_secret field); [by case_decide|]. by case_match.
  - destruct (field_required field); simpl; [|done]. specialize (H eq_refl).
    destruct (field_secret field); [by rewrite decide_True|by rewrite H].
Qed.

(** The violations one step contributes to the loop. *)
Definition stepViolations (pipeline : PipelineTopologyInput) (components : list ComponentMetadata)
    (step : PipelineStep) : list PipelineExecutableViolation :=
  (if decide (1 < length (outgoing (buildPipelineTopology pipeline) (step_id step)) ∨
              1 < length (incoming (buildPipelineTopology pipeline) (step_id step)))
   then [branching_step (step_id step)] else []) ++
  match catalogued components step with
  | None => [unavailable_component (step_id step) (componentType step) (componentVersion step)]
  | Some metadata => checkStepConfiguration step metadata
  end.

Definition resolveStep (components : list ComponentMetadata)
    (m : gmap string ComponentMetadata) (step : PipelineStep) : gmap string ComponentMetadata :=
  match catalogued components step with
  | None => m
  | Some metadata => <[step_id step := metadata]> m
  end.

Lemma foldl_checkStep pipeline components l v m :
  foldl (checkStep (buildPipelineTopology pipeline) (indexComponentsByKey components)) (v, m) l =
  (v ++ (l ≫= stepViolations pipeline components), foldl (resolveStep components) m l).
Proof.
  revert v m. induction l as [|step l IH]; intros v m; csimpl; [by rewrite app_nil_r|].
  unfold stepViolations at 1, resolveStep at 2, catalogued, checkStep.
  destruct (indexComponentsByKey components !! _) as [md|]; rewrite IH;
    case_decide; f_equal; by rewrite <-!(assoc_L (++)).
Qed.

Lemma resolveStep_other components m step id :
  step_id step ≠ id → resolveStep components m step !! id = m !! id.
Proof. intros Hne. unfold resolveStep. case_match; [by rewrite lookup_insert_ne|done]. Qed.

Lemma foldl_resolveStep components l m :
  NoDup (step_id <$> l) →
  (∀ step, step ∈ l → m !! step_id step = None) →
  (∀ step, step ∈ l → foldl (resolveStep components) m l !! step_id step = catalogued components step).
Proof.
  assert (∀ l m id, id ∉ step_id <$> l → foldl (resolveStep components) m l !! id = m !! id) as Hne.
  { intros l'. induction l' as [|s l' IH]; intros m' id; csimpl; [done|].
    rewrite not_elem_of_cons. intros [? ?]. rewrite IH by done. by apply resolveStep_other. }
  revert m. induction l as [|s l IH]; intros m; csimpl; [intros _ _ ? ?%elem_of_nil; done|].
  rewrite NoDup_cons. intros [Hs Hnd] Hm step [->|Hst]%elem_of_cons.
  - rewrite Hne by done. unfold resolveStep.
    destruct (catalogued components s) as [md|] eqn:E; [by rewrite lookup_insert_eq|].
    apply Hm. left.
  - apply IH; [done| |done]. intros step' Hst'.
    rewrite resolveStep_other; [apply Hm; by right|].
    intros Heq. apply Hs. rewrite Heq. by apply list_elem_of_fmap_2.
Qed.

Lemma endpointViolations_nil pipeline :
  endpointViolations pipeline = [] ↔
  (∃ source, stepsOfKind ComponentKind.source (input_steps pipeline) = [source]) ∧
  (∃ output, stepsOfKind ComponentKind.export (input_steps pipeline) = [output]).
Proof.
  unfold endpointViolations. rewrite app_nil.
  destruct (stepsOfKind ComponentKind.source _) as [|s1 [|s2 ss]],
    (stepsOfKind ComponentKind.export _) as [|e1 [|e2 es]]; naive_solver.
Qed.

Lemma stepViolations_nil pipeline components step :
  stepViolations pipeline components step = [] ↔
  (length (filter (λ e, fromStepId e = step_id step) (input_edges pipeline)) ≤ 1 ∧
   length (filter (λ e, toStepId e = step_id step) (input_edges pipeline)) ≤ 1) ∧
  ∃ metadata, catalogued components step = Some metadata ∧ configured step metadata.
Proof.
  unfold stepViolations. rewrite app_nil, outgoing_build, incoming_build.
  setoid_rewrite <-checkStepConfiguration_nil.
  destruct (catalogued components step) as [md|]; case_decide; naive_solver lia.
Qed.

Lemma checkAdjacent_nil m l i :
  checkAdjacent m l i = [] ↔
  ∀ u v mu md, l !! i = Some u → l !! S i = Some v → m !! u = Some mu → m !! v = Some md →
    can_feed mu md.
Proof.
  unfold checkAdjacent. setoid_rewrite <-compatible_spec.
  destruct (l !! i) as [u|]; [|naive_solver]. destruct (l !! S i) as [v|]; [|naive_solver].
  destruct (m !! u) as [mu|] eqn:Hu; [|naive_solver].
  destruct (m !! v) as [md|] eqn:Hv; [|naive_solver].
  destruct (compatible _) eqn:Hc; split; try done.
  - intros _ u' v' mu' md' ? ? ? ?. by simplify_eq.
  - intros H. specialize (H u v mu md eq_refl eq_refl Hu Hv). congruence.
Qed.

Lemma checkChainConnectivity_nil pipeline topology s m :
  checkChainConnectivity pipeline topology s m = [] ↔
  (∀ step, step ∈ input_steps pipeline → step_id step ∈ walkLinearChain topology s) ∧
  (∀ i u v mu md, walkLinearChain topology s !! i = Some u → walkLinearChain topology s !! S i = Some v →
     m !! u = Some mu → m !! v = Some md → can_feed mu md).
Proof.
  unfold checkChainConnectivity. rewrite app_nil, !list_bind_nil.
  setoid_rewrite checkAdjacent_nil. setoid_rewrite list_bind_singleton_nil. split.
  - intros [H1 H2]. split; [done|]. intros i u v mu md Hu Hv. apply (H2 i); try done.
    apply elem_of_seq. apply lookup_lt_Some in Hv. lia.
  - intros [H1 H2]. split; [done|]. intros i _. eauto.
Qed.

Lemma checkPipelineExecutable_chain pipeline components :
  checkPipelineExecutable pipeline components = executable ↔
  endpointViolations pipeline = [] ∧
  (∀ step, step ∈ input_steps pipeline → stepViolations pipeline components step = []) ∧
  ∀ source, stepsOfKind ComponentKind.source (input_steps pipeline) = [source] →
    checkChainConnectivity pipeline (buildPipelineTopology pipeline) (step_id source)
      (foldl (resolveStep components) ∅ (input_steps pipeline)) = [].
Proof.
  unfold checkPipelineExecutable. rewrite foldl_checkStep, <-list_bind_nil.
  destruct (stepsOfKind ComponentKind.source (input_steps pipeline)) as [|s [|s' ss]] eqn:Es,
    (stepsOfKind ComponentKind.export (input_steps pipeline)) as [|x [|x' xs]] eqn:Ex.
  all: assert (endpointViolations pipeline ≠ [] ∨
      (∃ s, stepsOfKind ComponentKind.source (input_steps pipeline) = [s]) ∧
      (∃ x, stepsOfKind ComponentKind.export (input_steps pipeline) = [x])) as Hep
    by (destruct (decide (endpointViolations pipeline = [])) as [?%endpointViolations_nil|]; auto).
  all: rewrite Es, Ex in Hep.
  5: { destruct (_ ++ _) as [|w ws] eqn:E.
       - apply app_nil in E as [E1 E2]. apply app_nil in E1 as [? ?].
         split; [|done]. intros _. split_and!; [done..|]. by intros ? [= <-].
       - split; [done|]. intros (H1 & H2 & H3). by rewrite H1, H2, (H3 s) in E. }
  all: destruct Hep as [Hep|[[? ?] [? ?]]]; [|done].
  all: destruct (endpointViolations pipeline) as [|w ws]; [done|simpl].
  all: by split; [|intros (? & _)].
Qed.

(** ** Properties *)


(** On a linear graph the walk always returns, never repeats a step, and
    visits exactly the steps reachable from its start. *)
Theorem walkLinearChain_visits_reachable pipeline start :
  graph_ok pipeline → linear pipeline →
  let topology := buildPipelineTopology pipeline in
  is_Some (walk_loop (S (S (size (outgoingEdgesByStepId topology)))) topology ∅ (Some start)) ∧
  NoDup (walkLinearChain topology start) ∧
  ∀ u, u ∈ walkLinearChain topology start ↔ rtc (edge_between pipeline) start u.
Proof.
  intros Hok Hlin topology. split_and!.
  - apply walk_loop_total. rewrite difference_empty_L, size_dom. lia.
  - eapply chain_NoDup, walkLinearChain_chain.
  - intros u. by apply walk_reachable.
Qed.

(** ** Witnesses *)

Definition example_step (id : string) (kind : ComponentKind.t) (type : string) : PipelineStep :=
  {| step_id := id; step_kind := kind; componentType := type; componentVersion := "v1";
     configuration := {| values := [("path", JString "orders.csv")]; secretBindings := [] |} |}.

Definition example_metadata (kind : ComponentKind.t) (type : string)
    (inputs outputs : list DataFamily.t) : ComponentMetadata :=
  {| meta_kind := kind; meta_type := type; meta_version := "v1";
     displayNameKey := "name"; descriptionKey := "description";
     configFields := [{| field_key := "path"; field_type := ConfigFieldType.text;
                         labelKey := "label"; field_required := true; field_secret := false;
                         field_descriptionKey := None; placeholderKey := None; field_width := None;
                         defaultValue := None; options := None |}];
     inputFamilies := inputs; outputFamilies := outputs |}.

Definition example_catalog : list ComponentMetadata :=
  [example_metadata ComponentKind.source "csv-source" [] [DataFamily.tabular];
   example_metadata ComponentKind.transform "select-columns" [DataFamily.tabular] [DataFamily.tabular];
   example_metadata ComponentKind.export "csv-export" [DataFamily.any] []].

Definition example_input : PipelineTopologyInput :=
  {| input_steps := [example_step "s" ComponentKind.source "csv-source";
                     example_step "t" ComponentKind.transform "select-columns";
                     example_step "e" ComponentKind.export "csv-export"];
     input_edges := [{| fromStepId := "s"; toStepId := "t" |};
                     {| fromStepId := "t"; toStepId := "e" |}] |}.

(** The same chain with an edge from the Export back to the Source. *)
Definition example_cycle : PipelineTopologyInput :=
  {| input_steps := input_steps example_input;
     input_edges := input_edges example_input ++ [{| fromStepId := "e"; toStepId := "s" |}] |}.

Lemma example_graph_ok : graph_ok example_input.
Proof.
  split; [apply (bool_decide_unpack _); vm_compute; exact I|..];
    apply (proj1 (Forall_forall _ (input_edges example_input)));
    apply (bool_decide_unpack _); vm_compute; exact I.
Qed.

Lemma example_linear : linear example_input.
Proof.
  unfold linear. apply (proj1 (Forall_forall _ (input_steps example_input))).
  apply (bool_decide_unpack _). vm_compute. exact I.
Qed.


Lemma walkLinearChain_visits_reachable_witness :
  rtc (edge_between example_input) "s" "e".
Proof.
  apply (walkLinearChain_visits_reachable example_input "s" example_graph_ok example_linear).
  apply (bool_decide_unpack _). vm_compute. exact I.
Defined.

(** The check follows edges only up to a step it has visited, so a chain
    whose Export feeds its Source again is still reported executable. *)
Lemma cycle_is_executable : checkPipelineExecutable example_cycle example_catalog = executable.
Proof. vm_compute. reflexivity. Qed.
