(* ===== verification/Schemas.v ===== *)
(** * Contract validators

    What [schema.parse] accepts of the records of [Contracts]: the formats
    and patterns of [schemas/contracts/*.schema.json], reached through
    [packages/contracts/src/pipeline/definition.ts] and
    [packages/contracts/src/api/pipelines.ts]. The UUID format is checked by
    the schema library: it is a parameter. *)

From S2P Require Import Prelude Js Contracts.

(** The formats the schema library recognises. *)
Class Formats := { is_uuid : string → bool }.

(** ** Patterns *)

Definition is_alnum_lower (c : ascii) : bool := is_lower_letter c || is_digit c.
Definition is_separator (c : ascii) : bool :=
  bool_decide (c = "."%char) || bool_decide (c = "_"%char) || bool_decide (c = "-"%char).

(** The tail of [^\[a-z\]\[a-z0-9\]*(?:\[._-\]\[a-z0-9\]+)*$]: [after_separator]
    holds when an alphanumeric character must follow. *)
Fixpoint type_tail (after_separator : bool) (s : string) : bool :=
  match s with
  | EmptyString => negb after_separator
  | String c s =>
      if is_alnum_lower c then type_tail false s
      else if is_separator c then negb after_separator && type_tail true s
      else false
  end.

Definition matchesComponentType (s : string) : bool :=
  match s with
  | EmptyString => false
  | String c s => is_lower_letter c && type_tail false s
  end.

(** [^v\d+$] *)
Definition matchesVersion (s : string) : bool :=
  match s with
  | String "v" (String d s) => is_digit d && all_chars is_digit s
  | _ => false
  end.

(** The words a configuration key must not contain, in any case, with or
    without a separator inside [api key]. *)
Definition sensitiveWords : list string :=
  ["apikey"; "api_key"; "api-key"; "authorization"; "credential"; "password"; "secret"; "token"].

Definition is_line_terminator (c : ascii) : bool :=
  bool_decide (Ascii.nat_of_ascii c = 10) || bool_decide (Ascii.nat_of_ascii c = 13).

Definition matchesNonSecretKey (key : string) : bool :=
  negb (bool_decide (key = "")) &&
  all_chars (λ c, negb (is_line_terminator c)) key &&
  forallb (λ word, negb (includes word (toLowerCase key))) sensitiveWords.

(** [#/$defs/nonSecretJsonValue] *)
Fixpoint validJson (j : Json) : bool :=
  match j with
  | JNumber NNaN | JNumber (NInfinity _) => false
  | JArray l => forallb validJson l
  | JObject fields => forallb (λ f, matchesNonSecretKey f.1 && validJson f.2) fields
  | _ => true
  end.

(** ** Records *)

Section validators.
Context `{!Formats}.

Definition nonEmpty (s : string) : bool := negb (bool_decide (s = "")).

Definition validBinding (b : SecretBinding) : bool :=
  nonEmpty (binding_key b) && nonEmpty (binding_binding b).

Definition validConfiguration (c : ComponentConfiguration) : bool :=
  forallb (λ f, matchesNonSecretKey f.1 && validJson f.2) (values c) &&
  forallb validBinding (secretBindings c).

Definition pipelineStepSchema (step : PipelineStep) : bool :=
  is_uuid (step_id step) && matchesComponentType (componentType step) &&
  matchesVersion (componentVersion step) && validConfiguration (configuration step).

Definition pipelineEdgeSchema (e : PipelineEdge) : bool :=
  is_uuid (fromStepId e) && is_uuid (toStepId e).

Definition triggerSchema (t : Trigger) : bool :=
  match t with
  | ManualTrigger id pipelineId _ => is_uuid id && is_uuid pipelineId
  | ScheduleTrigger id pipelineId _ cron timezone =>
      is_uuid id && is_uuid pipelineId && nonEmpty cron && nonEmpty timezone
  end.

(** [^\[a-z\]\[a-zA-Z0-9_\]*$] *)
Definition matchesFieldKey (s : string) : bool :=
  match s with
  | EmptyString => false
  | String c s => is_lower_letter c &&
      all_chars (λ c, is_lower_letter c || is_upper_letter c || is_digit c || bool_decide (c = "_"%char)) s
  end.

Definition configOptionSchema (o : ConfigOption) : bool := nonEmpty (option_value o) && nonEmpty (option_labelKey o).

(** A default is a text, a number or a boolean. *)
Definition validDefault (j : Json) : bool :=
  match j with JString _ | JBool _ | JNumber (NInt _) | JNumber (NFrac _ _) => true | _ => false end.

Definition configFieldSchema (f : ConfigField) : bool :=
  matchesFieldKey (field_key f) && nonEmpty (labelKey f) &&
  match field_descriptionKey f with None => true | Some k => nonEmpty k end &&
  match placeholderKey f with None => true | Some k => nonEmpty k end &&
  match defaultValue f with None => true | Some j => validDefault j end &&
  match options f with None => true | Some l => forallb configOptionSchema l end.

Definition componentMetadataSchema (m : ComponentMetadata) : bool :=
  matchesComponentType (meta_type m) && matchesVersion (meta_version m) &&
  nonEmpty (displayNameKey m) && nonEmpty (descriptionKey m) && forallb configFieldSchema (configFields m).

Definition minOne {A} (l : list A) : bool := match l with [] => false | _ => true end.

Definition pipelineSchema (p : Pipeline) : bool :=
  bool_decide (contractVersion p = "v1") && is_uuid (pipeline_id p) && is_uuid (ownerUserId p) &&
  nonEmpty (pipeline_name p) && minOne (steps p) &&
  forallb pipelineStepSchema (steps p) && forallb pipelineEdgeSchema (edges p) &&
  forallb triggerSchema (triggers p).

Definition writablePipelineTriggerSchema (t : WritablePipelineTrigger) : bool :=
  match t with
  | WritableManual _ => true
  | WritableSchedule cron _ timezone => nonEmpty cron && nonEmpty timezone
  end.

Definition pipelineCreateRequestSchema (r : PipelineCreateRequest) : bool :=
  bool_decide (create_contractVersion r = "v1") && forallb pipelineEdgeSchema (create_edges r) &&
  nonEmpty (create_name r) && minOne (create_steps r) &&
  forallb pipelineStepSchema (create_steps r) &&
  forallb writablePipelineTriggerSchema (create_triggers r).

Definition optional {A} (p : A → bool) (o : option A) : bool :=
  match o with None => true | Some a => p a end.

(** [Object.keys(request).length > 0]: some field is present. *)
Definition pipelineUpdateRequestSchema (r : PipelineUpdateRequest) : bool :=
  optional (forallb pipelineEdgeSchema) (update_edges r) &&
  optional nonEmpty (update_name r) &&
  optional (λ l, minOne l && forallb pipelineStepSchema l) (update_steps r) &&
  optional (forallb writablePipelineTriggerSchema) (update_triggers r) &&
  negb (bool_decide (update_edges r = None ∧ update_name r = None ∧ update_state r = None) &&
        match update_steps r, update_triggers r with None, None => true | _, _ => false end).

(** [schema.parse(value)] returns the value it accepts. *)
Definition parse {A} (schema : A → bool) (a : A) : result A :=
  if schema a then Ok a else Throw ZodError.

Lemma parse_ok {A} (schema : A → bool) a b : parse schema a = Ok b ↔ schema a = true ∧ a = b.
Proof. unfold parse. destruct (schema a); naive_solver. Qed.
End validators.

(** ** Lemmas *)

Lemma validJson_finite j : validJson j = true → json_finite j = true.
Proof.
  induction j as [| |n| |l IH|fields IH] using Json_ind_nested; simpl; try done.
  - induction IH as [|x l Hx _ IHl]; simpl; [done|].
    intros [? ?]%andb_prop. rewrite Hx by done. by apply IHl.
  - induction IH as [|x l Hx _ IHl]; simpl; [done|].
    intros [[_ ?]%andb_prop ?]%andb_prop. rewrite Hx by done. by apply IHl.
Qed.

Lemma type_tail_no_at b s : type_tail b s = true → has_char "@" s = false.
Proof.
  revert b. induction s as [|c s IH]; intros b; simpl; [done|].
  destruct (is_alnum_lower c) eqn:Ha.
  - intros Ht. rewrite (IH _ Ht), orb_false_r.
    apply bool_decide_eq_false. intros <-. done.
  - destruct (is_separator c) eqn:Hs; [|done]. intros [_ Ht]%andb_prop.
    rewrite (IH _ Ht), orb_false_r. apply bool_decide_eq_false. intros <-. done.
Qed.

Lemma matchesComponentType_no_at s : matchesComponentType s = true → has_char "@" s = false.
Proof.
  destruct s as [|c s]; simpl; [done|]. intros [Hc Ht]%andb_prop.
  rewrite (type_tail_no_at _ _ Ht), orb_false_r. apply bool_decide_eq_false. intros <-. done.
Qed.

(** The composite key [type@version] determines a valid type and a version. *)
Lemma capability_key_inj t1 v1 t2 v2 :
  matchesComponentType t1 = true → matchesComponentType t2 = true →
  t1 +:+ "@" +:+ v1 = t2 +:+ "@" +:+ v2 → t1 = t2 ∧ v1 = v2.
Proof. intros ?%matchesComponentType_no_at ?%matchesComponentType_no_at. by apply separated_inj. Qed.

Lemma forallb_Forall_true {A} (p : A → bool) l : forallb p l = true ↔ ∀ x, x ∈ l → p x = true.
Proof.
  rewrite forallb_forall. split; intros H x Hx; apply H; by apply list_elem_of_In.
Qed.

(** ** A concrete format check, for examples: at least the length of a UUID. *)

#[export] Instance length_formats : Formats := {| is_uuid s := Nat.leb 36 (String.length s) |}.
