(* ===== verification/CanonicalSchemas.v ===== *)
(** * The canonical schemas

    [schemas/contracts/*.schema.json], document by document: the contracts
    every validator of [packages/contracts] and the API description are
    derived from. *)

From S2P Require Import Prelude Js.

Module canonicalSchemas.

(** [artifact-descriptor.schema.json] *)
Definition artifactDescriptor : Json := JObject [
    ("$schema", JString "https://json-schema.org/draft/2020-12/schema");
    ("$comment", JString "Canonical contract definition. Generated language artifacts must not be edited manually.");
    ("title", JString "ArtifactDescriptor");
    ("type", JString "object");
    ("properties", JObject [
      ("contractVersion", JObject [("type", JString "string"); ("const", JString "v1")]);
      ("id", JObject [("type", JString "string"); ("format", JString "uuid")]);
      ("pipelineId", JObject [("type", JString "string"); ("format", JString "uuid")]);
      ("runId", JObject [("type", JString "string"); ("format", JString "uuid")]);
      ("format", JObject [("type", JString "string"); ("minLength", JNumber (NInt 1))]);
      ("contentType", JObject [("type", JString "string"); ("minLength", JNumber (NInt 1))]);
      ("fileName", JObject [("type", JString "string"); ("minLength", JNumber (NInt 1))]);
      ("sizeBytes", JObject [
        ("type", JString "integer");
        ("minimum", JNumber (NInt 0));
        ("maximum", JNumber (NInt 9007199254740991))]);
      ("storage", JObject [
        ("type", JString "object");
        ("properties", JObject [
          ("kind", JObject [("type", JString "string"); ("enum", JArray [JString "local"; JString "s3"])]);
          ("location", JObject [("type", JString "string"); ("minLength", JNumber (NInt 1))]);
          ("encrypted", JObject [("type", JString "boolean")])]);
        ("required", JArray [JString "kind"; JString "location"; JString "encrypted"]);
        ("additionalProperties", JBool false)]);
      ("createdAt", JObject [("type", JString "string"); ("format", JString "date-time")]);
      ("retention", JObject [
        ("type", JString "object");
        ("properties", JObject [
          ("expiresAt", JObject [("type", JString "string"); ("format", JString "date-time")]);
          ("retentionDays", JObject [
            ("type", JString "integer");
            ("exclusiveMinimum", JNumber (NInt 0));
            ("default", JNumber (NInt 30));
            ("maximum", JNumber (NInt 9007199254740991))])]);
        ("required", JArray [JString "expiresAt"; JString "retentionDays"]);
        ("additionalProperties", JBool false)])]);
    ("required", JArray [
      JString "contractVersion";
      JString "id";
      JString "pipelineId";
      JString "runId";
      JString "format";
      JString "fileName";
      JString "sizeBytes";
      JString "storage";
      JString "createdAt";
      JString "retention"]);
    ("additionalProperties", JBool false);
    ("$id", JString "https://pantaetl.dev/schemas/artifact-descriptor.schema.json")].

(** [common.schema.json] *)
Definition common : Json := JObject [
    ("$schema", JString "https://json-schema.org/draft/2020-12/schema");
    ("$comment", JString "Canonical contract definition. Generated language artifacts must not be edited manually.");
    ("title", JString "CommonPrimitives");
    ("type", JString "object");
    ("properties", JObject [
      ("identifier", JObject [("type", JString "string"); ("format", JString "uuid")]);
      ("timestamp", JObject [("type", JString "string"); ("format", JString "date-time")]);
      ("version", JObject [("type", JString "string"); ("pattern", JString "^v\d+$")]);
      ("contractVersion", JObject [("type", JString "string"); ("const", JString "v1")]);
      ("dataFamily", JObject [
        ("type", JString "string");
        ("enum", JArray [JString "any"; JString "document"; JString "tabular"; JString "file"])])]);
    ("required", JArray [
      JString "identifier";
      JString "timestamp";
      JString "version";
      JString "contractVersion";
      JString "dataFamily"]);
    ("additionalProperties", JBool false)].

(** [component-api.schema.json] *)
Definition componentApi : Json := JObject [
    ("$schema", JString "https://json-schema.org/draft/2020-12/schema");
    ("$comment", JString "Canonical control-plane API contract definitions for built-in component capabilities.");
    ("$id", JString "https://pantaetl.dev/schemas/component-api.schema.json");
    ("title", JString "ComponentCapabilityApiContracts");
    ("type", JString "object");
    ("properties", JObject [
      ("componentCapabilityListRequest", JObject [("$ref", JString "#/$defs/componentCapabilityListRequest")]);
      ("componentCapabilityListResponse", JObject [("$ref", JString "#/$defs/componentCapabilityListResponse")])]);
    ("required", JArray [JString "componentCapabilityListRequest"; JString "componentCapabilityListResponse"]);
    ("additionalProperties", JBool false);
    ("$defs", JObject [
      ("componentKind", JObject [
        ("$ref", JString "https://pantaetl.dev/schemas/component-metadata.schema.json#/properties/kind")]);
      ("componentMetadata", JObject [("$ref", JString "https://pantaetl.dev/schemas/component-metadata.schema.json")]);
      ("componentCapabilityListRequest", JObject [
        ("type", JString "object");
        ("properties", JObject [("kind", JObject [("$ref", JString "#/$defs/componentKind")])]);
        ("additionalProperties", JBool false)]);
      ("componentCapabilityListResponse", JObject [
        ("type", JString "object");
        ("properties", JObject [
          ("components", JObject [
            ("type", JString "array");
            ("items", JObject [("$ref", JString "#/$defs/componentMetadata")])])]);
        ("required", JArray [JString "components"]);
        ("additionalProperties", JBool false)])])].

(** [component-metadata.schema.json] *)
Definition componentMetadata : Json := JObject [
    ("$schema", JString "https://json-schema.org/draft/2020-12/schema");
    ("$comment", JString "Canonical contract definition. Generated language artifacts must not be edited manually.");
    ("title", JString "ComponentMetadata");
    ("type", JString "object");
    ("properties", JObject [
      ("kind", JObject [
        ("type", JString "string");
        ("enum", JArray [JString "source"; JString "transform"; JString "export"])]);
      ("type", JObject [("type", JString "string"); ("pattern", JString "^[a-z][a-z0-9]*(?:[._-][a-z0-9]+)*$")]);
      ("version", JObject [("type", JString "string"); ("pattern", JString "^v\d+$")]);
      ("displayNameKey", JObject [("type", JString "string"); ("minLength", JNumber (NInt 1))]);
      ("descriptionKey", JObject [("type", JString "string"); ("minLength", JNumber (NInt 1))]);
      ("configFields", JObject [
        ("type", JString "array");
        ("items", JObject [
          ("type", JString "object");
          ("properties", JObject [
            ("key", JObject [("type", JString "string"); ("pattern", JString "^[a-z][a-zA-Z0-9_]*$")]);
            ("type", JObject [
              ("$comment", JString "A file field holds the same relative path text as a text field; the control additionally offers to supply the file.");
              ("type", JString "string");
              ("enum", JArray [
                JString "text";
                JString "textarea";
                JString "number";
                JString "boolean";
                JString "select";
                JString "json";
                JString "file"])]);
            ("labelKey", JObject [("type", JString "string"); ("minLength", JNumber (NInt 1))]);
            ("descriptionKey", JObject [("type", JString "string"); ("minLength", JNumber (NInt 1))]);
            ("placeholderKey", JObject [
              ("$comment", JString "An example of a well-formed value, shown inside an empty control. Structured fields need to demonstrate their shape, which prose cannot do as directly.");
              ("type", JString "string");
              ("minLength", JNumber (NInt 1))]);
            ("required", JObject [("type", JString "boolean")]);
            ("secret", JObject [("type", JString "boolean")]);
            ("width", JObject [
              ("$comment", JString "How much horizontal room the value needs, so a renderer need not guess from the control type.");
              ("type", JString "string");
              ("enum", JArray [JString "short"; JString "medium"; JString "full"])]);
            ("defaultValue", JObject [
              ("$comment", JString "The value the executing component applies when the field is left unset. Renderers show it so the form never contradicts execution.");
              ("anyOf", JArray [
                JObject [("type", JString "string")];
                JObject [("type", JString "number")];
                JObject [("type", JString "boolean")]])]);
            ("options", JObject [
              ("type", JString "array");
              ("items", JObject [
                ("type", JString "object");
                ("properties", JObject [
                  ("value", JObject [("type", JString "string"); ("minLength", JNumber (NInt 1))]);
                  ("labelKey", JObject [("type", JString "string"); ("minLength", JNumber (NInt 1))])]);
                ("required", JArray [JString "value"; JString "labelKey"]);
                ("additionalProperties", JBool false)])])]);
          ("required", JArray [JString "key"; JString "type"; JString "labelKey"; JString "required"; JString "secret"]);
          ("additionalProperties", JBool false)])]);
      ("inputFamilies", JObject [
        ("type", JString "array");
        ("items", JObject [
          ("type", JString "string");
          ("enum", JArray [JString "any"; JString "document"; JString "tabular"; JString "file"])])]);
      ("outputFamilies", JObject [
        ("type", JString "array");
        ("items", JObject [
          ("type", JString "string");
          ("enum", JArray [JString "any"; JString "document"; JString "tabular"; JString "file"])])])]);
    ("required", JArray [
      JString "kind";
      JString "type";
      JString "version";
      JString "displayNameKey";
      JString "descriptionKey";
      JString "configFields";
      JString "inputFamilies";
      JString "outputFamilies"]);
    ("additionalProperties", JBool false);
    ("$id", JString "https://pantaetl.dev/schemas/component-metadata.schema.json")].

(** [dataset-descriptor.schema.json] *)
Definition datasetDescriptor : Json := JObject [
    ("$schema", JString "https://json-schema.org/draft/2020-12/schema");
    ("$comment", JString "Canonical contract definition. Generated language artifacts must not be edited manually.");
    ("title", JString "DatasetDescriptor");
    ("type", JString "object");
    ("properties", JObject [
      ("contractVersion", JObject [("type", JString "string"); ("const", JString "v1")]);
      ("id", JObject [("type", JString "string"); ("format", JString "uuid")]);
      ("family", JObject [
        ("type", JString "string");
        ("enum", JArray [JString "any"; JString "document"; JString "tabular"; JString "file"])]);
      ("format", JObject [("type", JString "string"); ("minLength", JNumber (NInt 1))]);
      ("storage", JObject [
        ("type", JString "object");
        ("properties", JObject [
          ("kind", JObject [("type", JString "string"); ("enum", JArray [JString "local"; JString "s3"])]);
          ("location", JObject [("type", JString "string"); ("minLength", JNumber (NInt 1))]);
          ("encrypted", JObject [("type", JString "boolean")])]);
        ("required", JArray [JString "kind"; JString "location"; JString "encrypted"]);
        ("additionalProperties", JBool false)]);
      ("structure", JObject [
        ("type", JString "object");
        ("properties", JObject [
          ("format", JObject [("type", JString "string"); ("minLength", JNumber (NInt 1))]);
          ("fields", JObject [
            ("type", JString "array");
            ("items", JObject [
              ("type", JString "object");
              ("properties", JObject [
                ("name", JObject [("type", JString "string"); ("minLength", JNumber (NInt 1))]);
                ("type", JObject [("type", JString "string"); ("minLength", JNumber (NInt 1))]);
                ("nullable", JObject [("type", JString "boolean")])]);
              ("required", JArray [JString "name"; JString "type"]);
              ("additionalProperties", JBool false)])]);
          ("metadata", JObject [
            ("type", JString "object");
            ("propertyNames", JObject [("type", JString "string")]);
            ("additionalProperties", JObject [])])]);
        ("required", JArray [JString "format"]);
        ("additionalProperties", JBool false)]);
      ("pipelineId", JObject [("type", JString "string"); ("format", JString "uuid")]);
      ("runId", JObject [("type", JString "string"); ("format", JString "uuid")]);
      ("stepId", JObject [("type", JString "string"); ("format", JString "uuid")]);
      ("createdAt", JObject [("type", JString "string"); ("format", JString "date-time")]);
      ("expiresAt", JObject [("type", JString "string"); ("format", JString "date-time")])]);
    ("required", JArray [
      JString "contractVersion";
      JString "id";
      JString "family";
      JString "format";
      JString "storage";
      JString "pipelineId";
      JString "runId";
      JString "stepId";
      JString "createdAt";
      JString "expiresAt"]);
    ("additionalProperties", JBool false);
    ("$id", JString "https://pantaetl.dev/schemas/dataset-descriptor.schema.json")].

(** [job.schema.json] *)
Definition job : Json := JObject [
    ("$schema", JString "https://json-schema.org/draft/2020-12/schema");
    ("$comment", JString "Canonical contract definition. Generated language artifacts must not be edited manually.");
    ("title", JString "Job");
    ("type", JString "object");
    ("properties", JObject [
      ("contractVersion", JObject [("type", JString "string"); ("const", JString "v1")]);
      ("id", JObject [("type", JString "string"); ("format", JString "uuid")]);
      ("pipelineId", JObject [("type", JString "string"); ("format", JString "uuid")]);
      ("runId", JObject [("type", JString "string"); ("format", JString "uuid")]);
      ("stepId", JObject [("type", JString "string"); ("format", JString "uuid")]);
      ("componentId", JObject [("type", JString "string"); ("format", JString "uuid")]);
      ("state", JObject [
        ("type", JString "string");
        ("enum", JArray [
          JString "queued";
          JString "running";
          JString "succeeded";
          JString "failed";
          JString "cancelled"])]);
      ("attempt", JObject [
        ("type", JString "integer");
        ("minimum", JNumber (NInt 0));
        ("maximum", JNumber (NInt 9007199254740991))]);
      ("retryPolicy", JObject [
        ("type", JString "object");
        ("properties", JObject [
          ("maxAttempts", JObject [
            ("type", JString "integer");
            ("exclusiveMinimum", JNumber (NInt 0));
            ("maximum", JNumber (NInt 9007199254740991))]);
          ("retryDelaySeconds", JObject [
            ("type", JString "integer");
            ("minimum", JNumber (NInt 0));
            ("maximum", JNumber (NInt 9007199254740991))])]);
        ("required", JArray [JString "maxAttempts"; JString "retryDelaySeconds"]);
        ("additionalProperties", JBool false)]);
      ("availableAt", JObject [("type", JString "string"); ("format", JString "date-time")]);
      ("claim", JObject [
        ("type", JString "object");
        ("properties", JObject [
          ("workerId", JObject [("type", JString "string"); ("format", JString "uuid")]);
          ("claimedAt", JObject [("type", JString "string"); ("format", JString "date-time")]);
          ("heartbeatAt", JObject [("type", JString "string"); ("format", JString "date-time")])]);
        ("required", JArray [JString "workerId"; JString "claimedAt"; JString "heartbeatAt"]);
        ("additionalProperties", JBool false)]);
      ("cancellation", JObject [
        ("type", JString "object");
        ("properties", JObject [
          ("requestedAt", JObject [("type", JString "string"); ("format", JString "date-time")]);
          ("requestedByUserId", JObject [("type", JString "string"); ("format", JString "uuid")])]);
        ("required", JArray [JString "requestedAt"]);
        ("additionalProperties", JBool false)]);
      ("completedAt", JObject [("type", JString "string"); ("format", JString "date-time")])]);
    ("required", JArray [
      JString "contractVersion";
      JString "id";
      JString "pipelineId";
      JString "runId";
      JString "stepId";
      JString "componentId";
      JString "state";
      JString "attempt";
      JString "retryPolicy";
      JString "availableAt"]);
    ("additionalProperties", JBool false);
    ("$id", JString "https://pantaetl.dev/schemas/job.schema.json")].

(** [pipeline.schema.json] *)
Definition pipeline : Json := JObject [
    ("$schema", JString "https://json-schema.org/draft/2020-12/schema");
    ("$comment", JString "Canonical contract definition. Generated language artifacts must not be edited manually.");
    ("title", JString "Pipeline");
    ("type", JString "object");
    ("properties", JObject [
      ("contractVersion", JObject [("type", JString "string"); ("const", JString "v1")]);
      ("id", JObject [("type", JString "string"); ("format", JString "uuid")]);
      ("ownerUserId", JObject [("type", JString "string"); ("format", JString "uuid")]);
      ("name", JObject [("type", JString "string"); ("minLength", JNumber (NInt 1))]);
      ("state", JObject [
        ("type", JString "string");
        ("enum", JArray [JString "draft"; JString "enabled"; JString "disabled"])]);
      ("createdAt", JObject [("type", JString "string"); ("format", JString "date-time")]);
      ("updatedAt", JObject [("type", JString "string"); ("format", JString "date-time")]);
      ("steps", JObject [
        ("minItems", JNumber (NInt 1));
        ("type", JString "array");
        ("items", JObject [
          ("type", JString "object");
          ("properties", JObject [
            ("id", JObject [("type", JString "string"); ("format", JString "uuid")]);
            ("kind", JObject [
              ("type", JString "string");
              ("enum", JArray [JString "source"; JString "transform"; JString "export"])]);
            ("componentType", JObject [("type", JString "string"); ("pattern", JString "^[a-z][a-z0-9]*(?:[._-][a-z0-9]+)*$")]);
            ("componentVersion", JObject [("type", JString "string"); ("pattern", JString "^v\d+$")]);
            ("configuration", JObject [
              ("type", JString "object");
              ("properties", JObject [
                ("values", JObject [
                  ("type", JString "object");
                  ("patternProperties", JObject [
                    ("^(?!(?:.*(?:[Aa][Pp][Ii][_\-]?[Kk][Ee][Yy]|[Aa][Uu][Tt][Hh][Oo][Rr][Ii][Zz][Aa][Tt][Ii][Oo][Nn]|[Cc][Rr][Ee][Dd][Ee][Nn][Tt][Ii][Aa][Ll]|[Pp][Aa][Ss][Ss][Ww][Oo][Rr][Dd]|[Ss][Ee][Cc][Rr][Ee][Tt]|[Tt][Oo][Kk][Ee][Nn]))).+$", JObject [("$ref", JString "#/$defs/nonSecretJsonValue")])]);
                  ("additionalProperties", JBool false)]);
                ("secretBindings", JObject [
                  ("type", JString "array");
                  ("items", JObject [
                    ("type", JString "object");
                    ("properties", JObject [
                      ("key", JObject [("type", JString "string"); ("minLength", JNumber (NInt 1))]);
                      ("binding", JObject [("type", JString "string"); ("minLength", JNumber (NInt 1))])]);
                    ("required", JArray [JString "key"; JString "binding"]);
                    ("additionalProperties", JBool false)])])]);
              ("required", JArray [JString "values"; JString "secretBindings"]);
              ("additionalProperties", JBool false)])]);
          ("required", JArray [
            JString "id";
            JString "kind";
            JString "componentType";
            JString "componentVersion";
            JString "configuration"]);
          ("additionalProperties", JBool false)])]);
      ("edges", JObject [
        ("type", JString "array");
        ("items", JObject [
          ("type", JString "object");
          ("properties", JObject [
            ("fromStepId", JObject [("type", JString "string"); ("format", JString "uuid")]);
            ("toStepId", JObject [("type", JString "string"); ("format", JString "uuid")])]);
          ("required", JArray [JString "fromStepId"; JString "toStepId"]);
          ("additionalProperties", JBool false)])]);
      ("triggers", JObject [
        ("type", JString "array");
        ("items", JObject [
          ("oneOf", JArray [
            JObject [
              ("type", JString "object");
              ("properties", JObject [
                ("id", JObject [("type", JString "string"); ("format", JString "uuid")]);
                ("pipelineId", JObject [("type", JString "string"); ("format", JString "uuid")]);
                ("type", JObject [("type", JString "string"); ("const", JString "manual")]);
                ("enabled", JObject [("type", JString "boolean")])]);
              ("required", JArray [JString "id"; JString "pipelineId"; JString "type"; JString "enabled"]);
              ("additionalProperties", JBool false)];
            JObject [
              ("type", JString "object");
              ("properties", JObject [
                ("id", JObject [("type", JString "string"); ("format", JString "uuid")]);
                ("pipelineId", JObject [("type", JString "string"); ("format", JString "uuid")]);
                ("type", JObject [("type", JString "string"); ("const", JString "schedule")]);
                ("enabled", JObject [("type", JString "boolean")]);
                ("cron", JObject [("type", JString "string"); ("minLength", JNumber (NInt 1))]);
                ("timezone", JObject [("type", JString "string"); ("minLength", JNumber (NInt 1))])]);
              ("required", JArray [
                JString "id";
                JString "pipelineId";
                JString "type";
                JString "enabled";
                JString "cron";
                JString "timezone"]);
              ("additionalProperties", JBool false)]])])])]);
    ("required", JArray [
      JString "contractVersion";
      JString "id";
      JString "ownerUserId";
      JString "name";
      JString "state";
      JString "createdAt";
      JString "updatedAt";
      JString "steps";
      JString "edges";
      JString "triggers"]);
    ("additionalProperties", JBool false);
    ("$defs", JObject [
      ("nonSecretJsonValue", JObject [
        ("anyOf", JArray [
          JObject [("type", JString "string")];
          JObject [("type", JString "number")];
          JObject [("type", JString "boolean")];
          JObject [("type", JString "null")];
          JObject [
            ("type", JString "array");
            ("items", JObject [("$ref", JString "#/$defs/nonSecretJsonValue")])];
          JObject [
            ("type", JString "object");
            ("patternProperties", JObject [
              ("^(?!(?:.*(?:[Aa][Pp][Ii][_\-]?[Kk][Ee][Yy]|[Aa][Uu][Tt][Hh][Oo][Rr][Ii][Zz][Aa][Tt][Ii][Oo][Nn]|[Cc][Rr][Ee][Dd][Ee][Nn][Tt][Ii][Aa][Ll]|[Pp][Aa][Ss][Ss][Ww][Oo][Rr][Dd]|[Ss][Ee][Cc][Rr][Ee][Tt]|[Tt][Oo][Kk][Ee][Nn]))).+$", JObject [("$ref", JString "#/$defs/nonSecretJsonValue")])]);
            ("additionalProperties", JBool false)]])])]);
    ("$id", JString "https://pantaetl.dev/schemas/pipeline.schema.json")].

(** [pipeline-api.schema.json] *)
Definition pipelineApi : Json := JObject [
    ("$schema", JString "https://json-schema.org/draft/2020-12/schema");
    ("$comment", JString "Canonical control-plane API contract definitions.");
    ("$id", JString "https://pantaetl.dev/schemas/pipeline-api.schema.json");
    ("title", JString "PipelineApiContracts");
    ("type", JString "object");
    ("properties", JObject [
      ("pipelineListRequest", JObject [("$ref", JString "#/$defs/pipelineListRequest")]);
      ("pipelineListResponse", JObject [("$ref", JString "#/$defs/pipelineListResponse")]);
      ("pipelineCreateRequest", JObject [("$ref", JString "#/$defs/pipelineCreateRequest")]);
      ("pipelineCreateResponse", JObject [("$ref", JString "#/$defs/pipelineCreateResponse")]);
      ("pipelineDetailRequest", JObject [("$ref", JString "#/$defs/pipelineDetailRequest")]);
      ("pipelineDetailResponse", JObject [("$ref", JString "#/$defs/pipelineDetailResponse")]);
      ("pipelineUpdateRequest", JObject [("$ref", JString "#/$defs/pipelineUpdateRequest")]);
      ("pipelineUpdateResponse", JObject [("$ref", JString "#/$defs/pipelineUpdateResponse")]);
      ("pipelineDeleteRequest", JObject [("$ref", JString "#/$defs/pipelineDeleteRequest")]);
      ("pipelineDuplicateRequest", JObject [("$ref", JString "#/$defs/pipelineDuplicateRequest")]);
      ("pipelineDuplicateBodyRequest", JObject [("$ref", JString "#/$defs/pipelineDuplicateBodyRequest")]);
      ("pipelineDuplicateResponse", JObject [("$ref", JString "#/$defs/pipelineDuplicateResponse")]);
      ("pipelineRunRequest", JObject [("$ref", JString "#/$defs/pipelineRunRequest")]);
      ("pipelineRunResponse", JObject [("$ref", JString "#/$defs/pipelineRunResponse")]);
      ("pipelineStateActionRequest", JObject [("$ref", JString "#/$defs/pipelineStateActionRequest")]);
      ("pipelineStateActionResponse", JObject [("$ref", JString "#/$defs/pipelineStateActionResponse")]);
      ("pipelineExecutionStateRequest", JObject [("$ref", JString "#/$defs/pipelineExecutionStateRequest")]);
      ("pipelineExecutionStateResponse", JObject [("$ref", JString "#/$defs/pipelineExecutionStateResponse")])]);
    ("required", JArray [
      JString "pipelineListRequest";
      JString "pipelineListResponse";
      JString "pipelineCreateRequest";
      JString "pipelineCreateResponse";
      JString "pipelineDetailRequest";
      JString "pipelineDetailResponse";
      JString "pipelineUpdateRequest";
      JString "pipelineUpdateResponse";
      JString "pipelineDeleteRequest";
      JString "pipelineDuplicateRequest";
      JString "pipelineDuplicateBodyRequest";
      JString "pipelineDuplicateResponse";
      JString "pipelineRunRequest";
      JString "pipelineRunResponse";
      JString "pipelineStateActionRequest";
      JString "pipelineStateActionResponse";
      JString "pipelineExecutionStateRequest";
      JString "pipelineExecutionStateResponse"]);
    ("additionalProperties", JBool false);
    ("$defs", JObject [
      ("emptyRequest", JObject [("type", JString "object"); ("additionalProperties", JBool false)]);
      ("pipelineIdentifier", JObject [("$ref", JString "https://pantaetl.dev/schemas/common.schema.json#/properties/identifier")]);
      ("contractVersion", JObject [
        ("$ref", JString "https://pantaetl.dev/schemas/pipeline.schema.json#/properties/contractVersion")]);
      ("pipelineName", JObject [("$ref", JString "https://pantaetl.dev/schemas/pipeline.schema.json#/properties/name")]);
      ("pipelineState", JObject [("$ref", JString "https://pantaetl.dev/schemas/pipeline.schema.json#/properties/state")]);
      ("pipelineSteps", JObject [("$ref", JString "https://pantaetl.dev/schemas/pipeline.schema.json#/properties/steps")]);
      ("pipelineEdges", JObject [("$ref", JString "https://pantaetl.dev/schemas/pipeline.schema.json#/properties/edges")]);
      ("pipelineTriggers", JObject [("$ref", JString "https://pantaetl.dev/schemas/pipeline.schema.json#/properties/triggers")]);
      ("writablePipelineTrigger", JObject [
        ("oneOf", JArray [
          JObject [
            ("type", JString "object");
            ("properties", JObject [
              ("type", JObject [("const", JString "manual")]);
              ("enabled", JObject [("type", JString "boolean")])]);
            ("required", JArray [JString "type"; JString "enabled"]);
            ("additionalProperties", JBool false)];
          JObject [
            ("type", JString "object");
            ("properties", JObject [
              ("type", JObject [("const", JString "schedule")]);
              ("enabled", JObject [("type", JString "boolean")]);
              ("cron", JObject [("type", JString "string"); ("minLength", JNumber (NInt 1))]);
              ("timezone", JObject [("type", JString "string"); ("minLength", JNumber (NInt 1))])]);
            ("required", JArray [JString "type"; JString "enabled"; JString "cron"; JString "timezone"]);
            ("additionalProperties", JBool false)]])]);
      ("writablePipelineTriggers", JObject [
        ("type", JString "array");
        ("items", JObject [("$ref", JString "#/$defs/writablePipelineTrigger")])]);
      ("pipeline", JObject [("$ref", JString "https://pantaetl.dev/schemas/pipeline.schema.json")]);
      ("pipelineListRequest", JObject [("$ref", JString "#/$defs/emptyRequest")]);
      ("pipelineListResponse", JObject [
        ("type", JString "object");
        ("properties", JObject [
          ("pipelines", JObject [("type", JString "array"); ("items", JObject [("$ref", JString "#/$defs/pipeline")])])]);
        ("required", JArray [JString "pipelines"]);
        ("additionalProperties", JBool false)]);
      ("pipelineCreateRequest", JObject [
        ("type", JString "object");
        ("properties", JObject [
          ("contractVersion", JObject [("$ref", JString "#/$defs/contractVersion")]);
          ("name", JObject [("$ref", JString "#/$defs/pipelineName")]);
          ("steps", JObject [("$ref", JString "#/$defs/pipelineSteps")]);
          ("edges", JObject [("$ref", JString "#/$defs/pipelineEdges")]);
          ("triggers", JObject [("$ref", JString "#/$defs/writablePipelineTriggers")])]);
        ("required", JArray [
          JString "contractVersion";
          JString "name";
          JString "steps";
          JString "edges";
          JString "triggers"]);
        ("additionalProperties", JBool false)]);
      ("pipelineCreateResponse", JObject [("$ref", JString "#/$defs/pipeline")]);
      ("pipelineDetailRequest", JObject [
        ("type", JString "object");
        ("properties", JObject [("pipelineId", JObject [("$ref", JString "#/$defs/pipelineIdentifier")])]);
        ("required", JArray [JString "pipelineId"]);
        ("additionalProperties", JBool false)]);
      ("pipelineDetailResponse", JObject [("$ref", JString "#/$defs/pipeline")]);
      ("pipelineUpdateRequest", JObject [
        ("type", JString "object");
        ("properties", JObject [
          ("name", JObject [("$ref", JString "#/$defs/pipelineName")]);
          ("state", JObject [("$ref", JString "#/$defs/pipelineState")]);
          ("steps", JObject [("$ref", JString "#/$defs/pipelineSteps")]);
          ("edges", JObject [("$ref", JString "#/$defs/pipelineEdges")]);
          ("triggers", JObject [("$ref", JString "#/$defs/writablePipelineTriggers")])]);
        ("minProperties", JNumber (NInt 1));
        ("additionalProperties", JBool false)]);
      ("pipelineUpdateResponse", JObject [("$ref", JString "#/$defs/pipeline")]);
      ("pipelineDeleteRequest", JObject [("$ref", JString "#/$defs/pipelineDetailRequest")]);
      ("pipelineDuplicateName", JObject [("$ref", JString "https://pantaetl.dev/schemas/pipeline.schema.json#/properties/name")]);
      ("pipelineDuplicateBodyRequest", JObject [
        ("type", JString "object");
        ("properties", JObject [("name", JObject [("$ref", JString "#/$defs/pipelineDuplicateName")])]);
        ("additionalProperties", JBool false)]);
      ("pipelineDuplicateRequest", JObject [
        ("type", JString "object");
        ("properties", JObject [
          ("pipelineId", JObject [("$ref", JString "#/$defs/pipelineIdentifier")]);
          ("name", JObject [("$ref", JString "#/$defs/pipelineDuplicateName")])]);
        ("required", JArray [JString "pipelineId"]);
        ("additionalProperties", JBool false)]);
      ("pipelineDuplicateResponse", JObject [("$ref", JString "#/$defs/pipeline")]);
      ("pipelineRunRequest", JObject [("$ref", JString "#/$defs/pipelineDetailRequest")]);
      ("pipelineRunResponse", JObject [
        ("type", JString "object");
        ("properties", JObject [
          ("pipelineId", JObject [("$ref", JString "#/$defs/pipelineIdentifier")]);
          ("runId", JObject [("$ref", JString "#/$defs/pipelineIdentifier")]);
          ("initialJobCount", JObject [
            ("type", JString "integer");
            ("minimum", JNumber (NInt 0));
            ("maximum", JNumber (NInt 9007199254740991))]);
          ("queuedBehindActiveRun", JObject [("type", JString "boolean")])]);
        ("required", JArray [
          JString "pipelineId";
          JString "runId";
          JString "initialJobCount";
          JString "queuedBehindActiveRun"]);
        ("additionalProperties", JBool false)]);
      ("pipelineStateActionRequest", JObject [("$ref", JString "#/$defs/pipelineDetailRequest")]);
      ("pipelineStateActionResponse", JObject [("$ref", JString "#/$defs/pipeline")]);
      ("pipelineExecutionStateRequest", JObject [("$ref", JString "#/$defs/pipelineDetailRequest")]);
      ("activeRun", JObject [
        ("type", JString "object");
        ("properties", JObject [
          ("id", JObject [("$ref", JString "#/$defs/pipelineIdentifier")]);
          ("state", JObject [("enum", JArray [JString "queued"; JString "running"])])]);
        ("required", JArray [JString "id"; JString "state"]);
        ("additionalProperties", JBool false)]);
      ("pipelineExecutionStateResponse", JObject [
        ("type", JString "object");
        ("properties", JObject [("activeRun", JObject [("$ref", JString "#/$defs/activeRun")])]);
        ("additionalProperties", JBool false)])])].

(** [run.schema.json] *)
Definition run : Json := JObject [
    ("$schema", JString "https://json-schema.org/draft/2020-12/schema");
    ("$comment", JString "Canonical contract definition. Generated language artifacts must not be edited manually.");
    ("title", JString "Run");
    ("type", JString "object");
    ("properties", JObject [
      ("contractVersion", JObject [("type", JString "string"); ("const", JString "v1")]);
      ("id", JObject [("type", JString "string"); ("format", JString "uuid")]);
      ("pipelineId", JObject [("type", JString "string"); ("format", JString "uuid")]);
      ("state", JObject [
        ("type", JString "string");
        ("enum", JArray [
          JString "queued";
          JString "running";
          JString "succeeded";
          JString "completed_with_warnings";
          JString "failed";
          JString "cancelled"])]);
      ("createdAt", JObject [("type", JString "string"); ("format", JString "date-time")]);
      ("startedAt", JObject [("type", JString "string"); ("format", JString "date-time")]);
      ("completedAt", JObject [("type", JString "string"); ("format", JString "date-time")]);
      ("cancellationRequestedAt", JObject [("type", JString "string"); ("format", JString "date-time")]);
      ("warningCount", JObject [
        ("type", JString "integer");
        ("minimum", JNumber (NInt 0));
        ("maximum", JNumber (NInt 9007199254740991))]);
      ("steps", JObject [
        ("type", JString "array");
        ("items", JObject [
          ("type", JString "object");
          ("properties", JObject [
            ("stepId", JObject [("type", JString "string"); ("format", JString "uuid")]);
            ("componentId", JObject [("type", JString "string"); ("format", JString "uuid")]);
            ("state", JObject [
              ("type", JString "string");
              ("enum", JArray [
                JString "queued";
                JString "running";
                JString "succeeded";
                JString "completed_with_warnings";
                JString "failed";
                JString "cancelled"])]);
            ("startedAt", JObject [("type", JString "string"); ("format", JString "date-time")]);
            ("completedAt", JObject [("type", JString "string"); ("format", JString "date-time")]);
            ("warningCount", JObject [
              ("type", JString "integer");
              ("minimum", JNumber (NInt 0));
              ("maximum", JNumber (NInt 9007199254740991))]);
            ("metrics", JObject [
              ("type", JString "object");
              ("properties", JObject [
                ("recordsRead", JObject [
                  ("type", JString "integer");
                  ("minimum", JNumber (NInt 0));
                  ("maximum", JNumber (NInt 9007199254740991))]);
                ("recordsWritten", JObject [
                  ("type", JString "integer");
                  ("minimum", JNumber (NInt 0));
                  ("maximum", JNumber (NInt 9007199254740991))]);
                ("bytesRead", JObject [
                  ("type", JString "integer");
                  ("minimum", JNumber (NInt 0));
                  ("maximum", JNumber (NInt 9007199254740991))]);
                ("bytesWritten", JObject [
                  ("type", JString "integer");
                  ("minimum", JNumber (NInt 0));
                  ("maximum", JNumber (NInt 9007199254740991))]);
                ("durationMilliseconds", JObject [
                  ("type", JString "integer");
                  ("minimum", JNumber (NInt 0));
                  ("maximum", JNumber (NInt 9007199254740991))])]);
              ("additionalProperties", JBool false)]);
            ("error", JObject [
              ("type", JString "object");
              ("properties", JObject [
                ("code", JObject [("type", JString "string"); ("minLength", JNumber (NInt 1))]);
                ("message", JObject [("type", JString "string"); ("minLength", JNumber (NInt 1))]);
                ("field", JObject [("type", JString "string"); ("minLength", JNumber (NInt 1))]);
                ("rowIndex", JObject [
                  ("type", JString "integer");
                  ("minimum", JNumber (NInt 0));
                  ("maximum", JNumber (NInt 9007199254740991))])]);
              ("required", JArray [JString "code"; JString "message"]);
              ("additionalProperties", JBool false)])]);
          ("required", JArray [
            JString "stepId";
            JString "componentId";
            JString "state";
            JString "warningCount";
            JString "metrics"]);
          ("additionalProperties", JBool false)])])]);
    ("required", JArray [
      JString "contractVersion";
      JString "id";
      JString "pipelineId";
      JString "state";
      JString "createdAt";
      JString "warningCount";
      JString "steps"]);
    ("additionalProperties", JBool false);
    ("$id", JString "https://pantaetl.dev/schemas/run.schema.json")].

(** [source-execution-request.schema.json] *)
Definition sourceExecutionRequest : Json := JObject [
    ("$schema", JString "https://json-schema.org/draft/2020-12/schema");
    ("$comment", JString "Canonical contract definition. Generated language artifacts must not be edited manually.");
    ("title", JString "SourceExecutionRequest");
    ("type", JString "object");
    ("properties", JObject [
      ("contractVersion", JObject [("type", JString "string"); ("const", JString "v1")]);
      ("jobId", JObject [("type", JString "string"); ("format", JString "uuid")]);
      ("pipelineId", JObject [("type", JString "string"); ("format", JString "uuid")]);
      ("runId", JObject [("type", JString "string"); ("format", JString "uuid")]);
      ("stepId", JObject [("type", JString "string"); ("format", JString "uuid")]);
      ("componentId", JObject [("type", JString "string"); ("format", JString "uuid")]);
      ("componentType", JObject [("type", JString "string"); ("pattern", JString "^source\.[a-z][a-z0-9]*(?:[._-][a-z0-9]+)*$")]);
      ("componentVersion", JObject [("type", JString "string"); ("pattern", JString "^v\d+$")]);
      ("configuration", JObject [
        ("type", JString "object");
        ("properties", JObject [
          ("values", JObject [
            ("type", JString "object");
            ("patternProperties", JObject [
              ("^(?!(?:.*(?:[Aa][Pp][Ii][_\-]?[Kk][Ee][Yy]|[Aa][Uu][Tt][Hh][Oo][Rr][Ii][Zz][Aa][Tt][Ii][Oo][Nn]|[Cc][Rr][Ee][Dd][Ee][Nn][Tt][Ii][Aa][Ll]|[Pp][Aa][Ss][Ss][Ww][Oo][Rr][Dd]|[Ss][Ee][Cc][Rr][Ee][Tt]|[Tt][Oo][Kk][Ee][Nn]))).+$", JObject [("$ref", JString "#/$defs/nonSecretJsonValue")])]);
            ("additionalProperties", JBool false)]);
          ("secretBindings", JObject [
            ("type", JString "array");
            ("items", JObject [
              ("type", JString "object");
              ("properties", JObject [
                ("key", JObject [("type", JString "string"); ("minLength", JNumber (NInt 1))]);
                ("binding", JObject [("type", JString "string"); ("minLength", JNumber (NInt 1))])]);
              ("required", JArray [JString "key"; JString "binding"]);
              ("additionalProperties", JBool false)])])]);
        ("required", JArray [JString "values"; JString "secretBindings"]);
        ("additionalProperties", JBool false)])]);
    ("required", JArray [
      JString "contractVersion";
      JString "jobId";
      JString "pipelineId";
      JString "runId";
      JString "stepId";
      JString "componentId";
      JString "componentType";
      JString "componentVersion";
      JString "configuration"]);
    ("additionalProperties", JBool false);
    ("$defs", JObject [
      ("nonSecretJsonValue", JObject [
        ("anyOf", JArray [
          JObject [("type", JString "string")];
          JObject [("type", JString "number")];
          JObject [("type", JString "boolean")];
          JObject [("type", JString "null")];
          JObject [
            ("type", JString "array");
            ("items", JObject [("$ref", JString "#/$defs/nonSecretJsonValue")])];
          JObject [
            ("type", JString "object");
            ("patternProperties", JObject [
              ("^(?!(?:.*(?:[Aa][Pp][Ii][_\-]?[Kk][Ee][Yy]|[Aa][Uu][Tt][Hh][Oo][Rr][Ii][Zz][Aa][Tt][Ii][Oo][Nn]|[Cc][Rr][Ee][Dd][Ee][Nn][Tt][Ii][Aa][Ll]|[Pp][Aa][Ss][Ss][Ww][Oo][Rr][Dd]|[Ss][Ee][Cc][Rr][Ee][Tt]|[Tt][Oo][Kk][Ee][Nn]))).+$", JObject [("$ref", JString "#/$defs/nonSecretJsonValue")])]);
            ("additionalProperties", JBool false)]])])]);
    ("$id", JString "https://pantaetl.dev/schemas/source-execution-request.schema.json")].

(** [upload-api.schema.json] *)
Definition uploadApi : Json := JObject [
    ("$schema", JString "https://json-schema.org/draft/2020-12/schema");
    ("$comment", JString "Canonical control-plane API contract definitions for files staged for file-backed Sources.");
    ("$id", JString "https://pantaetl.dev/schemas/upload-api.schema.json");
    ("title", JString "SourceUploadApiContracts");
    ("type", JString "object");
    ("properties", JObject [("sourceUploadResponse", JObject [("$ref", JString "#/$defs/sourceUploadResponse")])]);
    ("required", JArray [JString "sourceUploadResponse"]);
    ("additionalProperties", JBool false);
    ("$defs", JObject [
      ("sourceUploadResponse", JObject [
        ("$comment", JString "Describes where an accepted file came to rest and how long it survives unclaimed.");
        ("type", JString "object");
        ("properties", JObject [
          ("sourcePath", JObject [
            ("$comment", JString "The value a file-backed Source resolves, relative to the import directory.");
            ("type", JString "string");
            ("minLength", JNumber (NInt 1))]);
          ("fileName", JObject [("type", JString "string"); ("minLength", JNumber (NInt 1))]);
          ("byteSize", JObject [("type", JString "integer"); ("minimum", JNumber (NInt 0))]);
          ("expiresAt", JObject [
            ("$comment", JString "When retention reclaims the file if no pipeline configuration has claimed it.");
            ("type", JString "string");
            ("format", JString "date-time")])]);
        ("required", JArray [JString "sourcePath"; JString "fileName"; JString "byteSize"; JString "expiresAt"]);
        ("additionalProperties", JBool false)])])].
End canonicalSchemas.
