(* ===== verification/JsonSchema.v ===== *)
(** * JSON Schema

    [packages/contracts/src/json-schema.ts]: the fragments of the canonical
    documents the validators and the API description are made of. What a schema
    accepts is a specification, [validate]: the meaning draft 2020-12 gives to
    the keywords the documents use, with references resolved in a registry of
    documents, for what [zodFromJsonSchema] makes of a schema by means of two
    libraries. Running out of fuel, a pattern other than those of the documents
    and a reference that leads nowhere are [None]. *)

From S2P Require Import Prelude Js Contracts Schemas CanonicalSchemas.

(** ** Objects *)

Definition field (j : Json) (key : string) : option Json :=
  match j with JObject fields => get_field fields key | _ => None end.

(** [fields\[key\] = value] *)
Fixpoint assign (fields : list (string * Json)) (key : string) (value : Json) : list (string * Json) :=
  match fields with
  | [] => [(key, value)]
  | (k, v) :: fields => if decide (k = key) then (k, value) :: fields else (k, v) :: assign fields key value
  end.

(** The properties a spread copies. *)
Definition spread (j : Json) : list (string * Json) := match j with JObject fields => fields | _ => [] end.

Definition truthy (j : option Json) : option Json :=
  match j with
  | None | Some JNull | Some (JBool false) | Some (JNumber (NInt 0)) | Some (JNumber NNaN) | Some (JString "") => None
  | Some j => Some j
  end.

(** [a ?? b] *)
Definition nullish (a b : option Json) : option Json := match a with None | Some JNull => b | _ => a end.

(** ** Fragments *)

Definition retainDefinitions (parent fragment : Json) : Json :=
  match fragment with
  | JObject _ =>
      match truthy (nullish (field parent "$defs") (field parent "definitions")) with
      | None => fragment
      | Some definitions => JObject (assign (spread fragment) "$defs" definitions)
      end
  | _ => fragment
  end.

Definition propertySchema (schema : Json) (propertyName : string) : result Json :=
  match truthy (field schema "properties" ≫= λ properties, field properties propertyName) with
  | None => Throw (JsError ("Canonical JSON Schema is missing property " +:+ propertyName +:+ "."))
  | Some property => Ok (retainDefinitions schema property)
  end.

Definition arrayItemSchema (schema : Json) : result Json :=
  match truthy (field schema "items") with
  | None => Throw (JsError "Canonical JSON Schema is missing array items.")
  | Some items => Ok (retainDefinitions schema items)
  end.

Definition definitionSchema (schema : Json) (definitionName : string) : result Json :=
  let definitions := nullish (field schema "$defs") (field schema "definitions") in
  match truthy (definitions ≫= λ definitions, field definitions definitionName) with
  | None => Throw (JsError ("Canonical JSON Schema is missing definition " +:+ definitionName +:+ "."))
  | Some definition => Ok (JObject (assign (spread definition) "$defs" (default JNull definitions)))
  end.

(** ** References *)

(** The parts of a text before and after the first occurrence of a
    character. *)
Fixpoint breakAt (c : ascii) (s : string) : string * option string :=
  match s with
  | EmptyString => ("", None)
  | String c' s =>
      if decide (c' = c) then ("", Some s)
      else let '(before, after) := breakAt c s in (String c' before, after)
  end.

(** The text between the separators. *)
Fixpoint segments (c : ascii) (s : string) : list string :=
  match s with
  | EmptyString => [""]
  | String c' s =>
      if decide (c' = c) then "" :: segments c s
      else match segments c s with
           | word :: words => String c' word :: words
           | [] => [String c' ""]
           end
  end.

(** A JSON pointer. *)
Definition pointer (document : Json) (fragment : string) : option Json :=
  match segments "/" fragment with
  | [""] => Some document
  | "" :: keys => foldl (λ j key, j ≫= λ j, field j key) (Some document) keys
  | _ => None
  end.

(** The documents by the address they are referred to. *)
Definition Registry : Type := list (string * Json).

(** What a reference in a document refers to, with the document it is in. *)
Definition resolveReference (registry : Registry) (base : Json) (reference : string) : option (Json * Json) :=
  let '(address, fragment) := breakAt "#" reference in
  document ← (if decide (address = "") then Some base else get_field registry address);
  target ← pointer document (default "" fragment);
  Some (document, target).

(** ** Validation *)

Definition both (a b : option bool) : option bool :=
  match a, b with Some a, Some b => Some (a && b) | _, _ => None end.
Definition allOf (l : list (option bool)) : option bool := foldr both (Some true) l.
Definition countValid (l : list (option bool)) : option nat :=
  foldr (λ r n, match r, n with Some r, Some n => Some (if (r : bool) then S n else n) | _, _ => None end) (Some 0) l.

(** Scalars are compared by [const] and [enum]. *)
Definition sameScalar (a b : Json) : bool :=
  match a, b with
  | JNull, JNull => true
  | JBool a, JBool b => Bool.eqb a b
  | JNumber a, JNumber b => bool_decide (a = b)
  | JString a, JString b => String.eqb a b
  | _, _ => false
  end.

(** The regular expressions of the documents. *)
Definition componentTypePattern : string := "^[a-z][a-z0-9]*(?:[._-][a-z0-9]+)*$".
Definition versionPattern : string := "^v\d+$".
Definition fieldKeyPattern : string := "^[a-z][a-zA-Z0-9_]*$".
Definition nonSecretKeyPattern : string :=
  "^(?!(?:.*(?:[Aa][Pp][Ii][_\-]?[Kk][Ee][Yy]|[Aa][Uu][Tt][Hh][Oo][Rr][Ii][Zz][Aa][Tt][Ii][Oo][Nn]|[Cc][Rr][Ee][Dd][Ee][Nn][Tt][Ii][Aa][Ll]|[Pp][Aa][Ss][Ss][Ww][Oo][Rr][Dd]|[Ss][Ee][Cc][Rr][Ee][Tt]|[Tt][Oo][Kk][Ee][Nn]))).+$".
Definition sourceTypePattern : string := "^source\.[a-z][a-z0-9]*(?:[._-][a-z0-9]+)*$".

(** [new RegExp(pattern).test(s)], for the patterns of the documents. *)
Definition testPattern (pattern s : string) : option bool :=
  if decide (pattern = componentTypePattern) then Some (matchesComponentType s)
  else if decide (pattern = versionPattern) then Some (matchesVersion s)
  else if decide (pattern = fieldKeyPattern) then Some (matchesFieldKey s)
  else if decide (pattern = nonSecretKeyPattern) then Some (matchesNonSecretKey s)
  else if decide (pattern = sourceTypePattern) then
    Some (String.prefix "source." s && matchesComponentType (String.substring 7 (String.length s - 7) s))
  else None.

Section validation.
Context `{!Formats} (is_date_time : string → bool).

Definition hasFormat (format s : string) : bool :=
  if decide (format = "uuid") then is_uuid s
  else if decide (format = "date-time") then is_date_time s
  else true.

Definition hasType (type : string) (j : Json) : bool :=
  match j with
  | JNull => String.eqb type "null"
  | JBool _ => String.eqb type "boolean"
  | JNumber (NInt _) => String.eqb type "number" || String.eqb type "integer"
  | JNumber (NFrac _ _) => String.eqb type "number"
  | JNumber _ => false
  | JString _ => String.eqb type "string"
  | JArray _ => String.eqb type "array"
  | JObject _ => String.eqb type "object"
  end.

(** A keyword with a value of the form it needs; what has another form, or is
    absent, restricts nothing. *)
Definition textKeyword (schema : list (string * Json)) (keyword : string) (test : string → option bool) : option bool :=
  match get_field schema keyword with Some (JString text) => test text | _ => Some true end.
Definition numberKeyword (schema : list (string * Json)) (keyword : string) (test : Z → bool) : option bool :=
  match get_field schema keyword with Some (JNumber (NInt n)) => Some (test n) | _ => Some true end.

(** Whether a number is related to an integer as the keyword asks. *)
Definition compares (relation : Z → Z → bool) (j : Json) (bound : Z) : bool :=
  match j with
  | JNumber (NInt n) => relation n bound
  | JNumber (NFrac num den) => relation num (bound * Zpos den)%Z
  | _ => true
  end.

Definition scalarKeywords (schema : list (string * Json)) (j : Json) : option bool :=
  allOf [
    textKeyword schema "type" (λ type, Some (hasType type j));
    Some (match get_field schema "const" with Some value => sameScalar value j | None => true end);
    Some (match get_field schema "enum" with Some (JArray l) => existsb (λ value, sameScalar value j) l | _ => true end);
    textKeyword schema "format" (λ format, match j with JString s => Some (hasFormat format s) | _ => Some true end);
    textKeyword schema "pattern" (λ pattern, match j with JString s => testPattern pattern s | _ => Some true end);
    numberKeyword schema "minLength" (λ n, match j with JString s => (n <=? Z.of_nat (String.length s))%Z | _ => true end);
    numberKeyword schema "minItems" (λ n, match j with JArray l => (n <=? Z.of_nat (length l))%Z | _ => true end);
    numberKeyword schema "minProperties" (λ n, match j with
      | JObject fields => (n <=? Z.of_nat (length (remove_dups fields.*1)))%Z | _ => true end);
    numberKeyword schema "minimum" (compares Z.geb j);
    numberKeyword schema "exclusiveMinimum" (compares Z.gtb j);
    numberKeyword schema "maximum" (compares Z.leb j)].

Definition requiredKeyword (schema fields : list (string * Json)) : option bool :=
  match get_field schema "required" with
  | Some (JArray keys) => Some (forallb (λ key, match key with
      | JString key => match get_field fields key with Some _ => true | None => false end | _ => true end) keys)
  | _ => Some true
  end.

(** The schemas of the patterns a key matches. *)
Definition patternSchemas (patterns : list (string * Json)) (key : string) : option (list Json) :=
  foldr (λ p l, match testPattern p.1 key, l with
                | Some true, Some l => Some (p.2 :: l)
                | Some false, Some l => Some l
                | _, _ => None
                end) (Some []) patterns.

Fixpoint validate (fuel : nat) (registry : Registry) (base schema j : Json) : option bool :=
  match fuel with
  | O => None
  | S fuel =>
      match schema with
      | JBool b => Some b
      | JObject schema =>
          let properties := spread (default JNull (get_field schema "properties")) in
          let patterns := spread (default JNull (get_field schema "patternProperties")) in
          both (scalarKeywords schema j)
          (both (textKeyword schema "$ref" (λ reference,
             match resolveReference registry base reference with
             | Some (document, target) => validate fuel registry document target j
             | None => None
             end))
          (both (match get_field schema "anyOf" with
                 | Some (JArray l) => (λ n, negb (n =? 0)) <$> countValid (map (λ s, validate fuel registry base s j) l)
                 | _ => Some true
                 end)
          (both (match get_field schema "oneOf" with
                 | Some (JArray l) => (λ n, n =? 1) <$> countValid (map (λ s, validate fuel registry base s j) l)
                 | _ => Some true
                 end)
          (match j with
           | JArray l =>
               match get_field schema "items" with
               | Some items => allOf (map (validate fuel registry base items) l)
               | None => Some true
               end
           | JObject fields =>
               both (requiredKeyword schema fields)
               (both (allOf (map (λ p : string * Json, match get_field fields p.1 with
                                    | Some value => validate fuel registry base p.2 value | None => Some true end) properties))
               (both (match get_field schema "propertyNames" with
                      | Some names => allOf (map (λ f : string * Json, validate fuel registry base names (JString f.1)) fields)
                      | None => Some true
                      end)
               (allOf (map (λ f : string * Json, match patternSchemas patterns f.1 with
                         | None => None
                         | Some [] =>
                             match get_field properties f.1, get_field schema "additionalProperties" with
                             | None, Some additional => validate fuel registry base additional f.2
                             | _, _ => Some true
                             end
                         | Some schemas => allOf (map (λ s, validate fuel registry base s f.2) schemas)
                         end) fields))))
           | _ => Some true
           end))))
      | _ => None
      end
  end.
End validation.

(** ** The documents *)

Module canonical.
Import canonicalSchemas.

(** The addresses the canonical documents refer to each other by. *)
Definition registry : Registry := [
  ("https://pantaetl.dev/schemas/common.schema.json", common);
  ("https://pantaetl.dev/schemas/component-metadata.schema.json", componentMetadata);
  ("https://pantaetl.dev/schemas/pipeline.schema.json", pipeline);
  ("https://pantaetl.dev/schemas/pipeline-api.schema.json", pipelineApi)].

(** [common/identifiers.ts], [common/version.ts] and [common/primitives.ts] *)
Definition identifierSchema : result Json := propertySchema common "identifier".
Definition contractVersionSchema : result Json := propertySchema common "contractVersion".
Definition versionSchema : result Json := propertySchema common "version".

(** [pipeline/definition.ts] *)
Definition stepsSchema : result Json := propertySchema pipeline "steps".
Definition stepSchema : result Json := stepsSchema ≫= arrayItemSchema.
Definition edgesSchema : result Json := propertySchema pipeline "edges".
Definition edgeSchema : result Json := edgesSchema ≫= arrayItemSchema.
Definition configurationSchema : result Json := stepSchema ≫= λ schema, propertySchema schema "configuration".
Definition secretBindingsSchema : result Json :=
  configurationSchema ≫= λ schema, propertySchema schema "secretBindings".
Definition secretBindingSchema : result Json := secretBindingsSchema ≫= arrayItemSchema.
Definition stateSchema : result Json := propertySchema pipeline "state".

(** [api/pipelines.ts] *)
Definition nameSchema : result Json := propertySchema pipeline "name".

(** [components/metadata.ts] *)
Definition componentTypeSchema : result Json := propertySchema componentMetadata "type".
Definition translationKeySchema : result Json := propertySchema componentMetadata "displayNameKey".
Definition configFieldsSchema : result Json := propertySchema componentMetadata "configFields".
Definition configFieldJsonSchema : result Json := configFieldsSchema ≫= arrayItemSchema.
Definition configOptionsSchema : result Json := configFieldJsonSchema ≫= λ schema, propertySchema schema "options".
Definition configOptionSchema : result Json := configOptionsSchema ≫= arrayItemSchema.

(** [dataset/descriptors.ts] *)
Definition artifactRetention : result Json := propertySchema artifactDescriptor "retention".
Definition datasetStorage : result Json := propertySchema datasetDescriptor "storage".
Definition retentionDays : result Json := artifactRetention ≫= λ schema, propertySchema schema "retentionDays".
Definition dataStructureSchema : result Json := propertySchema datasetDescriptor "structure".
Definition storageKindSchema : result Json := datasetStorage ≫= λ schema, propertySchema schema "kind".
Definition DEFAULT_ARTIFACT_RETENTION_DAYS : result jsnumber :=
  schema ← retentionDays;
  Ok (match field schema "default" with Some (JNumber days) => days | _ => NInt 30 end).

(** [execution/jobs.ts] and [execution/runs.ts] *)
Definition jobClaimSchema : result Json := propertySchema job "claim".
Definition jobCancellationSchema : result Json := propertySchema job "cancellation".
Definition jobStateSchema : result Json := propertySchema job "state".
Definition retryPolicySchema : result Json := propertySchema job "retryPolicy".
Definition runStateSchema : result Json := propertySchema run "state".
Definition stepResultSchema : result Json := propertySchema run "steps" ≫= arrayItemSchema.
Definition runStepStateSchema : result Json := stepResultSchema ≫= λ schema, propertySchema schema "state".
Definition executionMetricsSchema : result Json := stepResultSchema ≫= λ schema, propertySchema schema "metrics".
Definition executionErrorSchema : result Json := stepResultSchema ≫= λ schema, propertySchema schema "error".

(** A named definition of [pipeline-api.schema.json]. *)
Definition pipelineApiSchema (name : string) : result Json := definitionSchema pipelineApi name.
End canonical.

(** Loading the contracts package throws nothing: the fragments its modules
    read at load time are in the documents, the default of the retention
    included. *)
Theorem canonical_fragments_exist :
  Forall (λ schema, is_ok schema = true)
    [canonical.identifierSchema; canonical.contractVersionSchema; canonical.versionSchema; canonical.stepsSchema;
     canonical.stepSchema; canonical.edgeSchema; canonical.secretBindingSchema; canonical.stateSchema; canonical.nameSchema;
     canonical.componentTypeSchema; canonical.translationKeySchema; canonical.configOptionSchema; canonical.storageKindSchema;
     canonical.dataStructureSchema; canonical.jobClaimSchema; canonical.jobCancellationSchema; canonical.jobStateSchema;
     canonical.retryPolicySchema; canonical.runStateSchema; canonical.runStepStateSchema; canonical.executionMetricsSchema;
     canonical.executionErrorSchema] ∧
  canonical.DEFAULT_ARTIFACT_RETENTION_DAYS = Ok (NInt 30).
Proof. split; [repeat constructor|reflexivity]. Qed.
