(* ===== verification/OpenApi.v ===== *)
(** * The API description

    [packages/contracts/src/api/openapi.ts]: the OpenAPI document of the
    control plane, assembled from the canonical JSON Schema documents, whose
    references to each other it rewrites to references to its own
    components. *)

From S2P Require Import Prelude Js Contracts Schemas CanonicalSchemas JsonSchema.

Module openApi.

Definition pipelineSchemaIdentifier : string := "https://pantaetl.dev/schemas/pipeline.schema.json".
Definition commonSchemaIdentifier : string := "https://pantaetl.dev/schemas/common.schema.json".
Definition componentMetadataSchemaIdentifier : string := "https://pantaetl.dev/schemas/component-metadata.schema.json".

Definition openApiReferences : list (string * string) := [
  (commonSchemaIdentifier +:+ "#/properties/identifier", "#/components/schemas/PipelineIdentifier");
  (componentMetadataSchemaIdentifier, "#/components/schemas/ComponentMetadata");
  (componentMetadataSchemaIdentifier +:+ "#/properties/kind", "#/components/schemas/ComponentKind");
  (pipelineSchemaIdentifier, "#/components/schemas/Pipeline");
  (pipelineSchemaIdentifier +:+ "#/properties/contractVersion", "#/components/schemas/PipelineContractVersion");
  (pipelineSchemaIdentifier +:+ "#/properties/edges", "#/components/schemas/PipelineEdges");
  (pipelineSchemaIdentifier +:+ "#/properties/name", "#/components/schemas/PipelineName");
  (pipelineSchemaIdentifier +:+ "#/properties/state", "#/components/schemas/PipelineState");
  (pipelineSchemaIdentifier +:+ "#/properties/steps", "#/components/schemas/PipelineSteps");
  (pipelineSchemaIdentifier +:+ "#/properties/triggers", "#/components/schemas/PipelineTriggers")].

(** [openApiReferences\[child\] ?? child] *)
Fixpoint openApiReference (references : list (string * string)) (child : string) : string :=
  match references with
  | [] => child
  | (from, to) :: references => if decide (from = child) then to else openApiReference references child
  end.

(** Rewrites the references to the canonical documents that are known. *)
Fixpoint replaceCanonicalReferences (value : Json) : Json :=
  match value with
  | JArray l => JArray (map replaceCanonicalReferences l)
  | JObject fields => JObject (map (λ f : string * Json,
      (f.1, match f.2 with
            | JString child => JString (if decide (f.1 = "$ref") then openApiReference openApiReferences child else child)
            | _ => replaceCanonicalReferences f.2
            end)) fields)
  | _ => value
  end.

Definition pipelineApiComponent (definitionName : string) : result Json :=
  definition ← definitionSchema canonicalSchemas.pipelineApi definitionName;
  Ok (replaceCanonicalReferences definition).
Definition componentApiComponent (definitionName : string) : result Json :=
  definition ← definitionSchema canonicalSchemas.componentApi definitionName;
  Ok (replaceCanonicalReferences definition).
Definition uploadApiComponent (definitionName : string) : result Json :=
  definitionSchema canonicalSchemas.uploadApi definitionName.

(** ** Parts of operations *)

Definition pipelineIdentifierParameter : Json := JObject [("$ref", JString "#/components/parameters/PipelineIdentifier")].
Definition sessionSecurityRequirement : Json := JObject [("sessionAuth", JArray [])].

Definition jsonContent (componentName : string) : Json :=
  JObject [("application/json", JObject [("schema", JObject [("$ref", JString ("#/components/schemas/" +:+ componentName))])])].
Definition jsonRequestBody (componentName : string) (required : bool) : Json :=
  JObject [("content", jsonContent componentName); ("required", JBool required)].
Definition jsonResponse (description componentName : string) : Json :=
  JObject [("content", jsonContent componentName); ("description", JString description)].
Definition invalidRequestResponse : Json :=
  JObject [("description", JString "The pipeline path or request document is invalid.")].
Definition unauthenticatedResponse : Json :=
  JObject [("description", JString "An authenticated control-plane session is required.")].
Definition pipelineNotFoundResponse : Json :=
  JObject [("description", JString "The pipeline does not exist or is not accessible to the authenticated user.")].
Definition pipelineConflictResponse : Json :=
  JObject [("description", JString "The pipeline state does not allow this operation.")].

(** The operation of the two availability actions. *)
Definition pipelineStateActionPath (operationId summary : string) : Json := JObject [
  ("post", JObject [
    ("operationId", JString operationId);
    ("parameters", JArray [pipelineIdentifierParameter]);
    ("responses", JObject [
      ("200", jsonResponse "The pipeline after its state transition." "PipelineStateActionResponse");
      ("400", invalidRequestResponse);
      ("401", unauthenticatedResponse);
      ("404", pipelineNotFoundResponse);
      ("409", pipelineConflictResponse)]);
    ("security", JArray [sessionSecurityRequirement]);
    ("summary", JString summary);
    ("tags", JArray [JString "pipelines"])])].

(** ** The document *)

Definition schemas : list (string * result Json) := [
  ("ArtifactDescriptor", Ok canonicalSchemas.artifactDescriptor);
  ("CommonPrimitives", Ok canonicalSchemas.common);
  ("ComponentMetadata", Ok canonicalSchemas.componentMetadata);
  ("ComponentKind", propertySchema canonicalSchemas.componentMetadata "kind");
  ("ComponentCapabilityListRequest", componentApiComponent "componentCapabilityListRequest");
  ("ComponentCapabilityListResponse", componentApiComponent "componentCapabilityListResponse");
  ("DatasetDescriptor", Ok canonicalSchemas.datasetDescriptor);
  ("Job", Ok canonicalSchemas.job);
  ("Pipeline", Ok canonicalSchemas.pipeline);
  ("PipelineContractVersion", propertySchema canonicalSchemas.pipeline "contractVersion");
  ("PipelineCreateRequest", pipelineApiComponent "pipelineCreateRequest");
  ("PipelineCreateResponse", pipelineApiComponent "pipelineCreateResponse");
  ("PipelineDeleteRequest", pipelineApiComponent "pipelineDeleteRequest");
  ("PipelineDetailRequest", pipelineApiComponent "pipelineDetailRequest");
  ("PipelineDetailResponse", pipelineApiComponent "pipelineDetailResponse");
  ("PipelineDuplicateBodyRequest", pipelineApiComponent "pipelineDuplicateBodyRequest");
  ("PipelineDuplicateRequest", pipelineApiComponent "pipelineDuplicateRequest");
  ("PipelineDuplicateResponse", pipelineApiComponent "pipelineDuplicateResponse");
  ("PipelineEdges", propertySchema canonicalSchemas.pipeline "edges");
  ("PipelineExecutionStateRequest", pipelineApiComponent "pipelineExecutionStateRequest");
  ("PipelineExecutionStateResponse", pipelineApiComponent "pipelineExecutionStateResponse");
  ("PipelineIdentifier", propertySchema canonicalSchemas.common "identifier");
  ("PipelineListRequest", pipelineApiComponent "pipelineListRequest");
  ("PipelineListResponse", pipelineApiComponent "pipelineListResponse");
  ("PipelineName", propertySchema canonicalSchemas.pipeline "name");
  ("PipelineRunRequest", pipelineApiComponent "pipelineRunRequest");
  ("PipelineRunResponse", pipelineApiComponent "pipelineRunResponse");
  ("PipelineState", propertySchema canonicalSchemas.pipeline "state");
  ("PipelineStateActionRequest", pipelineApiComponent "pipelineStateActionRequest");
  ("PipelineStateActionResponse", pipelineApiComponent "pipelineStateActionResponse");
  ("PipelineSteps", propertySchema canonicalSchemas.pipeline "steps");
  ("PipelineTriggers", propertySchema canonicalSchemas.pipeline "triggers");
  ("PipelineUpdateRequest", pipelineApiComponent "pipelineUpdateRequest");
  ("PipelineUpdateResponse", pipelineApiComponent "pipelineUpdateResponse");
  ("Run", Ok canonicalSchemas.run);
  ("SourceExecutionRequest", Ok canonicalSchemas.sourceExecutionRequest);
  ("SourceUploadResponse", uploadApiComponent "sourceUploadResponse")].

Definition parameters : Json := JObject [
  ("ComponentKindQuery", JObject [
    ("description", JString "Optionally limits the collection to one component kind.");
    ("in", JString "query");
    ("name", JString "kind");
    ("required", JBool false);
    ("schema", JObject [("$ref", JString "#/components/schemas/ComponentKind")])]);
  ("PipelineIdentifier", JObject [
    ("in", JString "path");
    ("name", JString "pipelineId");
    ("required", JBool true);
    ("schema", JObject [("$ref", JString "#/components/schemas/PipelineIdentifier")])])].

Definition securitySchemes : Json := JObject [
  ("bearerAuth", JObject [
    ("bearerFormat", JString "PantaETL API token");
    ("scheme", JString "bearer");
    ("type", JString "http")]);
  ("sessionAuth", JObject [
    ("description", JString "Authenticated browser session established by the control plane.");
    ("in", JString "cookie");
    ("name", JString "better-auth.session_token");
    ("type", JString "apiKey")])].

Definition info : Json := JObject [
  ("description", JString "PantaETL control-plane contract schemas.");
  ("title", JString "PantaETL API");
  ("version", JString "v1")].

Definition paths : Json := JObject [
  ("/api/authentication", JObject [
    ("get", JObject [
      ("operationId", JString "getAuthenticatedIdentity");
      ("responses", JObject [
        ("200", JObject [("description", JString "The authenticated API-token owner.")]);
        ("401", JObject [("description", JString "A valid API token is required.")])]);
      ("security", JArray [JObject [("bearerAuth", JArray [])]]);
      ("summary", JString "Authenticate an API token");
      ("tags", JArray [JString "authentication"])])]);
  ("/api/components", JObject [
    ("get", JObject [
      ("operationId", JString "listComponentCapabilities");
      ("parameters", JArray [JObject [("$ref", JString "#/components/parameters/ComponentKindQuery")]]);
      ("responses", JObject [
        ("200", jsonResponse "The release's built-in component capabilities." "ComponentCapabilityListResponse");
        ("400", JObject [("description", JString "The component capability query is invalid.")]);
        ("401", unauthenticatedResponse)]);
      ("security", JArray [sessionSecurityRequirement]);
      ("summary", JString "List available component capabilities");
      ("tags", JArray [JString "components"])])]);
  ("/api/openapi.json", JObject [
    ("get", JObject [
      ("operationId", JString "getOpenApiDocument");
      ("responses", JObject [("200", JObject [("description", JString "The current OpenAPI document.")])]);
      ("summary", JString "Get the OpenAPI document");
      ("tags", JArray [JString "documentation"])])]);
  ("/api/pipelines", JObject [
    ("get", JObject [
      ("operationId", JString "listPipelines");
      ("responses", JObject [
        ("200", jsonResponse "The authenticated owner's pipeline collection." "PipelineListResponse");
        ("401", unauthenticatedResponse)]);
      ("security", JArray [sessionSecurityRequirement]);
      ("summary", JString "List pipelines");
      ("tags", JArray [JString "pipelines"])]);
    ("post", JObject [
      ("operationId", JString "createPipeline");
      ("requestBody", jsonRequestBody "PipelineCreateRequest" true);
      ("responses", JObject [
        ("201", jsonResponse "The created pipeline." "PipelineCreateResponse");
        ("400", invalidRequestResponse);
        ("401", unauthenticatedResponse)]);
      ("security", JArray [sessionSecurityRequirement]);
      ("summary", JString "Create a pipeline");
      ("tags", JArray [JString "pipelines"])])]);
  ("/api/pipelines/{pipelineId}", JObject [
    ("delete", JObject [
      ("operationId", JString "deletePipeline");
      ("parameters", JArray [pipelineIdentifierParameter]);
      ("responses", JObject [
        ("204", JObject [("description", JString "The pipeline was deleted.")]);
        ("400", invalidRequestResponse);
        ("401", unauthenticatedResponse);
        ("404", pipelineNotFoundResponse);
        ("409", pipelineConflictResponse)]);
      ("security", JArray [sessionSecurityRequirement]);
      ("summary", JString "Delete a pipeline");
      ("tags", JArray [JString "pipelines"])]);
    ("get", JObject [
      ("operationId", JString "getPipeline");
      ("parameters", JArray [pipelineIdentifierParameter]);
      ("responses", JObject [
        ("200", jsonResponse "The requested pipeline." "PipelineDetailResponse");
        ("400", invalidRequestResponse);
        ("401", unauthenticatedResponse);
        ("404", pipelineNotFoundResponse)]);
      ("security", JArray [sessionSecurityRequirement]);
      ("summary", JString "Get a pipeline");
      ("tags", JArray [JString "pipelines"])]);
    ("patch", JObject [
      ("operationId", JString "updatePipeline");
      ("parameters", JArray [pipelineIdentifierParameter]);
      ("requestBody", jsonRequestBody "PipelineUpdateRequest" true);
      ("responses", JObject [
        ("200", jsonResponse "The updated pipeline." "PipelineUpdateResponse");
        ("400", invalidRequestResponse);
        ("401", unauthenticatedResponse);
        ("404", pipelineNotFoundResponse);
        ("409", pipelineConflictResponse)]);
      ("security", JArray [sessionSecurityRequirement]);
      ("summary", JString "Update an idle pipeline");
      ("tags", JArray [JString "pipelines"])])]);
  ("/api/pipelines/{pipelineId}/disable", pipelineStateActionPath "disablePipeline" "Disable a pipeline");
  ("/api/pipelines/{pipelineId}/duplicate", JObject [
    ("post", JObject [
      ("operationId", JString "duplicatePipeline");
      ("parameters", JArray [pipelineIdentifierParameter]);
      ("requestBody", jsonRequestBody "PipelineDuplicateBodyRequest" false);
      ("responses", JObject [
        ("201", jsonResponse "The new draft pipeline." "PipelineDuplicateResponse");
        ("400", invalidRequestResponse);
        ("401", unauthenticatedResponse);
        ("404", pipelineNotFoundResponse)]);
      ("security", JArray [sessionSecurityRequirement]);
      ("summary", JString "Duplicate a pipeline");
      ("tags", JArray [JString "pipelines"])])]);
  ("/api/pipelines/{pipelineId}/enable", pipelineStateActionPath "enablePipeline" "Enable a pipeline");
  ("/api/pipelines/{pipelineId}/execution-state", JObject [
    ("get", JObject [
      ("operationId", JString "getPipelineExecutionState");
      ("parameters", JArray [pipelineIdentifierParameter]);
      ("responses", JObject [
        ("200", jsonResponse "The pipeline's current queued or running run, if any." "PipelineExecutionStateResponse");
        ("400", invalidRequestResponse);
        ("401", unauthenticatedResponse);
        ("404", pipelineNotFoundResponse)]);
      ("security", JArray [sessionSecurityRequirement]);
      ("summary", JString "Get a pipeline's execution state");
      ("tags", JArray [JString "pipelines"])])]);
  ("/api/pipelines/{pipelineId}/run", JObject [
    ("post", JObject [
      ("operationId", JString "runPipeline");
      ("parameters", JArray [pipelineIdentifierParameter]);
      ("responses", JObject [
        ("200", jsonResponse "The queued pipeline run." "PipelineRunResponse");
        ("400", invalidRequestResponse);
        ("401", unauthenticatedResponse);
        ("404", pipelineNotFoundResponse);
        ("409", pipelineConflictResponse)]);
      ("security", JArray [sessionSecurityRequirement]);
      ("summary", JString "Run an enabled pipeline");
      ("tags", JArray [JString "pipelines"])])]);
  ("/api/uploads", JObject [
    ("post", JObject [
      ("operationId", JString "uploadSourceFile");
      ("requestBody", JObject [
        ("content", JObject [
          ("multipart/form-data", JObject [
            ("schema", JObject [
              ("properties", JObject [
                ("file", JObject [("contentMediaType", JString "application/octet-stream"); ("type", JString "string")])]);
              ("required", JArray [JString "file"]);
              ("type", JString "object")])])]);
        ("required", JBool true)]);
      ("responses", JObject [
        ("201", jsonResponse "Where the staged file can be read from." "SourceUploadResponse");
        ("400", JObject [("description", JString "The upload request carries no usable file.")]);
        ("401", unauthenticatedResponse);
        ("413", JObject [("description", JString "The file exceeds the accepted upload size.")]);
        ("415", JObject [("description", JString "No built-in Source can read this file type.")])]);
      ("security", JArray [sessionSecurityRequirement]);
      ("summary", JString "Stage a file for a file-backed Source");
      ("tags", JArray [JString "uploads"])])])].

(** The components in order: the first that throws ends it. *)
Fixpoint components (l : list (string * result Json)) : result (list (string * Json)) :=
  match l with
  | [] => Ok []
  | (name, schema) :: l => schema ← schema; rest ← components l; Ok ((name, schema) :: rest)
  end.

Definition createOpenApiDocument : result Json :=
  schemas ← components schemas;
  Ok (JObject [
    ("components", JObject [("schemas", JObject schemas); ("parameters", parameters); ("securitySchemes", securitySchemes)]);
    ("info", info);
    ("jsonSchemaDialect", JString "https://spec.openapis.org/oas/3.1/dialect/base");
    ("openapi", JString "3.1.1");
    ("paths", paths);
    ("servers", JArray [JObject [("url", JString "/")]])]).
End openApi.
