(* ===== verification/ConfigurationForm.v ===== *)
(** * The configuration forms

    [apps/web/src/components/pipeline]: component-configuration-form.tsx (the
    controls a component's metadata declares, and what an event on one of
    them makes of the values), component-source-file-field.tsx (a path that
    an upload may fill in), component-secret-binding-fields.tsx (secrets,
    which are written elsewhere and leave a reference) and the filter of
    component-picker.tsx.

    An event handler belongs to a rendering and keeps the values of it: one
    that waits for an answer still has them when the answer comes, which is
    why [PendingUpload] and [PendingSecret] carry them. [JSON.parse] and
    [JSON.stringify] are arguments. *)

From S2P Require Import Prelude Js Numbers Contracts Schemas.

Abbreviation ConfigurationValues := (list (string * Json)).

(** ** component-configuration-form.tsx *)

Definition sanitizeNonSecretConfigurationValues (metadata : ComponentMetadata) (vs : ConfigurationValues) :
    ConfigurationValues :=
  let permittedKeys := field_key <$> filter (λ f, field_secret f = false) (configFields metadata) in
  filter (λ entry, entry.1 ∈ permittedKeys) vs.

(** [updateValue]: what the form hands to its owner. *)
Definition updateValue (metadata : ComponentMetadata) (visibleValues : ConfigurationValues) (key : string)
    (value : option Json) : ConfigurationValues :=
  let others := filter (λ entry, entry.1 ≠ key) visibleValues in
  sanitizeNonSecretConfigurationValues metadata
    (match value with Some v => others ++ [(key, v)] | None => others end).

Definition configFieldWidth (field : ConfigField) : FieldWidth.t :=
  match field_width field with
  | Some width => width
  | None => if decide (field_type field = ConfigFieldType.textarea ∨ field_type field = ConfigFieldType.json)
            then FieldWidth.full else FieldWidth.medium
  end.

Definition optionalStringValue (value : string) : option Json := if decide (value = "") then None else Some (JString value).

Fixpoint isConfigurationValue (value : Json) : bool :=
  match value with
  | JNull | JString _ | JBool _ => true
  | JNumber (NInt _) | JNumber (NFrac _ _) => true
  | JNumber _ => false
  | JArray l => forallb isConfigurationValue l
  | JObject fields => forallb (λ f, isConfigurationValue f.2) fields
  end.

Section json.
Context (JSON_parse : string → option Json) (JSON_stringify : Json → string).

Definition parseJsonConfigurationValue (value : string) : option Json :=
  parsed ← JSON_parse value;
  if isConfigurationValue parsed then Some parsed else None.

Definition serializeJsonValue (value : option Json) : string :=
  match value with Some j => JSON_stringify j | None => "" end.

(** The text area of a JSON field keeps what was typed. *)
Record JsonConfigurationInput := { rawValue : string; jsonError : bool }.

Definition mountJson (value : option Json) : JsonConfigurationInput :=
  {| rawValue := serializeJsonValue value; jsonError := false |}.

(** The effect that runs when the value has changed. *)
Definition valueChanged (value : option Json) (input : JsonConfigurationInput) : JsonConfigurationInput :=
  {| rawValue := serializeJsonValue value; jsonError := jsonError input |}.

(** The text typed, and the call of [onChange], if any. *)
Definition changeJson (nextRawValue : string) : JsonConfigurationInput * option (option Json) :=
  if decide (trim nextRawValue = "") then ({| rawValue := nextRawValue; jsonError := false |}, Some None)
  else match parseJsonConfigurationValue nextRawValue with
       | None => ({| rawValue := nextRawValue; jsonError := true |}, None)
       | Some parsed => ({| rawValue := nextRawValue; jsonError := false |}, Some (Some parsed))
       end.

(** What a user does to a control. *)
Inductive ControlEvent := Checks (checked : bool) | Types (text : string) | Chooses (option_value : string).

(** The call of [onChange] an event makes, by the type of the field; an
    event the control does not have makes none. *)
Definition fieldChange (type : ConfigFieldType.t) (event : ControlEvent) : option (option Json) :=
  match type, event with
  | ConfigFieldType.boolean, Checks checked => Some (Some (JBool checked))
  | ConfigFieldType.number, Types text =>
      if decide (text = "") then Some None
      else match Number text with
           | NInt _ | NFrac _ _ => Some (Some (JNumber (Number text)))
           | _ => None
           end
  | ConfigFieldType.select, Chooses v => Some (Some (JString v))
  | ConfigFieldType.json, Types text => (changeJson text).2
  | (ConfigFieldType.text | ConfigFieldType.textarea | ConfigFieldType.file), Types text => Some (optionalStringValue text)
  | _, _ => None
  end.

(** What an untouched control shows. *)
Section placeholder.
Context (t : string → string).

Definition textOf (j : Json) : string :=
  match j with
  | JString s => s
  | JBool b => if b then "true" else "false"
  | JNumber n => numberToString n
  | _ => ""
  end.

Definition unsetValuePlaceholder (field : ConfigField) : option string :=
  match placeholderKey field with
  | Some key => Some (t key)
  | None => textOf <$> defaultValue field
  end.

Definition defaultOptionLabel (field : ConfigField) : option string :=
  t ∘ option_labelKey ∘ snd <$> list_find (λ o, isText (defaultValue field) (option_value o) = true) (default [] (options field)).
End placeholder.

(** The state of a checkbox: the default of the field until it is set. *)
Definition shownChecked (field : ConfigField) (value : option Json) : bool :=
  match value with
  | None => match defaultValue field with Some (JBool b) => b | _ => false end
  | Some (JBool b) => b
  | Some _ => false
  end.

(** ** The form of one component, with the uploads it waits for *)

Record PendingUpload := { upload_key : string; upload_values : ConfigurationValues }.

Record Form := { form_values : ConfigurationValues; pendingUploads : list PendingUpload }.

Inductive FormEvent :=
  | Edits (field : ConfigField) (event : ControlEvent)
  | StartsUpload (field : ConfigField)
  | UploadSucceeds (index : nat) (sourcePath : string)
  | UploadFails (index : nat).

Definition formStep (metadata : ComponentMetadata) (e : FormEvent) (form : Form) : Form :=
  let visibleValues := sanitizeNonSecretConfigurationValues metadata (form_values form) in
  match e with
  | Edits field event =>
      match fieldChange (field_type field) event with
      | Some value => {| form_values := updateValue metadata visibleValues (field_key field) value;
                         pendingUploads := pendingUploads form |}
      | None => form
      end
  | StartsUpload field =>
      {| form_values := form_values form;
         pendingUploads := pendingUploads form ++ [{| upload_key := field_key field; upload_values := visibleValues |}] |}
  | UploadSucceeds index sourcePath =>
      match pendingUploads form !! index with
      | Some upload => {| form_values := updateValue metadata (upload_values upload) (upload_key upload) (Some (JString sourcePath));
                          pendingUploads := delete index (pendingUploads form) |}
      | None => form
      end
  | UploadFails index => {| form_values := form_values form; pendingUploads := delete index (pendingUploads form) |}
  end.

(** The controls that are rendered: those of the fields that are no secret. *)
Definition rendered (metadata : ComponentMetadata) (e : FormEvent) : Prop :=
  match e with
  | Edits field _ => field ∈ configFields metadata ∧ field_secret field = false
  | StartsUpload field => field ∈ configFields metadata ∧ field_secret field = false ∧ field_type field = ConfigFieldType.file
  | _ => True
  end.
End json.

(** ** component-secret-binding-fields.tsx *)

Definition replaceSecretBinding (bindings : list SecretBinding) (replacement : SecretBinding) : list SecretBinding :=
  filter (λ b, binding_key b ≠ binding_key replacement) bindings ++ [replacement].

Record SecretReplacementRequest := { existingBinding : option string; secret_key : string; secret_value : string }.

(** One field: the plaintext typed so far, and whether it is being written. *)
Record SecretBindingField := { secret_text : string; secret_error : option string; isSaving : bool }.

Record PendingSecret := { secret_request : SecretReplacementRequest; secret_bindings : list SecretBinding }.

(** [submit()] up to the call of [replaceSecret]. *)
Definition submitSecret (disabled : bool) (fieldKey : string) (bindings : list SecretBinding) (field : SecretBindingField) :
    SecretBindingField * option PendingSecret :=
  if decide (secret_text field = "") then
    ({| secret_text := secret_text field; secret_error := Some "component.secret.required"; isSaving := isSaving field |}, None)
  else if disabled || isSaving field then (field, None)
  else
    ({| secret_text := secret_text field; secret_error := None; isSaving := true |},
     Some {| secret_request := {| existingBinding := binding_binding ∘ snd <$> list_find (λ b, binding_key b = fieldKey) bindings;
                                  secret_key := fieldKey; secret_value := secret_text field |};
             secret_bindings := bindings |}).

(** What follows when [replaceSecret] answers: the call of [onChange], if any. *)
Definition secretAnswered (pending : PendingSecret) (answer : option SecretBinding) (field : SecretBindingField) :
    SecretBindingField * option (list SecretBinding) :=
  match answer with
  | Some nextBinding =>
      ({| secret_text := ""; secret_error := secret_error field; isSaving := false |},
       Some (replaceSecretBinding (secret_bindings pending) nextBinding))
  | None => ({| secret_text := secret_text field; secret_error := Some "component.secret.saveError"; isSaving := false |}, None)
  end.

(** ** component-picker.tsx *)

Definition filterComponentCapabilities (t : string → string) (capabilities : list ComponentMetadata) (search : string) :
    list ComponentMetadata :=
  let normalizedSearch := toLowerCase (trim search) in
  if decide (normalizedSearch = "") then capabilities
  else filter (λ component, existsb (λ value, includes normalizedSearch (toLowerCase value))
         [t (displayNameKey component); t (descriptionKey component)] = true) capabilities.

Definition available (kind : ComponentKind.t) (capabilities : list ComponentMetadata) : list ComponentMetadata :=
  filter (λ component, meta_kind component = kind) capabilities.

(** ** Reading values back *)

(** The keys a form may hand out. *)
Definition declared (metadata : ComponentMetadata) (key : string) : Prop :=
  ∃ field, field ∈ configFields metadata ∧ field_secret field = false ∧ field_key field = key.

Lemma declared_keys metadata key :
  key ∈ field_key <$> filter (λ f, field_secret f = false) (configFields metadata) ↔ declared metadata key.
Proof.
  rewrite list_elem_of_fmap. setoid_rewrite list_elem_of_filter. unfold declared. naive_solver.
Qed.

Lemma get_field_app fields fields' key :
  get_field (fields ++ fields') key =
    match get_field fields' key with Some v => Some v | None => get_field fields key end.
Proof.
  induction fields as [|[k v] fields IH]; simpl; [by destruct (get_field fields' key)|]. rewrite IH.
  by destruct (get_field fields' key).
Qed.

Lemma get_field_filter (P : string → Prop) `{∀ k, Decision (P k)} fields key :
  get_field (filter (λ entry, P entry.1) fields) key = if decide (P key) then get_field fields key else None.
Proof.
  induction fields as [|[k v] fields IH]; simpl; [by case_decide|]. rewrite filter_cons. simpl.
  destruct (decide (P k)) as [Hk|Hk]; simpl; rewrite IH.
  - destruct (decide (P key)) as [Hkey|Hkey]; [done|]. by destruct (decide (k = key)) as [->|].
  - destruct (decide (P key)) as [Hkey|Hkey]; [|done]. destruct (get_field fields key); [done|].
    by destruct (decide (k = key)) as [->|].
Qed.

Lemma sanitized_field metadata vs key :
  get_field (sanitizeNonSecretConfigurationValues metadata vs) key =
    if decide (key ∈ field_key <$> filter (λ f, field_secret f = false) (configFields metadata))
    then get_field vs key else None.
Proof. exact (get_field_filter (λ k, k ∈ field_key <$> filter (λ f, field_secret f = false) (configFields metadata)) vs key). Qed.

Lemma sanitized_declared metadata vs key v :
  (key, v) ∈ sanitizeNonSecretConfigurationValues metadata vs → declared metadata key.
Proof. intros [Hk _]%list_elem_of_filter. by apply declared_keys. Qed.

(** A change sets its key and leaves the others. *)
Lemma updateValue_field metadata vs key value k : declared metadata k →
  get_field (updateValue metadata vs key value) k = if decide (k = key) then value else get_field vs k.
Proof.
  intros Hk%declared_keys. unfold updateValue. rewrite sanitized_field, decide_True by done.
  assert (get_field (filter (λ entry, entry.1 ≠ key) vs) k = if decide (k = key) then None else get_field vs k) as Hothers.
  { etrans; [exact (get_field_filter (λ k, k ≠ key) vs k)|]. by repeat case_decide. }
  destruct value as [v|]; [|by rewrite Hothers].
  rewrite get_field_app, Hothers. simpl. destruct (decide (k = key)) as [->|Hne].
  - by rewrite decide_True.
  - by rewrite decide_False.
Qed.

Section forms.
Context (JSON_parse : string → option Json) (metadata : ComponentMetadata).
Abbreviation step := (formStep JSON_parse metadata).

Definition onlyEdits (events : list FormEvent) : Prop := Forall (λ e, ∃ field event, e = Edits field event) events.

Lemma edits_pending events form : onlyEdits events →
  pendingUploads (foldl (λ form e, step e form) form events) = pendingUploads form.
Proof.
  intros He. revert form. induction He as [|e events (field & event & ->) _ IH]; intros form; [done|].
  cbn [foldl]. rewrite IH. simpl. by destruct (fieldChange _ _ _).
Qed.

(** The values a form holds and those its uploads remember are declared. *)
Definition form_declared (form : Form) : Prop :=
  (∀ key v, (key, v) ∈ form_values form → declared metadata key) ∧
  Forall (λ u, ∀ key v, (key, v) ∈ upload_values u → declared metadata key) (pendingUploads form).

Lemma step_declared e form : form_declared form → form_declared (step e form).
Proof.
  intros [Hv Hp]. destruct e as [field event|field|index path|index]; simpl.
  - destruct (fieldChange _ _ _); [|by split]. split; [|done]. intros key v. apply sanitized_declared.
  - split; [done|]. apply Forall_app. split; [done|]. constructor; [|done]. intros key v. apply sanitized_declared.
  - destruct (pendingUploads form !! index) as [u|]; [|by split]. split; [intros key v; apply sanitized_declared|].
    by apply Forall_delete.
  - split; [done|]. by apply Forall_delete.
Qed.

(** Only declared fields that are no secret are ever in what the form of
    a component hands out. An edit sets the field it is made in and leaves
    every other as it was. A finished upload sets the path of its field, and
    puts every other field back to what it was when the upload started,
    whatever was edited meanwhile. *)
Theorem configuration_form_spec form : form_declared form →
  (∀ events, form_declared (foldl (λ form e, step e form) form events)) ∧
  (∀ field event value key, fieldChange JSON_parse (field_type field) event = Some value → declared metadata key →
     get_field (form_values (step (Edits field event) form)) key =
       if decide (key = field_key field) then value else get_field (form_values form) key) ∧
  (∀ field edits path key, onlyEdits edits → declared metadata key →
     let started := step (StartsUpload field) form in
     let edited := foldl (λ form e, step e form) started edits in
     get_field (form_values (step (UploadSucceeds (length (pendingUploads form)) path) edited)) key =
       if decide (key = field_key field) then Some (JString path) else get_field (form_values form) key).
Proof.
  intros Hform. assert (∀ key, declared metadata key →
    get_field (sanitizeNonSecretConfigurationValues metadata (form_values form)) key = get_field (form_values form) key) as Hvisible.
  { intros key Hkey%declared_keys. by rewrite sanitized_field, decide_True. }
  split_and!.
  - intros events. revert form Hform Hvisible. induction events as [|e events IH]; intros form Hform _; [done|].
    simpl. apply IH; [by apply step_declared|].
    intros key Hkey%declared_keys. by rewrite sanitized_field, decide_True.
  - intros field event value key Hchange Hkey. simpl. rewrite Hchange. simpl.
    rewrite updateValue_field by done. case_decide; [done|]. by apply Hvisible.
  - intros field edits path key Hedits Hkey started edited.
    assert (pendingUploads edited !! length (pendingUploads form) =
      Some {| upload_key := field_key field; upload_values := sanitizeNonSecretConfigurationValues metadata (form_values form) |}) as Hu.
    { unfold edited. rewrite edits_pending by done. simpl. by apply list_lookup_middle. }
    simpl. rewrite Hu. simpl. rewrite updateValue_field by done. case_decide; [done|]. by apply Hvisible.
Qed.
End forms.

(** Two secrets written at once: the later answer drops the other's
    reference. *)
Lemma concurrent_secrets bindings first second field1 field2 b1 b2 :
  binding_key b1 ≠ binding_key b2 → b1 ∉ bindings →
  secret_bindings first = bindings → secret_bindings second = bindings →
  ∃ after1 after2, (secretAnswered first (Some b1) field1).2 = Some after1 ∧ b1 ∈ after1 ∧
    (secretAnswered second (Some b2) field2).2 = Some after2 ∧ b2 ∈ after2 ∧ b1 ∉ after2.
Proof.
  intros Hne Hb1 H1 H2. simpl. rewrite H1, H2. eexists _, _. split; [done|].
  unfold replaceSecretBinding. split; [set_solver|]. split; [done|]. split; [set_solver|].
  rewrite elem_of_app, list_elem_of_filter, list_elem_of_singleton. naive_solver.
Qed.

(** The form accepts JSON the pipeline contract refuses: a column that is
    called a token cannot be renamed. *)
Lemma form_beyond_contract : ∃ value, isConfigurationValue value = true ∧ validJson value = false.
Proof. exists (JObject [("token", JString "ticket")]). split; reflexivity. Qed.

(** ** A CSV Source whose separator is typed while its file is uploaded *)

Definition plain_field (key : string) (type : ConfigFieldType.t) (secret : bool) : ConfigField :=
  {| field_key := key; field_type := type; labelKey := "label"; field_required := true; field_secret := secret;
     field_descriptionKey := None; placeholderKey := None; field_width := None; defaultValue := None; options := None |}.

Definition sourcePath_field : ConfigField := plain_field "sourcePath" ConfigFieldType.file false.
Definition separator_field : ConfigField := plain_field "separator" ConfigFieldType.text false.

Definition csv_metadata : ComponentMetadata :=
  {| meta_kind := ComponentKind.source; meta_type := "source.csv"; meta_version := "v1"; displayNameKey := "csv";
     descriptionKey := "csv"; configFields := [sourcePath_field; separator_field; plain_field "licence" ConfigFieldType.text true];
     inputFamilies := []; outputFamilies := [] |}.

Definition blank : Form := {| form_values := []; pendingUploads := [] |}.

Lemma configuration_form_spec_witness :
  let no_json := λ _ : string, None in
  let typing := Edits separator_field (Types ";") in
  let started := formStep no_json csv_metadata (StartsUpload sourcePath_field) blank in
  let edited := formStep no_json csv_metadata typing started in
  get_field (form_values edited) "separator" = Some (JString ";") ∧
  get_field (form_values (formStep no_json csv_metadata (UploadSucceeds 0 "imports/a.csv") edited)) "separator" = None.
Proof.
  intros no_json typing started edited.
  assert (declared csv_metadata "separator") as Hdeclared by (exists separator_field; split; [right; by left|done]).
  destruct (configuration_form_spec no_json csv_metadata blank) as (_ & Hedit & Hupload).
  { split; [intros ? ? H; by apply elem_of_nil in H|constructor]. }
  split; [reflexivity|].
  exact (Hupload sourcePath_field [typing] "imports/a.csv" "separator"
    ltac:(constructor; [by exists separator_field, (Types ";")|constructor]) Hdeclared).
Defined.
