(* ===== verification/Portability.v ===== *)
(** * Portable pipeline definitions

    [packages/pipeline/src/portability.ts]: export, duplication and import of
    pipelines without identity, triggers or credential bindings. *)

From S2P Require Import Prelude Js Contracts Schemas.

Record PortablePipelineDefinition := {
  portable_contractVersion : string;
  portable_name : string;
  portable_requiredCapabilities : list Capability;
  portable_steps : list PipelineStep;
  portable_edges : list PipelineEdge }.

Record ImportedPipelineDefinition := {
  imported_definition : PortablePipelineDefinition;
  imported_state : PipelineState.t }.

Definition capabilityKey (type version : string) : string := type +:+ "@" +:+ version.

Definition stepCapability (step : PipelineStep) : Capability :=
  {| capability_type := componentType step; capability_version := componentVersion step |}.

(** The [flatMap] with the set of keys it has seen. *)
Fixpoint requiredCapabilities_loop (seen : gset string) (steps : list PipelineStep) : list Capability :=
  match steps with
  | [] => []
  | step :: steps =>
      let key := capabilityKey (componentType step) (componentVersion step) in
      if decide (key ∈ seen) then requiredCapabilities_loop seen steps
      else stepCapability step :: requiredCapabilities_loop ({[key]} ∪ seen) steps
  end.

Definition requiredCapabilities (steps : list PipelineStep) : list Capability :=
  requiredCapabilities_loop ∅ steps.

Definition formatCapabilities (capabilities : list Capability) : string :=
  join ", " ((λ c, capabilityKey (capability_type c) (capability_version c)) <$> capabilities).

(** [JSON.parse(JSON.stringify(values))] *)
Definition copyPortableValues (values : list (string * Json)) : list (string * Json) :=
  (λ f, (f.1, json_copy f.2)) <$> values.

Definition copyPortableStep (step : PipelineStep) : PipelineStep :=
  {| step_id := step_id step; step_kind := step_kind step;
     componentType := componentType step; componentVersion := componentVersion step;
     configuration := {| values := copyPortableValues (values (configuration step));
                         secretBindings := [] |} |}.

(** The contract validation has rejected an empty list before the first step
    is copied apart from the rest. *)
Definition copyPortableSteps (steps : list PipelineStep) : list PipelineStep :=
  match steps with
  | [] => []
  | firstStep :: remainingSteps => copyPortableStep firstStep :: (copyPortableStep <$> remainingSteps)
  end.

Section portability.
Context `{!Formats}.

Definition exportPortablePipelineDefinition (pipeline : Pipeline) :
    result PortablePipelineDefinition :=
  validated ← parse pipelineSchema pipeline;
  Ok {| portable_contractVersion := contractVersion validated;
        portable_name := pipeline_name validated;
        portable_requiredCapabilities := requiredCapabilities (steps validated);
        portable_steps := copyPortableSteps (steps validated);
        portable_edges := edges validated |}.

Definition duplicatePipelineDefinition (pipeline : Pipeline) (name : string) :
    result ImportedPipelineDefinition :=
  exported ← exportPortablePipelineDefinition pipeline;
  Ok {| imported_definition :=
          {| portable_contractVersion := portable_contractVersion exported;
             portable_name := name;
             portable_requiredCapabilities := portable_requiredCapabilities exported;
             portable_steps := portable_steps exported;
             portable_edges := portable_edges exported |};
        imported_state := PipelineState.draft |}.

(** The document the import is validated as: fixed identifiers and
    timestamps around the fields of the definition. *)
Definition validatePortablePipelineDefinition (definition : PortablePipelineDefinition) :
    result Pipeline :=
  parse pipelineSchema
    {| contractVersion := portable_contractVersion definition;
       createdAt := 0;
       edges := portable_edges definition;
       pipeline_id := "00000000-0000-4000-8000-000000000001";
       pipeline_name := portable_name definition;
       ownerUserId := "00000000-0000-4000-8000-000000000002";
       pipeline_state := PipelineState.draft;
       steps := portable_steps definition;
       triggers := [];
       updatedAt := 0 |}.

Definition importPortablePipelineDefinition (definition : PortablePipelineDefinition)
    (availableCapabilities : list Capability) : result ImportedPipelineDefinition :=
  validatedDefinition ← validatePortablePipelineDefinition definition;
  let availableKeys : gset string := list_to_set
    ((λ c, capabilityKey (capability_type c) (capability_version c)) <$> availableCapabilities) in
  let required := requiredCapabilities (steps validatedDefinition) in
  let missingCapabilities :=
    filter (λ c, capabilityKey (capability_type c) (capability_version c) ∉ availableKeys) required in
  match missingCapabilities with
  | _ :: _ => Throw (UnavailablePipelineCapabilityError missingCapabilities)
  | [] =>
      Ok {| imported_definition :=
              {| portable_contractVersion := contractVersion validatedDefinition;
                 portable_name := pipeline_name validatedDefinition;
                 portable_requiredCapabilities := required;
                 portable_steps := copyPortableSteps (steps validatedDefinition);
                 portable_edges := edges validatedDefinition |};
            imported_state := PipelineState.draft |}
  end.
End portability.

(** ** Lemmas *)

Lemma copyPortableSteps_fmap l : copyPortableSteps l = copyPortableStep <$> l.
Proof. by destruct l. Qed.

Lemma copyPortableStep_idemp step : copyPortableStep (copyPortableStep step) = copyPortableStep step.
Proof.
  unfold copyPortableStep, copyPortableValues. simpl. do 2 f_equal.
  induction (values (configuration step)) as [|f l IH]; csimpl; [done|].
  by rewrite json_copy_idemp, IH.
Qed.

Lemma copyPortableValues_valid vs :
  forallb (λ f, matchesNonSecretKey f.1 && validJson f.2) vs = true → copyPortableValues vs = vs.
Proof.
  induction vs as [|[k v] vs IH]; csimpl; [done|].
  intros [[_ Hv]%andb_prop Hvs]%andb_prop. unfold copyPortableValues in IH |- *. csimpl.
  rewrite IH by done. by rewrite json_copy_finite by (by apply validJson_finite).
Qed.

Lemma requiredCapabilities_loop_elem seen l c :
  (∀ step, step ∈ l → matchesComponentType (componentType step) = true) →
  c ∈ requiredCapabilities_loop seen l ↔
  capabilityKey (capability_type c) (capability_version c) ∉ seen ∧ c ∈ stepCapability <$> l.
Proof.
  revert seen. induction l as [|step l IH]; intros seen Hv; csimpl; [set_solver|].
  assert (∀ step, step ∈ l → matchesComponentType (componentType step) = true) as Hv'
    by (intros; apply Hv; by right).
  assert (∀ c', c' ∈ stepCapability <$> l →
    capabilityKey (capability_type c') (capability_version c') =
    capabilityKey (componentType step) (componentVersion step) → c' = stepCapability step) as Hinj.
  { intros c' (s' & -> & Hs')%list_elem_of_fmap Heq. simpl in Heq.
    apply capability_key_inj in Heq as [Ht Hver]; [|by apply Hv'|apply Hv; left].
    unfold stepCapability. by rewrite Ht, Hver. }
  case_decide as Hk.
  - rewrite IH, elem_of_cons by done. split; [naive_solver|].
    intros [Hns [->|?]]; [done|done].
  - rewrite !elem_of_cons, IH, not_elem_of_union, not_elem_of_singleton by done. split.
    + intros [->|[[? ?] ?]]; [split; [done|by left]|naive_solver].
    + intros [Hns [->|Hin]]; [by left|].
      destruct (decide (c = stepCapability step)) as [->|Hne]; [by left|right].
      split_and!; [|done|done]. intros Heq. by apply Hne, Hinj.
Qed.

Lemma requiredCapabilities_loop_NoDup seen l :
  (∀ step, step ∈ l → matchesComponentType (componentType step) = true) →
  NoDup (requiredCapabilities_loop seen l).
Proof.
  revert seen. induction l as [|step l IH]; intros seen Hv; csimpl; [constructor|].
  assert (∀ step, step ∈ l → matchesComponentType (componentType step) = true) as Hv'
    by (intros; apply Hv; by right).
  case_decide; [by apply IH|]. constructor; [|by apply IH].
  rewrite requiredCapabilities_loop_elem by done. simpl. set_solver.
Qed.

Section facts.
Context `{!Formats}.

Lemma pipelineSchema_steps p :
  pipelineSchema p = true → ∀ step, step ∈ steps p → pipelineStepSchema step = true.
Proof.
  unfold pipelineSchema. rewrite !andb_true_iff, !forallb_Forall_true. naive_solver.
Qed.

Lemma valid_step_type step :
  pipelineStepSchema step = true → matchesComponentType (componentType step) = true.
Proof. unfold pipelineStepSchema. rewrite !andb_true_iff. naive_solver. Qed.

(** Copying a valid step changes nothing but its bindings. *)
Lemma copyPortableStep_valid step :
  pipelineStepSchema step = true →
  copyPortableStep step =
  {| step_id := step_id step; step_kind := step_kind step; componentType := componentType step;
     componentVersion := componentVersion step;
     configuration := {| values := values (configuration step); secretBindings := [] |} |}.
Proof.
  unfold pipelineStepSchema, validConfiguration. rewrite !andb_true_iff.
  intros (_ & Hv & _). unfold copyPortableStep. by rewrite copyPortableValues_valid.
Qed.

Lemma copyPortableStep_schema step :
  pipelineStepSchema step = true → pipelineStepSchema (copyPortableStep step) = true.
Proof.
  intros Hv. rewrite copyPortableStep_valid by done.
  unfold pipelineStepSchema, validConfiguration in *. simpl.
  rewrite !andb_true_iff in *. naive_solver.
Qed.

Lemma requiredCapabilities_spec p :
  pipelineSchema p = true →
  NoDup (requiredCapabilities (steps p)) ∧
  ∀ c, c ∈ requiredCapabilities (steps p) ↔ c ∈ stepCapability <$> steps p.
Proof.
  intros Hp. pose proof (pipelineSchema_steps p Hp) as Hs.
  assert (∀ step, step ∈ steps p → matchesComponentType (componentType step) = true) as Ht
    by (intros; by apply valid_step_type, Hs).
  split; [by apply requiredCapabilities_loop_NoDup|].
  intros c. unfold requiredCapabilities. rewrite requiredCapabilities_loop_elem by done. set_solver.
Qed.

Lemma requiredCapabilities_copy l :
  requiredCapabilities (copyPortableStep <$> l) = requiredCapabilities l.
Proof.
  unfold requiredCapabilities. generalize (∅ : gset string).
  induction l as [|step l IH]; intros seen; csimpl; [done|]. by rewrite !IH.
Qed.

Lemma available_keys (available : list Capability) c :
  matchesComponentType (capability_type c) = true →
  (∀ a, a ∈ available → matchesComponentType (capability_type a) = true) →
  capabilityKey (capability_type c) (capability_version c) ∈@{gset string} list_to_set
    ((λ a, capabilityKey (capability_type a) (capability_version a)) <$> available) ↔
  c ∈ available.
Proof.
  intros Hc Ha. rewrite elem_of_list_to_set, list_elem_of_fmap. split; [|by eauto].
  intros (a & Heq & Hin). apply capability_key_inj in Heq as [? ?]; [|done|by apply Ha].
  by destruct c, a; simplify_eq/=.
Qed.

(** The document built around an exported definition. *)
Lemma validatePortable_exported p caps :
  is_uuid "00000000-0000-4000-8000-000000000001" = true →
  is_uuid "00000000-0000-4000-8000-000000000002" = true →
  pipelineSchema p = true →
  validatePortablePipelineDefinition
    {| portable_contractVersion := contractVersion p; portable_name := pipeline_name p;
       portable_requiredCapabilities := caps; portable_steps := copyPortableSteps (steps p);
       portable_edges := edges p |} =
  Ok {| contractVersion := contractVersion p; createdAt := 0; edges := edges p;
        pipeline_id := "00000000-0000-4000-8000-000000000001"; pipeline_name := pipeline_name p;
        ownerUserId := "00000000-0000-4000-8000-000000000002";
        pipeline_state := PipelineState.draft; steps := copyPortableSteps (steps p);
        triggers := []; updatedAt := 0 |}.
Proof.
  intros Hid1 Hid2 Hp. unfold validatePortablePipelineDefinition.
  apply parse_ok. split; [|done].
  pose proof (pipelineSchema_steps p Hp) as Hs. unfold pipelineSchema in *. cbn [contractVersion createdAt
    edges pipeline_id pipeline_name ownerUserId pipeline_state steps triggers updatedAt].
  rewrite Hid1, Hid2, copyPortableSteps_fmap. rewrite !andb_true_iff in *.
  repeat match goal with H : _ ∧ _ |- _ => destruct H end. split_and!; try done.
  - by destruct (steps p).
  - apply forallb_Forall_true. intros s (s' & -> & Hs')%list_elem_of_fmap.
    by apply copyPortableStep_schema, Hs.
Qed.

(** The step as it is exported: the same component and values without
    secret bindings. *)
Definition withoutBindings (step : PipelineStep) : PipelineStep :=
  {| step_id := step_id step; step_kind := step_kind step;
     componentType := componentType step; componentVersion := componentVersion step;
     configuration := {| values := values (configuration step); secretBindings := [] |} |}.

Lemma duplicate_valid p name :
  pipelineSchema p = true → ∃ d,
    duplicatePipelineDefinition p name =
      Ok {| imported_definition := d; imported_state := PipelineState.draft |} ∧
    portable_name d = name ∧ portable_contractVersion d = contractVersion p ∧
    portable_edges d = edges p ∧ portable_steps d = withoutBindings <$> steps p ∧
    portable_requiredCapabilities d = requiredCapabilities (steps p).
Proof.
  intros Hp. unfold duplicatePipelineDefinition, exportPortablePipelineDefinition, parse.
  rewrite Hp. simpl. eexists. split; [done|]. split_and!; try done. simpl.
  rewrite copyPortableSteps_fmap. apply list_fmap_ext. intros i step Hi.
  apply copyPortableStep_valid. eapply pipelineSchema_steps; [done|]. by eapply list_elem_of_lookup_2.
Qed.

(** ** Properties *)

(** An exported or duplicated pipeline keeps the name, version, graph
    and configuration values of a valid pipeline and none of its secret
    bindings; it lists each component capability of the graph once; a
    duplicate is a draft. An invalid pipeline is refused. *)
Theorem duplicatePipelineDefinition_spec p name :
  (pipelineSchema p = false → duplicatePipelineDefinition p name = Throw ZodError) ∧
  (pipelineSchema p = true → ∃ d,
     duplicatePipelineDefinition p name =
       Ok {| imported_definition := d; imported_state := PipelineState.draft |} ∧
     portable_name d = name ∧ portable_contractVersion d = contractVersion p ∧
     portable_edges d = edges p ∧
     portable_steps d = withoutBindings <$> steps p ∧
     NoDup (portable_requiredCapabilities d) ∧
     ∀ c, c ∈ portable_requiredCapabilities d ↔ c ∈ stepCapability <$> steps p).
Proof.
  split.
  - unfold duplicatePipelineDefinition, exportPortablePipelineDefinition, parse. by intros ->.
  - intros Hp. destruct (duplicate_valid p name Hp) as (d & Heq & ? & ? & ? & ? & Hreq).
    exists d. rewrite Hreq. destruct (requiredCapabilities_spec p Hp). by split_and!.
Qed.

End facts.

(** ** Examples *)

Definition example_uuid (n : string) : string := "00000000-0000-4000-8000-0000000000" +:+ n.

Definition example_step (n type : string) (kind : ComponentKind.t) : PipelineStep :=
  {| step_id := example_uuid n; step_kind := kind; componentType := type;
     componentVersion := "v1";
     configuration := {| values := [("path", JString "a.csv")];
       secretBindings := [{| binding_key := "token"; binding_binding := "vault" |}] |} |}.

Definition example_pipeline : Pipeline :=
  {| contractVersion := "v1"; pipeline_id := example_uuid "10"; ownerUserId := example_uuid "20";
     pipeline_name := "Daily"; pipeline_state := PipelineState.enabled; createdAt := 5; updatedAt := 6;
     steps := [example_step "01" "csv" ComponentKind.source; example_step "02" "csv" ComponentKind.export];
     edges := [{| fromStepId := example_uuid "01"; toStepId := example_uuid "02" |}];
     triggers := [] |}.

Definition example_export : PortablePipelineDefinition :=
  {| portable_contractVersion := "v1"; portable_name := "Daily";
     portable_requiredCapabilities := [{| capability_type := "csv"; capability_version := "v1" |}];
     portable_steps := copyPortableStep <$> steps example_pipeline;
     portable_edges := edges example_pipeline |}.

Lemma duplicatePipelineDefinition_spec_witness :
  pipelineSchema example_pipeline = true ∧
  ∃ d, duplicatePipelineDefinition example_pipeline "Copy" =
    Ok {| imported_definition := d; imported_state := PipelineState.draft |} ∧
    portable_name d = "Copy".
Proof.
  assert (pipelineSchema example_pipeline = true) as Hv by reflexivity. split; [exact Hv|].
  destruct (proj2 (duplicatePipelineDefinition_spec example_pipeline "Copy") Hv)
    as (d & H1 & H2 & _).
  exists d. exact (conj H1 H2).
Defined.

