(* ===== verification/Graph.v ===== *)
(** * The graph a pipeline is persisted with

    The graph validation of [packages/database/src/pipelines/create.ts],
    shared by creation and by replacement updates: [validatePipelineGraph],
    the reachability traversal [visitGraph] and the cycle check
    [assertNoCycle]. *)

From S2P Require Import Prelude Js Contracts Topology.

(** ** The traversal: [while (pending.length > 0)]

    [pending] has the end of the JavaScript array first: [pop] takes the head
    and [push] adds one. The empty identifier is falsy and is skipped. [None]
    is a loop still running when the fuel is spent. *)

Definition otherEnd (stepId : string) (edge : PipelineEdge) : string :=
  if decide (fromStepId edge = stepId) then toStepId edge else fromStepId edge.

Fixpoint visit_loop (fuel : nat) (edgesForStep : string → list PipelineEdge)
    (visited : gset string) (pending : list string) : option (gset string) :=
  match fuel, pending with
  | _, [] => Some visited
  | O, _ => None
  | S fuel, stepId :: pending =>
      if decide (stepId = "" ∨ stepId ∈ visited) then visit_loop fuel edgesForStep visited pending
      else visit_loop fuel edgesForStep ({[stepId]} ∪ visited)
             (foldl (λ pending edge, otherEnd stepId edge :: pending) pending (edgesForStep stepId))
  end.

(** Each pop takes an initial identifier or the end of an edge of a step
    visited once. *)
Definition visitGraph (edgeCount : nat) (initialStepIds : list string)
    (edgesForStep : string → list PipelineEdge) : option (gset string) :=
  visit_loop (length initialStepIds + edgeCount) edgesForStep ∅ (reverse initialStepIds).

(** ** The cycle check: the two sets are shared by the recursive calls. *)

Record DfsState := { visiting : gset string; visited : gset string }.

Definition cycleError : exn := InvalidPipelineTopologyError "Pipeline graphs cannot contain cycles.".

(** What a JavaScript engine throws when the call stack is exhausted; the
    fuel is the depth of the stack. *)
Definition stackError : exn := JsError "Maximum call stack size exceeded".

Fixpoint assertNoCycle (depth : nat) (topology : PipelineTopology) (stepId : string) :
    M DfsState exn unit :=
  match depth with
  | O => throw stackError
  | S depth =>
      st ← gets id;
      if decide (stepId ∈ visiting st) then throw cycleError
      else if decide (stepId ∈ visited st) then mret ()
      else
        puts (λ st, {| visiting := {[stepId]} ∪ visiting st; visited := visited st |});;
        for_each (λ edge, assertNoCycle depth topology (toStepId edge)) (outgoing topology stepId);;
        puts (λ st, {| visiting := visiting st ∖ {[stepId]}; visited := {[stepId]} ∪ visited st |})
  end.

Definition assertGraphConnectsSourcesToExports (pipeline : PipelineTopologyInput)
    (sourceIds exportIds : list string) : result unit :=
  let topology := buildPipelineTopology pipeline in
  let edgeCount := length (input_edges pipeline) in
  match visitGraph edgeCount sourceIds (outgoing topology),
        visitGraph edgeCount exportIds (incoming topology) with
  | Some reachableFromSources, Some reachableToExports =>
      if bool_decide (∀ stepId, stepId ∈ dom (stepsById topology) →
           stepId ∈ reachableFromSources ∧ stepId ∈ reachableToExports)
      then
        (for_each (assertNoCycle (S (size (dom (stepsById topology)))) topology) sourceIds
           {| visiting := ∅; visited := ∅ |}).1;;
        Ok ()
      else Throw (InvalidPipelineTopologyError "Every component must connect a Source to an Export.")
  | _, _ => Throw stackError
  end.

(** ** Validation *)

Fixpoint checkStepIds (stepIds : gset string) (steps : list PipelineStep) : result unit :=
  match steps with
  | [] => Ok ()
  | step :: steps =>
      if decide (step_id step ∈ stepIds)
      then Throw (InvalidPipelineTopologyError "Pipeline steps must have unique identifiers.")
      else checkStepIds ({[step_id step]} ∪ stepIds) steps
  end.

Definition edgeKeyOf (edge : PipelineEdge) : string := fromStepId edge +:+ ":" +:+ toStepId edge.

(** The body of the loop over the edges: the new set of edge keys. *)
Definition checkEdge (topology : PipelineTopology) (edgeKeys : gset string) (edge : PipelineEdge) :
    result (gset string) :=
  match stepsById topology !! fromStepId edge, stepsById topology !! toStepId edge with
  | Some upstream, Some downstream =>
      if decide (fromStepId edge = toStepId edge)
      then Throw (InvalidPipelineTopologyError "Pipeline steps cannot connect to themselves.")
      else if decide (edgeKeyOf edge ∈ edgeKeys)
      then Throw (InvalidPipelineTopologyError "Pipeline edges must be unique.")
      else if decide (step_kind upstream = ComponentKind.export ∨
                      step_kind downstream = ComponentKind.source)
      then Throw (InvalidPipelineTopologyError
             "Pipeline edges must flow from Source through Transform to Export.")
      else Ok ({[edgeKeyOf edge]} ∪ edgeKeys)
  | _, _ => Throw (InvalidPipelineTopologyError "Pipeline edges must reference existing steps.")
  end.

Fixpoint checkEdges (topology : PipelineTopology) (edgeKeys : gset string)
    (edges : list PipelineEdge) : result unit :=
  match edges with
  | [] => Ok ()
  | edge :: edges => edgeKeys ← checkEdge topology edgeKeys edge; checkEdges topology edgeKeys edges
  end.

(** The loops that only throw: the first offending step decides. *)
Definition require (P : PipelineStep → Prop) `{∀ step, Decision (P step)} (message : string)
    (steps : list PipelineStep) : result unit :=
  if decide (Forall P steps) then Ok () else Throw (InvalidPipelineTopologyError message).

Definition checkDegree (incomingStepIds outgoingStepIds : gset string) (step : PipelineStep) :
    result unit :=
  match step_kind step with
  | ComponentKind.source =>
      if decide (step_id step ∈ outgoingStepIds) then Ok ()
      else Throw (InvalidPipelineTopologyError "Every Source must produce data for another component.")
  | ComponentKind.transform =>
      if decide (step_id step ∈ incomingStepIds ∧ step_id step ∈ outgoingStepIds) then Ok ()
      else Throw (InvalidPipelineTopologyError "Every Transform must receive and produce data.")
  | ComponentKind.export =>
      if decide (step_id step ∈ incomingStepIds) then Ok ()
      else Throw (InvalidPipelineTopologyError "Every Export must receive data from another component.")
  end.

Fixpoint checkDegrees (incomingStepIds outgoingStepIds : gset string) (steps : list PipelineStep) :
    result unit :=
  match steps with
  | [] => Ok ()
  | step :: steps =>
      checkDegree incomingStepIds outgoingStepIds step;;
      checkDegrees incomingStepIds outgoingStepIds steps
  end.

Definition kindSteps (kind : ComponentKind.t) (steps : list PipelineStep) : list PipelineStep :=
  filter (λ step, step_kind step = kind) steps.

Definition validatePipelineGraph (request : PipelineCreateRequest) : result unit :=
  let pipeline := {| input_steps := create_steps request; input_edges := create_edges request |} in
  let topology := buildPipelineTopology pipeline in
  checkStepIds ∅ (create_steps request);;
  checkEdges topology ∅ (create_edges request);;
  let incomingStepIds : gset string := list_to_set (toStepId <$> create_edges request) in
  let outgoingStepIds : gset string := list_to_set (fromStepId <$> create_edges request) in
  let sources := kindSteps ComponentKind.source (create_steps request) in
  let exports := kindSteps ComponentKind.export (create_steps request) in
  if decide (sources = [] ∨ exports = [])
  then Throw (InvalidPipelineTopologyError "A pipeline requires at least one Source and one Export.")
  else
    require (λ source, step_id source ∉ incomingStepIds)
      "A Source cannot receive input from another component." sources;;
    require (λ output, step_id output ∉ outgoingStepIds)
      "An Export cannot provide output to another component." exports;;
    checkDegrees incomingStepIds outgoingStepIds (create_steps request);;
    assertGraphConnectsSourcesToExports pipeline (step_id <$> sources) (step_id <$> exports).

(** ** The traversal computes reachability *)

Lemma foldl_push {A B} (g : A → B) (l : list A) (stack : list B) :
  foldl (λ stack x, g x :: stack) stack l = reverse (g <$> l) ++ stack.
Proof.
  revert stack. induction l as [|x l IH]; intros stack; csimpl; [done|].
  by rewrite IH, reverse_cons, <-(assoc_L (++)).
Qed.

Section traversal.
Context (edges : list PipelineEdge) (end_of : PipelineEdge → string).
Context (edgesForStep : string → list PipelineEdge).
Context (Hfor : ∀ id, edgesForStep id = filter (λ e, end_of e = id) edges).

(** The steps pushed when [x] is visited. *)
Definition next (x y : string) : Prop := ∃ e, e ∈ edges ∧ end_of e = x ∧ otherEnd x e = y.

Lemma elem_of_pushed x y P :
  y ∈ foldl (λ P e, otherEnd x e :: P) P (edgesForStep x) ↔ next x y ∨ y ∈ P.
Proof.
  rewrite foldl_push, elem_of_app, elem_of_reverse, list_elem_of_fmap.
  unfold next. rewrite Hfor. setoid_rewrite list_elem_of_filter. naive_solver.
Qed.

(** The edges whose step is still to be visited pay for the pushes. *)
Lemma visit_loop_terminates fuel V P :
  length P + length (filter (λ e, end_of e ∉ V) edges) ≤ fuel →
  is_Some (visit_loop fuel edgesForStep V P).
Proof.
  revert V P. induction fuel as [|fuel IH]; intros V [|x P] Hf; simpl in *; try (by eexists); [lia|].
  case_decide as Hx; [apply IH; lia|]. apply IH.
  rewrite foldl_push, length_app, length_reverse, length_fmap, Hfor.
  assert (length (filter (λ e, end_of e = x) edges) +
          length (filter (λ e, end_of e ∉ {[x]} ∪ V) edges) =
          length (filter (λ e, end_of e ∉ V) edges)) as Heq; [|lia].
  assert (x ∉ V) as HV by naive_solver. clear - HV.
  induction edges as [|e es IHe]; [done|]. rewrite !filter_cons.
  destruct (decide (end_of e = x)) as [<-|];
    [rewrite (decide_False (P := end_of e ∉ {[end_of e]} ∪ V)), decide_True by set_solver; simpl; lia|].
  destruct (decide (end_of e ∉ V));
    [rewrite decide_True by set_solver|rewrite decide_False by set_solver]; simpl; lia.
Qed.

Lemma visit_loop_spec fuel V P W :
  visit_loop fuel edgesForStep V P = Some W →
  V ⊆ W ∧ (∀ x, x ∈ P → x ≠ "" → x ∈ W) ∧
  (∀ x, x ∈ W → x ∈ V ∨ ∀ y, next x y → y ≠ "" → y ∈ W) ∧
  (∀ x, x ∈ W → x ∈ V ∨ ∃ p, p ∈ P ∧ rtc next p x).
Proof.
  revert V P. induction fuel as [|fuel IH]; intros V [|x P] Hl; simpl in Hl; simplify_eq.
  - split_and!; [done|by intros ? ?%elem_of_nil|by left|by left].
  - split_and!; [done|by intros ? ?%elem_of_nil|by left|by left].
  - case_decide as Hx.
    + apply IH in Hl as (H1 & H2 & H3 & H4). split_and!; try done.
      * intros y [->|?]%elem_of_cons ?; [destruct Hx; [done|by apply H1]|by apply H2].
      * intros y Hy. destruct (H4 y Hy) as [?|(p & ? & ?)]; [by left|right].
        exists p. split; [by right|done].
    + apply IH in Hl as (H1 & H2 & H3 & H4). split_and!.
      * set_solver.
      * intros y Hy ?. apply elem_of_cons in Hy as [->|Hy]; [set_solver|].
        apply H2; [|done]. apply elem_of_pushed. by right.
      * intros y Hy. destruct (H3 y Hy) as [[->%elem_of_singleton|?]%elem_of_union|?];
          [right|by left|by right].
        intros z ? ?. apply H2; [|done]. apply elem_of_pushed. by left.
      * intros y Hy. destruct (H4 y Hy) as [[->%elem_of_singleton|?]%elem_of_union|(p & Hp & ?)].
        -- right. exists x. split; [left|done].
        -- by left.
        -- right. apply elem_of_pushed in Hp as [?|?].
           ++ exists x. split; [left|]. by eapply rtc_l.
           ++ exists p. split; [by right|done].
Qed.

(** With identifiers that are not empty the result is the set of steps
    reachable from an initial one. *)
Lemma visitGraph_spec initial :
  (∀ x, x ∈ initial → x ≠ "") →
  (∀ x y, next x y → y ≠ "") →
  ∃ W, visitGraph (length edges) initial edgesForStep = Some W ∧
       ∀ x, x ∈ W ↔ ∃ s, s ∈ initial ∧ rtc next s x.
Proof.
  intros Hi Hn. unfold visitGraph.
  edestruct (visit_loop_terminates (length initial + length edges) ∅ (reverse initial)) as [W HW].
  { rewrite length_reverse. apply Nat.add_le_mono_l, length_filter. }
  exists W. split; [done|]. apply visit_loop_spec in HW as (_ & H2 & H3 & H4).
  intros x. split.
  - intros Hx. destruct (H4 x Hx) as [?|(p & Hp & ?)]; [set_solver|].
    exists p. split; [by apply elem_of_reverse|done].
  - intros (s & Hs & Hr). assert (s ∈ W) as HsW
      by (apply H2; [by apply elem_of_reverse|by apply Hi]).
    clear Hs. induction Hr as [|s y x Hsy Hr IH]; [done|]. apply IH.
    destruct (H3 s HsW) as [?|Hc]; [set_solver|]. by eapply Hc, Hn.
Qed.
End traversal.

(** ** The cycle check finds exactly the cycles *)

Section cycles.
Context (pipeline : PipelineTopologyInput).
Let topology := buildPipelineTopology pipeline.
Let edge := edge_between pipeline.
Let nodes : gset string := dom (stepsById topology).
Context (Hclosed : ∀ x y, edge x y → y ∈ nodes).

Lemma outgoing_edge x e : e ∈ outgoing topology x ↔ e ∈ input_edges pipeline ∧ fromStepId e = x.
Proof. unfold topology. rewrite outgoing_build, list_elem_of_filter. naive_solver. Qed.

(** Every path from a checked step ends. *)
Definition ends (x : string) : Prop := Acc (flip edge) x.

Lemma ends_no_cycle x : ends x → ¬ tc edge x x.
Proof.
  intros He. assert (∀ y, tc edge x y → ends y) as Hdown.
  { intros y Hxy. induction Hxy as [x y Hxy|x y z Hxy Hyz IH]; [by apply He|]. by apply IH, He. }
  assert (∀ y, tc edge x y → ¬ tc edge y y) as Hno; [|intros Hx; by eapply Hno].
  clear Hdown. induction He as [x _ IH]. intros y Hxy Hyy.
  assert (∃ z, edge x z ∧ rtc edge z y) as (z & Hxz & Hzy).
  { inversion Hxy as [? ? Ha|? z ? Ha Hb]; subst; [by exists y|]. exists z. by split; [|apply tc_rtc]. }
  eapply (IH z Hxz y); [|done]. by eapply tc_rtc_l.
Qed.

Definition check_post (x : string) (s : DfsState) (r : outcome exn unit * DfsState) : Prop :=
  match r with
  | (Ok _, s') =>
      visiting s' = visiting s ∧ visited s ⊆ visited s' ∧ x ∈ visited s' ∧
      ((∀ y, y ∈ visited s → ends y) → ∀ y, y ∈ visited s' → ends y)
  | (Throw e, _) =>
      e = cycleError ∧
      ((∃ y, y ∈ visiting s ∧ rtc edge x y) ∨ ∃ y, rtc edge x y ∧ tc edge y y)
  end.

(** Several steps, checked one after the other. *)
Lemma check_all depth ids s :
  (∀ x s, x ∈ ids → visiting s ⊆ nodes → size nodes < depth + size (visiting s) →
     check_post x s (assertNoCycle depth topology x s)) →
  visiting s ⊆ nodes → size nodes < depth + size (visiting s) →
  match for_each (assertNoCycle depth topology) ids s with
  | (Ok _, s') =>
      visiting s' = visiting s ∧ visited s ⊆ visited s' ∧
      (∀ x, x ∈ ids → x ∈ visited s') ∧
      ((∀ y, y ∈ visited s → ends y) → ∀ y, y ∈ visited s' → ends y)
  | (Throw err, _) =>
      err = cycleError ∧ ∃ x, x ∈ ids ∧
      ((∃ y, y ∈ visiting s ∧ rtc edge x y) ∨ ∃ y, rtc edge x y ∧ tc edge y y)
  end.
Proof.
  revert s. induction ids as [|x ids IH]; intros s Hone HV Hd; simpl.
  { split_and!; try done. by intros ? ?%elem_of_nil. }
  rewrite bind_run. pose proof (Hone x s (list_elem_of_here _ _) HV Hd) as He.
  destruct (assertNoCycle depth topology x s) as [[[]|err] s1]; simpl in He; cycle 1.
  { destruct He as [-> He]. split; [done|]. exists x. split; [left|done]. }
  destruct He as (HV1 & HD1 & Hin & Hends). rewrite bind_run.
  specialize (IH s1). rewrite HV1 in IH.
  specialize (IH (λ x' s' Hx', Hone x' s' (list_elem_of_further _ _ _ Hx')) HV Hd).
  destruct (for_each _ ids s1) as [[us|err] s2]; simpl.
  - destruct IH as (? & ? & Hes & ?). split_and!; [done|set_solver| |naive_solver].
    intros x' [->|?]%elem_of_cons; [set_solver|by apply Hes].
  - destruct IH as [-> (x' & ? & ?)]. split; [done|]. exists x'. split; [by right|done].
Qed.

Lemma assertNoCycle_post depth x s :
  x ∈ nodes → visiting s ⊆ nodes → size nodes < depth + size (visiting s) →
  check_post x s (assertNoCycle depth topology x s).
Proof.
  revert x s. induction depth as [|depth IH]; intros x s Hx HV Hd.
  { exfalso. apply subseteq_size in HV. lia. }
  simpl. rewrite bind_run. unfold gets, id. simpl.
  destruct (decide (x ∈ visiting s)) as [Hin|Hnin]; [by split; [done|left; exists x]|].
  destruct (decide (x ∈ visited s)) as [Hdone|Hnew]; [by split_and!|].
  rewrite bind_run. unfold puts at 1. cbv beta iota. rewrite bind_run.
  rewrite <-for_each_fmap.
  assert (∀ y, y ∈ toStepId <$> outgoing topology x ↔ edge x y) as Hout.
  { intros y. rewrite list_elem_of_fmap. setoid_rewrite outgoing_edge.
    unfold edge, edge_between. naive_solver. }
  pose proof (check_all depth (toStepId <$> outgoing topology x)
    {| visiting := {[x]} ∪ visiting s; visited := visited s |}) as Hc. simpl in Hc.
  assert (size nodes < depth + size ({[x]} ∪ visiting s)) as Hd'
    by (rewrite size_union, size_singleton by set_solver; lia).
  specialize (Hc (λ y s' Hy, IH y s' (Hclosed x y (proj1 (Hout y) Hy)))).
  specialize (Hc ltac:(set_solver) Hd').
  destruct (for_each _ _ _) as [[us|err] s1]; simpl; simpl in Hc.
  - destruct Hc as (HV1 & HD1 & Hch & Hends). split_and!; [set_solver|set_solver|set_solver|].
    intros Hold y [->%elem_of_singleton|Hy]%elem_of_union; [|by apply Hends].
    constructor. intros z Hz. by apply Hends, Hch, Hout.
  - destruct Hc as [-> (y & Hxy%Hout & Hcase)]. split; [done|].
    destruct Hcase as [(z & [->%elem_of_singleton|Hz]%elem_of_union & Hr)|(z & Hr & Hc)].
    + right. exists x. split; [done|]. by eapply tc_rtc_r; [apply tc_once|].
    + left. exists z. split; [done|]. by eapply rtc_l.
    + right. exists z. split; [by eapply rtc_l|done].
Qed.

(** Checking from the sources: an error iff a cycle can be reached. *)
Lemma check_sources ids :
  (∀ x, x ∈ ids → x ∈ nodes) →
  match (for_each (assertNoCycle (S (size nodes)) topology) ids
           {| visiting := ∅; visited := ∅ |}).1 with
  | Ok _ => ∀ x y, x ∈ ids → rtc edge x y → ¬ tc edge y y
  | Throw e => e = cycleError ∧ ∃ y, tc edge y y
  end.
Proof.
  intros Hids. pose proof (check_all (S (size nodes)) ids {| visiting := ∅; visited := ∅ |}) as Hc.
  specialize (Hc (λ x s Hx, assertNoCycle_post _ x s (Hids x Hx))). simpl in Hc.
  specialize (Hc ltac:(set_solver) ltac:(lia)).
  destruct (for_each _ ids _) as [[us|e] s1]; simpl in *.
  - destruct Hc as (_ & _ & Hin & Hends). intros x y Hx Hr. apply ends_no_cycle.
    assert (ends x) as He by (apply Hends; [set_solver|by apply Hin]).
    clear Hx. induction Hr as [|x z y Hxz _ IH]; [done|]. by apply IH, He.
  - destruct Hc as [-> (x & _ & [(y & ? & _)|(y & _ & ?)])]; [set_solver|]. eauto.
Qed.
End cycles.

(** ** What a persisted graph is *)

Definition graph_of (request : PipelineCreateRequest) : PipelineTopologyInput :=
  {| input_steps := create_steps request; input_edges := create_edges request |}.

(** The steps are identified, the edges are distinct, join steps and respect
    the direction of the kinds, every step lies on a path from a source to
    an export, and there is no cycle. *)
Record valid_graph (request : PipelineCreateRequest) : Prop := {
  valid_nonempty : create_steps request ≠ [];
  valid_ids : NoDup (step_id <$> create_steps request);
  valid_edges : NoDup (create_edges request);
  valid_ends : ∀ e, e ∈ create_edges request → ∃ u v,
    u ∈ create_steps request ∧ v ∈ create_steps request ∧
    step_id u = fromStepId e ∧ step_id v = toStepId e ∧
    step_kind u ≠ ComponentKind.export ∧ step_kind v ≠ ComponentKind.source;
  valid_connected : ∀ step, step ∈ create_steps request → ∃ s t,
    s ∈ create_steps request ∧ t ∈ create_steps request ∧
    step_kind s = ComponentKind.source ∧ step_kind t = ComponentKind.export ∧
    rtc (edge_between (graph_of request)) (step_id s) (step_id step) ∧
    rtc (edge_between (graph_of request)) (step_id step) (step_id t);
  valid_acyclic : ∀ id, ¬ tc (edge_between (graph_of request)) id id }.

(** The formats of the contract make an identifier neither empty nor one
    with a colon. *)
Definition plain_ids (request : PipelineCreateRequest) : Prop :=
  ∀ step, step ∈ create_steps request → step_id step ≠ "" ∧ has_char ":" (step_id step) = false.

Definition is_topology_error (e : exn) : Prop := ∃ message, e = InvalidPipelineTopologyError message.

Definition raises_topology {A} (o : result A) : Prop :=
  match o with Ok _ => True | Throw e => is_topology_error e end.

Lemma raises_bind {A B} (o : result A) (k : A → result B) :
  raises_topology o → (∀ a, o = Ok a → raises_topology (k a)) → raises_topology (o ≫= k).
Proof. destruct o; simpl; [intros _ Hk; by apply Hk|done]. Qed.

Ltac raises := repeat first [case_decide | case_match | apply raises_bind; [|intros]]; simpl;
  unfold is_topology_error; eauto.

Lemma checkStepIds_ok seen l :
  checkStepIds seen l = Ok () ↔ NoDup (step_id <$> l) ∧ ∀ s, s ∈ l → step_id s ∉ seen.
Proof.
  revert seen. induction l as [|s l IH]; intros seen; csimpl.
  { split; [intros _; split; [constructor|by intros ? ?%elem_of_nil]|done]. }
  rewrite NoDup_cons. case_decide as Hs.
  - split; [done|]. intros [_ Hn]. exfalso. by apply (Hn s); [left|].
  - rewrite IH. split.
    + intros [Hnd Hn]. split; [split; [|done]|].
      * intros (s' & Heq & Hs')%list_elem_of_fmap. apply (Hn s' Hs'). rewrite <-Heq. set_solver.
      * intros s' [->|Hs']%elem_of_cons; [done|]. specialize (Hn s' Hs'). set_solver.
    + intros [[Hs' Hnd] Hn]. split; [done|]. intros s' Hin [Heq%elem_of_singleton|Hold]%elem_of_union.
      * apply Hs'. rewrite <-Heq. by apply list_elem_of_fmap_2.
      * by apply (Hn s'); [right|].
Qed.

Lemma checkStepIds_raises seen l : raises_topology (checkStepIds seen l).
Proof. revert seen. induction l; intros seen; simpl; raises. Qed.

Lemma checkEdges_raises topology keys l : raises_topology (checkEdges topology keys l).
Proof. revert keys. induction l; intros keys; simpl; [done|]. unfold checkEdge. raises. Qed.

Lemma checkDegrees_raises ins outs l : raises_topology (checkDegrees ins outs l).
Proof. induction l; simpl; [done|]. unfold checkDegree. raises. Qed.

Lemma checkDegrees_ok ins outs l :
  checkDegrees ins outs l = Ok () ↔ ∀ s, s ∈ l → checkDegree ins outs s = Ok ().
Proof.
  induction l as [|s l IH]; simpl; [by split; [intros _ ? ?%elem_of_nil|]|].
  setoid_rewrite elem_of_cons. rewrite outcome_bind_ok. split.
  - intros ([] & ? & ?) s' [->|?]; [done|by apply IH].
  - intros Hall. exists (). split; [by apply Hall; left|apply IH; eauto].
Qed.

Lemma require_ok P `{∀ step, Decision (P step)} message l :
  require P message l = Ok () ↔ ∀ s, s ∈ l → P s.
Proof. unfold require. rewrite <-Forall_forall. by case_decide. Qed.

Lemma require_raises P `{∀ step, Decision (P step)} message l : raises_topology (require P message l).
Proof. unfold require. raises. Qed.

Lemma elem_of_kindSteps kind s l : s ∈ kindSteps kind l ↔ s ∈ l ∧ step_kind s = kind.
Proof. unfold kindSteps. rewrite list_elem_of_filter. naive_solver. Qed.

Definition edge_fine (topology : PipelineTopology) (e : PipelineEdge) : Prop :=
  ∃ u v, stepsById topology !! fromStepId e = Some u ∧ stepsById topology !! toStepId e = Some v ∧
    fromStepId e ≠ toStepId e ∧ step_kind u ≠ ComponentKind.export ∧
    step_kind v ≠ ComponentKind.source.

Lemma checkEdge_ok topology keys e keys' :
  checkEdge topology keys e = Ok keys' ↔
  keys' = {[edgeKeyOf e]} ∪ keys ∧ edgeKeyOf e ∉ keys ∧ edge_fine topology e.
Proof.
  unfold checkEdge, edge_fine.
  destruct (stepsById topology !! fromStepId e) as [u|]; [|naive_solver].
  destruct (stepsById topology !! toStepId e) as [v|]; [|naive_solver].
  destruct (decide (fromStepId e = toStepId e)); [naive_solver|].
  destruct (decide (edgeKeyOf e ∈ keys)); [naive_solver|].
  destruct (decide (step_kind u = _ ∨ step_kind v = _)); naive_solver.
Qed.

Lemma checkEdges_ok topology keys l :
  checkEdges topology keys l = Ok () ↔
  NoDup (edgeKeyOf <$> l) ∧ ∀ e, e ∈ l → edgeKeyOf e ∉ keys ∧ edge_fine topology e.
Proof.
  revert keys. induction l as [|e l IH]; intros keys; csimpl.
  { split; [intros _; split; [constructor|by intros ? ?%elem_of_nil]|done]. }
  rewrite outcome_bind_ok, NoDup_cons. setoid_rewrite elem_of_cons. split.
  - intros (keys' & (-> & Hk & Hf)%checkEdge_ok & [Hnd Hall]%IH). split.
    + split; [|done]. intros (e' & Heq & He')%list_elem_of_fmap.
      destruct (Hall e' He') as [Hn _]. apply Hn. rewrite <-Heq. set_solver.
    + intros e' [->|He']; [done|]. destruct (Hall e' He') as [Hn ?]. split; [set_solver|done].
  - intros [[Hn Hnd] Hall]. exists ({[edgeKeyOf e]} ∪ keys). split.
    + apply checkEdge_ok. split; [done|]. apply Hall. by left.
    + apply IH. split; [done|]. intros e' He'. destruct (Hall e') as [Hk ?]; [by right|].
      split; [|done]. intros [Heq%elem_of_singleton|?]%elem_of_union; [|done].
      apply Hn. rewrite <-Heq. by apply list_elem_of_fmap_2.
Qed.

Lemma edgeKeys_NoDup l :
  (∀ e, e ∈ l → has_char ":" (fromStepId e) = false) → NoDup (edgeKeyOf <$> l) ↔ NoDup l.
Proof.
  intros Hl. split; [apply NoDup_fmap_1|]. intros Hnd. apply NoDup_fmap_2_strong; [|done].
  intros e e' He He' Heq. apply separated_inj in Heq as [? ?]; [|by apply Hl|by apply Hl].
  destruct e, e'; by simplify_eq/=.
Qed.

Section validation.
Context (request : PipelineCreateRequest).
Let pipeline := graph_of request.
Let topology := buildPipelineTopology pipeline.
Let edge := edge_between pipeline.

Lemma lookup_step u id :
  NoDup (step_id <$> create_steps request) →
  stepsById topology !! id = Some u ↔ u ∈ create_steps request ∧ step_id u = id.
Proof.
  intros Hnd. split; [apply (stepsById_lookup pipeline)|]. intros [Hu <-].
  destruct (proj2 (stepsById_dom pipeline (step_id u))) as [u' Hu'];
    [by apply list_elem_of_fmap_2|].
  destruct (stepsById_lookup _ _ _ Hu') as [Hin Heq]. unfold topology. rewrite Hu'. f_equal.
  by eapply (NoDup_fmap_eq step_id).
Qed.

Lemma edge_fine_ends e :
  NoDup (step_id <$> create_steps request) →
  edge_fine topology e ↔ fromStepId e ≠ toStepId e ∧ ∃ u v,
    u ∈ create_steps request ∧ v ∈ create_steps request ∧
    step_id u = fromStepId e ∧ step_id v = toStepId e ∧
    step_kind u ≠ ComponentKind.export ∧ step_kind v ≠ ComponentKind.source.
Proof.
  intros Hnd. unfold edge_fine. setoid_rewrite lookup_step; [|done..]. split.
  - intros (u & v & [? ?] & [? ?] & ? & ? & ?). split; [done|]. by exists u, v.
  - intros (? & u & v & ? & ? & ? & ? & ? & ?). by exists u, v.
Qed.

(** The traversals follow the edges forwards and backwards. *)
Lemma next_outgoing x y : next (input_edges pipeline) fromStepId x y ↔ edge x y.
Proof.
  unfold next, edge, edge_between, otherEnd. split; intros (e & He & Hx & Hy).
  - rewrite decide_True in Hy by done. naive_solver.
  - exists e. rewrite decide_True; done.
Qed.

Lemma next_incoming x y : next (input_edges pipeline) toStepId x y ↔ edge y x.
Proof.
  unfold next, edge, edge_between, otherEnd. split.
  - intros (e & He & Hx & Hy). exists e. case_decide; split_and!; congruence.
  - intros (e & He & Hx & Hy). exists e. case_decide; split_and!; congruence.
Qed.

Lemma rtc_backwards x y : rtc (next (input_edges pipeline) toStepId) x y ↔ rtc edge y x.
Proof.
  split; induction 1 as [|a b c Hab _ IH]; try done.
  - apply next_incoming in Hab. by eapply rtc_r.
  - eapply rtc_r; [done|]. by apply next_incoming.
Qed.

Lemma rtc_forwards x y : rtc (next (input_edges pipeline) fromStepId) x y ↔ rtc edge x y.
Proof. split; apply rtc_subrel; intros; by apply next_outgoing. Qed.

Context (Hplain : plain_ids request).
Context (Hends : ∀ e, e ∈ create_edges request → edge_fine topology e).

Lemma edge_nodes x y : edge x y → x ∈ dom (stepsById topology) ∧ y ∈ dom (stepsById topology).
Proof.
  intros (e & He & <- & <-). destruct (Hends e He) as (u & v & Hu & Hv & _).
  split; by apply elem_of_dom.
Qed.

Lemma node_plain x : x ∈ dom (stepsById topology) → x ≠ "".
Proof.
  intros [u Hu]%elem_of_dom. apply (stepsById_lookup pipeline) in Hu as [Hu <-]. by apply Hplain.
Qed.

Lemma reachable_sets ids end_of edgesForStep :
  end_of = fromStepId ∨ end_of = toStepId →
  (∀ id, edgesForStep id = filter (λ e, end_of e = id) (input_edges pipeline)) →
  (∀ x, x ∈ ids → x ∈ dom (stepsById topology)) →
  ∃ W, visitGraph (length (input_edges pipeline)) ids edgesForStep = Some W ∧
       ∀ x, x ∈ W ↔ ∃ s, s ∈ ids ∧ rtc (next (input_edges pipeline) end_of) s x.
Proof.
  intros He Hf Hn. apply visitGraph_spec; [done|..].
  - intros x Hx. by apply node_plain, Hn.
  - intros x y Hxy. apply node_plain.
    destruct He as [-> | ->]; [apply next_outgoing in Hxy|apply next_incoming in Hxy];
      apply edge_nodes in Hxy as [? ?]; done.
Qed.

Lemma kind_ids_nodes kind x :
  x ∈ step_id <$> kindSteps kind (create_steps request) → x ∈ dom (stepsById topology).
Proof.
  intros (u & -> & [Hu _]%elem_of_kindSteps)%list_elem_of_fmap.
  apply elem_of_dom, (stepsById_dom pipeline). by apply list_elem_of_fmap_2.
Qed.

Lemma connects_spec :
  let ids kind := step_id <$> kindSteps kind (create_steps request) in
  match assertGraphConnectsSourcesToExports pipeline (ids ComponentKind.source)
          (ids ComponentKind.export) with
  | Ok _ =>
      (∀ x, x ∈ dom (stepsById topology) →
         (∃ s, s ∈ ids ComponentKind.source ∧ rtc edge s x) ∧
         (∃ t, t ∈ ids ComponentKind.export ∧ rtc edge x t)) ∧
      ∀ x y, x ∈ ids ComponentKind.source → rtc edge x y → ¬ tc edge y y
  | Throw e =>
      is_topology_error e ∧
      (¬ (∀ x, x ∈ dom (stepsById topology) →
            (∃ s, s ∈ ids ComponentKind.source ∧ rtc edge s x) ∧
            (∃ t, t ∈ ids ComponentKind.export ∧ rtc edge x t)) ∨
       ∃ y, tc edge y y)
  end.
Proof.
  intros ids. unfold assertGraphConnectsSourcesToExports.
  destruct (reachable_sets (ids ComponentKind.source) fromStepId (outgoing topology))
    as (W & HW & HWs); [by left|apply outgoing_build|apply kind_ids_nodes|].
  destruct (reachable_sets (ids ComponentKind.export) toStepId (incoming topology))
    as (X & HX & HXs); [by right|apply incoming_build|apply kind_ids_nodes|].
  setoid_rewrite rtc_forwards in HWs. setoid_rewrite rtc_backwards in HXs.
  fold topology. rewrite HW, HX. case_bool_decide as Hall; cycle 1.
  { split; [by eexists|]. left. intros Hr. apply Hall. intros x Hx.
    rewrite HWs, HXs. by apply Hr. }
  pose proof (check_sources pipeline (λ x y Hxy, proj2 (edge_nodes x y Hxy))
    (ids ComponentKind.source) (kind_ids_nodes ComponentKind.source)) as Hc.
  fold topology in Hc.
  destruct (for_each _ _ _).1 as [us|e]; simpl.
  - split; [|done]. intros x Hx. rewrite <-HWs, <-HXs. by apply Hall.
  - destruct Hc as [-> ?]. split; [by eexists|by right].
Qed.
End validation.

Section acceptance.
Context (request : PipelineCreateRequest) (Hplain : plain_ids request).
Let pipeline := graph_of request.
Let topology := buildPipelineTopology pipeline.
Let edge := edge_between pipeline.
Let sources := kindSteps ComponentKind.source (create_steps request).
Let exports := kindSteps ComponentKind.export (create_steps request).
Let ins : gset string := list_to_set (toStepId <$> create_edges request).
Let outs : gset string := list_to_set (fromStepId <$> create_edges request).

Lemma elem_ins id : id ∈ ins ↔ ∃ x, edge x id.
Proof.
  unfold ins, edge, edge_between. rewrite elem_of_list_to_set, list_elem_of_fmap. naive_solver.
Qed.

Lemma elem_outs id : id ∈ outs ↔ ∃ x, edge id x.
Proof.
  unfold outs, edge, edge_between. rewrite elem_of_list_to_set, list_elem_of_fmap. naive_solver.
Qed.

Lemma validate_ok :
  validatePipelineGraph request = Ok () ↔
  (NoDup (step_id <$> create_steps request) ∧ NoDup (edgeKeyOf <$> create_edges request) ∧
   ∀ e, e ∈ create_edges request → edge_fine topology e) ∧
  (sources ≠ [] ∧ exports ≠ [] ∧ (∀ s, s ∈ sources → step_id s ∉ ins) ∧
   (∀ s, s ∈ exports → step_id s ∉ outs)) ∧
  (∀ s, s ∈ create_steps request → checkDegree ins outs s = Ok ()) ∧
  assertGraphConnectsSourcesToExports pipeline (step_id <$> sources) (step_id <$> exports) = Ok ().
Proof.
  unfold validatePipelineGraph. fold pipeline topology ins outs sources exports.
  rewrite outcome_bind_ok. split.
  - intros ([] & [? _]%checkStepIds_ok & H2). apply outcome_bind_ok in H2 as ([] & H2 & H3).
    apply checkEdges_ok in H2 as [? Hf]. cbv zeta in H3. case_decide as Hse; [done|].
    apply outcome_bind_ok in H3 as ([] & Hr1 & H3).
    apply outcome_bind_ok in H3 as ([] & Hr2 & H3).
    pose proof (proj1 (require_ok _ _ _) Hr1). pose proof (proj1 (require_ok _ _ _) Hr2).
    apply outcome_bind_ok in H3 as ([] & Hr3 & H3).
    pose proof (proj1 (checkDegrees_ok _ _ _) Hr3).
    split_and!; naive_solver.
  - intros ((? & ? & ?) & (? & ? & ? & ?) & ? & ?).
    exists (). split; [apply checkStepIds_ok; set_solver|]. apply outcome_bind_ok.
    exists (). split; [apply checkEdges_ok; set_solver|]. cbv zeta.
    rewrite decide_False by naive_solver.
    apply outcome_bind_ok. exists (). split; [by apply (@require_ok _ _ _ _)|].
    apply outcome_bind_ok. exists (). split; [by apply (@require_ok _ _ _ _)|].
    apply outcome_bind_ok. exists (). split; [by apply checkDegrees_ok|]. done.
Qed.

Lemma validate_raises : raises_topology (validatePipelineGraph request).
Proof.
  unfold validatePipelineGraph. fold pipeline topology ins outs sources exports.
  apply raises_bind; [apply checkStepIds_raises|]. intros [] [Hids _]%checkStepIds_ok.
  apply raises_bind; [apply checkEdges_raises|]. intros [] [_ Hf]%checkEdges_ok. cbv zeta.
  case_decide; [by eexists|]. apply raises_bind; [apply require_raises|intros _ _].
  apply raises_bind; [apply require_raises|intros _ _].
  apply raises_bind; [apply checkDegrees_raises|intros _ _].
  pose proof (connects_spec request Hplain (λ e He, proj2 (Hf e He))) as Hc. cbv beta zeta in Hc.
  fold pipeline sources exports in Hc.
  destruct (assertGraphConnectsSourcesToExports _ _ _); simpl; [done|apply Hc].
Qed.

(** A path between different steps has a first and a last edge. *)
Lemma path_ends x y : rtc edge x y → x ≠ y → x ∈ outs ∧ y ∈ ins.
Proof.
  intros Hr Hne. rewrite elem_outs, elem_ins. split.
  - apply rtc_inv in Hr as [?|(z & ? & _)]; [done|by exists z].
  - apply rtc_inv_r in Hr as [?|(z & _ & ?)]; [done|by exists z].
Qed.

Lemma accepted_valid : validatePipelineGraph request = Ok () → valid_graph request.
Proof.
  intros ((Hids & Hkeys & Hf) & (Hs & He & _) & _ & Hc)%validate_ok.
  pose proof (connects_spec request Hplain Hf) as Hspec. cbv beta zeta in Hspec.
  fold pipeline sources exports in Hspec. rewrite Hc in Hspec. destruct Hspec as [Hconn Hac].
  assert (∀ x, x ∈ dom (stepsById topology) → ¬ tc edge x x) as Hacyclic.
  { intros x (( s & Hin & Hr) & _)%Hconn. by eapply Hac. }
  split; [|done| | | |].
  - intros Hnil. apply Hs. unfold sources. by rewrite Hnil.
  - by eapply NoDup_fmap_1.
  - intros e He'. by apply (edge_fine_ends request e Hids), Hf.
  - intros step Hstep. destruct (Hconn (step_id step)) as [(s & Hs1 & Hr1) (t & Ht1 & Hr2)].
    { apply elem_of_dom, (stepsById_dom pipeline). by apply list_elem_of_fmap_2. }
    apply list_elem_of_fmap in Hs1 as (s' & -> & [??]%elem_of_kindSteps).
    apply list_elem_of_fmap in Ht1 as (t' & -> & [??]%elem_of_kindSteps). by exists s', t'.
  - intros x Hx. apply (Hacyclic x); [|done].
    inversion Hx as [? ? Ha|? ? ? Ha _]; subst; by eapply edge_nodes in Ha as [? _].
Qed.

Lemma valid_accepted : valid_graph request → validatePipelineGraph request = Ok ().
Proof.
  intros [Hne Hids Hed Hends Hconn Hac].
  assert (∀ e, e ∈ create_edges request → edge_fine topology e) as Hf.
  { intros e He. apply (edge_fine_ends request e Hids). split; [|by apply Hends].
    intros Heq. apply (Hac (toStepId e)), tc_once. by exists e. }
  pose proof (NoDup_fmap_eq step_id (create_steps request)) as Hinj.
  destruct (nonempty_elem _ Hne) as [x Hx].
  assert (∀ s t, s ∈ create_steps request → t ∈ create_steps request →
    step_kind s ≠ step_kind t → rtc edge (step_id s) (step_id t) →
    step_id s ∈ outs ∧ step_id t ∈ ins) as Hpath.
  { intros s t Hs Ht Hk Hr. apply path_ends; [done|]. intros Heq. apply Hk. by rewrite (Hinj s t). }
  apply validate_ok. split_and!; try done.
  - apply edgeKeys_NoDup; [|done]. intros e He. destruct (Hends e He) as (u & _ & Hu & _ & <- & _).
    by apply Hplain.
  - destruct (Hconn x Hx) as (s & t & Hs & _ & Hk & _). intros Hnil.
    by apply (not_elem_of_nil s); rewrite <-Hnil; apply elem_of_kindSteps.
  - destruct (Hconn x Hx) as (s & t & _ & Ht & _ & Hk & _). intros Hnil.
    by apply (not_elem_of_nil t); rewrite <-Hnil; apply elem_of_kindSteps.
  - intros s [Hs Hk]%elem_of_kindSteps (? & e & He & _ & Hto)%elem_ins.
    destruct (Hends e He) as (_ & v & _ & Hv & _ & Hvid & _ & Hvk). apply Hvk.
    rewrite (Hinj v s); [done..|]. by rewrite Hvid.
  - intros s [Hs Hk]%elem_of_kindSteps (? & e & He & Hfrom & _)%elem_outs.
    destruct (Hends e He) as (u & _ & Hu & _ & Huid & _ & Huk & _). apply Huk.
    rewrite (Hinj u s); [done..|]. by rewrite Huid.
  - clear x Hx. intros x Hx. destruct (Hconn x Hx) as (s & t & Hs & Ht & Hks & Hkt & Hr1 & Hr2).
    unfold checkDegree. destruct (step_kind x) eqn:Hkx; rewrite decide_True; try done.
    + by apply (Hpath x t); [..|congruence|].
    + split; [by apply (Hpath s x); [..|congruence|]|by apply (Hpath x t); [..|congruence|]].
    + by apply (Hpath s x); [..|congruence|].
  - pose proof (connects_spec request Hplain Hf) as Hspec. cbv beta zeta in Hspec.
    fold pipeline sources exports in Hspec.
    destruct (assertGraphConnectsSourcesToExports _ _ _) as [[]|err]; [done|exfalso].
    destruct Hspec as [_ [Hn|[y Hy]]]; [|by apply (Hac y)]. apply Hn.
    intros id [u Hu]%elem_of_dom. apply (lookup_step request _ _ Hids) in Hu as [Hu <-].
    destruct (Hconn u Hu) as (s & t & Hs & Ht & Hks & Hkt & Hr1 & Hr2).
    split; [exists (step_id s)|exists (step_id t)];
      (split; [apply list_elem_of_fmap_2, elem_of_kindSteps|]; done).
Qed.
End acceptance.

(** ** Property *)

(** C1: [validatePipelineGraph] accepts exactly the valid graphs (distinct
    steps and edges, edges that respect the kinds, every step on a path from a
    source to an export, no cycle) and refuses every other one with an
    [InvalidPipelineTopologyError]: both traversals end and the recursion of
    the cycle check never exhausts its stack. *)
Theorem validatePipelineGraph_iff request :
  plain_ids request →
  (validatePipelineGraph request = Ok () ↔ valid_graph request) ∧
  raises_topology (validatePipelineGraph request).
Proof.
  intros Hplain. split; [split|]; [by apply accepted_valid|by apply valid_accepted|].
  by apply validate_raises.
Qed.

(** ** Example *)

Definition graph_step (id : string) (kind : ComponentKind.t) : PipelineStep :=
  {| step_id := id; step_kind := kind; componentType := "csv"; componentVersion := "v1";
     configuration := {| values := []; secretBindings := [] |} |}.

Definition diamond : PipelineCreateRequest :=
  {| create_contractVersion := "v1"; create_name := "Diamond"; create_triggers := [];
     create_steps := [graph_step "s" ComponentKind.source; graph_step "l" ComponentKind.transform;
       graph_step "r" ComponentKind.transform; graph_step "e" ComponentKind.export];
     create_edges := [{| fromStepId := "s"; toStepId := "l" |}; {| fromStepId := "s"; toStepId := "r" |};
       {| fromStepId := "l"; toStepId := "e" |}; {| fromStepId := "r"; toStepId := "e" |}] |}.

(** The same graph with a cycle between the transforms. *)
Definition looped : PipelineCreateRequest :=
  {| create_contractVersion := "v1"; create_name := "Looped"; create_triggers := [];
     create_steps := create_steps diamond;
     create_edges := create_edges diamond ++
       [{| fromStepId := "l"; toStepId := "r" |}; {| fromStepId := "r"; toStepId := "l" |}] |}.

Lemma validatePipelineGraph_iff_witness :
  valid_graph diamond ∧ validatePipelineGraph looped = Throw cycleError.
Proof.
  split; [|reflexivity].
  assert (plain_ids diamond) as Hplain.
  { unfold plain_ids. apply (proj1 (Forall_forall _ _)). repeat constructor; done. }
  apply (proj1 (validatePipelineGraph_iff diamond Hplain)). reflexivity.
Defined.
