(* ===== verification/Database.v ===== *)
(** * The relational store

    The tables of [packages/database/src/schema] as lists of records, and the
    SQL statements the repositories issue as operations that enforce the
    declared constraints: primary keys, unique indexes, foreign keys with
    their [ON DELETE] action, and check constraints.

    A row list is in the order a sequential scan returns it. Timestamps are
    milliseconds. [clock] is the transaction's [now()], [nextId] counts the
    identifiers drawn from [defaultRandom()]. A statement that violates a
    constraint throws and leaves the tables as they were. Transactions run one
    after the other: a [FOR UPDATE] that would wait is a transaction that runs
    later; the rows that [SKIP LOCKED] passes over are an argument of the
    operations that use it. *)

From S2P Require Import Prelude Js Contracts.

(** ** Rows *)

Module TriggerType.
Inductive t := manual | schedule.
#[global] Instance t_eq_dec : EqDecision t.
Proof. solve_decision. Defined.
End TriggerType.

Record UserRow := {
  u_id : string; u_email : string; u_username : string; u_passwordHash : option string;
  u_emailVerified : bool; u_isAdmin : bool; u_requiresPasswordChange : bool;
  u_createdAt : Z; u_updatedAt : Z }.

Record PipelineRow := {
  p_id : string; p_ownerUserId : string; p_contractVersion : string; p_name : string;
  p_state : PipelineState.t; p_createdAt : Z; p_updatedAt : Z }.

Record ComponentRow := {
  c_id : string; c_pipelineId : string; c_kind : ComponentKind.t; c_componentType : string;
  c_componentVersion : string; c_configurationValues : list (string * Json);
  c_secretBindings : list SecretBinding }.

Record EdgeRow := { e_pipelineId : string; e_fromComponentId : string; e_toComponentId : string }.

#[export] Instance EdgeRow_eq_dec : EqDecision EdgeRow.
Proof. solve_decision. Defined.

Record TriggerRow := {
  t_id : string; t_pipelineId : string; t_type : TriggerType.t; t_enabled : bool;
  t_cron : option string; t_timezone : option string; t_nextRunAt : option Z;
  t_lastClaimedAt : option Z; t_createdAt : Z; t_updatedAt : Z }.

Record RunRow := {
  r_id : string; r_pipelineId : string; r_triggerId : option string; r_contractVersion : string;
  r_state : RunState.t; r_isActive : bool; r_scheduledFor : option Z; r_createdAt : Z;
  r_expiresAt : Z; r_startedAt : option Z; r_completedAt : option Z;
  r_cancellationRequestedAt : option Z; r_cancellationRequestedByUserId : option string;
  r_warningCount : Z }.

Record RunLogRow := {
  l_id : string; l_runId : string; l_level : string; l_event : string;
  l_context : list (string * Json); l_createdAt : Z; l_expiresAt : Z }.

Record RunStepRow := {
  s_id : string; s_runId : string; s_componentId : string; s_state : RunState.t;
  s_startedAt : option Z; s_completedAt : option Z; s_warningCount : Z;
  s_metrics : list (string * Json); s_error : option (list (string * Json)) }.

Record JobRow := {
  j_id : string; j_pipelineId : string; j_runId : string; j_runStepId : string;
  j_componentId : string; j_state : JobState.t; j_availableAt : Z; j_claimedAt : option Z;
  j_heartbeatAt : option Z; j_workerId : option string; j_attempt : Z; j_retryMaxAttempts : Z;
  j_retryDelaySeconds : Z; j_createdAt : Z; j_completedAt : option Z }.

Record OperationalEventRow := {
  o_id : string; o_pipelineId : string; o_runId : string; o_runStepId : option string;
  o_jobId : option string; o_workerId : option string; o_event : OperationalEventKind.t;
  o_recordsRead : option Z; o_recordsWritten : option Z; o_bytesRead : option Z;
  o_bytesWritten : option Z; o_durationMs : option Z; o_retryAttempt : option Z;
  o_occurredAt : Z }.

Record ArtifactRow := {
  a_id : string; a_pipelineId : string; a_runId : string; a_format : string;
  a_contentType : option string; a_fileName : string; a_sizeBytes : Z;
  a_storageKind : StorageKind.t; a_storageLocation : string; a_encrypted : bool;
  a_createdAt : Z; a_expiresAt : Z }.

Record DatasetRow := {
  d_id : string; d_pipelineId : string; d_runId : string; d_runStepId : string;
  d_family : string; d_format : string; d_storageKind : StorageKind.t;
  d_storageLocation : string; d_sizeBytes : Z; d_encrypted : bool; d_createdAt : Z;
  d_expiresAt : option Z }.

Record StagedUploadRow := {
  up_id : string; up_ownerUserId : string; up_storageKind : StorageKind.t;
  up_storageLocation : string; up_createdAt : Z; up_expiresAt : Z }.

Record CheckpointRow := {
  ck_pipelineId : string; ck_sourceComponentId : string; ck_checkpoint : Json; ck_updatedAt : Z }.

Record SettingRow := { setting_key : string; setting_value : Json; setting_updatedAt : Z }.

Record Database := {
  users : list UserRow;
  pipelines : list PipelineRow;
  pipelineComponents : list ComponentRow;
  pipelineEdges : list EdgeRow;
  pipelineTriggers : list TriggerRow;
  runs : list RunRow;
  runLogs : list RunLogRow;
  runSteps : list RunStepRow;
  jobs : list JobRow;
  operationalEvents : list OperationalEventRow;
  artifacts : list ArtifactRow;
  datasets : list DatasetRow;
  stagedUploads : list StagedUploadRow;
  sourceCheckpoints : list CheckpointRow;
  settings : list SettingRow;
  clock : Z;
  nextId : nat }.

Abbreviation DB := (M Database exn).

(** ** Writing one table *)

Definition set_pipelines (l : list PipelineRow) (d : Database) : Database :=
  {| users := users d; pipelines := l; pipelineComponents := pipelineComponents d;
     pipelineEdges := pipelineEdges d; pipelineTriggers := pipelineTriggers d; runs := runs d;
     runLogs := runLogs d; runSteps := runSteps d; jobs := jobs d;
     operationalEvents := operationalEvents d; artifacts := artifacts d; datasets := datasets d;
     stagedUploads := stagedUploads d; sourceCheckpoints := sourceCheckpoints d;
     settings := settings d; clock := clock d; nextId := nextId d |}.
Definition set_pipelineComponents (l : list ComponentRow) (d : Database) : Database :=
  {| users := users d; pipelines := pipelines d; pipelineComponents := l;
     pipelineEdges := pipelineEdges d; pipelineTriggers := pipelineTriggers d; runs := runs d;
     runLogs := runLogs d; runSteps := runSteps d; jobs := jobs d;
     operationalEvents := operationalEvents d; artifacts := artifacts d; datasets := datasets d;
     stagedUploads := stagedUploads d; sourceCheckpoints := sourceCheckpoints d;
     settings := settings d; clock := clock d; nextId := nextId d |}.
Definition set_pipelineEdges (l : list EdgeRow) (d : Database) : Database :=
  {| users := users d; pipelines := pipelines d; pipelineComponents := pipelineComponents d;
     pipelineEdges := l; pipelineTriggers := pipelineTriggers d; runs := runs d;
     runLogs := runLogs d; runSteps := runSteps d; jobs := jobs d;
     operationalEvents := operationalEvents d; artifacts := artifacts d; datasets := datasets d;
     stagedUploads := stagedUploads d; sourceCheckpoints := sourceCheckpoints d;
     settings := settings d; clock := clock d; nextId := nextId d |}.
Definition set_pipelineTriggers (l : list TriggerRow) (d : Database) : Database :=
  {| users := users d; pipelines := pipelines d; pipelineComponents := pipelineComponents d;
     pipelineEdges := pipelineEdges d; pipelineTriggers := l; runs := runs d; runLogs := runLogs d;
     runSteps := runSteps d; jobs := jobs d; operationalEvents := operationalEvents d;
     artifacts := artifacts d; datasets := datasets d; stagedUploads := stagedUploads d;
     sourceCheckpoints := sourceCheckpoints d; settings := settings d; clock := clock d;
     nextId := nextId d |}.
Definition set_runs (l : list RunRow) (d : Database) : Database :=
  {| users := users d; pipelines := pipelines d; pipelineComponents := pipelineComponents d;
     pipelineEdges := pipelineEdges d; pipelineTriggers := pipelineTriggers d; runs := l;
     runLogs := runLogs d; runSteps := runSteps d; jobs := jobs d;
     operationalEvents := operationalEvents d; artifacts := artifacts d; datasets := datasets d;
     stagedUploads := stagedUploads d; sourceCheckpoints := sourceCheckpoints d;
     settings := settings d; clock := clock d; nextId := nextId d |}.
Definition set_runLogs (l : list RunLogRow) (d : Database) : Database :=
  {| users := users d; pipelines := pipelines d; pipelineComponents := pipelineComponents d;
     pipelineEdges := pipelineEdges d; pipelineTriggers := pipelineTriggers d; runs := runs d;
     runLogs := l; runSteps := runSteps d; jobs := jobs d;
     operationalEvents := operationalEvents d; artifacts := artifacts d; datasets := datasets d;
     stagedUploads := stagedUploads d; sourceCheckpoints := sourceCheckpoints d;
     settings := settings d; clock := clock d; nextId := nextId d |}.
Definition set_runSteps (l : list RunStepRow) (d : Database) : Database :=
  {| users := users d; pipelines := pipelines d; pipelineComponents := pipelineComponents d;
     pipelineEdges := pipelineEdges d; pipelineTriggers := pipelineTriggers d; runs := runs d;
     runLogs := runLogs d; runSteps := l; jobs := jobs d; operationalEvents := operationalEvents d;
     artifacts := artifacts d; datasets := datasets d; stagedUploads := stagedUploads d;
     sourceCheckpoints := sourceCheckpoints d; settings := settings d; clock := clock d;
     nextId := nextId d |}.
Definition set_jobs (l : list JobRow) (d : Database) : Database :=
  {| users := users d; pipelines := pipelines d; pipelineComponents := pipelineComponents d;
     pipelineEdges := pipelineEdges d; pipelineTriggers := pipelineTriggers d; runs := runs d;
     runLogs := runLogs d; runSteps := runSteps d; jobs := l;
     operationalEvents := operationalEvents d; artifacts := artifacts d; datasets := datasets d;
     stagedUploads := stagedUploads d; sourceCheckpoints := sourceCheckpoints d;
     settings := settings d; clock := clock d; nextId := nextId d |}.
Definition set_operationalEvents (l : list OperationalEventRow) (d : Database) : Database :=
  {| users := users d; pipelines := pipelines d; pipelineComponents := pipelineComponents d;
     pipelineEdges := pipelineEdges d; pipelineTriggers := pipelineTriggers d; runs := runs d;
     runLogs := runLogs d; runSteps := runSteps d; jobs := jobs d; operationalEvents := l;
     artifacts := artifacts d; datasets := datasets d; stagedUploads := stagedUploads d;
     sourceCheckpoints := sourceCheckpoints d; settings := settings d; clock := clock d;
     nextId := nextId d |}.
Definition set_artifacts (l : list ArtifactRow) (d : Database) : Database :=
  {| users := users d; pipelines := pipelines d; pipelineComponents := pipelineComponents d;
     pipelineEdges := pipelineEdges d; pipelineTriggers := pipelineTriggers d; runs := runs d;
     runLogs := runLogs d; runSteps := runSteps d; jobs := jobs d;
     operationalEvents := operationalEvents d; artifacts := l; datasets := datasets d;
     stagedUploads := stagedUploads d; sourceCheckpoints := sourceCheckpoints d;
     settings := settings d; clock := clock d; nextId := nextId d |}.
Definition set_datasets (l : list DatasetRow) (d : Database) : Database :=
  {| users := users d; pipelines := pipelines d; pipelineComponents := pipelineComponents d;
     pipelineEdges := pipelineEdges d; pipelineTriggers := pipelineTriggers d; runs := runs d;
     runLogs := runLogs d; runSteps := runSteps d; jobs := jobs d;
     operationalEvents := operationalEvents d; artifacts := artifacts d; datasets := l;
     stagedUploads := stagedUploads d; sourceCheckpoints := sourceCheckpoints d;
     settings := settings d; clock := clock d; nextId := nextId d |}.
Definition set_stagedUploads (l : list StagedUploadRow) (d : Database) : Database :=
  {| users := users d; pipelines := pipelines d; pipelineComponents := pipelineComponents d;
     pipelineEdges := pipelineEdges d; pipelineTriggers := pipelineTriggers d; runs := runs d;
     runLogs := runLogs d; runSteps := runSteps d; jobs := jobs d;
     operationalEvents := operationalEvents d; artifacts := artifacts d; datasets := datasets d;
     stagedUploads := l; sourceCheckpoints := sourceCheckpoints d; settings := settings d;
     clock := clock d; nextId := nextId d |}.
Definition set_sourceCheckpoints (l : list CheckpointRow) (d : Database) : Database :=
  {| users := users d; pipelines := pipelines d; pipelineComponents := pipelineComponents d;
     pipelineEdges := pipelineEdges d; pipelineTriggers := pipelineTriggers d; runs := runs d;
     runLogs := runLogs d; runSteps := runSteps d; jobs := jobs d;
     operationalEvents := operationalEvents d; artifacts := artifacts d; datasets := datasets d;
     stagedUploads := stagedUploads d; sourceCheckpoints := l; settings := settings d;
     clock := clock d; nextId := nextId d |}.
Definition set_settings (l : list SettingRow) (d : Database) : Database :=
  {| users := users d; pipelines := pipelines d; pipelineComponents := pipelineComponents d;
     pipelineEdges := pipelineEdges d; pipelineTriggers := pipelineTriggers d; runs := runs d;
     runLogs := runLogs d; runSteps := runSteps d; jobs := jobs d;
     operationalEvents := operationalEvents d; artifacts := artifacts d; datasets := datasets d;
     stagedUploads := stagedUploads d; sourceCheckpoints := sourceCheckpoints d; settings := l;
     clock := clock d; nextId := nextId d |}.
Definition set_nextId (n : nat) (d : Database) : Database :=
  {| users := users d; pipelines := pipelines d; pipelineComponents := pipelineComponents d;
     pipelineEdges := pipelineEdges d; pipelineTriggers := pipelineTriggers d; runs := runs d;
     runLogs := runLogs d; runSteps := runSteps d; jobs := jobs d;
     operationalEvents := operationalEvents d; artifacts := artifacts d; datasets := datasets d;
     stagedUploads := stagedUploads d; sourceCheckpoints := sourceCheckpoints d;
     settings := settings d; clock := clock d; nextId := n |}.

(** ** Identifiers drawn by the database and by [randomUUID] *)

Class Uuids := { uuid : nat → string }.

(** The reads every statement makes. *)
Definition select {A} (table : Database → list A) (P : A → Prop) `{∀ a, Decision (P a)} : DB (list A) :=
  gets (λ d, filter P (table d)).

(** [.limit(1)] with the destructuring of the first row. *)
Definition selectFirst {A} (table : Database → list A) (P : A → Prop) `{∀ a, Decision (P a)} :
    DB (option A) :=
  rows ← select table P; mret (head rows).

(** A constraint: the statement fails with its name. *)
Definition enforce (P : Database → Prop) `{∀ d, Decision (P d)} (constraint : string) : DB unit := λ d,
  if decide (P d) then (Ok (), d) else (Throw (DatabaseError constraint), d).

(** [references table key id]: the foreign key [id] finds its row. *)
Definition references {A} (table : Database → list A) (key : A → string) (id : string) (d : Database) :
    Prop :=
  id ∈ key <$> table d.

#[export] Instance references_dec {A} (table : Database → list A) key id d :
  Decision (references table key id d).
Proof. unfold references. apply _. Defined.

Definition referencesIf {A} (table : Database → list A) (key : A → string) (id : option string)
    (d : Database) : Prop :=
  match id with None => True | Some id => references table key id d end.

#[export] Instance referencesIf_dec {A} (table : Database → list A) key id d :
  Decision (referencesIf table key id d).
Proof. destruct id; simpl; apply _. Defined.

(** [unreferenced table key P]: no row of [table] refers to one satisfying
    [P]: what [ON DELETE RESTRICT] demands. *)
Definition unreferenced {A B} (table : Database → list A) (key : A → option string)
    (parent : Database → list B) (id : B → string) (P : B → Prop) (d : Database) : Prop :=
  Forall (λ b, P b → Forall (λ a, key a ≠ Some (id b)) (table d)) (parent d).

#[export] Instance unreferenced_dec {A B} (table : Database → list A) key (parent : Database → list B)
    id P `{∀ b, Decision (P b)} d : Decision (unreferenced table key parent id P d).
Proof. unfold unreferenced. apply _. Defined.

Definition updateIf {A} (P : A → Prop) `{∀ a, Decision (P a)} (f : A → A) (a : A) : A :=
  if decide (P a) then f a else a.

Lemma updateIf_True {A} (P : A → Prop) `{∀ a, Decision (P a)} f a : P a → updateIf P f a = f a.
Proof. intros. unfold updateIf. by rewrite decide_True. Qed.
Lemma updateIf_False {A} (P : A → Prop) `{∀ a, Decision (P a)} f a : ¬ P a → updateIf P f a = a.
Proof. intros. unfold updateIf. by rewrite decide_False. Qed.

(** The rows an [UPDATE ... WHERE] selects, after it. *)
Lemma filter_updateIf {A} (P : A → Prop) `{∀ a, Decision (P a)} (f : A → A) (l : list A) :
  (∀ a, P a → P (f a)) → filter P (updateIf P f <$> l) = f <$> filter P l.
Proof.
  intros Hf. induction l as [|a l IH]; csimpl; [done|]. rewrite !filter_cons, IH.
  destruct (decide (P a)) as [HP|HP].
  - by rewrite (updateIf_True P f a HP), decide_True by auto.
  - by rewrite (updateIf_False P f a HP), decide_False.
Qed.

Lemma filter_updateIf_other {A} (P Q : A → Prop) `{∀ a, Decision (P a), ∀ a, Decision (Q a)}
    (f : A → A) (l : list A) :
  (∀ a, a ∈ l → P a → ¬ Q a ∧ ¬ Q (f a)) → filter Q (updateIf P f <$> l) = filter Q l.
Proof.
  induction l as [|a l IH]; intros Hf; csimpl; [done|]. rewrite !filter_cons.
  rewrite IH by (intros b Hb; apply Hf; by right).
  destruct (decide (P a)) as [HP|HP]; [|by rewrite (updateIf_False P f a HP)].
  destruct (Hf a (list_elem_of_here _ _) HP). by rewrite (updateIf_True P f a HP), !decide_False.
Qed.

(** The pair of columns the composite foreign keys refer to. *)
Definition hasComponent (pipelineId id : string) (d : Database) : Prop :=
  Exists (λ c, c_pipelineId c = pipelineId ∧ c_id c = id) (pipelineComponents d).

#[export] Instance hasComponent_dec pipelineId id d : Decision (hasComponent pipelineId id d).
Proof. unfold hasComponent. apply _. Defined.

(** The check constraint of [pipeline_triggers]. *)
Definition scheduleFields (t : TriggerRow) : Prop :=
  (t_type t = TriggerType.manual ∧ t_cron t = None ∧ t_timezone t = None ∧ t_nextRunAt t = None) ∨
  (t_type t = TriggerType.schedule ∧ is_Some (t_cron t) ∧ is_Some (t_timezone t)).

#[export] Instance scheduleFields_dec t : Decision (scheduleFields t).
Proof. unfold scheduleFields. apply _. Defined.

(** The row an insertion of a trigger makes: the columns it does not name are
    null or take their default. *)
Definition triggerRow (id : string) (now : Z) (pipelineId : string) (trigger : WritablePipelineTrigger) :
    TriggerRow :=
  match trigger with
  | WritableManual enabled =>
      {| t_id := id; t_pipelineId := pipelineId; t_type := TriggerType.manual; t_enabled := enabled;
         t_cron := None; t_timezone := None; t_nextRunAt := None; t_lastClaimedAt := None;
         t_createdAt := now; t_updatedAt := now |}
  | WritableSchedule cron enabled timezone =>
      {| t_id := id; t_pipelineId := pipelineId; t_type := TriggerType.schedule; t_enabled := enabled;
         t_cron := Some cron; t_timezone := Some timezone; t_nextRunAt := None;
         t_lastClaimedAt := None; t_createdAt := now; t_updatedAt := now |}
  end.

Definition forgetTrigger (gone : list string) (r : RunRow) : RunRow :=
  {| r_id := r_id r; r_pipelineId := r_pipelineId r;
     r_triggerId := match r_triggerId r with
                    | Some id => if decide (id ∈ gone) then None else Some id
                    | None => None
                    end;
     r_contractVersion := r_contractVersion r; r_state := r_state r; r_isActive := r_isActive r;
     r_scheduledFor := r_scheduledFor r; r_createdAt := r_createdAt r; r_expiresAt := r_expiresAt r;
     r_startedAt := r_startedAt r; r_completedAt := r_completedAt r;
     r_cancellationRequestedAt := r_cancellationRequestedAt r;
     r_cancellationRequestedByUserId := r_cancellationRequestedByUserId r;
     r_warningCount := r_warningCount r |}.

(** A run that holds the lock of its pipeline, and the partial unique index
    [runs_one_active_pipeline_index] over these. *)
Definition activeRow (r : RunRow) : Prop := r_isActive r = true ∧ r_state r ∈ activeRunStates.

#[export] Instance activeRow_dec r : Decision (activeRow r).
Proof. unfold activeRow. apply _. Defined.

Definition oneActive (l : list RunRow) : Prop := NoDup (r_pipelineId <$> filter activeRow l).

#[export] Instance oneActive_dec l : Decision (oneActive l).
Proof. unfold oneActive. apply _. Defined.

Definition setActive (isActive : bool) (r : RunRow) : RunRow :=
  {| r_id := r_id r; r_pipelineId := r_pipelineId r; r_triggerId := r_triggerId r;
     r_contractVersion := r_contractVersion r; r_state := r_state r; r_isActive := isActive;
     r_scheduledFor := r_scheduledFor r; r_createdAt := r_createdAt r; r_expiresAt := r_expiresAt r;
     r_startedAt := r_startedAt r; r_completedAt := r_completedAt r;
     r_cancellationRequestedAt := r_cancellationRequestedAt r;
     r_cancellationRequestedByUserId := r_cancellationRequestedByUserId r;
     r_warningCount := r_warningCount r |}.

(** A PostgreSQL [integer]. *)
Definition int4 (n : Z) : Prop := (-2147483648 ≤ n ≤ 2147483647)%Z.
Definition int4If (n : option Z) : Prop := match n with Some n => int4 n | None => True end.

#[export] Instance int4_dec n : Decision (int4 n).
Proof. unfold int4. apply _. Defined.
#[export] Instance int4If_dec n : Decision (int4If n).
Proof. destruct n; simpl; apply _. Defined.

Definition eventInt4 (o : OperationalEventRow) : Prop :=
  Forall int4If [o_recordsRead o; o_recordsWritten o; o_bytesRead o; o_bytesWritten o;
                 o_durationMs o; o_retryAttempt o].

#[export] Instance eventInt4_dec o : Decision (eventInt4 o).
Proof. unfold eventInt4. apply _. Defined.

(** The row of a run on insertion: queued, not started. *)
Definition newRun (id pipelineId : string) (triggerId : option string) (isActive : bool)
    (createdAt expiresAt : Z) (scheduledFor : option Z) : RunRow :=
  {| r_id := id; r_pipelineId := pipelineId; r_triggerId := triggerId;
     r_contractVersion := "v1"; r_state := RunState.queued; r_isActive := isActive;
     r_scheduledFor := scheduledFor; r_createdAt := createdAt; r_expiresAt := expiresAt;
     r_startedAt := None; r_completedAt := None; r_cancellationRequestedAt := None;
     r_cancellationRequestedByUserId := None; r_warningCount := 0 |}.

(** [.set({ state: running, workerId, claimedAt, heartbeatAt, attempt + 1 })] *)
Definition claimJob (workerId : string) (now : Z) (j : JobRow) : JobRow :=
  {| j_id := j_id j; j_pipelineId := j_pipelineId j; j_runId := j_runId j;
     j_runStepId := j_runStepId j; j_componentId := j_componentId j; j_state := JobState.running;
     j_availableAt := j_availableAt j; j_claimedAt := Some now; j_heartbeatAt := Some now;
     j_workerId := Some workerId; j_attempt := j_attempt j + 1;
     j_retryMaxAttempts := j_retryMaxAttempts j; j_retryDelaySeconds := j_retryDelaySeconds j;
     j_createdAt := j_createdAt j; j_completedAt := j_completedAt j |}.

Section statements.
Context `{!Uuids}.

Definition newId : DB string := λ d, (Ok (uuid (nextId d)), set_nextId (S (nextId d)) d).

(** *** pipelines *)

Definition insertPipeline (ownerUserId contractVersion name : string) (state : PipelineState.t) :
    DB PipelineRow :=
  id ← newId;
  now ← gets clock;
  let row := {| p_id := id; p_ownerUserId := ownerUserId; p_contractVersion := contractVersion;
                p_name := name; p_state := state; p_createdAt := now; p_updatedAt := now |} in
  enforce (λ d, ¬ references pipelines p_id id d) "pipelines_pkey";;
  enforce (references users u_id ownerUserId) "pipelines_owner_user_id_users_id_fk";;
  puts (λ d, set_pipelines (pipelines d ++ [row]) d);;
  mret row.

Definition updatePipelines (P : PipelineRow → Prop) `{∀ r, Decision (P r)}
    (name : option string) (state : PipelineState.t) (updatedAt : Z) : DB (list PipelineRow) :=
  let set r := {| p_id := p_id r; p_ownerUserId := p_ownerUserId r;
                  p_contractVersion := p_contractVersion r; p_name := default (p_name r) name;
                  p_state := state; p_createdAt := p_createdAt r; p_updatedAt := updatedAt |} in
  updated ← gets (λ d, set <$> filter P (pipelines d));
  puts (λ d, set_pipelines (updateIf P set <$> pipelines d) d);;
  mret updated.

(** *** pipeline_edges *)

Definition insertEdges (rows : list EdgeRow) : DB (list EdgeRow) := transaction (
  for_each (λ row,
    enforce (λ d, row ∉ pipelineEdges d) "pipeline_edges_primary_key";;
    enforce (references pipelines p_id (e_pipelineId row)) "pipeline_edges_pipeline_id_pipelines_id_fk";;
    enforce (hasComponent (e_pipelineId row) (e_fromComponentId row))
      "pipeline_edges_from_component_foreign_key";;
    enforce (hasComponent (e_pipelineId row) (e_toComponentId row))
      "pipeline_edges_to_component_foreign_key";;
    puts (λ d, set_pipelineEdges (pipelineEdges d ++ [row]) d);;
    mret row) rows).

Definition deleteEdges (P : EdgeRow → Prop) `{∀ e, Decision (P e)} : DB unit :=
  puts (λ d, set_pipelineEdges (filter (λ e, ¬ P e) (pipelineEdges d)) d).

(** *** pipeline_components *)

Definition insertComponents (rows : list ComponentRow) : DB (list ComponentRow) := transaction (
  for_each (λ row,
    enforce (λ d, ¬ references pipelineComponents c_id (c_id row) d) "pipeline_components_pkey";;
    enforce (references pipelines p_id (c_pipelineId row))
      "pipeline_components_pipeline_id_pipelines_id_fk";;
    puts (λ d, set_pipelineComponents (pipelineComponents d ++ [row]) d);;
    mret row) rows).

(** Restricted by the steps and jobs that ran a component; its edges and
    its checkpoint go with it. *)
Definition deleteComponents (P : ComponentRow → Prop) `{∀ c, Decision (P c)} : DB unit :=
  enforce (unreferenced runSteps (λ s, Some (s_componentId s)) pipelineComponents c_id P)
    "run_steps_component_id_pipeline_components_id_fk";;
  enforce (unreferenced jobs (λ j, Some (j_componentId j)) pipelineComponents c_id P)
    "jobs_component_id_pipeline_components_id_fk";;
  ids ← gets (λ d, c_id <$> filter P (pipelineComponents d));
  deleteEdges (λ e, e_fromComponentId e ∈ ids ∨ e_toComponentId e ∈ ids);;
  puts (λ d, set_sourceCheckpoints (filter (λ k, ck_sourceComponentId k ∉ ids) (sourceCheckpoints d)) d);;
  puts (λ d, set_pipelineComponents (filter (λ c, ¬ P c) (pipelineComponents d)) d).

(** *** pipeline_triggers *)

Definition insertTriggers (pipelineId : string) (triggers : list WritablePipelineTrigger) :
    DB (list TriggerRow) := transaction (
  for_each (λ trigger,
    id ← newId;
    now ← gets clock;
    let row := triggerRow id now pipelineId trigger in
    enforce (λ d, ¬ references pipelineTriggers t_id id d) "pipeline_triggers_pkey";;
    enforce (references pipelines p_id pipelineId) "pipeline_triggers_pipeline_id_pipelines_id_fk";;
    enforce (λ _, scheduleFields row) "pipeline_triggers_schedule_fields_check";;
    puts (λ d, set_pipelineTriggers (pipelineTriggers d ++ [row]) d);;
    mret row) triggers).

(** The claim of one schedule: [.set({ lastClaimedAt, nextRunAt })]. *)
Definition claimTrigger (lastClaimedAt nextRunAt : Z) (row : TriggerRow) : TriggerRow :=
  {| t_id := t_id row; t_pipelineId := t_pipelineId row; t_type := t_type row;
     t_enabled := t_enabled row; t_cron := t_cron row; t_timezone := t_timezone row;
     t_nextRunAt := Some nextRunAt; t_lastClaimedAt := Some lastClaimedAt;
     t_createdAt := t_createdAt row; t_updatedAt := t_updatedAt row |}.

Definition updateTriggerClaim (triggerId : string) (lastClaimedAt nextRunAt : Z) : DB unit :=
  enforce (λ d, Forall (λ t, t_id t = triggerId → scheduleFields (claimTrigger lastClaimedAt nextRunAt t))
             (pipelineTriggers d)) "pipeline_triggers_schedule_fields_check";;
  puts (λ d, set_pipelineTriggers
    (updateIf (λ t, t_id t = triggerId) (claimTrigger lastClaimedAt nextRunAt) <$> pipelineTriggers d) d).

(** [ON DELETE SET NULL] takes the trigger out of the runs it started. *)
Definition deleteTriggers (P : TriggerRow → Prop) `{∀ t, Decision (P t)} : DB unit :=
  puts (λ d, let gone := t_id <$> filter P (pipelineTriggers d) in
    set_runs (forgetTrigger gone <$> runs d)
      (set_pipelineTriggers (filter (λ t, ¬ P t) (pipelineTriggers d)) d)).

(** Restricted by the execution records, cascading to the graph. *)
Definition deletePipelines (P : PipelineRow → Prop) `{∀ r, Decision (P r)} : DB (list PipelineRow) :=
  transaction (
    deleted ← select pipelines P;
    let ids := p_id <$> deleted in
    enforce (unreferenced runs (λ r, Some (r_pipelineId r)) pipelines p_id P)
      "runs_pipeline_id_pipelines_id_fk";;
    enforce (unreferenced jobs (λ j, Some (j_pipelineId j)) pipelines p_id P)
      "jobs_pipeline_id_pipelines_id_fk";;
    enforce (unreferenced operationalEvents (λ o, Some (o_pipelineId o)) pipelines p_id P)
      "operational_events_pipeline_id_pipelines_id_fk";;
    enforce (unreferenced artifacts (λ a, Some (a_pipelineId a)) pipelines p_id P)
      "artifacts_pipeline_id_pipelines_id_fk";;
    enforce (unreferenced datasets (λ a, Some (d_pipelineId a)) pipelines p_id P)
      "datasets_pipeline_id_pipelines_id_fk";;
    deleteTriggers (λ t, t_pipelineId t ∈ ids);;
    deleteComponents (λ c, c_pipelineId c ∈ ids);;
    deleteEdges (λ e, e_pipelineId e ∈ ids);;
    puts (λ d, set_pipelines (filter (λ r, ¬ P r) (pipelines d)) d);;
    mret deleted).

(** *** runs *)

Definition insertRun (pipelineId : string) (triggerId : option string) (isActive : bool)
    (createdAt expiresAt : Z) (scheduledFor : option Z) : DB RunRow :=
  id ← newId;
  let row := newRun id pipelineId triggerId isActive createdAt expiresAt scheduledFor in
  enforce (λ d, ¬ references runs r_id id d) "runs_pkey";;
  enforce (references pipelines p_id pipelineId) "runs_pipeline_id_pipelines_id_fk";;
  enforce (referencesIf pipelineTriggers t_id triggerId) "runs_trigger_id_pipeline_triggers_id_fk";;
  enforce (λ d, oneActive (runs d ++ [row])) "runs_one_active_pipeline_index";;
  puts (λ d, set_runs (runs d ++ [row]) d);;
  mret row.

Definition updateRunsActive (P : RunRow → Prop) `{∀ r, Decision (P r)} (isActive : bool) : DB unit :=
  enforce (λ d, oneActive (updateIf P (setActive isActive) <$> runs d)) "runs_one_active_pipeline_index";;
  puts (λ d, set_runs (updateIf P (setActive isActive) <$> runs d) d).

Definition deleteRuns (P : RunRow → Prop) `{∀ r, Decision (P r)} : DB (list RunRow) :=
  enforce (unreferenced runLogs (λ l, Some (l_runId l)) runs r_id P) "run_logs_run_id_runs_id_fk";;
  enforce (unreferenced runSteps (λ s, Some (s_runId s)) runs r_id P) "run_steps_run_id_runs_id_fk";;
  enforce (unreferenced jobs (λ j, Some (j_runId j)) runs r_id P) "jobs_run_id_runs_id_fk";;
  enforce (unreferenced operationalEvents (λ o, Some (o_runId o)) runs r_id P)
    "operational_events_run_id_runs_id_fk";;
  enforce (unreferenced artifacts (λ a, Some (a_runId a)) runs r_id P) "artifacts_run_id_runs_id_fk";;
  enforce (unreferenced datasets (λ a, Some (d_runId a)) runs r_id P) "datasets_run_id_runs_id_fk";;
  deleted ← select runs P;
  puts (λ d, set_runs (filter (λ r, ¬ P r) (runs d)) d);;
  mret deleted.

(** *** run_steps, jobs and operational_events *)

Definition insertRunStep (runId componentId : string) : DB RunStepRow :=
  id ← newId;
  let row := {| s_id := id; s_runId := runId; s_componentId := componentId;
       s_state := RunState.queued; s_startedAt := None; s_completedAt := None;
       s_warningCount := 0; s_metrics := []; s_error := None |} in
  enforce (λ d, ¬ references runSteps s_id id d) "run_steps_pkey";;
  enforce (references runs r_id runId) "run_steps_run_id_runs_id_fk";;
  enforce (references pipelineComponents c_id componentId)
    "run_steps_component_id_pipeline_components_id_fk";;
  puts (λ d, set_runSteps (runSteps d ++ [row]) d);;
  mret row.

Definition insertRunSteps (runId : string) (componentIds : list string) : DB (list RunStepRow) :=
  transaction (for_each (insertRunStep runId) componentIds).

Definition deleteRunSteps (P : RunStepRow → Prop) `{∀ s, Decision (P s)} : DB unit :=
  enforce (unreferenced jobs (λ j, Some (j_runStepId j)) runSteps s_id P) "jobs_run_step_id_run_steps_id_fk";;
  enforce (unreferenced operationalEvents o_runStepId runSteps s_id P)
    "operational_events_run_step_id_run_steps_id_fk";;
  enforce (unreferenced datasets (λ a, Some (d_runStepId a)) runSteps s_id P)
    "datasets_run_step_id_run_steps_id_fk";;
  puts (λ d, set_runSteps (filter (λ s, ¬ P s) (runSteps d)) d).

(** One queued job for a pair of a component and its step. *)
Definition insertJob (pipelineId runId : string) (availableAt : Z) (pair : string * string) : DB JobRow :=
  id ← newId;
  now ← gets clock;
  let row := {| j_id := id; j_pipelineId := pipelineId; j_runId := runId;
       j_runStepId := pair.2; j_componentId := pair.1; j_state := JobState.queued;
       j_availableAt := availableAt; j_claimedAt := None; j_heartbeatAt := None;
       j_workerId := None; j_attempt := 0; j_retryMaxAttempts := 1; j_retryDelaySeconds := 0;
       j_createdAt := now; j_completedAt := None |} in
  enforce (λ d, ¬ references jobs j_id id d) "jobs_pkey";;
  enforce (references pipelines p_id pipelineId) "jobs_pipeline_id_pipelines_id_fk";;
  enforce (references runs r_id runId) "jobs_run_id_runs_id_fk";;
  enforce (references runSteps s_id pair.2) "jobs_run_step_id_run_steps_id_fk";;
  enforce (references pipelineComponents c_id pair.1)
    "jobs_component_id_pipeline_components_id_fk";;
  puts (λ d, set_jobs (jobs d ++ [row]) d);;
  mret row.

Definition insertJobs (pipelineId runId : string) (availableAt : Z) (rows : list (string * string)) :
    DB (list JobRow) :=
  transaction (for_each (insertJob pipelineId runId availableAt) rows).

Definition updateJobsClaimed (P : JobRow → Prop) `{∀ j, Decision (P j)} (workerId : string) (now : Z) :
    DB (list JobRow) :=
  enforce (λ d, Forall (λ j, P j → int4 (j_attempt j + 1)) (jobs d)) "integer out of range";;
  updated ← gets (λ d, claimJob workerId now <$> filter P (jobs d));
  puts (λ d, set_jobs (updateIf P (claimJob workerId now) <$> jobs d) d);;
  mret updated.

Definition deleteJobs (P : JobRow → Prop) `{∀ j, Decision (P j)} : DB unit :=
  enforce (unreferenced operationalEvents o_jobId jobs j_id P) "operational_events_job_id_jobs_id_fk";;
  puts (λ d, set_jobs (filter (λ j, ¬ P j) (jobs d)) d).

Definition insertOperationalEvent (make : string → OperationalEventRow) : DB unit :=
  id ← newId;
  let row := make id in
  enforce (λ _, eventInt4 row) "integer out of range";;
  enforce (λ d, ¬ references operationalEvents o_id (o_id row) d) "operational_events_pkey";;
  enforce (references pipelines p_id (o_pipelineId row)) "operational_events_pipeline_id_pipelines_id_fk";;
  enforce (references runs r_id (o_runId row)) "operational_events_run_id_runs_id_fk";;
  enforce (referencesIf runSteps s_id (o_runStepId row))
    "operational_events_run_step_id_run_steps_id_fk";;
  enforce (referencesIf jobs j_id (o_jobId row)) "operational_events_job_id_jobs_id_fk";;
  puts (λ d, set_operationalEvents (operationalEvents d ++ [row]) d).

Definition insertOperationalEvents (rows : list (string → OperationalEventRow)) : DB unit :=
  transaction (for_each insertOperationalEvent rows);;
  mret ().

(** *** Tables no other table refers to *)

Definition deleteRunLogs (P : RunLogRow → Prop) `{∀ l, Decision (P l)} : DB (list RunLogRow) :=
  deleted ← select runLogs P;
  puts (λ d, set_runLogs (filter (λ l, ¬ P l) (runLogs d)) d);;
  mret deleted.

Definition deleteArtifacts (P : ArtifactRow → Prop) `{∀ a, Decision (P a)} : DB (list ArtifactRow) :=
  deleted ← select artifacts P;
  puts (λ d, set_artifacts (filter (λ a, ¬ P a) (artifacts d)) d);;
  mret deleted.

Definition deleteDatasets (P : DatasetRow → Prop) `{∀ a, Decision (P a)} : DB (list DatasetRow) :=
  deleted ← select datasets P;
  puts (λ d, set_datasets (filter (λ a, ¬ P a) (datasets d)) d);;
  mret deleted.

Definition insertStagedUpload (ownerUserId : string) (storageKind : StorageKind.t)
    (storageLocation : string) (expiresAt : Z) : DB StagedUploadRow :=
  id ← newId;
  now ← gets clock;
  let row := {| up_id := id; up_ownerUserId := ownerUserId; up_storageKind := storageKind;
       up_storageLocation := storageLocation; up_createdAt := now; up_expiresAt := expiresAt |} in
  enforce (λ d, ¬ references stagedUploads up_id id d) "uploads_pkey";;
  enforce (references users u_id ownerUserId) "uploads_owner_user_id_users_id_fk";;
  puts (λ d, set_stagedUploads (stagedUploads d ++ [row]) d);;
  mret row.

Definition deleteStagedUploads (P : StagedUploadRow → Prop) `{∀ a, Decision (P a)} :
    DB (list StagedUploadRow) :=
  deleted ← select stagedUploads P;
  puts (λ d, set_stagedUploads (filter (λ a, ¬ P a) (stagedUploads d)) d);;
  mret deleted.

(** [insert ... onConflictDoUpdate({ target: settings.key })] *)
Definition upsertSetting (key : string) (value : Json) (updatedAt : Z) : DB unit :=
  let row := {| setting_key := key; setting_value := value; setting_updatedAt := updatedAt |} in
  puts (λ d, set_settings
    (if decide (references settings setting_key key d)
     then updateIf (λ r, setting_key r = key) (λ _, row) <$> settings d
     else settings d ++ [row]) d).
End statements.
