(* ===== verification/Integrity.v ===== *)
(** * Referential integrity

    The constraints of the schema as an invariant of the store, the logic of
    stateful code that preserves an invariant, and the proof that every
    statement of Database.v preserves it. The repositories are compositions
    of these statements, so their integrity theorems follow by the rules of
    [preserves]. *)

From S2P Require Import Prelude Js Contracts Database.

(** ** Code that preserves an invariant, whether it returns or throws *)

Definition preserves {S E A} (I : S → Prop) (m : M S E A) : Prop := ∀ s, I s → I (m s).2.

Section preserves.
Context {S E : Type} (I : S → Prop).

Lemma preserves_ret {A} (a : A) : preserves I (mret a : M S E A).
Proof. by intros s. Qed.
Lemma preserves_throw {A} (e : E) : preserves I (throw e : M S E A).
Proof. by intros s. Qed.
Lemma preserves_lift {A} (o : outcome E A) : preserves I (lift o : M S E A).
Proof. by intros s. Qed.
Lemma preserves_gets {A} (f : S → A) : preserves I (gets f : M S E A).
Proof. by intros s. Qed.
Lemma preserves_puts (f : S → S) : (∀ s, I s → I (f s)) → preserves I (puts f : M S E unit).
Proof. intros Hf s. apply Hf. Qed.

Lemma preserves_bind {A B} (m : M S E A) (k : A → M S E B) :
  preserves I m → (∀ a, preserves I (k a)) → preserves I (m ≫= k).
Proof.
  intros Hm Hk s Hs. rewrite bind_run. specialize (Hm s Hs).
  destruct (m s) as [[a|e] s1]; [by apply Hk|done].
Qed.

Lemma preserves_lift_bind {A B} (o : outcome E A) (k : A → M S E B) :
  (∀ a, o = Ok a → preserves I (k a)) → preserves I (lift o ≫= k).
Proof. intros Hk s Hs. rewrite bind_run. unfold lift. destruct o; [by apply Hk|done]. Qed.

Lemma preserves_transaction {A} (m : M S E A) : preserves I m → preserves I (transaction m).
Proof.
  intros Hm s Hs. unfold transaction. specialize (Hm s Hs). by destruct (m s) as [[a|e] s1].
Qed.

Lemma preserves_try_catch {A} (m : M S E A) (h : E → M S E A) :
  preserves I m → (∀ e, preserves I (h e)) → preserves I (try_catch m h).
Proof.
  intros Hm Hh s Hs. unfold try_catch. specialize (Hm s Hs).
  destruct (m s) as [[a|e] s1]; [done|by apply Hh].
Qed.

Lemma preserves_for_each {A B} (f : A → M S E B) (l : list A) :
  (∀ a, preserves I (f a)) → preserves I (for_each f l).
Proof.
  intros Hf. induction l as [|a l IH]; simpl; [apply preserves_ret|].
  apply preserves_bind; [done|]. intros b. apply preserves_bind; [done|]. intros bs. apply preserves_ret.
Qed.

Lemma preserves_if {A} (P : Prop) `{Decision P} (m1 m2 : M S E A) :
  preserves I m1 → preserves I m2 → preserves I (if decide P then m1 else m2).
Proof. by case_decide. Qed.
End preserves.

(** ** What holds when code returns *)

Definition triple {S E A} (P : S → Prop) (m : M S E A) (Q : A → S → Prop) : Prop :=
  ∀ s a s', P s → m s = (Ok a, s') → Q a s'.

Section triple.
Context {S E : Type}.
Implicit Types P : S → Prop.

Lemma triple_bind {A B} P (m : M S E A) (k : A → M S E B) R Q :
  triple P m R → (∀ a, triple (R a) (k a) Q) → triple P (m ≫= k) Q.
Proof. intros Hm Hk s b s' Hs (a & s1 & H1 & H2)%bind_ok. by eapply Hk, H2; eapply Hm. Qed.

Lemma triple_ret {A} P (a : A) (Q : A → S → Prop) : (∀ s, P s → Q a s) → triple P (mret a : M S E A) Q.
Proof. intros HQ s a' s' Hs [<- <-]%ret_ok. by apply HQ. Qed.

Lemma triple_throw {A} P e (Q : A → S → Prop) : triple P (throw e : M S E A) Q.
Proof. by intros s a s' _ []%throw_ok. Qed.

Lemma triple_lift {A} P (o : outcome E A) (Q : A → S → Prop) :
  (∀ a s, o = Ok a → P s → Q a s) → triple P (lift o) Q.
Proof. intros HQ s a s' Hs [Ho <-]%lift_ok. by apply HQ. Qed.

Lemma triple_transaction {A} P (m : M S E A) Q : triple P m Q → triple P (transaction m) Q.
Proof. intros Hm s a s' Hs. rewrite transaction_ok. by apply Hm. Qed.

Lemma triple_conseq {A} P P' (m : M S E A) (Q Q' : A → S → Prop) :
  triple P' m Q' → (∀ s, P s → P' s) → (∀ a s, Q' a s → Q a s) → triple P m Q.
Proof. intros Hm HP HQ s a s' Hs Hr. eapply HQ, Hm; eauto. Qed.

Lemma triple_for_each {A B} I (f : A → M S E B) (l : list A) :
  (∀ a, a ∈ l → triple I (f a) (λ _, I)) → triple I (for_each f l) (λ _, I).
Proof.
  induction l as [|a l IH]; intros Hf; simpl; [by apply triple_ret|].
  eapply triple_bind; [apply Hf; left|intros b].
  eapply triple_bind; [apply IH; intros; apply Hf; by right|intros bs]. by apply triple_ret.
Qed.

(** Atomic code preserves what it establishes when it returns. *)
Lemma preserves_atomic {A} I (m : M S E A) :
  triple I m (λ _, I) → preserves I (transaction m).
Proof.
  intros Hm s Hs. unfold transaction. destruct (m s) as [[a|e] s1] eqn:Hr; [|done].
  by eapply Hm.
Qed.
End triple.

(** The statements that check before they write. *)
Lemma preserves_enforce (I : Database → Prop) P `{∀ d, Decision (P d)} constraint {A}
    (k : unit → DB A) :
  (∀ d, P d → I d → I ((k () d).2)) → preserves I (enforce P constraint ≫= k).
Proof. intros Hk d Hd. rewrite bind_run. unfold enforce. case_decide; [by apply Hk|done]. Qed.

Lemma preserves_select {A} (I : Database → Prop) (table : Database → list A) P `{∀ a, Decision (P a)} :
  preserves I (select table P).
Proof. apply preserves_gets. Qed.

Lemma preserves_selectFirst {A} (I : Database → Prop) (table : Database → list A) P
    `{∀ a, Decision (P a)} :
  preserves I (selectFirst table P).
Proof. apply preserves_bind; [apply preserves_select|intros; apply preserves_ret]. Qed.

Create HintDb preserves.
#[export] Hint Resolve preserves_ret preserves_throw preserves_lift preserves_gets preserves_bind
  preserves_transaction preserves_try_catch preserves_for_each preserves_select
  preserves_selectFirst preserves_if : preserves.

(** ** Foreign keys *)

Definition fk {A B K} (child : list A) (key : A → option K) (parent : list B) (id : B → K) : Prop :=
  ∀ a k, a ∈ child → key a = Some k → k ∈ id <$> parent.

Section fk.
Context {A B K : Type} (key : A → option K) (id : B → K).
Implicit Types (child : list A) (parent : list B).

Lemma fk_insert_child child parent a :
  fk child key parent id → (∀ k, key a = Some k → k ∈ id <$> parent) →
  fk (child ++ [a]) key parent id.
Proof. intros Hfk Ha b k [?| ->]%elem_of_snoc ?; eauto. Qed.

Lemma fk_insert_parent child parent b : fk child key parent id → fk child key (parent ++ [b]) id.
Proof. intros Hfk a k ? ?. rewrite fmap_app, elem_of_app. left. eauto. Qed.

Lemma fk_delete_child child parent (P : A → Prop) `{∀ a, Decision (P a)} :
  fk child key parent id → fk (filter P child) key parent id.
Proof. intros Hfk a k [_ ?]%list_elem_of_filter ?. eauto. Qed.

Lemma fk_update_child child parent (f : A → A) :
  (∀ a, key (f a) = key a ∨ key (f a) = None) → fk child key parent id →
  fk (f <$> child) key parent id.
Proof.
  intros Hf Hfk a k (a' & -> & ?)%list_elem_of_fmap ?.
  destruct (Hf a'); [|congruence]. eapply Hfk; [done|congruence].
Qed.

Lemma fk_update_parent child parent (f : B → B) :
  (∀ b, id (f b) = id b) → fk child key parent id → fk child key (f <$> parent) id.
Proof.
  intros Hf Hfk a k ? ?. rewrite <-list_fmap_compose.
  rewrite (list_fmap_ext (id ∘ f) id parent) by (intros; apply Hf). eauto.
Qed.

(** Rows may go when no row refers to them. *)
Lemma fk_delete_parent child parent (P : B → Prop) `{∀ b, Decision (P b)} :
  fk child key parent id →
  (∀ a b, a ∈ child → b ∈ parent → P b → key a ≠ Some (id b)) →
  fk child key (filter (λ b, ¬ P b) parent) id.
Proof.
  intros Hfk Hun a k Ha Hk. destruct (list_elem_of_fmap_1 _ _ _ (Hfk a k Ha Hk)) as (b & -> & Hb).
  apply list_elem_of_fmap_2, list_elem_of_filter. split; [|done].
  intros HP. by eapply Hun.
Qed.
End fk.

Lemma NoDup_filter_fmap {A K} (key : A → K) (P : A → Prop) `{∀ a, Decision (P a)} (l : list A) :
  NoDup (key <$> l) → NoDup (key <$> filter P l).
Proof.
  induction l as [|a l IH]; csimpl; [done|]. intros [Ha Hl]%NoDup_cons.
  rewrite filter_cons. case_decide; [|by apply IH]. csimpl. apply NoDup_cons. split; [|by apply IH].
  intros (b & Heq & [_ Hb]%list_elem_of_filter)%list_elem_of_fmap. apply Ha. rewrite Heq.
  by apply list_elem_of_fmap_2.
Qed.

Lemma NoDup_insert {A K} (key : A → K) (l : list A) (a : A) :
  NoDup (key <$> l) → key a ∉ key <$> l → NoDup (key <$> (l ++ [a])).
Proof. intros. rewrite fmap_app. by apply NoDup_snoc. Qed.

Lemma NoDup_update {A K} (key : A → K) (f : A → A) (l : list A) :
  (∀ a, key (f a) = key a) → NoDup (key <$> l) → NoDup (key <$> (f <$> l)).
Proof.
  intros Hf. rewrite <-list_fmap_compose.
  by rewrite (list_fmap_ext (key ∘ f) key l) by (intros; apply Hf).
Qed.

Lemma unreferenced_spec {A B} (table : Database → list A) key (parent : Database → list B) id P d :
  unreferenced table key parent id P d ↔
  ∀ a b, a ∈ table d → b ∈ parent d → P b → key a ≠ Some (id b).
Proof.
  unfold unreferenced. rewrite Forall_forall. setoid_rewrite Forall_forall. naive_solver.
Qed.

(** ** The invariant *)

Definition componentKeyOf (c : ComponentRow) : string * string := (c_pipelineId c, c_id c).

Record integrity (d : Database) : Prop := {
  pk_pipelines : NoDup (p_id <$> pipelines d);
  pk_components : NoDup (c_id <$> pipelineComponents d);
  pk_edges : NoDup (pipelineEdges d);
  pk_triggers : NoDup (t_id <$> pipelineTriggers d);
  pk_runs : NoDup (r_id <$> runs d);
  pk_runSteps : NoDup (s_id <$> runSteps d);
  pk_jobs : NoDup (j_id <$> jobs d);
  pk_events : NoDup (o_id <$> operationalEvents d);
  trigger_fields : Forall scheduleFields (pipelineTriggers d);
  one_active : oneActive (runs d);
  component_pipeline : fk (pipelineComponents d) (λ c, Some (c_pipelineId c)) (pipelines d) p_id;
  edge_pipeline : fk (pipelineEdges d) (λ e, Some (e_pipelineId e)) (pipelines d) p_id;
  edge_from : fk (pipelineEdges d) (λ e, Some (e_pipelineId e, e_fromComponentId e))
                (pipelineComponents d) componentKeyOf;
  edge_to : fk (pipelineEdges d) (λ e, Some (e_pipelineId e, e_toComponentId e))
              (pipelineComponents d) componentKeyOf;
  trigger_pipeline : fk (pipelineTriggers d) (λ t, Some (t_pipelineId t)) (pipelines d) p_id;
  run_pipeline : fk (runs d) (λ r, Some (r_pipelineId r)) (pipelines d) p_id;
  run_trigger : fk (runs d) r_triggerId (pipelineTriggers d) t_id;
  log_run : fk (runLogs d) (λ l, Some (l_runId l)) (runs d) r_id;
  step_run : fk (runSteps d) (λ s, Some (s_runId s)) (runs d) r_id;
  step_component : fk (runSteps d) (λ s, Some (s_componentId s)) (pipelineComponents d) c_id;
  job_pipeline : fk (jobs d) (λ j, Some (j_pipelineId j)) (pipelines d) p_id;
  job_run : fk (jobs d) (λ j, Some (j_runId j)) (runs d) r_id;
  job_step : fk (jobs d) (λ j, Some (j_runStepId j)) (runSteps d) s_id;
  job_component : fk (jobs d) (λ j, Some (j_componentId j)) (pipelineComponents d) c_id;
  event_pipeline : fk (operationalEvents d) (λ o, Some (o_pipelineId o)) (pipelines d) p_id;
  event_run : fk (operationalEvents d) (λ o, Some (o_runId o)) (runs d) r_id;
  event_step : fk (operationalEvents d) o_runStepId (runSteps d) s_id;
  event_job : fk (operationalEvents d) o_jobId (jobs d) j_id;
  artifact_pipeline : fk (artifacts d) (λ a, Some (a_pipelineId a)) (pipelines d) p_id;
  artifact_run : fk (artifacts d) (λ a, Some (a_runId a)) (runs d) r_id;
  dataset_pipeline : fk (datasets d) (λ a, Some (d_pipelineId a)) (pipelines d) p_id;
  dataset_run : fk (datasets d) (λ a, Some (d_runId a)) (runs d) r_id;
  dataset_step : fk (datasets d) (λ a, Some (d_runStepId a)) (runSteps d) s_id }.

Create HintDb integrity.
#[export] Hint Resolve pk_pipelines pk_components pk_edges pk_triggers pk_runs pk_runSteps pk_jobs
  pk_events trigger_fields one_active component_pipeline edge_pipeline edge_from edge_to
  trigger_pipeline run_pipeline run_trigger log_run step_run step_component job_pipeline job_run
  job_step job_component event_pipeline event_run event_step event_job artifact_pipeline
  artifact_run dataset_pipeline dataset_run dataset_step : integrity.
#[export] Hint Resolve fk_insert_parent fk_delete_child NoDup_filter_fmap : integrity.

(** Splits the invariant of a written store into its fields: those of the
    tables that did not change are those of the store before. *)
Ltac integrity_fields := intros; constructor; simpl; eauto with integrity.

(** The condition under which a row may be appended. *)
Ltac row_refers := intros ? [= <-]; done.

(** Runs through the constraints of a statement; a violated one throws. *)
Ltac enforced :=
  let d := fresh "d" in let Hd := fresh "Hd" in
  intros d Hd;
  repeat (rewrite bind_run; unfold enforce at 1; case_decide; [|exact Hd]);
  simpl.

Lemma Forall_delete {A} (Q P : A → Prop) `{∀ a, Decision (P a)} (l : list A) :
  Forall Q l → Forall Q (filter P l).
Proof. rewrite !Forall_forall. intros Hl a [_ ?]%list_elem_of_filter. by apply Hl. Qed.

#[export] Hint Resolve NoDup_filter Forall_delete : integrity.

(** Runs that change neither identity nor lock keep the lock. *)
Lemma oneActive_update (f : RunRow → RunRow) l :
  (∀ r, r_pipelineId (f r) = r_pipelineId r ∧ (activeRow (f r) ↔ activeRow r)) →
  oneActive l → oneActive (f <$> l).
Proof.
  intros Hf. unfold oneActive.
  assert (r_pipelineId <$> filter activeRow (f <$> l) = r_pipelineId <$> filter activeRow l) as ->; [|done].
  induction l as [|r l IH]; csimpl; [done|]. rewrite !filter_cons.
  destruct (Hf r) as [Hp Ha]. destruct (decide (activeRow r)), (decide (activeRow (f r)));
    csimpl; rewrite ?IH, ?Hp; naive_solver.
Qed.

Lemma oneActive_delete l P `{∀ r, Decision (P r)} : oneActive l → oneActive (filter P l).
Proof.
  unfold oneActive. intros Hl. rewrite list_filter_filter.
  rewrite (list_filter_iff _ (λ r, P r ∧ activeRow r)) by naive_solver.
  rewrite <-list_filter_filter. by apply NoDup_filter_fmap.
Qed.

#[export] Hint Resolve oneActive_delete : integrity.

Section statements.
Context `{!Uuids}.

Lemma preserves_newId : preserves integrity newId.
Proof. intros d Hd. simpl. destruct Hd. by constructor. Qed.

(** The identifier and the time of a row are drawn before its constraints
    are checked. *)
Ltac drawn :=
  repeat first [apply preserves_transaction | apply preserves_for_each; intros ?];
  repeat (apply preserves_bind; [first [apply preserves_newId | apply preserves_gets]|intros ?]);
  cbv zeta; enforced.

Lemma insertPipeline_integrity owner version name state :
  preserves integrity (insertPipeline owner version name state).
Proof. drawn. integrity_fields. by apply NoDup_insert; [apply pk_pipelines|]. Qed.

Lemma updatePipelines_integrity P `{∀ r, Decision (P r)} name state now :
  preserves integrity (updatePipelines P name state now).
Proof.
  apply preserves_bind; [apply preserves_gets|intros updated]. intros d Hd. simpl.
  integrity_fields.
  1: apply NoDup_update; [intros r; unfold updateIf; by case_decide|by apply pk_pipelines].
  all: apply fk_update_parent; [intros r; unfold updateIf; by case_decide|eauto with integrity].
Qed.

Lemma insertEdges_integrity rows : preserves integrity (insertEdges rows).
Proof.
  drawn. integrity_fields.
  - apply NoDup_snoc. split; [done|by apply pk_edges].
  - apply fk_insert_child; [by apply edge_pipeline|row_refers].
  - apply fk_insert_child; [by apply edge_from|]. intros ? [= <-].
    match goal with H : hasComponent _ (e_fromComponentId _) _ |- _ =>
      apply Exists_exists in H as (c & ? & <- & <-) end.
    by apply (list_elem_of_fmap_2 componentKeyOf).
  - apply fk_insert_child; [by apply edge_to|]. intros ? [= <-].
    match goal with H : hasComponent _ (e_toComponentId _) _ |- _ =>
      apply Exists_exists in H as (c & ? & <- & <-) end.
    by apply (list_elem_of_fmap_2 componentKeyOf).
Qed.

Lemma deleteEdges_integrity P `{∀ e, Decision (P e)} : preserves integrity (deleteEdges P).
Proof. intros d Hd. simpl. integrity_fields. Qed.

Lemma insertComponents_integrity rows : preserves integrity (insertComponents rows).
Proof.
  drawn. integrity_fields.
  - by apply NoDup_insert; [apply pk_components|].
  - apply fk_insert_child; [by apply component_pipeline|row_refers].
Qed.

Lemma insertTriggers_integrity id triggers : preserves integrity (insertTriggers id triggers).
Proof.
  drawn. integrity_fields.
  - by apply NoDup_insert; [apply pk_triggers|destruct a].
  - apply Forall_app; split; [by apply trigger_fields|by apply Forall_singleton].
  - apply fk_insert_child; [by apply trigger_pipeline|]. destruct a; row_refers.
Qed.

Lemma updateTriggerClaim_integrity id claimed next :
  preserves integrity (updateTriggerClaim id claimed next).
Proof.
  unfold updateTriggerClaim. enforced. integrity_fields.
  - apply NoDup_update; [intros t; unfold updateIf; by case_decide|by apply pk_triggers].
  - rewrite Forall_fmap. pose proof (trigger_fields d Hd) as Ht.
    rewrite Forall_forall in *. intros t Hin. unfold compose, updateIf. case_decide; eauto.
  - apply fk_update_child; [intros t; unfold updateIf; case_decide; by left|by apply trigger_pipeline].
  - apply fk_update_parent; [intros t; unfold updateIf; by case_decide|by apply run_trigger].
Qed.

Lemma deleteTriggers_integrity P `{∀ t, Decision (P t)} : preserves integrity (deleteTriggers P).
Proof.
  intros d Hd. simpl.
  set (gone := t_id <$> filter P (pipelineTriggers d)). integrity_fields.
  - apply NoDup_update; [done|by apply pk_runs].
  - apply oneActive_update; [done|by apply one_active].
  - apply fk_update_child; [by left|by apply run_pipeline].
  - intros r id (r' & -> & Hr')%list_elem_of_fmap Ht. simpl in Ht.
    destruct (r_triggerId r') as [id'|] eqn:E; [|done]. case_decide as Hg; simplify_eq.
    pose proof (run_trigger d Hd r' id Hr' E) as (t & -> & Hin)%list_elem_of_fmap.
    apply list_elem_of_fmap_2, list_elem_of_filter. split; [|done].
    intros HP. apply Hg, list_elem_of_fmap_2, list_elem_of_filter. done.
  - apply fk_update_parent; [done|by apply log_run].
  - apply fk_update_parent; [done|by apply step_run].
  - apply fk_update_parent; [done|by apply job_run].
  - apply fk_update_parent; [done|by apply event_run].
  - apply fk_update_parent; [done|by apply artifact_run].
  - apply fk_update_parent; [done|by apply dataset_run].
Qed.

(** What a deletion of components leaves. *)
Definition dropComponents (P : ComponentRow → Prop) `{∀ c, Decision (P c)} (d : Database) : Database :=
  let ids := c_id <$> filter P (pipelineComponents d) in
  set_pipelineComponents (filter (λ c, ¬ P c) (pipelineComponents d))
    (set_sourceCheckpoints (filter (λ k, ck_sourceComponentId k ∉ ids) (sourceCheckpoints d))
    (set_pipelineEdges
       (filter (λ e, ¬ (e_fromComponentId e ∈ ids ∨ e_toComponentId e ∈ ids)) (pipelineEdges d)) d)).

Lemma deleteComponents_run P `{∀ c, Decision (P c)} d :
  deleteComponents P d =
  if decide (unreferenced runSteps (λ s, Some (s_componentId s)) pipelineComponents c_id P d)
  then if decide (unreferenced jobs (λ j, Some (j_componentId j)) pipelineComponents c_id P d)
       then (Ok (), dropComponents P d)
       else (Throw (DatabaseError "jobs_component_id_pipeline_components_id_fk"), d)
  else (Throw (DatabaseError "run_steps_component_id_pipeline_components_id_fk"), d).
Proof.
  unfold deleteComponents. rewrite bind_run. unfold enforce at 1. case_decide; [|done].
  rewrite bind_run. unfold enforce. by case_decide.
Qed.

Lemma deleteComponents_integrity P `{∀ c, Decision (P c)} : preserves integrity (deleteComponents P).
Proof.
  intros d Hd. rewrite deleteComponents_run.
  case_decide as Hs; [|done]. case_decide as Hj; [|done]. simpl.
  rewrite unreferenced_spec in Hs. rewrite unreferenced_spec in Hj. integrity_fields.
  - apply fk_delete_parent; [by apply fk_delete_child, edge_from|].
    intros e c [Hn _]%list_elem_of_filter Hc HP [= _ Heq]. apply Hn. left. rewrite Heq.
    by apply list_elem_of_fmap_2, list_elem_of_filter.
  - apply fk_delete_parent; [by apply fk_delete_child, edge_to|].
    intros e c [Hn _]%list_elem_of_filter Hc HP [= _ Heq]. apply Hn. right. rewrite Heq.
    by apply list_elem_of_fmap_2, list_elem_of_filter.
  - apply fk_delete_parent; [by apply step_component|eauto].
  - apply fk_delete_parent; [by apply job_component|eauto].
Qed.

(** A pipeline may go once nothing refers to it. *)
Lemma dropPipelines_integrity P `{∀ r, Decision (P r)} d :
  (∀ id, id ∈ p_id <$> filter P (pipelines d) →
     (∀ r, r ∈ runs d → r_pipelineId r ≠ id) ∧ (∀ j, j ∈ jobs d → j_pipelineId j ≠ id) ∧
     (∀ o, o ∈ operationalEvents d → o_pipelineId o ≠ id) ∧
     (∀ a, a ∈ artifacts d → a_pipelineId a ≠ id) ∧ (∀ a, a ∈ datasets d → d_pipelineId a ≠ id) ∧
     (∀ t, t ∈ pipelineTriggers d → t_pipelineId t ≠ id) ∧
     (∀ c, c ∈ pipelineComponents d → c_pipelineId c ≠ id) ∧
     (∀ e, e ∈ pipelineEdges d → e_pipelineId e ≠ id)) →
  integrity d → integrity (set_pipelines (filter (λ r, ¬ P r) (pipelines d)) d).
Proof.
  intros Hun Hd. assert (∀ r, r ∈ pipelines d → P r → p_id r ∈ p_id <$> filter P (pipelines d)) as Hin
    by (intros; by apply list_elem_of_fmap_2, list_elem_of_filter).
  integrity_fields; (apply fk_delete_parent; [eauto with integrity|]);
    intros a r Ha Hr HP [= Heq];
    destruct (Hun (p_id r) (Hin r Hr HP)) as (Hruns & Hjobs & Hev & Har & Hds & Htr & Hco & Hed);
    naive_solver.
Qed.

(** A successful deletion: what it demanded and what it left. *)
Lemma deletePipelines_run P `{∀ r, Decision (P r)} d :
  let ids := p_id <$> filter P (pipelines d) in
  let d1 := (deleteTriggers (λ t, t_pipelineId t ∈ ids) d).2 in
  let d2 := dropComponents (λ c, c_pipelineId c ∈ ids) d1 in
  let d3 := (deleteEdges (λ e, e_pipelineId e ∈ ids) d2).2 in
  (∃ e, deletePipelines P d = (Throw e, d)) ∨
  deletePipelines P d =
    (Ok (filter P (pipelines d)), set_pipelines (filter (λ r, ¬ P r) (pipelines d)) d3) ∧
  unreferenced runs (λ r, Some (r_pipelineId r)) pipelines p_id P d ∧
  unreferenced jobs (λ j, Some (j_pipelineId j)) pipelines p_id P d ∧
  unreferenced operationalEvents (λ o, Some (o_pipelineId o)) pipelines p_id P d ∧
  unreferenced artifacts (λ a, Some (a_pipelineId a)) pipelines p_id P d ∧
  unreferenced datasets (λ a, Some (d_pipelineId a)) pipelines p_id P d ∧
  unreferenced runSteps (λ s, Some (s_componentId s)) pipelineComponents c_id
    (λ c, c_pipelineId c ∈ ids) d1 ∧
  unreferenced jobs (λ j, Some (j_componentId j)) pipelineComponents c_id
    (λ c, c_pipelineId c ∈ ids) d1.
Proof.
  intros ids d1 d2 d3. destruct (deletePipelines P d) as [o d'] eqn:E.
  unfold deletePipelines, transaction, select in E. rewrite bind_run in E.
  unfold gets at 1 in E. cbv beta iota zeta in E. fold ids in E.
  do 5 (rewrite bind_run in E; unfold enforce at 1 in E;
    case_decide; [|left; eexists; by inversion E]).
  rewrite bind_run in E. unfold deleteTriggers at 1, puts at 1 in E. cbv beta iota in E.
  rewrite bind_run in E. change (set_runs _ _) with d1 in E. rewrite deleteComponents_run in E.
  do 2 (case_decide; [|left; eexists; by inversion E]). right. split; [|done].
  by inversion E.
Qed.

Lemma deletePipelines_integrity P `{∀ r, Decision (P r)} : preserves integrity (deletePipelines P).
Proof.
  intros d Hd. destruct (deletePipelines_run P d) as [[e ->]|Hr]; [done|].
  destruct Hr as (-> & Hruns & Hjobs & Hev & Har & Hds & Hs & Hj). simpl.
  set (ids := p_id <$> filter P (pipelines d)) in *.
  pose proof (deleteTriggers_integrity (λ t, t_pipelineId t ∈ ids) d Hd) as I1.
  pose proof (deleteComponents_integrity (λ c, c_pipelineId c ∈ ids) _ I1) as I2.
  rewrite deleteComponents_run in I2. do 2 (case_decide; [|done]).
  pose proof (deleteEdges_integrity (λ e, e_pipelineId e ∈ ids) _ I2) as I3.
  rewrite unreferenced_spec in Hruns. rewrite unreferenced_spec in Hjobs.
  rewrite unreferenced_spec in Hev. rewrite unreferenced_spec in Har.
  rewrite unreferenced_spec in Hds.
  apply (dropPipelines_integrity P) in I3; [done|].
  intros id Hid. pose proof Hid as (r & -> & [HP Hr]%list_elem_of_filter)%list_elem_of_fmap.
  simpl in Hr. split_and!; simpl.
  - intros r' (r'' & -> & Hr'')%list_elem_of_fmap Heq. eapply (Hruns r'' r); [done..|]. simpl. by f_equal.
  - intros j Hin Heq. eapply (Hjobs j r); [done..|]. by f_equal.
  - intros o Hin Heq. eapply (Hev o r); [done..|]. by f_equal.
  - intros o Hin Heq. eapply (Har o r); [done..|]. by f_equal.
  - intros o Hin Heq. eapply (Hds o r); [done..|]. by f_equal.
  - intros t [Hn _]%list_elem_of_filter Heq. apply Hn. by rewrite Heq.
  - intros c [Hn _]%list_elem_of_filter Heq. apply Hn. by rewrite Heq.
  - intros e [Hn _]%list_elem_of_filter Heq. apply Hn. by rewrite Heq.
Qed.

Lemma insertRun_integrity pipelineId triggerId isActive created expires scheduled :
  preserves integrity (insertRun pipelineId triggerId isActive created expires scheduled).
Proof.
  drawn. integrity_fields.
  - by apply NoDup_insert; [apply pk_runs|].
  - apply fk_insert_child; [by apply run_pipeline|row_refers].
  - apply fk_insert_child; [by apply run_trigger|]. simpl. intros id ->. done.
Qed.

Lemma updateIf_active P `{∀ r, Decision (P r)} isActive r :
  r_id (updateIf P (setActive isActive) r) = r_id r ∧
  r_pipelineId (updateIf P (setActive isActive) r) = r_pipelineId r ∧
  r_triggerId (updateIf P (setActive isActive) r) = r_triggerId r.
Proof. unfold updateIf. by case_decide. Qed.

Lemma updateRunsActive_integrity P `{∀ r, Decision (P r)} isActive :
  preserves integrity (updateRunsActive P isActive).
Proof.
  unfold updateRunsActive. enforced. integrity_fields.
  - apply NoDup_update; [intros; apply updateIf_active|by apply pk_runs].
  - apply fk_update_child; [|by apply run_pipeline].
    intros r. left. f_equal. apply updateIf_active.
  - apply fk_update_child; [intros r; left; apply updateIf_active|by apply run_trigger].
  - apply fk_update_parent; [intros; apply updateIf_active|by apply log_run].
  - apply fk_update_parent; [intros; apply updateIf_active|by apply step_run].
  - apply fk_update_parent; [intros; apply updateIf_active|by apply job_run].
  - apply fk_update_parent; [intros; apply updateIf_active|by apply event_run].
  - apply fk_update_parent; [intros; apply updateIf_active|by apply artifact_run].
  - apply fk_update_parent; [intros; apply updateIf_active|by apply dataset_run].
Qed.

Lemma deleteRuns_integrity P `{∀ r, Decision (P r)} : preserves integrity (deleteRuns P).
Proof.
  unfold deleteRuns. enforced.
  repeat match goal with H : unreferenced _ _ _ _ _ _ |- _ => rewrite unreferenced_spec in H end.
  integrity_fields; apply fk_delete_parent; eauto with integrity.
Qed.

Lemma insertRunSteps_integrity runId ids : preserves integrity (insertRunSteps runId ids).
Proof.
  drawn. integrity_fields.
  - by apply NoDup_insert; [apply pk_runSteps|].
  - apply fk_insert_child; [by apply step_run|row_refers].
  - apply fk_insert_child; [by apply step_component|row_refers].
Qed.

Lemma deleteRunSteps_integrity P `{∀ s, Decision (P s)} : preserves integrity (deleteRunSteps P).
Proof.
  unfold deleteRunSteps. enforced.
  repeat match goal with H : unreferenced _ _ _ _ _ _ |- _ => rewrite unreferenced_spec in H end.
  integrity_fields; apply fk_delete_parent; eauto with integrity.
Qed.

Lemma insertJobs_integrity pipelineId runId available rows :
  preserves integrity (insertJobs pipelineId runId available rows).
Proof.
  drawn. integrity_fields.
  - by apply NoDup_insert; [apply pk_jobs|].
  - apply fk_insert_child; [by apply job_pipeline|row_refers].
  - apply fk_insert_child; [by apply job_run|row_refers].
  - apply fk_insert_child; [by apply job_step|row_refers].
  - apply fk_insert_child; [by apply job_component|row_refers].
Qed.

Lemma updateJobsClaimed_integrity P `{∀ j, Decision (P j)} workerId now :
  preserves integrity (updateJobsClaimed P workerId now).
Proof.
  unfold updateJobsClaimed. enforced.
  assert (∀ j, j_id (updateIf P (claimJob workerId now) j) = j_id j) as Hid
    by (intros j; unfold updateIf; by case_decide).
  integrity_fields; first [by apply NoDup_update; [|apply pk_jobs] |
    by apply fk_update_parent; [|apply event_job] |
    apply fk_update_child; [intros j; unfold updateIf; case_decide; by left|eauto with integrity]].
Qed.

Lemma deleteJobs_integrity P `{∀ j, Decision (P j)} : preserves integrity (deleteJobs P).
Proof.
  unfold deleteJobs. enforced.
  repeat match goal with H : unreferenced _ _ _ _ _ _ |- _ => rewrite unreferenced_spec in H end.
  integrity_fields; apply fk_delete_parent; eauto with integrity.
Qed.

Lemma insertOperationalEvents_integrity rows : preserves integrity (insertOperationalEvents rows).
Proof.
  apply preserves_bind; [|intros; apply preserves_ret]. drawn. integrity_fields.
  - by apply NoDup_insert; [apply pk_events|].
  - apply fk_insert_child; [by apply event_pipeline|row_refers].
  - apply fk_insert_child; [by apply event_run|row_refers].
  - apply fk_insert_child; [by apply event_step|]. simpl. intros ? Hk.
    match goal with H : referencesIf runSteps _ _ _ |- _ => by rewrite Hk in H end.
  - apply fk_insert_child; [by apply event_job|]. simpl. intros ? Hk.
    match goal with H : referencesIf jobs _ _ _ |- _ => by rewrite Hk in H end.
Qed.

Lemma deleteRunLogs_integrity P `{∀ l, Decision (P l)} : preserves integrity (deleteRunLogs P).
Proof. intros d Hd. simpl. integrity_fields. Qed.

Lemma deleteArtifacts_integrity P `{∀ a, Decision (P a)} : preserves integrity (deleteArtifacts P).
Proof. intros d Hd. simpl. integrity_fields. Qed.

Lemma deleteDatasets_integrity P `{∀ a, Decision (P a)} : preserves integrity (deleteDatasets P).
Proof. intros d Hd. simpl. integrity_fields. Qed.

Lemma insertStagedUpload_integrity owner kind location expires :
  preserves integrity (insertStagedUpload owner kind location expires).
Proof. drawn. integrity_fields. Qed.

Lemma deleteStagedUploads_integrity P `{∀ a, Decision (P a)} :
  preserves integrity (deleteStagedUploads P).
Proof. intros d Hd. simpl. integrity_fields. Qed.

Lemma upsertSetting_integrity key value now : preserves integrity (upsertSetting key value now).
Proof. intros d Hd. simpl. integrity_fields. Qed.
End statements.

#[export] Hint Resolve preserves_newId insertPipeline_integrity updatePipelines_integrity
  insertEdges_integrity deleteEdges_integrity insertComponents_integrity insertTriggers_integrity
  updateTriggerClaim_integrity deleteTriggers_integrity deleteComponents_integrity
  deletePipelines_integrity insertRun_integrity updateRunsActive_integrity deleteRuns_integrity
  insertRunSteps_integrity deleteRunSteps_integrity insertJobs_integrity
  updateJobsClaimed_integrity deleteJobs_integrity insertOperationalEvents_integrity
  deleteRunLogs_integrity deleteArtifacts_integrity deleteDatasets_integrity
  insertStagedUpload_integrity deleteStagedUploads_integrity upsertSetting_integrity : preserves.

(** Operations are compositions of statements that preserve the invariant. *)
Ltac solve_preserves :=
  repeat first
    [ progress cbv zeta
    | solve [eauto with preserves]
    | apply preserves_transaction
    | apply preserves_bind; [|intros ?]
    | apply preserves_for_each; intros ?
    | apply preserves_try_catch; [|intros ?]
    | case_match ].

