(* ===== verification/Statements.v ===== *)
(** * What the statements do

    The exact effect of the statements of Database.v when they succeed and
    the exact condition under which they do, in the form the repositories'
    functional properties use. *)

From S2P Require Import Prelude Js Contracts Database.

Lemma enforce_ok P `{∀ d, Decision (P d)} constraint {A} (k : unit → DB A) d a d' :
  (enforce P constraint ≫= k) d = (Ok a, d') ↔ P d ∧ k () d = (Ok a, d').
Proof. rewrite bind_run. unfold enforce. case_decide; naive_solver. Qed.

Lemma gets_ok {A B} (f : Database → A) (k : A → DB B) d b d' :
  (gets f ≫= k) d = (Ok b, d') ↔ k (f d) d = (Ok b, d').
Proof. done. Qed.

Lemma puts_ok {B} (f : Database → Database) (k : unit → DB B) d b d' :
  (puts f ≫= k) d = (Ok b, d') ↔ k () (f d) = (Ok b, d').
Proof. done. Qed.

Lemma set_pipelineComponents_id d : set_pipelineComponents (pipelineComponents d) d = d.
Proof. by destruct d. Qed.
Lemma set_pipelineEdges_id d : set_pipelineEdges (pipelineEdges d) d = d.
Proof. by destruct d. Qed.

Lemma head_filter_Some {A} (P : A → Prop) `{∀ a, Decision (P a)} (l : list A) a :
  head (filter P l) = Some a → a ∈ l ∧ P a.
Proof. intros [? ?]%head_elem_of%list_elem_of_filter. done. Qed.

(** With a key the first match is the match. *)
Lemma head_filter_key {A K} (key : A → K) (P : A → Prop) `{∀ a, Decision (P a)} (l : list A) a :
  NoDup (key <$> l) → a ∈ l → P a → (∀ b, b ∈ l → P b → key b = key a) → head (filter P l) = Some a.
Proof.
  intros Hnd Ha HP Hkey. destruct (head (filter P l)) as [b|] eqn:E.
  - apply head_filter_Some in E as [Hb HPb]. f_equal. eapply NoDup_fmap_eq; eauto.
  - exfalso. rewrite head_filter_None in E. by eapply E.
Qed.

Section statements.
Context `{!Uuids}.

Lemma insertComponents_ok rows d out d' :
  insertComponents rows d = (Ok out, d') ↔
  out = rows ∧ d' = set_pipelineComponents (pipelineComponents d ++ rows) d ∧
  NoDup (c_id <$> rows) ∧
  ∀ row, row ∈ rows → c_id row ∉ c_id <$> pipelineComponents d ∧ c_pipelineId row ∈ p_id <$> pipelines d.
Proof.
  unfold insertComponents. rewrite transaction_ok. revert d out d'.
  induction rows as [|row rows IH]; intros d out d'; cbn [for_each].
  { rewrite ret_ok, app_nil_r, set_pipelineComponents_id.
    setoid_rewrite elem_of_nil. split; [|naive_solver].
    intros [<- <-]. split_and!; [done|done|apply NoDup_nil_2|done]. }
  rewrite bind_ok. csimpl. rewrite NoDup_cons. setoid_rewrite elem_of_cons. split.
  - intros (row' & d1 & H1 & H2). rewrite !enforce_ok in H1. destruct H1 as (Hpk & Hfk & H1).
    apply puts_ok, ret_ok in H1 as [-> <-]. apply bind_ok in H2 as (out' & d2 & H2 & H3).
    apply ret_ok in H3 as [<- <-]. apply IH in H2 as (-> & -> & Hnd & Hall). simpl in Hall.
    split_and!; try done.
    + by rewrite (cons_middle _ _ rows), (assoc_L (++)).
    + intros (r & Heq & Hr)%list_elem_of_fmap. apply (Hall r Hr). rewrite fmap_app, elem_of_app.
      right. apply list_elem_of_singleton. done.
    + intros r [->|Hr]; [done|]. destruct (Hall r Hr) as [Hn ?]. split; [|done].
      intros Hin. apply Hn. rewrite fmap_app, elem_of_app. by left.
  - intros (-> & -> & [Hn Hnd] & Hall).
    exists row, (set_pipelineComponents (pipelineComponents d ++ [row]) d). split.
    + rewrite !enforce_ok, puts_ok, ret_ok. destruct (Hall row (or_introl eq_refl)). done.
    + apply bind_ok. exists rows, (set_pipelineComponents (pipelineComponents d ++ row :: rows) d).
      split; [|by apply ret_ok]. apply IH. split_and!; [done| |done|].
      { by rewrite (cons_middle _ _ rows), (assoc_L (++)). }
      intros r Hr. destruct (Hall r (or_intror Hr)) as [Hn' ?]. split; [|done]. simpl.
      rewrite fmap_app, elem_of_app. intros [?|Heq]; [done|]. csimpl in Heq.
      apply list_elem_of_singleton in Heq. apply Hn. rewrite <-Heq. by apply list_elem_of_fmap_2.
Qed.

Lemma insertEdges_ok rows d out d' :
  insertEdges rows d = (Ok out, d') ↔
  out = rows ∧ d' = set_pipelineEdges (pipelineEdges d ++ rows) d ∧ NoDup rows ∧
  ∀ row, row ∈ rows → row ∉ pipelineEdges d ∧ e_pipelineId row ∈ p_id <$> pipelines d ∧
    hasComponent (e_pipelineId row) (e_fromComponentId row) d ∧
    hasComponent (e_pipelineId row) (e_toComponentId row) d.
Proof.
  unfold insertEdges. rewrite transaction_ok. revert d out d'.
  induction rows as [|row rows IH]; intros d out d'; cbn [for_each].
  { rewrite ret_ok, app_nil_r, set_pipelineEdges_id.
    setoid_rewrite elem_of_nil. split; [|naive_solver].
    intros [<- <-]. split_and!; [done|done|apply NoDup_nil_2|done]. }
  rewrite bind_ok, NoDup_cons. setoid_rewrite elem_of_cons. split.
  - intros (row' & d1 & H1 & H2). rewrite !enforce_ok in H1. destruct H1 as (Hc1 & Hc2 & Hc3 & Hc4 & H1).
    apply puts_ok, ret_ok in H1 as [-> <-]. apply bind_ok in H2 as (out' & d2 & H2 & H3).
    apply ret_ok in H3 as [<- <-]. apply IH in H2 as (-> & -> & Hnd & Hall). simpl in Hall.
    split_and!; try done.
    + by rewrite (cons_middle _ _ rows), (assoc_L (++)).
    + intros Hr. destruct (Hall row' Hr) as [Hn _]. apply Hn. rewrite elem_of_snoc. by right.
    + intros r [->|Hr]; [done|]. destruct (Hall r Hr) as [Hn ?]. split; [|done].
      intros Hin. apply Hn. rewrite elem_of_snoc. by left.
  - intros (-> & -> & [Hn Hnd] & Hall).
    exists row, (set_pipelineEdges (pipelineEdges d ++ [row]) d). split.
    + rewrite !enforce_ok, puts_ok, ret_ok. destruct (Hall row (or_introl eq_refl)) as (?&?&?&?). done.
    + apply bind_ok. exists rows, (set_pipelineEdges (pipelineEdges d ++ row :: rows) d).
      split; [|by apply ret_ok]. apply IH. split_and!; [done| |done|].
      { by rewrite (cons_middle _ _ rows), (assoc_L (++)). }
      intros r Hr. destruct (Hall r (or_intror Hr)) as [Hn' ?]. split; [|done]. simpl.
      rewrite elem_of_snoc. intros [?|Heq]; [done|]. by subst.
Qed.

(** The rows a successful insertion of triggers makes. *)
Lemma insertTriggers_ok pipelineId triggers d out d' :
  insertTriggers pipelineId triggers d = (Ok out, d') →
  d' = set_nextId (nextId d') (set_pipelineTriggers (pipelineTriggers d ++ out) d) ∧
  Forall2 (λ trigger row, ∃ id, row = triggerRow id (clock d) pipelineId trigger) triggers out.
Proof.
  unfold insertTriggers. rewrite transaction_ok. revert d out d'.
  induction triggers as [|t ts IH]; intros d out d'; cbn [for_each].
  { intros [<- <-]%ret_ok. rewrite app_nil_r. split; [by destruct d|constructor]. }
  intros (row & d1 & H1 & H2)%bind_ok. apply bind_ok in H1 as (id & d0 & [= <- <-] & H1).
  rewrite gets_ok in H1. cbv zeta in H1. rewrite !enforce_ok in H1. destruct H1 as (_ & _ & _ & H1).
  apply puts_ok, ret_ok in H1 as [<- <-]. apply bind_ok in H2 as (out' & d2 & H2 & H3).
  apply ret_ok in H3 as [<- <-]. apply IH in H2 as [-> Hall]. simpl in *. split.
  - by rewrite (cons_middle _ _ out'), (assoc_L (++)).
  - constructor; [by eexists|done].
Qed.

Lemma insertPipeline_ok owner version name state d row d' :
  insertPipeline owner version name state d = (Ok row, d') ↔
  row = {| p_id := uuid (nextId d); p_ownerUserId := owner; p_contractVersion := version;
           p_name := name; p_state := state; p_createdAt := clock d; p_updatedAt := clock d |} ∧
  d' = set_pipelines (pipelines d ++ [row]) (set_nextId (S (nextId d)) d) ∧
  uuid (nextId d) ∉ p_id <$> pipelines d ∧ owner ∈ u_id <$> users d.
Proof.
  unfold insertPipeline, newId. rewrite bind_run. cbv beta iota. rewrite gets_ok. cbv zeta.
  rewrite !enforce_ok, puts_ok, ret_ok. unfold references. simpl. split.
  - intros (? & ? & <- & <-). done.
  - intros (-> & -> & ? & ?). done.
Qed.
End statements.
