(* ===== verification/Repository.v ===== *)
(** * The pipeline repository

    [packages/database/src/pipelines]: hydration of a persisted graph, and
    the create, read, update, delete and duplicate operations with the edit
    lock of a queued or running run. *)

From S2P Require Import Prelude Js Contracts StateMachine Topology Schemas Portability Graph.
From S2P Require Import Database Integrity.

(** ** hydration.ts *)

Record PersistedPipelineGraph := {
  graph_pipeline : PipelineRow;
  graph_components : list ComponentRow;
  graph_edges : list EdgeRow;
  graph_triggers : list TriggerRow }.

Definition hydrateEdge (edge : EdgeRow) : PipelineEdge :=
  {| fromStepId := e_fromComponentId edge; toStepId := e_toComponentId edge |}.

Definition hydrateStep (component : ComponentRow) : PipelineStep :=
  {| step_id := c_id component; step_kind := c_kind component;
     componentType := c_componentType component; componentVersion := c_componentVersion component;
     configuration := {| values := c_configurationValues component;
                         secretBindings := c_secretBindings component |} |}.

(** A schedule without its columns is not a trigger of the contract. *)
Definition hydrateTrigger (trigger : TriggerRow) : option Trigger :=
  match t_type trigger, t_cron trigger, t_timezone trigger with
  | TriggerType.manual, _, _ =>
      Some (ManualTrigger (t_id trigger) (t_pipelineId trigger) (t_enabled trigger))
  | TriggerType.schedule, Some cron, Some timezone =>
      Some (ScheduleTrigger (t_id trigger) (t_pipelineId trigger) (t_enabled trigger) cron timezone)
  | TriggerType.schedule, _, _ => None
  end.

(** The rows a writable step and a writable edge become. *)
Definition componentRow (pipelineId : string) (step : PipelineStep) : ComponentRow :=
  {| c_id := step_id step; c_pipelineId := pipelineId; c_kind := step_kind step;
     c_componentType := componentType step; c_componentVersion := componentVersion step;
     c_configurationValues := values (configuration step);
     c_secretBindings := secretBindings (configuration step) |}.

Definition edgeRow (pipelineId : string) (edge : PipelineEdge) : EdgeRow :=
  {| e_pipelineId := pipelineId; e_fromComponentId := fromStepId edge;
     e_toComponentId := toStepId edge |}.

(** Remove server-assigned identifiers. *)
Definition toWritableTrigger (trigger : Trigger) : WritablePipelineTrigger :=
  match trigger with
  | ManualTrigger _ _ enabled => WritableManual enabled
  | ScheduleTrigger _ _ enabled cron timezone => WritableSchedule cron enabled timezone
  end.

(** [{ ...executionState, activeRun }] *)
Definition withActiveRun (state : PipelineExecutionState) (run : option ActivePipelineRun) :
    PipelineExecutionState :=
  {| pipelineState := pipelineState state; activeRun := run; queuedRunIds := queuedRunIds state |}.

(** [update.field !== undefined] *)
Definition is_present {A} (o : option A) : bool := match o with Some _ => true | None => false end.

Section repository.
Context `{!Uuids, !Formats}.

Definition hydratePipeline (graph : PersistedPipelineGraph) : result Pipeline :=
  match mapM hydrateTrigger (graph_triggers graph) with
  | None => Throw ZodError
  | Some triggers =>
      parse pipelineSchema
        {| contractVersion := p_contractVersion (graph_pipeline graph);
           createdAt := p_createdAt (graph_pipeline graph);
           edges := hydrateEdge <$> graph_edges graph;
           pipeline_id := p_id (graph_pipeline graph);
           pipeline_name := p_name (graph_pipeline graph);
           ownerUserId := p_ownerUserId (graph_pipeline graph);
           pipeline_state := p_state (graph_pipeline graph);
           steps := hydrateStep <$> graph_components graph;
           triggers := triggers;
           updatedAt := p_updatedAt (graph_pipeline graph) |}
  end.

(** ** create.ts *)

(** The transaction [createPipeline] runs once its input is validated. *)
Definition createPipelineGraph (ownerUserId : string) (request : PipelineCreateRequest) : DB Pipeline :=
  persistedPipeline ← insertPipeline ownerUserId (create_contractVersion request)
    (create_name request) PipelineState.draft;
  persistedComponents ← insertComponents (componentRow (p_id persistedPipeline) <$> create_steps request);
  persistedEdges ←
    (if decide (create_edges request = []) then mret []
     else insertEdges (edgeRow (p_id persistedPipeline) <$> create_edges request));
  persistedTriggers ←
    (if decide (length (create_triggers request) = 0) then mret []
     else insertTriggers (p_id persistedPipeline) (create_triggers request));
  lift (hydratePipeline
    {| graph_components := persistedComponents; graph_edges := persistedEdges;
       graph_pipeline := persistedPipeline; graph_triggers := persistedTriggers |}).

Definition createPipeline (ownerUserId : string) (pipeline : PipelineCreateRequest) : DB Pipeline :=
  ownerUserId ← lift (parse is_uuid ownerUserId);
  request ← lift (parse pipelineCreateRequestSchema pipeline);
  lift (validatePipelineGraph request);;
  transaction (createPipelineGraph ownerUserId request).

(** ** read.ts *)

Definition readPipelineGraph (pipeline : PipelineRow) : DB PersistedPipelineGraph :=
  components ← select pipelineComponents (λ c, c_pipelineId c = p_id pipeline);
  edges ← select pipelineEdges (λ e, e_pipelineId e = p_id pipeline);
  triggers ← select pipelineTriggers (λ t, t_pipelineId t = p_id pipeline);
  mret {| graph_components := components; graph_edges := edges;
          graph_pipeline := pipeline; graph_triggers := triggers |}.

Definition getPipeline (ownerUserId pipelineId : string) : DB (option Pipeline) :=
  pipeline ← selectFirst pipelines (λ p, p_ownerUserId p = ownerUserId ∧ p_id p = pipelineId);
  match pipeline with
  | None => mret None
  | Some pipeline =>
      graph ← readPipelineGraph pipeline;
      hydrated ← lift (hydratePipeline graph);
      mret (Some hydrated)
  end.

(** [asc(createdAt), asc(id)] *)
Definition pipelineOrder : relation PipelineRow := then_by (on p_createdAt Z.le) (on p_id String.le).
#[global] Instance pipelineOrder_dec x y : Decision (pipelineOrder x y).
Proof. unfold pipelineOrder. apply _. Defined.

Definition listPipelinesByOwner (ownerUserId : string) : DB (list Pipeline) :=
  rows ← select pipelines (λ p, p_ownerUserId p = ownerUserId);
  let pipelineRecords := order_by pipelineOrder rows in
  let pipelineIds := p_id <$> pipelineRecords in
  components ← select pipelineComponents (λ c, c_pipelineId c ∈ pipelineIds);
  edges ← select pipelineEdges (λ e, e_pipelineId e ∈ pipelineIds);
  triggers ← select pipelineTriggers (λ t, t_pipelineId t ∈ pipelineIds);
  for_each (λ pipeline, lift (hydratePipeline
    {| graph_components := filter (λ c, c_pipelineId c = p_id pipeline) components;
       graph_edges := filter (λ e, e_pipelineId e = p_id pipeline) edges;
       graph_pipeline := pipeline;
       graph_triggers := filter (λ t, t_pipelineId t = p_id pipeline) triggers |})) pipelineRecords.

(** ** update.ts *)

(** The phase of a run that is queued or running. *)
Definition runPhase (state : RunState.t) : option ActivePhase :=
  match state with
  | RunState.queued => Some active_queued
  | RunState.running => Some active_running
  | _ => None
  end.

Definition findActiveRun (pipelineId : string) : DB (option ActivePipelineRun) :=
  activeRun ← selectFirst runs (λ r, r_pipelineId r = pipelineId ∧ r_state r ∈ activeRunStates);
  match activeRun with
  | None => mret None
  | Some activeRun =>
      match runPhase (r_state activeRun) with
      | None => throw (JsError "Pipeline edit lock selected a non-active run.")
      | Some phase =>
          mret (Some {| active_id := r_id activeRun; active_state := phase;
            cancellationRequested := bool_decide (r_cancellationRequestedAt activeRun ≠ None) |})
      end
  end.

Definition mergeUpdate (existing : Pipeline) (update : PipelineUpdateRequest) : PipelineCreateRequest :=
  {| create_contractVersion := contractVersion existing;
     create_edges := default (edges existing) (update_edges update);
     create_name := default (pipeline_name existing) (update_name update);
     create_steps := default (steps existing) (update_steps update);
     create_triggers := default (toWritableTrigger <$> triggers existing) (update_triggers update) |}.

Definition replaceComponents (pipelineId : string) (replacement : PipelineCreateRequest) :
    DB (list ComponentRow) :=
  deleteComponents (λ c, c_pipelineId c = pipelineId);;
  insertComponents (componentRow pipelineId <$> create_steps replacement).

Definition insertReplacementEdges (pipelineId : string) (replacement : PipelineCreateRequest) :
    DB (list EdgeRow) :=
  if decide (create_edges replacement = []) then mret []
  else insertEdges (edgeRow pipelineId <$> create_edges replacement).

Definition replaceTriggers (pipelineId : string) (replacement : PipelineCreateRequest) :
    DB (list TriggerRow) :=
  deleteTriggers (λ t, t_pipelineId t = pipelineId);;
  if decide (length (create_triggers replacement) = 0) then mret []
  else insertTriggers pipelineId (create_triggers replacement).

Definition replaceGraphRecords (pipeline : PipelineRow) (replacement : PipelineCreateRequest)
    (update : PipelineUpdateRequest) : DB PersistedPipelineGraph :=
  let replacingComponents := is_present (update_steps update) in
  let replacingEdges := replacingComponents || is_present (update_edges update) in
  let replacingTriggers := is_present (update_triggers update) in
  (if replacingEdges then deleteEdges (λ e, e_pipelineId e = p_id pipeline) else mret ());;
  components ←
    (if replacingComponents then replaceComponents (p_id pipeline) replacement
     else select pipelineComponents (λ c, c_pipelineId c = p_id pipeline));
  edges ←
    (if replacingEdges then insertReplacementEdges (p_id pipeline) replacement
     else select pipelineEdges (λ e, e_pipelineId e = p_id pipeline));
  triggers ←
    (if replacingTriggers then replaceTriggers (p_id pipeline) replacement
     else select pipelineTriggers (λ t, t_pipelineId t = p_id pipeline));
  mret {| graph_components := components; graph_edges := edges;
          graph_pipeline := pipeline; graph_triggers := triggers |}.

Definition updatePipelineInTransaction (ownerUserId pipelineId : string)
    (update : PipelineUpdateRequest) (now : Z) : DB (option Pipeline) :=
  persistedPipeline ← selectFirst pipelines (λ p, p_id p = pipelineId ∧ p_ownerUserId p = ownerUserId);
  match persistedPipeline with
  | None => mret None
  | Some persistedPipeline =>
      activeRun ← findActiveRun pipelineId;
      let executionState := createPipelineExecutionState (p_state persistedPipeline) in
      let lockedExecutionState := withActiveRun executionState activeRun in
      let nextState := default (p_state persistedPipeline) (update_state update) in
      lift (setPipelineState lockedExecutionState nextState);;
      existingGraph ← readPipelineGraph persistedPipeline;
      existing ← lift (hydratePipeline existingGraph);
      let replacement := mergeUpdate existing update in
      lift (validatePipelineGraph replacement);;
      updated ← updatePipelines (λ p, p_id p = pipelineId) (Some (create_name replacement)) nextState now;
      match updated with
      | [] => throw (JsError "Pipeline update did not return a persisted pipeline.")
      | updatedPipeline :: _ =>
          graph ← replaceGraphRecords updatedPipeline replacement update;
          hydrated ← lift (hydratePipeline graph);
          mret (Some hydrated)
      end
  end.

Definition updatePipeline (ownerUserId pipelineId : string) (update : PipelineUpdateRequest) (now : Z) :
    DB (option Pipeline) :=
  ownerUserId ← lift (parse is_uuid ownerUserId);
  pipelineId ← lift (parse is_uuid pipelineId);
  update ← lift (parse pipelineUpdateRequestSchema update);
  transaction (updatePipelineInTransaction ownerUserId pipelineId update now).

(** ** delete.ts *)

Definition toActivePipelineRun (run : RunRow) : result ActivePipelineRun :=
  match runPhase (r_state run) with
  | None => Throw (JsError "Pipeline deletion requires an active run state.")
  | Some phase =>
      Ok {| active_id := r_id run; active_state := phase;
            cancellationRequested := bool_decide (r_cancellationRequestedAt run ≠ None) |}
  end.

Definition executionState (state : PipelineState.t) (run : option RunRow) :
    result PipelineExecutionState :=
  match run with
  | None => Ok (createPipelineExecutionState state)
  | Some run =>
      domainActiveRun ← toActivePipelineRun run;
      Ok (withActiveRun (createPipelineExecutionState state) (Some domainActiveRun))
  end.

Definition deletePipeline (ownerUserId pipelineId : string) : DB bool := transaction (
  pipeline ← selectFirst pipelines (λ p, p_id p = pipelineId ∧ p_ownerUserId p = ownerUserId);
  match pipeline with
  | None => mret false
  | Some pipeline =>
      activeRun ← selectFirst runs (λ r, r_pipelineId r = p_id pipeline ∧ r_state r ∈ activeRunStates);
      state ← lift (executionState (p_state pipeline) activeRun);
      if negb (isPipelineEditable state) then throw PipelineDeletionLockedError
      else
        retainedRun ← selectFirst runs (λ r, r_pipelineId r = p_id pipeline);
        match retainedRun with
        | Some _ => throw PipelineDeletionHasRunHistoryError
        | None =>
            deletedPipelines ← deletePipelines (λ p, p_id p = p_id pipeline ∧ p_ownerUserId p = ownerUserId);
            mret (bool_decide (length deletedPipelines = 1))
        end
  end).

(** ** execution-state.ts *)

Definition getActiveRunForPipeline (pipelineId : string) : DB (option (string * ActivePhase)) :=
  activeRun ← selectFirst runs (λ r, r_pipelineId r = pipelineId ∧ r_state r ∈ activeRunStates);
  mret ((λ r, (r_id r, if decide (r_state r = RunState.running) then active_running else active_queued))
          <$> activeRun).

(** ** duplicate.ts *)

(** [componentIdBySourceId.get(sourceId)]; an absent or empty identifier is
    falsy. *)
Definition remapComponentId (componentIdBySourceId : gmap string string) (sourceId : string) :
    result string :=
  match componentIdBySourceId !! sourceId with
  | None | Some "" =>
      Throw (JsError "Pipeline edge references a component that is absent from its graph.")
  | Some id => Ok id
  end.

Definition copyDisabledTrigger (trigger : Trigger) : WritablePipelineTrigger :=
  match trigger with
  | ManualTrigger _ _ _ => WritableManual false
  | ScheduleTrigger _ _ _ cron timezone => WritableSchedule cron false timezone
  end.

Definition withId (id : string) (step : PipelineStep) : PipelineStep :=
  {| step_id := id; step_kind := step_kind step; componentType := componentType step;
     componentVersion := componentVersion step; configuration := configuration step |}.

Definition remapEdge (componentIdBySourceId : gmap string string) (edge : PipelineEdge) :
    result PipelineEdge :=
  from ← remapComponentId componentIdBySourceId (fromStepId edge);
  to ← remapComponentId componentIdBySourceId (toStepId edge);
  Ok {| fromStepId := from; toStepId := to |}.

Definition buildDuplicateCreateRequest (source : Pipeline) (definition : PortablePipelineDefinition)
    (createComponentId : DB string) : DB PipelineCreateRequest :=
  renamed ← for_each (λ step, id ← createComponentId; mret (step_id step, withId id step))
    (portable_steps definition);
  let componentIdBySourceId : gmap string string :=
    foldl (λ m '(sourceId, step), <[sourceId := step_id step]> m) ∅ renamed in
  edges ← for_each (λ edge, lift (remapEdge componentIdBySourceId edge)) (portable_edges definition);
  mret {| create_contractVersion := portable_contractVersion definition;
          create_edges := edges;
          create_name := portable_name definition;
          create_steps := snd <$> renamed;
          create_triggers := copyDisabledTrigger <$> triggers source |}.

Definition duplicatePipeline (ownerUserId pipelineId : string) (name : option string)
    (createComponentId : DB string) : DB (option Pipeline) :=
  ownerUserId ← lift (parse is_uuid ownerUserId);
  pipelineId ← lift (parse is_uuid pipelineId);
  name ← lift (parse (optional nonEmpty) name);
  source ← getPipeline ownerUserId pipelineId;
  match source with
  | None => mret None
  | Some source =>
      duplicate ← lift (duplicatePipelineDefinition source (default (pipeline_name source) name));
      request ← buildDuplicateCreateRequest source (imported_definition duplicate) createComponentId;
      created ← createPipeline ownerUserId request;
      mret (Some created)
  end.
End repository.
