(* ===== verification/RepositoryProofs.v ===== *)
(** * Correctness of the pipeline repository

    What Repository.v promises: a created pipeline is read back by its owner
    and by nobody else, an update is locked by a queued or running run, a
    deletion removes the graph and nothing else, a duplicate is an isomorphic
    draft without credentials, and every operation preserves the integrity of
    the store. *)

From S2P Require Import Prelude Js Contracts StateMachine Topology Schemas Portability Graph.
From S2P Require Import Database Integrity Statements Repository.

(** ** Integrity of the operations *)

Section integrity.
Context `{!Uuids, !Formats}.

Lemma createPipeline_integrity owner request : preserves integrity (createPipeline owner request).
Proof. unfold createPipeline, createPipelineGraph. solve_preserves. Qed.

Lemma getPipeline_integrity owner id : preserves integrity (getPipeline owner id).
Proof. unfold getPipeline, readPipelineGraph. solve_preserves. Qed.

Lemma updatePipeline_integrity owner id update now : preserves integrity (updatePipeline owner id update now).
Proof.
  unfold updatePipeline, updatePipelineInTransaction, findActiveRun, readPipelineGraph,
    replaceGraphRecords, replaceComponents, insertReplacementEdges, replaceTriggers.
  solve_preserves.
Qed.

Lemma deletePipeline_integrity owner id : preserves integrity (deletePipeline owner id).
Proof. unfold deletePipeline. solve_preserves. Qed.

Lemma duplicatePipeline_integrity owner id name :
  preserves integrity (duplicatePipeline owner id name newId).
Proof.
  unfold duplicatePipeline, buildDuplicateCreateRequest.
  pose proof getPipeline_integrity. pose proof createPipeline_integrity. solve_preserves.
Qed.
End integrity.

#[export] Hint Resolve createPipeline_integrity getPipeline_integrity updatePipeline_integrity
  deletePipeline_integrity duplicatePipeline_integrity : preserves.

(** ** The part of the store one pipeline is read from *)

Definition pipelineView (id : string) (d : Database) :=
  (filter (λ p, p_id p = id) (pipelines d), filter (λ c, c_pipelineId c = id) (pipelineComponents d),
   filter (λ e, e_pipelineId e = id) (pipelineEdges d),
   filter (λ t, t_pipelineId t = id) (pipelineTriggers d)).

Section view.
Context `{!Uuids, !Formats}.

Definition hydrateView (owner id : string) (d : Database) : result (option Pipeline) :=
  match head (filter (λ p, p_ownerUserId p = owner) (filter (λ p, p_id p = id) (pipelines d))) with
  | None => Ok None
  | Some row =>
      p ← hydratePipeline
        {| graph_pipeline := row;
           graph_components := filter (λ c, c_pipelineId c = id) (pipelineComponents d);
           graph_edges := filter (λ e, e_pipelineId e = id) (pipelineEdges d);
           graph_triggers := filter (λ t, t_pipelineId t = id) (pipelineTriggers d) |};
      Ok (Some p)
  end.

Lemma getPipeline_run owner id d : getPipeline owner id d = (hydrateView owner id d, d).
Proof.
  unfold getPipeline, hydrateView, selectFirst. rewrite !bind_run. unfold select at 1, gets at 1.
  cbv beta iota. rewrite list_filter_filter.
  destruct (head (filter _ (pipelines d))) as [row|] eqn:E; [|done].
  apply head_filter_Some in E as [_ [_ <-]].
  unfold readPipelineGraph, select. run_m.
  by destruct (hydratePipeline _).
Qed.

Lemma hydrateView_ext owner id d d' :
  pipelineView id d = pipelineView id d' → hydrateView owner id d = hydrateView owner id d'.
Proof. unfold pipelineView, hydrateView. by intros [= -> -> -> ->]. Qed.

Lemma hydratePipeline_ok g p :
  hydratePipeline g = Ok p ↔ ∃ ts, mapM hydrateTrigger (graph_triggers g) = Some ts ∧
    let p' := {| contractVersion := p_contractVersion (graph_pipeline g);
      createdAt := p_createdAt (graph_pipeline g); edges := hydrateEdge <$> graph_edges g;
      pipeline_id := p_id (graph_pipeline g); pipeline_name := p_name (graph_pipeline g);
      ownerUserId := p_ownerUserId (graph_pipeline g); pipeline_state := p_state (graph_pipeline g);
      steps := hydrateStep <$> graph_components g; triggers := ts;
      updatedAt := p_updatedAt (graph_pipeline g) |} in
    pipelineSchema p' = true ∧ p = p'.
Proof.
  unfold hydratePipeline. destruct (mapM hydrateTrigger _) as [ts|]; [|naive_solver].
  rewrite parse_ok. naive_solver.
Qed.

Lemma hydrate_componentRow id (l : list PipelineStep) : hydrateStep <$> (componentRow id <$> l) = l.
Proof.
  rewrite <-list_fmap_compose. induction l as [|s l IH]; csimpl; [done|].
  rewrite IH. f_equal. unfold hydrateStep. simpl. by destruct s as [? ? ? ? []].
Qed.

Lemma hydrate_edgeRow id (l : list PipelineEdge) : hydrateEdge <$> (edgeRow id <$> l) = l.
Proof.
  rewrite <-list_fmap_compose. induction l as [|s l IH]; csimpl; [done|]. by rewrite IH; destruct s.
Qed.

Lemma hydrate_triggerRows now id ws rows :
  Forall2 (λ w row, ∃ tid, row = triggerRow tid now id w) ws rows →
  ∃ ts, mapM hydrateTrigger rows = Some ts ∧ toWritableTrigger <$> ts = ws.
Proof.
  induction 1 as [|w row ws rows (tid & ->) _ (ts & Hts & <-)]; [by exists []|].
  destruct w; simpl; rewrite Hts; by eexists.
Qed.

(** Rows of one pipeline among those of others. *)
Lemma filter_own {A} (key : A → string) id (old new : list A) :
  (∀ a, a ∈ old → key a ≠ id) → (∀ a, a ∈ new → key a = id) →
  filter (λ a, key a = id) (old ++ new) = new.
Proof.
  intros Hold Hnew. rewrite filter_app, filter_none, filter_all; [done|eauto..].
Qed.

Lemma filter_other {A} (key : A → string) id (old new : list A) :
  (∀ a, a ∈ new → key a ≠ id) → filter (λ a, key a = id) (old ++ new) = filter (λ a, key a = id) old.
Proof.
  intros Hnew. rewrite filter_app, (filter_none _ new), app_nil_r; [done|eauto..].
Qed.
End view.

(** ** Creation *)

Section creation.
Context `{!Uuids, !Formats}.

(** The store a successful creation leaves. *)
Lemma createPipelineGraph_ok owner request d p d' :
  createPipelineGraph owner request d = (Ok p, d') →
  ∃ triggerRows,
    let id := uuid (nextId d) in
    let row := {| p_id := id; p_ownerUserId := owner; p_contractVersion := create_contractVersion request;
          p_name := create_name request; p_state := PipelineState.draft;
          p_createdAt := clock d; p_updatedAt := clock d |} in
    let components := componentRow id <$> create_steps request in
    let edges := edgeRow id <$> create_edges request in
    d' = set_nextId (nextId d')
      (set_pipelineTriggers (pipelineTriggers d ++ triggerRows)
      (set_pipelineEdges (pipelineEdges d ++ edges)
      (set_pipelineComponents (pipelineComponents d ++ components)
      (set_pipelines (pipelines d ++ [row]) d)))) ∧
    Forall2 (λ trigger row, ∃ tid, row = triggerRow tid (clock d) id trigger)
      (create_triggers request) triggerRows ∧
    id ∉ p_id <$> pipelines d ∧
    hydratePipeline {| graph_pipeline := row; graph_components := components;
      graph_edges := edges; graph_triggers := triggerRows |} = Ok p.
Proof.
  unfold createPipelineGraph. intros (row & d1 & Hrow & Hm)%bind_ok.
  apply insertPipeline_ok in Hrow as (Hrow & -> & Hid & _).
  assert (p_id row = uuid (nextId d)) as Hrowid by (by rewrite Hrow). rewrite Hrowid in Hm.
  apply bind_ok in Hm as (comps & d2 & Hc & Hm). apply insertComponents_ok in Hc as (-> & -> & _).
  apply bind_ok in Hm as (edges & d3 & He & Hm).
  assert (edges = edgeRow (uuid (nextId d)) <$> create_edges request ∧
    d3 = set_pipelineEdges (pipelineEdges d ++ edges)
      (set_pipelineComponents (pipelineComponents d ++
         (componentRow (uuid (nextId d)) <$> create_steps request))
      (set_pipelines (pipelines d ++ [row]) (set_nextId (S (nextId d)) d)))) as [-> ->].
  { destruct (decide (create_edges request = [])) as [Hnil|_].
    - apply ret_ok in He as [<- <-]. rewrite Hnil, app_nil_r. split; [done|by destruct d].
    - apply insertEdges_ok in He as (-> & -> & _). done. }
  apply bind_ok in Hm as (triggerRows & d4 & Ht & Hm). exists triggerRows. cbv zeta.
  rewrite <-Hrow. apply lift_ok in Hm as [Hm <-]. case_decide as Hnil.
  - apply ret_ok in Ht as [<- <-]. apply nil_length_inv in Hnil. rewrite Hnil, app_nil_r.
    split_and!; [by destruct d|constructor|done|done].
  - apply insertTriggers_ok in Ht as [-> Hts]. simpl in Hts. done.
Qed.

Lemma createPipeline_ok owner request d p d' :
  createPipeline owner request d = (Ok p, d') ↔
  is_uuid owner = true ∧ pipelineCreateRequestSchema request = true ∧
  validatePipelineGraph request = Ok () ∧ createPipelineGraph owner request d = (Ok p, d').
Proof.
  unfold createPipeline. rewrite bind_ok. split.
  - intros (o & d1 & [Ho <-]%lift_ok & Hm). apply parse_ok in Ho as [? <-].
    apply bind_ok in Hm as (r & d2 & [Hr <-]%lift_ok & Hm). apply parse_ok in Hr as [? <-].
    apply bind_ok in Hm as ([] & d3 & [? <-]%lift_ok & Hm). by rewrite transaction_ok in Hm.
  - intros (? & ? & ? & ?). exists owner, d. split; [apply lift_ok; rewrite parse_ok; naive_solver|].
    apply bind_ok. exists request, d. split; [apply lift_ok; rewrite parse_ok; naive_solver|].
    apply bind_ok. exists (), d. split; [by apply lift_ok|]. by apply transaction_ok.
Qed.

(** Rows of other pipelines never carry a fresh identifier. *)
Lemma fresh_pipeline_rows d id :
  integrity d → id ∉ p_id <$> pipelines d →
  (∀ c, c ∈ pipelineComponents d → c_pipelineId c ≠ id) ∧
  (∀ e, e ∈ pipelineEdges d → e_pipelineId e ≠ id) ∧
  (∀ t, t ∈ pipelineTriggers d → t_pipelineId t ≠ id) ∧
  (∀ p, p ∈ pipelines d → p_id p ≠ id).
Proof.
  intros Hd Hid. split_and!; intros x Hx Heq; apply Hid; rewrite <-Heq.
  - by eapply (component_pipeline d Hd x).
  - by eapply (edge_pipeline d Hd x).
  - by eapply (trigger_pipeline d Hd x).
  - by apply list_elem_of_fmap_2.
Qed.

Lemma created_views owner request d p d' :
  integrity d → createPipelineGraph owner request d = (Ok p, d') →
  (∀ other, hydrateView other (pipeline_id p) d' =
     if decide (other = owner) then Ok (Some p) else Ok None) ∧
  (∀ id, id ≠ pipeline_id p → pipelineView id d' = pipelineView id d) ∧
  ownerUserId p = owner ∧ pipeline_name p = create_name request ∧
  pipeline_state p = PipelineState.draft ∧ steps p = create_steps request ∧
  edges p = create_edges request ∧ toWritableTrigger <$> triggers p = create_triggers request.
Proof.
  intros Hd Hc. apply createPipelineGraph_ok in Hc as (trows & Hc). cbv zeta in Hc.
  destruct Hc as (Hd' & Htr & Hid & Hh). set (id := uuid (nextId d)) in *.
  destruct (fresh_pipeline_rows d id Hd Hid) as (Hfc & Hfe & Hft & Hfp).
  assert (∀ t, t ∈ trows → t_pipelineId t = id) as Htid.
  { intros t [i Ht]%list_elem_of_lookup. eapply Forall2_lookup_r in Htr as (w & _ & tid & ->); [|done].
    by destruct w. }
  pose proof Hh as Hp. apply hydratePipeline_ok in Hp as (ts & Hts & Hp). cbv zeta in Hp.
  destruct Hp as [Hschema Hp]. simpl in Hts.
  destruct (hydrate_triggerRows _ _ _ _ Htr) as (ts' & Hts' & Hback).
  assert (ts' = ts) as -> by congruence.
  assert (pipeline_id p = id) as Hpid by (by rewrite Hp). rewrite Hpid. split_and!.
  - intros other. unfold hydrateView. rewrite Hd'. simpl.
    rewrite (filter_own p_id), (filter_own c_pipelineId), (filter_own e_pipelineId),
      (filter_own t_pipelineId); try done.
    + rewrite filter_cons. simpl. case_decide; case_decide; try congruence; [|done]. simpl.
      by rewrite Hh.
    + by intros e (e' & -> & _)%list_elem_of_fmap.
    + by intros c (c' & -> & _)%list_elem_of_fmap.
    + by intros r ->%list_elem_of_singleton.
  - intros id' Hne. unfold pipelineView. rewrite Hd'. simpl.
    rewrite (filter_other p_id), (filter_other c_pipelineId), (filter_other e_pipelineId),
      (filter_other t_pipelineId); [done|..].
    + intros t Ht Heq. apply Hne. rewrite <-Heq. by apply Htid.
    + intros e (e' & -> & _)%list_elem_of_fmap. by apply not_eq_sym.
    + intros c (c' & -> & _)%list_elem_of_fmap. by apply not_eq_sym.
    + intros r ->%list_elem_of_singleton. by apply not_eq_sym.
  - by rewrite Hp.
  - by rewrite Hp.
  - by rewrite Hp.
  - rewrite Hp. simpl. apply hydrate_componentRow.
  - rewrite Hp. simpl. apply hydrate_edgeRow.
  - by rewrite Hp.
Qed.

(** C17: a created pipeline is a draft of its owner with the requested name,
    steps, edges and triggers; reading it back returns it to its owner and
    nothing to anyone else; every other pipeline reads as before; its graph
    is a valid one. A creation that fails leaves the store as it was. *)
Theorem createPipeline_then_get owner request d p d' :
  integrity d → createPipeline owner request d = (Ok p, d') →
  (∀ other, getPipeline other (pipeline_id p) d' =
     (Ok (if decide (other = owner) then Some p else None), d')) ∧
  (∀ other id, id ≠ pipeline_id p → (getPipeline other id d').1 = (getPipeline other id d).1) ∧
  ownerUserId p = owner ∧ pipeline_name p = create_name request ∧
  pipeline_state p = PipelineState.draft ∧ steps p = create_steps request ∧
  edges p = create_edges request ∧ toWritableTrigger <$> triggers p = create_triggers request ∧
  validatePipelineGraph request = Ok ().
Proof.
  intros Hd (_ & _ & Hg & Hc)%createPipeline_ok.
  destruct (created_views _ _ _ _ _ Hd Hc) as (Hown & Hother & ? & ? & ? & ? & ? & ?).
  split_and!; try done.
  - intros other. rewrite getPipeline_run, Hown. by case_decide.
  - intros other id Hne. rewrite !getPipeline_run. by apply hydrateView_ext, Hother.
Qed.

(** Creation is atomic: when it throws, whatever the reason, the store
    is exactly the one it started from. *)
Theorem createPipeline_atomic owner request d e d' :
  createPipeline owner request d = (Throw e, d') → d' = d.
Proof.
  unfold createPipeline, lift. run_m.
  destruct (parse is_uuid owner); [|naive_solver].
  destruct (parse pipelineCreateRequestSchema request); [|naive_solver].
  destruct (validatePipelineGraph _); [|naive_solver].
  rewrite transaction_throw. naive_solver.
Qed.
End creation.

(** ** Updates *)

Section updates.
Context `{!Uuids, !Formats}.

(** The edit lock: while a run of the pipeline is queued or running an
    update of its owner is refused and changes nothing. *)
Theorem updatePipeline_locked owner id update now d run :
  is_uuid owner = true → is_uuid id = true → pipelineUpdateRequestSchema update = true →
  (∃ row, row ∈ pipelines d ∧ p_id row = id ∧ p_ownerUserId row = owner) →
  run ∈ runs d → r_pipelineId run = id → r_state run ∈ activeRunStates →
  updatePipeline owner id update now d =
    (Throw (PipelineStateTransitionError
       "Pipeline configuration is locked while a run is queued or active."), d).
Proof.
  intros Ho Hid Hu (row & Hrow & Hrid & Hrown) Hrun Hpid Hst.
  unfold updatePipeline, parse. rewrite Ho, Hid, Hu. run_m. unfold transaction, updatePipelineInTransaction,
    selectFirst, select. run_m.
  destruct (head (filter _ (pipelines d))) as [row'|] eqn:E; cycle 1.
  { exfalso. rewrite head_filter_None in E. by eapply E. }
  unfold findActiveRun, selectFirst, select. run_m.
  destruct (head (filter _ (runs d))) as [run'|] eqn:E'; cycle 1.
  { exfalso. rewrite head_filter_None in E'. by eapply E'. }
  apply head_filter_Some in E' as (_ & _ & Hst').
  destruct (runPhase (r_state run')) eqn:Hph; [done|].
  unfold activeRunStates in Hst'. rewrite !elem_of_cons, elem_of_nil in Hst'.
  destruct Hst' as [Hs|[Hs|[]]]; by rewrite Hs in Hph.
Qed.

(** Rows of a table once those of a pipeline are replaced. *)
Definition replaced {A} (key : A → string) (id : string) (old new : list A) : list A :=
  filter (λ a, key a ≠ id) old ++ new.

Lemma filter_replaced {A} (key : A → string) id (old new : list A) :
  (∀ a, a ∈ new → key a = id) → filter (λ a, key a = id) (replaced key id old new) = new.
Proof. intros Hnew. apply filter_own; [|done]. by intros a [? _]%list_elem_of_filter. Qed.

Lemma filter_replaced_other {A} (key : A → string) id id' (old new : list A) :
  (∀ a, a ∈ new → key a = id) → id' ≠ id →
  filter (λ a, key a = id') (replaced key id old new) = filter (λ a, key a = id') old.
Proof.
  intros Hnew Hne. unfold replaced. rewrite filter_other by (intros a Ha; rewrite Hnew by done; done).
  rewrite list_filter_filter. apply list_filter_ext_in. naive_solver.
Qed.

(** The edges of other pipelines do not touch the components of this one. *)
Lemma edges_of_others id d e :
  integrity d → e ∈ pipelineEdges d → e_pipelineId e ≠ id →
  let own := c_id <$> filter (λ c, c_pipelineId c = id) (pipelineComponents d) in
  e_fromComponentId e ∉ own ∧ e_toComponentId e ∉ own.
Proof.
  intros Hd He Hne. pose proof (pk_components d Hd) as Hpk. cbv zeta.
  assert (∀ cid, (e_pipelineId e, cid) ∈ componentKeyOf <$> pipelineComponents d →
    cid ∉ c_id <$> filter (λ c, c_pipelineId c = id) (pipelineComponents d)) as Hcid.
  { intros cid (c & [= Hp ->] & Hc)%list_elem_of_fmap (c' & Heq & [Hc'p Hc']%list_elem_of_filter)%list_elem_of_fmap.
    assert (c = c') as -> by (by eapply (NoDup_fmap_eq c_id)). apply Hne. by rewrite Hp. }
  split; apply Hcid; [by eapply (edge_from d Hd e)|by eapply (edge_to d Hd e)].
Qed.

Lemma replaceComponents_ok id replacement d out d' :
  (∀ e, e ∈ pipelineEdges d → e_pipelineId e ≠ id) → integrity d →
  replaceComponents id replacement d = (Ok out, d') →
  out = componentRow id <$> create_steps replacement ∧
  ∃ checkpoints, d' = set_pipelineComponents (replaced c_pipelineId id (pipelineComponents d) out)
                        (set_sourceCheckpoints checkpoints d).
Proof.
  intros Hno Hd (u & d1 & Hdel & Hins)%bind_ok. rewrite deleteComponents_run in Hdel.
  case_decide; [|done]. case_decide; [|done]. injection Hdel as _ <-.
  apply insertComponents_ok in Hins as (-> & -> & _). split; [done|].
  unfold dropComponents, replaced. simpl. eexists.
  rewrite (filter_all _ (pipelineEdges d)); [by rewrite set_pipelineEdges_id|].
  intros e He. destruct (edges_of_others id d e Hd He (Hno e He)). naive_solver.
Qed.

Lemma insertReplacementEdges_ok id replacement d out d' :
  insertReplacementEdges id replacement d = (Ok out, d') →
  out = edgeRow id <$> create_edges replacement ∧
  d' = set_pipelineEdges (pipelineEdges d ++ out) d.
Proof.
  unfold insertReplacementEdges. case_decide as Hnil.
  - intros [<- <-]%ret_ok. rewrite Hnil, app_nil_r. split; [done|by destruct d].
  - by intros (-> & -> & _)%insertEdges_ok.
Qed.

Lemma replaceTriggers_ok id replacement d out d' :
  replaceTriggers id replacement d = (Ok out, d') →
  Forall2 (λ trigger row, ∃ tid, row = triggerRow tid (clock d) id trigger)
    (create_triggers replacement) out ∧
  d' = set_nextId (nextId d') (set_pipelineTriggers
         (replaced t_pipelineId id (pipelineTriggers d) out) (set_runs (runs d') d)).
Proof.
  intros (u & d1 & [= <- <-] & Hins)%bind_ok. case_decide as Hnil.
  - apply ret_ok in Hins as [<- <-]. apply nil_length_inv in Hnil. rewrite Hnil.
    split; [constructor|]. unfold replaced. by rewrite app_nil_r.
  - by apply insertTriggers_ok in Hins as [-> Hall].
Qed.

Lemma triggerRows_own id now ws rows :
  Forall2 (λ trigger row, ∃ tid, row = triggerRow tid now id trigger) ws rows →
  ∀ t, t ∈ rows → t_pipelineId t = id.
Proof.
  intros Htr t [i Ht]%list_elem_of_lookup. eapply Forall2_lookup_r in Htr as (w & _ & tid & ->); [|done].
  by destruct w.
Qed.

(** A table after a stage of the replacement: the rows of the pipeline are
    those of the graph, the rows of the others are untouched. *)
Definition own_rows {A} (key : A → string) (id : string) (old table graph : list A) : Prop :=
  filter (λ a, key a = id) table = graph ∧
  ∀ id', id' ≠ id → filter (λ a, key a = id') table = filter (λ a, key a = id') old.

Lemma own_rows_replaced {A} (key : A → string) id (old new : list A) :
  (∀ a, a ∈ new → key a = id) → own_rows key id old (replaced key id old new) new.
Proof. intros. split; [by apply filter_replaced|]. intros. by apply filter_replaced_other. Qed.

Lemma replaceGraphRecords_ok row replacement update d g d' :
  integrity d → replaceGraphRecords row replacement update d = (Ok g, d') →
  graph_pipeline g = row ∧ pipelines d' = pipelines d ∧
  own_rows c_pipelineId (p_id row) (pipelineComponents d) (pipelineComponents d') (graph_components g) ∧
  own_rows e_pipelineId (p_id row) (pipelineEdges d) (pipelineEdges d') (graph_edges g) ∧
  own_rows t_pipelineId (p_id row) (pipelineTriggers d) (pipelineTriggers d') (graph_triggers g) ∧
  graph_components g =
    (if is_present (update_steps update) then componentRow (p_id row) <$> create_steps replacement
     else filter (λ c, c_pipelineId c = p_id row) (pipelineComponents d)) ∧
  graph_edges g =
    (if is_present (update_steps update) || is_present (update_edges update)
     then edgeRow (p_id row) <$> create_edges replacement
     else filter (λ e, e_pipelineId e = p_id row) (pipelineEdges d)) ∧
  (if is_present (update_triggers update)
   then Forall2 (λ trigger row', ∃ tid, row' = triggerRow tid (clock d) (p_id row) trigger)
          (create_triggers replacement) (graph_triggers g)
   else graph_triggers g = filter (λ t, t_pipelineId t = p_id row) (pipelineTriggers d)).
Proof.
  intros Hd Hrun. unfold replaceGraphRecords in Hrun. cbv zeta in Hrun.
  set (id := p_id row) in *.
  set (re := is_present (update_steps update) || is_present (update_edges update)) in *.
  apply bind_ok in Hrun as (u & d1 & H1 & Hrun).
  assert (d1 = set_pipelineEdges
    (if re then filter (λ e, e_pipelineId e ≠ id) (pipelineEdges d) else pipelineEdges d) d) as ->.
  { destruct re; [by injection H1 as <-|]. apply ret_ok in H1 as [_ <-]. by rewrite set_pipelineEdges_id. }
  clear H1. set (d1 := set_pipelineEdges _ d) in *.
  assert (integrity d1) as Hd1.
  { unfold d1. destruct re; [|by rewrite set_pipelineEdges_id].
    exact (deleteEdges_integrity (λ e, e_pipelineId e = id) d Hd). }
  apply bind_ok in Hrun as (components & d2 & H2 & Hrun).
  assert (∃ C X, d2 = set_pipelineComponents C (set_sourceCheckpoints X d1) ∧
    own_rows c_pipelineId id (pipelineComponents d) C components ∧
    components = (if is_present (update_steps update) then componentRow id <$> create_steps replacement
      else filter (λ c, c_pipelineId c = id) (pipelineComponents d))) as (C & X & -> & HC & HCeq).
  { destruct (is_present (update_steps update)) eqn:Es.
    - apply replaceComponents_ok in H2 as (-> & X & ->); [|simpl; by intros e [? _]%list_elem_of_filter|done].
      do 2 eexists. split; [done|]. split; [|done]. apply own_rows_replaced.
      by intros c (c' & -> & _)%list_elem_of_fmap.
    - injection H2 as <- <-. exists (pipelineComponents d), (sourceCheckpoints d). by split; [destruct d|]. }
  clear H2. apply bind_ok in Hrun as (edges & d3 & H3 & Hrun).
  assert (∃ E, d3 = set_pipelineEdges E (set_pipelineComponents C (set_sourceCheckpoints X d1)) ∧
    own_rows e_pipelineId id (pipelineEdges d) E edges ∧
    edges = (if re then edgeRow id <$> create_edges replacement
      else filter (λ e, e_pipelineId e = id) (pipelineEdges d))) as (E & -> & HE & HEeq).
  { unfold d1 in *. destruct re.
    - apply insertReplacementEdges_ok in H3 as [-> ->]. eexists. split; [done|]. split; [|done].
      apply own_rows_replaced. by intros e (e' & -> & _)%list_elem_of_fmap.
    - injection H3 as <- <-. exists (pipelineEdges d). by split. }
  clear H3. apply bind_ok in Hrun as (triggers & d4 & H4 & Hrun).
  apply ret_ok in Hrun as [<- <-]. simpl.
  assert (∃ T, d4 = set_nextId (nextId d4) (set_pipelineTriggers T (set_runs (runs d4)
      (set_pipelineEdges E (set_pipelineComponents C (set_sourceCheckpoints X d1))))) ∧
    own_rows t_pipelineId id (pipelineTriggers d) T triggers ∧
    if is_present (update_triggers update)
    then Forall2 (λ trigger row', ∃ tid, row' = triggerRow tid (clock d) id trigger)
           (create_triggers replacement) triggers
    else triggers = filter (λ t, t_pipelineId t = id) (pipelineTriggers d)) as (T & -> & HT & HTeq).
  { destruct (is_present (update_triggers update)).
    - apply replaceTriggers_ok in H4 as [Hall ->]. eexists. split; [done|]. split; [|done].
      apply own_rows_replaced. by eapply triggerRows_own.
    - injection H4 as <- <-. exists (pipelineTriggers d). by split. }
  done.
Qed.

Lemma findActiveRun_none id d d' :
  findActiveRun id d = (Ok None, d') →
  d' = d ∧ ∀ r, r ∈ runs d → r_pipelineId r = id → r_state r ∉ activeRunStates.
Proof.
  unfold findActiveRun, selectFirst, select. run_m.
  destruct (head (filter _ (runs d))) as [run|] eqn:E.
  - destruct (runPhase _); naive_solver.
  - intros [= <-]. split; [done|]. intros r Hr ? ?. rewrite head_filter_None in E. by eapply E.
Qed.

Lemma findActiveRun_unlocked id d o d' state next res :
  findActiveRun id d = (Ok o, d') → setPipelineState (withActiveRun state o) next = Ok res →
  d' = d ∧ o = None ∧ ∀ r, r ∈ runs d → r_pipelineId r = id → r_state r ∉ activeRunStates.
Proof. destruct o; [done|]. by intros [-> ?]%findActiveRun_none _. Qed.

Lemma updatePipelines_ok P `{∀ r, Decision (P r)} name state now d out d' :
  updatePipelines P name state now d = (Ok out, d') →
  let set r := {| p_id := p_id r; p_ownerUserId := p_ownerUserId r;
    p_contractVersion := p_contractVersion r; p_name := default (p_name r) name;
    p_state := state; p_createdAt := p_createdAt r; p_updatedAt := now |} in
  out = set <$> filter P (pipelines d) ∧ d' = set_pipelines (updateIf P set <$> pipelines d) d.
Proof. by intros [= <- <-]. Qed.

Lemma updatePipeline_ok owner id update now d o d' :
  updatePipeline owner id update now d = (Ok o, d') →
  is_uuid owner = true ∧ is_uuid id = true ∧ pipelineUpdateRequestSchema update = true ∧
  updatePipelineInTransaction owner id update now d = (Ok o, d').
Proof.
  unfold updatePipeline, parse. destruct (is_uuid owner); [|done]. destruct (is_uuid id); [|done].
  destruct (pipelineUpdateRequestSchema update); [|done]. run_m.
  by rewrite transaction_ok.
Qed.

(** The steps of a successful update of an owned pipeline. *)
Lemma updatePipelineInTransaction_ok owner id update now d p d' :
  updatePipelineInTransaction owner id update now d = (Ok (Some p), d') →
  ∃ row old g,
    row ∈ pipelines d ∧ p_id row = id ∧ p_ownerUserId row = owner ∧
    (∀ r, r ∈ runs d → r_pipelineId r = id → r_state r ∉ activeRunStates) ∧
    hydrateView owner id d = Ok (Some old) ∧
    let merged := mergeUpdate old update in
    let set r := {| p_id := p_id r; p_ownerUserId := p_ownerUserId r;
      p_contractVersion := p_contractVersion r; p_name := create_name merged;
      p_state := default (p_state row) (update_state update);
      p_createdAt := p_createdAt r; p_updatedAt := now |} in
    validatePipelineGraph merged = Ok () ∧
    head (set <$> filter (λ r, p_id r = id) (pipelines d)) = Some (graph_pipeline g) ∧
    replaceGraphRecords (graph_pipeline g) merged update
      (set_pipelines (updateIf (λ r, p_id r = id) set <$> pipelines d) d) = (Ok g, d') ∧
    hydratePipeline g = Ok p.
Proof.
  intros (o & d1 & H1 & Hm)%bind_ok.
  assert (d1 = d ∧ o = head (filter (λ p, p_id p = id ∧ p_ownerUserId p = owner) (pipelines d))) as [-> Ho]
    by (by injection H1 as <- <-).
  destruct o as [row|]; [|done]. symmetry in Ho. pose proof Ho as (Hrow & Hid & Hown)%head_filter_Some.
  apply bind_ok in Hm as (run & d2 & Hrun & Hm). cbv zeta in Hm.
  apply bind_ok in Hm as (st & d3 & [Hst <-]%lift_ok & Hm).
  destruct (findActiveRun_unlocked _ _ _ _ _ _ _ Hrun Hst) as (-> & -> & Hfree).
  apply bind_ok in Hm as (eg & d4 & Hg & Hm). injection Hg as <- <-.
  apply bind_ok in Hm as (old & d5 & [Hold <-]%lift_ok & Hm).
  apply bind_ok in Hm as ([] & d6 & [Hval <-]%lift_ok & Hm).
  apply bind_ok in Hm as (updated & d7 & Hupd & Hm).
  apply updatePipelines_ok in Hupd. cbv zeta in Hupd. destruct Hupd as [Hupdated ->].
  destruct updated as [|urow rest]; [done|].
  apply bind_ok in Hm as (g & d8 & Hrep & Hm).
  apply bind_ok in Hm as (hydrated & d9 & [Hh <-]%lift_ok & Hm). apply ret_ok in Hm as [[= <-] <-].
  assert (graph_pipeline g = urow) as Hgu.
  { unfold replaceGraphRecords in Hrep. cbv zeta in Hrep.
    apply bind_ok in Hrep as (? & ? & _ & Hrep). apply bind_ok in Hrep as (? & ? & _ & Hrep).
    apply bind_ok in Hrep as (? & ? & _ & Hrep). apply bind_ok in Hrep as (? & ? & _ & Hrep).
    by apply ret_ok in Hrep as [<- _]. }
  exists row, old, g. cbv zeta. split_and!; try done.
  - unfold hydrateView. rewrite list_filter_filter.
    rewrite (list_filter_ext_in _ (λ p, p_id p = id ∧ p_ownerUserId p = owner)) by naive_solver.
    rewrite Ho. rewrite Hid in Hold. by rewrite Hold.
  - rewrite Hgu. transitivity (head (urow :: rest)); [by rewrite Hupdated|done].
  - by rewrite Hgu.
Qed.

(** What a successful update stored. *)
Lemma updatePipeline_effect owner id update now d p d' :
  integrity d → updatePipeline owner id update now d = (Ok (Some p), d') →
  (∀ r, r ∈ runs d → r_pipelineId r = id → r_state r ∉ activeRunStates) ∧
  ∃ old, getPipeline owner id d = (Ok (Some old), d) ∧
    getPipeline owner id d' = (Ok (Some p), d') ∧
    (∀ other id', id' ≠ id → (getPipeline other id' d').1 = (getPipeline other id' d).1) ∧
    let merged := mergeUpdate old update in
    validatePipelineGraph merged = Ok () ∧
    pipeline_name p = create_name merged ∧ steps p = create_steps merged ∧
    edges p = create_edges merged ∧ toWritableTrigger <$> triggers p = create_triggers merged ∧
    pipeline_state p = default (pipeline_state old) (update_state update) ∧
    ownerUserId p = ownerUserId old ∧ createdAt p = createdAt old ∧ updatedAt p = now.
Proof.
  intros Hd (_ & _ & _ & Hm)%updatePipeline_ok.
  apply updatePipelineInTransaction_ok in Hm as (row & old & g & Hrow & Hid & Hown & Hfree & Hview & Hm).
  cbv zeta in Hm. destruct Hm as (Hval & Hhead & Hrep & Hh).
  set (merged := mergeUpdate old update) in *.
  match type of Hrep with context [updateIf _ ?f <$> _] => set (upd := f) in * end.
  set (d1 := set_pipelines _ d) in *.
  pose proof (filter_key_singleton p_id _ row (pk_pipelines d Hd) Hrow) as Hone. rewrite Hid in Hone.
  rewrite Hone in Hhead. injection Hhead as Hg.
  assert (p_id (graph_pipeline g) = id) as Hgid by (by rewrite <-Hg).
  assert (integrity d1) as Hd1 by exact (updatePipelines_integrity (λ r, p_id r = id)
    (Some (create_name merged)) (default (p_state row) (update_state update)) now d Hd).
  apply (replaceGraphRecords_ok _ _ _ _ _ _ Hd1) in Hrep as (_ & Hps & HC & HE & HT & HCeq & HEeq & HTeq).
  rewrite Hgid in *. simpl in Hps, HC, HE, HT, HCeq, HEeq, HTeq.
  assert (hydrateView owner id d' = Ok (Some p)) as Hview'.
  { unfold hydrateView. rewrite Hps, (filter_updateIf (λ r, p_id r = id)) by done.
    rewrite Hone. csimpl. rewrite filter_cons, decide_True by done. simpl.
    destruct HC as [-> _], HE as [-> _], HT as [-> _].
    rewrite Hg. destruct g; simpl in *. by rewrite Hh. }
  split; [done|]. exists old. split_and!.
  - by rewrite getPipeline_run, Hview.
  - by rewrite getPipeline_run, Hview'.
  - intros other id' Hne. rewrite !getPipeline_run. apply hydrateView_ext. unfold pipelineView.
    destruct HC as [_ HC], HE as [_ HE], HT as [_ HT]. rewrite HC, HE, HT by done.
    rewrite Hps, filter_updateIf_other; [done|]. intros r _ Hr. split; simpl; congruence.
  - unfold hydrateView in Hview. rewrite Hone, filter_cons, decide_True in Hview by done. simpl in Hview.
    apply outcome_bind_ok in Hview as (old' & Hold & [= ->]).
    apply hydratePipeline_ok in Hold as (ts & Hts & _ & Hold). simpl in Hts.
    apply hydratePipeline_ok in Hh as (ts' & Hts' & _ & Hp). cbv zeta. rewrite <-Hg in Hp. simpl in Hp.
    assert (steps old = hydrateStep <$> filter (λ c, c_pipelineId c = id) (pipelineComponents d)) as Hso
      by (by rewrite Hold).
    assert (edges old = hydrateEdge <$> filter (λ e, e_pipelineId e = id) (pipelineEdges d)) as Heo
      by (by rewrite Hold).
    assert (triggers old = ts) as Hto by (by rewrite Hold).
    split_and!; try done; try (by rewrite Hp); try (by rewrite Hp, Hold).
    + rewrite Hp. simpl. rewrite HCeq, Hso. destruct (update_steps update); simpl; [|done].
      apply hydrate_componentRow.
    + rewrite Hp. simpl. rewrite HEeq, Heo. destruct (update_steps update), (update_edges update);
        simpl; try done; apply hydrate_edgeRow.
    + assert (triggers p = ts') as -> by (by rewrite Hp). simpl. rewrite Hto.
      destruct (update_triggers update) as [ws|]; simpl in *.
      * apply hydrate_triggerRows in HTeq as (ts'' & Hts'' & <-). by simplify_eq.
      * rewrite HTeq in Hts'. by simplify_eq.
Qed.

End updates.

(** ** Deletion *)

(** Execution records belong to a run of their own pipeline: what the
    scheduler writes, beyond what the foreign keys demand. *)
Record execution_scoped (d : Database) : Prop := {
  scoped_jobs : ∀ j, j ∈ jobs d → ∃ r, r ∈ runs d ∧ r_pipelineId r = j_pipelineId j;
  scoped_events : ∀ o, o ∈ operationalEvents d → ∃ r, r ∈ runs d ∧ r_pipelineId r = o_pipelineId o;
  scoped_artifacts : ∀ a, a ∈ artifacts d → ∃ r, r ∈ runs d ∧ r_pipelineId r = a_pipelineId a;
  scoped_datasets : ∀ a, a ∈ datasets d → ∃ r, r ∈ runs d ∧ r_pipelineId r = d_pipelineId a;
  scoped_steps : ∀ s c, s ∈ runSteps d → c ∈ pipelineComponents d → c_id c = s_componentId s →
    ∃ r, r ∈ runs d ∧ r_pipelineId r = c_pipelineId c;
  scoped_job_components : ∀ j c, j ∈ jobs d → c ∈ pipelineComponents d → c_id c = j_componentId j →
    ∃ r, r ∈ runs d ∧ r_pipelineId r = c_pipelineId c }.

Section deletion.
Context `{!Uuids, !Formats}.

(** Without execution records nothing restricts the deletion. *)
Lemma deletePipelines_succeeds P `{∀ r, Decision (P r)} d :
  execution_scoped d →
  (∀ r p, r ∈ runs d → p ∈ pipelines d → P p → r_pipelineId r ≠ p_id p) →
  ∃ d', deletePipelines P d = (Ok (filter P (pipelines d)), d').
Proof.
  intros Hs Hno. set (ids := p_id <$> filter P (pipelines d)).
  assert (∀ r id, r ∈ runs d → id ∈ ids → r_pipelineId r ≠ id) as Hids.
  { intros r id Hr (p & -> & [? ?]%list_elem_of_filter)%list_elem_of_fmap. by apply Hno. }
  unfold deletePipelines, transaction. unfold select at 1. rewrite bind_run. unfold gets at 1.
  cbv beta iota zeta. fold ids.
  repeat (rewrite bind_run; unfold enforce at 1; rewrite decide_True; cycle 1;
    [rewrite unreferenced_spec; intros a p Ha Hp HP [= Heq]|]).
  - by eapply Hno.
  - destruct (scoped_jobs d Hs a Ha) as (r & ? & ?). eapply (Hno r p); [done..|congruence].
  - destruct (scoped_events d Hs a Ha) as (r & ? & ?). eapply (Hno r p); [done..|congruence].
  - destruct (scoped_artifacts d Hs a Ha) as (r & ? & ?). eapply (Hno r p); [done..|congruence].
  - destruct (scoped_datasets d Hs a Ha) as (r & ? & ?). eapply (Hno r p); [done..|congruence].
  - rewrite bind_run. unfold deleteTriggers at 1, puts at 1. cbv beta iota.
    rewrite bind_run, deleteComponents_run, decide_True, decide_True; [by eexists|..];
      rewrite unreferenced_spec; simpl; intros a c Ha Hc Hin [= Heq].
    + destruct (scoped_job_components d Hs a c) as (r & ? & ?); [done..|]. by eapply Hids.
    + destruct (scoped_steps d Hs a c) as (r & ? & ?); [done..|]. by eapply Hids.
Qed.

(** An owned row is the only one of its id. *)
Lemma owned_unique owner id row d :
  integrity d → row ∈ pipelines d → p_id row = id → p_ownerUserId row = owner →
  ∀ p, p ∈ pipelines d → (p_id p = id ∧ p_ownerUserId p = owner) ↔ p = row.
Proof.
  intros Hd Hrow Hid Hown p Hp. split; [|by intros ->]. intros [Hpid _].
  apply (NoDup_fmap_eq p_id (pipelines d)); [apply pk_pipelines, Hd|done|done|congruence].
Qed.

(** The deletion of one row, and what is read afterwards. *)
Lemma deletePipelines_view P `{∀ p, Decision (P p)} row d out d' :
  integrity d → row ∈ pipelines d → (∀ p, p ∈ pipelines d → P p ↔ p = row) →
  deletePipelines P d = (Ok out, d') →
  out = [row] ∧ pipelineView (p_id row) d' = ([], [], [], []) ∧
  ∀ id, id ≠ p_id row → pipelineView id d' = pipelineView id d.
Proof.
  intros Hd Hrow HP Hdel. destruct (deletePipelines_run P d) as [[err Herr]|[Hrun _]]; [congruence|].
  rewrite Hrun in Hdel. injection Hdel as <- <-.
  assert (filter P (pipelines d) = [row]) as Hone.
  { rewrite <-(filter_key_singleton p_id (pipelines d) row (pk_pipelines d Hd) Hrow).
    apply list_filter_ext_in. intros p Hp. rewrite (HP p Hp). split; [by intros ->|].
    by apply (NoDup_fmap_eq p_id (pipelines d)); [apply pk_pipelines|..]. }
  rewrite Hone. split; [done|]. simpl. split.
  - unfold pipelineView. simpl. rewrite !(filter_none _ (filter _ _)); [done|..].
    + intros t [Hn _]%list_elem_of_filter. set_solver.
    + intros e [Hn _]%list_elem_of_filter. set_solver.
    + intros c [Hn _]%list_elem_of_filter. set_solver.
    + intros p [Hn Hp]%list_elem_of_filter Heq. apply Hn, (HP p Hp).
      by apply (NoDup_fmap_eq p_id (pipelines d)); [apply pk_pipelines|..].
  - intros id Hne. unfold pipelineView. simpl. rewrite !list_filter_filter.
    f_equal; [f_equal; [f_equal|]|]; apply list_filter_ext_in.
    + intros p Hp. rewrite (HP p Hp). naive_solver.
    + intros c _. set_solver.
    + intros e He. split; [naive_solver|]. intros Heq.
      destruct (edges_of_others (p_id row) d e Hd He) as [? ?]; [congruence|].
      assert (filter (λ c, c_pipelineId c ∈ [p_id row]) (pipelineComponents d) =
        filter (λ c, c_pipelineId c = p_id row) (pipelineComponents d)) as ->
        by (apply list_filter_ext_in; set_solver).
      set_solver.
    + intros t _. set_solver.
Qed.

(** C21: deletion case by case: an owner who has no such pipeline gets
    [false]; a queued or running run locks it; retained run history keeps
    it; otherwise the pipeline goes with its whole graph, every other
    pipeline reads as before and the store keeps its integrity. Only the
    last case changes the store. *)
Theorem deletePipeline_spec owner id d :
  integrity d → execution_scoped d →
  let owned := ∃ row, row ∈ pipelines d ∧ p_id row = id ∧ p_ownerUserId row = owner in
  let locked := ∃ r, r ∈ runs d ∧ r_pipelineId r = id ∧ r_state r ∈ activeRunStates in
  let has_history := ∃ r, r ∈ runs d ∧ r_pipelineId r = id in
  (¬ owned → deletePipeline owner id d = (Ok false, d)) ∧
  (owned → locked → deletePipeline owner id d = (Throw PipelineDeletionLockedError, d)) ∧
  (owned → ¬ locked → has_history →
     deletePipeline owner id d = (Throw PipelineDeletionHasRunHistoryError, d)) ∧
  (owned → ¬ has_history → ∃ d', deletePipeline owner id d = (Ok true, d') ∧
     pipelineView id d' = ([], [], [], []) ∧
     (∀ id', id' ≠ id → pipelineView id' d' = pipelineView id' d) ∧ integrity d').
Proof.
  intros Hd Hs owned locked has_history.
  pose proof (deletePipeline_integrity owner id d Hd) as Hint.
  unfold deletePipeline, transaction, selectFirst, select in *. revert Hint. run_m.
  destruct (head (filter _ (pipelines d))) as [row|] eqn:E; cycle 1.
  { intros _. rewrite head_filter_None in E. split_and!; [done|..]; intros (row & ? & ? & ?); naive_solver. }
  apply head_filter_Some in E as (Hrow & Hid & Hown). rewrite Hid.
  assert (owned) as Howned by (by exists row).
  destruct (head (filter (λ r, r_pipelineId r = id ∧ r_state r ∈ activeRunStates) (runs d)))
    as [run|] eqn:E.
  { apply head_filter_Some in E as (Hrun & Hpid & Hst).
    assert (locked) as Hl by (by exists run). assert (has_history) as Hh by (by exists run).
    unfold executionState, toActivePipelineRun. run_m.
    assert (∃ phase, runPhase (r_state run) = Some phase) as [phase ->].
    { unfold activeRunStates in Hst. rewrite !elem_of_cons, elem_of_nil in Hst.
      destruct Hst as [->|[->|[]]]; by eexists. }
    simpl. intros _. split_and!; naive_solver. }
  assert (¬ locked) as Hnl by (rewrite head_filter_None in E; unfold locked; naive_solver). clear E. simpl.
  destruct (head (filter _ (runs d))) as [run|] eqn:E.
  { apply head_filter_Some in E as (Hrun & Hpid). assert (has_history) as Hh by (by exists run).
    intros _. split_and!; naive_solver. }
  assert (¬ has_history) as Hnh by (rewrite head_filter_None in E; unfold has_history; naive_solver).
  clear E. pose proof (owned_unique owner id row d Hd Hrow Hid Hown) as Hone.
  destruct (deletePipelines_succeeds (λ p, p_id p = id ∧ p_ownerUserId p = owner) d Hs) as [d' Hdel].
  { intros r p Hr Hp [Hpid _] Heq. apply Hnh. exists r. split; [done|]. congruence. }
  rewrite Hdel. destruct (deletePipelines_view _ row d _ d' Hd Hrow Hone Hdel) as (Hout & Hgone & Hothers).
  rewrite Hout, Hid in *. simpl. intros Hint. split_and!; [done|done|done|]. intros _ _. by exists d'.
Qed.
End deletion.

(** ** Duplication *)

(** The results of a loop, element by element. *)
Lemma for_each_lift_ok {S E A B} (f : A → outcome E B) (l : list A) (s s' : S) out :
  for_each (λ a, lift (f a)) l s = (Ok out, s') ↔ s' = s ∧ Forall2 (λ a b, f a = Ok b) l out.
Proof.
  revert out. induction l as [|a l IH]; intros out; simpl.
  - rewrite ret_ok. split; [by intros [<- <-]|]. by intros [-> ->%Forall2_nil_inv_l].
  - rewrite bind_ok. split.
    + intros (b & s1 & [Hb <-]%lift_ok & Hm). apply bind_ok in Hm as (bs & s2 & Hbs & Hm).
      apply ret_ok in Hm as [<- <-]. apply IH in Hbs as [-> ?]. split; [done|]. by constructor.
    + intros [-> (b & bs & Hb & Hbs & ->)%Forall2_cons_inv_l]. exists b, s. split; [by apply lift_ok|].
      apply bind_ok. exists bs, s. split; [by apply IH|done].
Qed.

Section duplication.
Context `{!Uuids, !Formats}.

Lemma rename_steps_ok l d out d' :
  for_each (λ step, id ← newId; mret (step_id step, withId id step)) l d = (Ok out, d') →
  d' = set_nextId (nextId d') d ∧
  Forall2 (λ step r, ∃ id, r = (step_id step, withId id step)) l out.
Proof.
  revert d out. induction l as [|step l IH]; intros d out; simpl.
  - intros [<- <-]%ret_ok. split; [by destruct d|constructor].
  - intros (r & d1 & H1 & Hm)%bind_ok. apply bind_ok in H1 as (id & d2 & [= <- <-] & H1).
    apply ret_ok in H1 as [<- <-]. apply bind_ok in Hm as (rs & d3 & Hrs & Hm).
    apply ret_ok in Hm as [<- <-]. apply IH in Hrs as [Hd' ?]. split; [by rewrite Hd'|].
    constructor; [by eexists|done].
Qed.

(** The map of the new identifiers, as a function. *)
Definition renaming (renamed : list (string * PipelineStep)) (id : string) : string :=
  default "" (foldl (λ m '(sourceId, step), <[sourceId := step_id step]> m)
                (∅ : gmap string string) renamed !! id).

Lemma renaming_foldl (renamed : list (string * PipelineStep)) (m : gmap string string) sourceId step :
  NoDup (fst <$> renamed) → (sourceId, step) ∈ renamed →
  foldl (λ m '(sourceId, step), <[sourceId := step_id step]> m) m renamed !! sourceId =
    Some (step_id step).
Proof.
  assert (∀ renamed (m : gmap string string) id, id ∉ fst <$> renamed →
    foldl (λ m '(sourceId, step), <[sourceId := step_id step]> m) m renamed !! id = m !! id) as Hne.
  { intros l. induction l as [|[k v] l IH]; intros m' id Hid; csimpl in *; [done|].
    apply not_elem_of_cons in Hid as [? ?]. rewrite IH by done. by rewrite lookup_insert_ne. }
  revert m. induction renamed as [|[k v] l IH]; intros m; [by intros _ ?%elem_of_nil|]. csimpl.
  intros [Hk Hnd]%NoDup_cons [[= -> ->]|Hin]%elem_of_cons; [|by apply IH].
  rewrite Hne by done. apply lookup_insert_eq.
Qed.

Lemma renaming_in renamed sourceId step :
  NoDup (fst <$> renamed) → (sourceId, step) ∈ renamed → renaming renamed sourceId = step_id step.
Proof. intros. unfold renaming. by erewrite renaming_foldl. Qed.

Lemma renamed_steps l renamed :
  NoDup (step_id <$> l) →
  Forall2 (λ step r, ∃ id, r = (step_id step, withId id step)) l renamed →
  snd <$> renamed = (λ step, withId (renaming renamed (step_id step)) step) <$> l.
Proof.
  intros Hnd Hren. assert (fst <$> renamed = step_id <$> l) as Hfst.
  { clear Hnd. induction Hren as [|s r l renamed [id ->] _ IH]; csimpl; [done|]. by f_equal. }
  apply list_eq. intros i. rewrite !list_lookup_fmap.
  destruct (renamed !! i) as [r|] eqn:Hr; simpl.
  - destruct (Forall2_lookup_r _ _ _ _ _ Hren Hr) as (s & Hs & id & ->). rewrite Hs. simpl. f_equal.
    rewrite (renaming_in renamed (step_id s) (withId id s)); [done|by rewrite Hfst|].
    by eapply list_elem_of_lookup_2.
  - assert (l !! i = None) as ->; [|done]. apply lookup_ge_None. apply lookup_ge_None in Hr.
    by rewrite (Forall2_length _ _ _ Hren).
Qed.

Lemma remapEdge_ok renamed e e' :
  remapEdge (foldl (λ m '(sourceId, step), <[sourceId := step_id step]> m) ∅ renamed) e = Ok e' →
  e' = {| fromStepId := renaming renamed (fromStepId e); toStepId := renaming renamed (toStepId e) |}.
Proof.
  unfold remapEdge, remapComponentId, renaming.
  destruct (_ !! fromStepId e) as [[|? ?]|]; simpl; try done.
  destruct (_ !! toStepId e) as [[|? ?]|]; simpl; try done. by intros [= <-].
Qed.

Lemma hydrated_step_ids owner id d p :
  integrity d → hydrateView owner id d = Ok (Some p) → NoDup (step_id <$> steps p) ∧ pipelineSchema p = true.
Proof.
  intros Hd. unfold hydrateView. destruct (head _) as [row|]; [|done].
  intros (p' & Hp & [= ->])%outcome_bind_ok. apply hydratePipeline_ok in Hp as (ts & _ & Hs & ->).
  split; [|done]. simpl. rewrite <-list_fmap_compose.
  change (NoDup (c_id <$> filter (λ c, c_pipelineId c = id) (pipelineComponents d))).
  apply NoDup_filter_fmap, pk_components, Hd.
Qed.

(** What a successful duplication stored. *)
Lemma duplicatePipeline_effect owner id name d p d' :
  integrity d → duplicatePipeline owner id name newId d = (Ok (Some p), d') →
  ∃ source rename, getPipeline owner id d = (Ok (Some source), d) ∧
    getPipeline owner (pipeline_id p) d' = (Ok (Some p), d') ∧
    (∀ other id', id' ≠ pipeline_id p → (getPipeline other id' d').1 = (getPipeline other id' d).1) ∧
    (∀ row, row ∈ pipelines d → p_id row ≠ pipeline_id p) ∧
    ownerUserId p = owner ∧ pipeline_state p = PipelineState.draft ∧
    pipeline_name p = default (pipeline_name source) name ∧
    steps p = (λ step, withId (rename (step_id step)) (withoutBindings step)) <$> steps source ∧
    NoDup (step_id <$> steps p) ∧
    edges p = (λ e, {| fromStepId := rename (fromStepId e); toStepId := rename (toStepId e) |})
      <$> edges source ∧
    toWritableTrigger <$> triggers p = copyDisabledTrigger <$> triggers source.
Proof.
  intros Hd Hrun. unfold duplicatePipeline in Hrun.
  apply bind_ok in Hrun as (o & d1 & [Ho <-]%lift_ok & Hrun). apply parse_ok in Ho as [_ <-].
  apply bind_ok in Hrun as (i & d1 & [Hi <-]%lift_ok & Hrun). apply parse_ok in Hi as [_ <-].
  apply bind_ok in Hrun as (n & d1 & [Hn <-]%lift_ok & Hrun). apply parse_ok in Hn as [_ <-].
  apply bind_ok in Hrun as (src & d1 & Hget & Hrun). rewrite getPipeline_run in Hget.
  injection Hget as Hview <-. destruct src as [source|]; [|done].
  destruct (hydrated_step_ids _ _ _ _ Hd Hview) as [Hids Hschema].
  apply bind_ok in Hrun as (imp & d1 & [Hdup <-]%lift_ok & Hrun).
  destruct (duplicate_valid source (default (pipeline_name source) name) Hschema)
    as (def & Hdup' & Hname & _ & Hedges & Hsteps & _). rewrite Hdup' in Hdup. injection Hdup as <-.
  apply bind_ok in Hrun as (request & d2 & Hreq & Hrun). simpl in Hreq.
  unfold buildDuplicateCreateRequest in Hreq. apply bind_ok in Hreq as (renamed & d1 & Hren & Hreq).
  cbv zeta in Hreq. apply rename_steps_ok in Hren as [Hd1 Hren].
  apply bind_ok in Hreq as (es & d3 & Hes & Hreq). apply for_each_lift_ok in Hes as [-> Hes].
  apply ret_ok in Hreq as [Hreq <-].
  apply bind_ok in Hrun as (p' & d4 & Hc & Hrun). apply ret_ok in Hrun as [[= ->] ->].
  assert (integrity d1) as Hi1 by (rewrite Hd1; destruct Hd; by constructor).
  assert (∀ id', pipelineView id' d1 = pipelineView id' d) as Hv1 by (intros; by rewrite Hd1).
  apply createPipeline_ok in Hc as (_ & _ & Hg & Hc).
  pose proof (createPipelineGraph_ok _ _ _ _ _ Hc) as (trows & _ & _ & Hfresh & Hp). cbv zeta in Hfresh.
  apply hydratePipeline_ok in Hp as (ts & _ & _ & Hp). simpl in Hp.
  destruct (created_views _ _ _ _ _ Hi1 Hc) as (Hown & Hother & ? & Hpn & ? & Hps & Hpe & Hpt).
  assert (NoDup (step_id <$> portable_steps def)) as Hidsw
    by (rewrite Hsteps, <-list_fmap_compose; exact Hids).
  exists source, (renaming renamed). split_and!; try done.
  - by rewrite getPipeline_run, Hview.
  - rewrite getPipeline_run, Hown. by rewrite decide_True.
  - intros other id' Hne. rewrite !getPipeline_run. apply hydrateView_ext.
    rewrite Hother by done. apply Hv1.
  - intros row Hrow Heq. apply Hfresh. rewrite Hd1 in *. simpl in *.
    assert (p_id row = uuid (nextId d1)) as <- by (by rewrite Heq, Hp). by apply list_elem_of_fmap_2.
  - by rewrite Hpn, <-Hreq.
  - rewrite Hps, <-Hreq. simpl. rewrite (renamed_steps _ _ Hidsw Hren), Hsteps, <-list_fmap_compose. done.
  - rewrite Hps. unfold validatePipelineGraph in Hg. cbv zeta in Hg.
    apply outcome_bind_ok in Hg as ([] & [Hnd _]%checkStepIds_ok & _). done.
  - rewrite Hpe, <-Hreq. simpl. rewrite <-Hedges. clear - Hes.
    induction Hes as [|e e' es es' He _ IH]; csimpl; [done|]. apply remapEdge_ok in He as ->. by f_equal.
  - by rewrite Hpt, <-Hreq.
Qed.

End duplication.
