(* ===== verification/RunLogs.v ===== *)
(** * Run log retention and operational events

    [packages/database/src/run-log-retention.ts]: the retention period and
    the expiry it gives a new run. [packages/database/src/observability.ts]:
    the validation and insertion of operational events. *)

From S2P Require Import Prelude Js Contracts Database.

(** ** Dates: a time value is a number of milliseconds within 100,000,000
    days of the epoch, and an invalid date has none. *)

Definition msPerDay : Z := 86400000.
Definition maxTime : Z := 8640000000000000.

Definition timeClip (t : Z) : option Z := if decide (Z.abs t ≤ maxTime)%Z then Some t else None.

(** [date.setUTCDate(date.getUTCDate() + days)]: the same time of the day,
    [days] days later. *)
Definition addUTCDays (t days : Z) : option Z := timeClip (t + days * msPerDay).

(** ** run-log-retention.ts *)

Definition DEFAULT_RUN_LOG_RETENTION_DAYS : Z := 365.
Definition RUN_LOG_RETENTION_DAYS_SETTING : string := "retention.run_log_days".

Definition resolveRunLogRetentionDays (value : option Json) : result Z :=
  match value with
  | None => Ok DEFAULT_RUN_LOG_RETENTION_DAYS
  | Some (JNumber n) =>
      match isInteger n with
      | Some days =>
          if decide (days < 1)%Z
          then Throw (JsError "Run and log retention days must be a positive integer.")
          else Ok days
      | None => Throw (JsError "Run and log retention days must be a positive integer.")
      end
  | Some _ => Throw (JsError "Run and log retention days must be a positive integer.")
  end.

Definition getRunLogRetentionDays : DB Z :=
  setting ← selectFirst settings (λ s, setting_key s = RUN_LOG_RETENTION_DAYS_SETTING);
  lift (resolveRunLogRetentionDays (setting_value <$> setting)).

Definition setRunLogRetentionDays (days : jsnumber) (now : Z) : DB unit :=
  retentionDays ← lift (resolveRunLogRetentionDays (Some (JNumber days)));
  upsertSetting RUN_LOG_RETENTION_DAYS_SETTING (JNumber (NInt retentionDays)) now.

Definition calculateRunLogExpiry (createdAt : Z) (retentionDays : Z) : result (option Z) :=
  days ← resolveRunLogRetentionDays (Some (JNumber (NInt retentionDays)));
  Ok (addUTCDays createdAt days).

(** What writing a [Date] to a column requires: [toISOString] of an invalid
    date throws. *)
Definition persistDate (date : option Z) : result Z :=
  match date with Some t => Ok t | None => Throw (JsError "Invalid time value") end.

(** ** observability.ts *)

Record OperationalEventInput := {
  input_event : OperationalEventKind.t;
  input_jobId : option string;
  input_occurredAt : option Z;
  input_pipelineId : string;
  input_runId : string;
  input_runStepId : option string;
  input_workerId : option string;
  input_bytesRead : option jsnumber;
  input_bytesWritten : option jsnumber;
  input_durationMs : option jsnumber;
  input_recordsRead : option jsnumber;
  input_recordsWritten : option jsnumber;
  input_retryAttempt : option jsnumber }.

Definition validMetric (value : option jsnumber) : bool :=
  match value with
  | None => true
  | Some n => match isSafeInteger n with Some z => bool_decide (0 ≤ z)%Z | None => false end
  end.

(** The first invalid entry, in the order of the object, names the error. *)
Fixpoint validateMetrics (entries : list (string * option jsnumber)) : result unit :=
  match entries with
  | [] => Ok ()
  | (name, value) :: entries =>
      if validMetric value then validateMetrics entries
      else Throw (JsError (name +:+ " must be a non-negative safe integer."))
  end.

Definition metricEntries (input : OperationalEventInput) : list (string * option jsnumber) :=
  [("bytesRead", input_bytesRead input); ("bytesWritten", input_bytesWritten input);
   ("durationMs", input_durationMs input); ("recordsRead", input_recordsRead input);
   ("recordsWritten", input_recordsWritten input); ("retryAttempt", input_retryAttempt input)].

Definition validateOperationalEvent (input : OperationalEventInput) : result unit :=
  validateMetrics (metricEntries input).

(** An integral number as a column value. *)
Definition metricColumn (value : option jsnumber) : option Z := value ≫= isInteger.

(** The row a validated event is inserted as; [occurredAt] defaults to
    [now()]. *)
Definition eventRow (now : Z) (input : OperationalEventInput) (id : string) : OperationalEventRow :=
  {| o_id := id; o_pipelineId := input_pipelineId input; o_runId := input_runId input;
     o_runStepId := input_runStepId input; o_jobId := input_jobId input;
     o_workerId := input_workerId input; o_event := input_event input;
     o_recordsRead := metricColumn (input_recordsRead input);
     o_recordsWritten := metricColumn (input_recordsWritten input);
     o_bytesRead := metricColumn (input_bytesRead input);
     o_bytesWritten := metricColumn (input_bytesWritten input);
     o_durationMs := metricColumn (input_durationMs input);
     o_retryAttempt := metricColumn (input_retryAttempt input);
     o_occurredAt := default now (input_occurredAt input) |}.

Section events.
Context `{!Uuids}.

Definition recordOperationalEvent (input : OperationalEventInput) : DB unit :=
  lift (validateOperationalEvent input);;
  now ← gets clock;
  insertOperationalEvents [eventRow now input].

Definition recordOperationalEvents (inputs : list OperationalEventInput) : DB unit :=
  for_each (λ input, lift (validateOperationalEvent input)) inputs;;
  if decide (0 < length inputs) then
    now ← gets clock;
    insertOperationalEvents (eventRow now <$> inputs)
  else mret ().
End events.

(** An event of the run life cycle: no counters. *)
Definition lifecycleEvent (event : OperationalEventKind.t) (occurredAt : Z) (pipelineId runId : string)
    (runStepId : option string) : OperationalEventInput :=
  {| input_event := event; input_jobId := None; input_occurredAt := Some occurredAt;
     input_pipelineId := pipelineId; input_runId := runId; input_runStepId := runStepId;
     input_workerId := None; input_bytesRead := None; input_bytesWritten := None;
     input_durationMs := None; input_recordsRead := None; input_recordsWritten := None;
     input_retryAttempt := None |}.

(** ** Lemmas *)

Lemma resolve_positive n : (1 ≤ n)%Z → resolveRunLogRetentionDays (Some (JNumber (NInt n))) = Ok n.
Proof. intros. simpl. by rewrite decide_False by lia. Qed.

Lemma resolve_ok value days :
  resolveRunLogRetentionDays value = Ok days →
  (1 ≤ days)%Z ∧ (value = None ∧ days = 365%Z ∨ value = Some (JNumber (NInt days))).
Proof.
  destruct value as [[| |[]| | |]|]; simpl; try done.
  - case_decide; [done|]. intros [= <-]. split; [lia|by right].
  - intros [= <-]. split; [done|by left].
Qed.

Lemma validateMetrics_ok entries :
  validateMetrics entries = Ok () ↔ Forall (λ value, validMetric value = true) (snd <$> entries).
Proof.
  induction entries as [|[name value] l IH]; csimpl; [by rewrite Forall_nil|].
  rewrite Forall_cons. destruct (validMetric value); [rewrite IH; naive_solver|].
  split; [done|]. by intros [? _].
Qed.

Lemma lifecycleEvent_valid event at_ p r s : validateOperationalEvent (lifecycleEvent event at_ p r s) = Ok ().
Proof. done. Qed.

(** The store's row of the retention setting. *)
Lemma settings_upsert (l : list SettingRow) row :
  head (filter (λ s, setting_key s = setting_key row)
    (if decide (setting_key row ∈ setting_key <$> l)
     then updateIf (λ r, setting_key r = setting_key row) (λ _, row) <$> l else l ++ [row])) = Some row.
Proof.
  case_decide as Hin.
  - induction l as [|s l IH]; csimpl in *; [by apply elem_of_nil in Hin|].
    rewrite filter_cons. destruct (decide (setting_key s = setting_key row)).
    + rewrite updateIf_True by done. by rewrite decide_True.
    + rewrite updateIf_False, decide_False by done. apply IH. apply elem_of_cons in Hin as [?|?]; [congruence|done].
  - rewrite filter_app, filter_none.
    + by rewrite filter_cons, decide_True.
    + intros s Hs Heq. apply Hin. rewrite <-Heq. by apply list_elem_of_fmap_2.
Qed.

(** ** Properties *)

(** The retention period that was set is the period that is read, and a
    value that is not a positive integer is refused without a write. *)
Theorem retention_days_roundtrip days now d :
  match days with
  | NInt n =>
      if decide (1 ≤ n)%Z
      then (setRunLogRetentionDays days now;; getRunLogRetentionDays) d =
             (Ok n, (setRunLogRetentionDays days now d).2)
      else ∃ e, setRunLogRetentionDays days now d = (Throw e, d)
  | _ => ∃ e, setRunLogRetentionDays days now d = (Throw e, d)
  end.
Proof.
  unfold setRunLogRetentionDays. destruct days as [n| | |]; simpl; try by eexists.
  destruct (decide (1 ≤ n)%Z) as [Hn|Hn].
  - rewrite (decide_False (P := (n < 1)%Z)) by lia. simpl.
    unfold getRunLogRetentionDays, selectFirst, select, upsertSetting. run_m. simpl.
    pose proof (settings_upsert (settings d) {| setting_key := RUN_LOG_RETENTION_DAYS_SETTING;
      setting_value := JNumber (NInt n); setting_updatedAt := now |}) as Hh. simpl in Hh.
    unfold references. destruct (decide (RUN_LOG_RETENTION_DAYS_SETTING ∈ setting_key <$> settings d));
      rewrite Hh; simpl; by rewrite decide_False by lia.
  - rewrite decide_True by lia. by eexists.
Qed.

(** An expiry is the creation time plus a whole number of days: later
    than the creation, at the same time of the day, monotone in both
    arguments; it is an invalid date exactly beyond the time range. *)
Theorem calculateRunLogExpiry_spec createdAt days :
  (1 ≤ days)%Z → (Z.abs createdAt ≤ maxTime)%Z →
  ∃ expiry, calculateRunLogExpiry createdAt days = Ok expiry ∧
    (expiry = None ↔ (maxTime < createdAt + days * msPerDay)%Z) ∧
    ∀ t, expiry = Some t →
      (createdAt < t)%Z ∧ (t mod msPerDay = createdAt mod msPerDay)%Z ∧
      (t / msPerDay = createdAt / msPerDay + days)%Z ∧
      ∀ createdAt' days', (createdAt' ≤ createdAt)%Z → (1 ≤ days' ≤ days)%Z →
        (Z.abs createdAt' ≤ maxTime)%Z →
        ∃ t', calculateRunLogExpiry createdAt' days' = Ok (Some t') ∧ (t' ≤ t)%Z.
Proof.
  intros Hd Hc. unfold calculateRunLogExpiry. rewrite resolve_positive by done. simpl.
  eexists. split; [done|]. unfold addUTCDays, timeClip, maxTime, msPerDay in *. split.
  - case_decide; split; intros; try done; nia.
  - intros t. case_decide as Ht; [|done]. intros [= <-]. split_and!.
    + nia.
    + apply Z.mod_add. lia.
    + apply Z.div_add. lia.
    + intros c' d' Hle [Hd1 Hd2] Hc'. eexists. rewrite decide_False by lia. simpl.
      rewrite decide_True by nia. split; [done|nia].
Qed.

(** An event is accepted exactly when every counter it carries is a
    non-negative safe integer. *)
Theorem validateOperationalEvent_iff input :
  validateOperationalEvent input = Ok () ↔
  Forall (λ value, match value with
    | None => True
    | Some n => ∃ z, n = NInt z ∧ (0 ≤ z ≤ MAX_SAFE_INTEGER)%Z end)
    [input_bytesRead input; input_bytesWritten input; input_durationMs input;
     input_recordsRead input; input_recordsWritten input; input_retryAttempt input].
Proof.
  assert (∀ value, validMetric value = true ↔ match value with
    | None => True | Some n => ∃ z, n = NInt z ∧ (0 ≤ z ≤ MAX_SAFE_INTEGER)%Z end) as Hv.
  { intros [[z| | |]|]; simpl; try naive_solver. case_decide as Hz.
    - rewrite bool_decide_eq_true. split; [intros; exists z; split; [done|lia]|].
      intros (z' & [= <-] & ?). lia.
    - split; [done|]. intros (z' & [= <-] & ?). lia. }
  unfold validateOperationalEvent. rewrite validateMetrics_ok. apply Forall_iff. intros v. apply Hv.
Qed.

(** A byte count beyond the [integer] column passes the validation and is
    then refused by the database. *)
Lemma validated_event_rejected `{!Uuids} d :
  let input := {| input_event := OperationalEventKind.step_succeeded; input_jobId := None;
    input_occurredAt := Some 0%Z; input_pipelineId := ""; input_runId := ""; input_runStepId := None;
    input_workerId := None; input_bytesRead := Some (NInt 3000000000); input_bytesWritten := None;
    input_durationMs := None; input_recordsRead := None; input_recordsWritten := None;
    input_retryAttempt := None |} in
  validateOperationalEvent input = Ok () ∧
  recordOperationalEvent input d = (Throw (DatabaseError "integer out of range"), d).
Proof.
  intros input. assert (validateOperationalEvent input = Ok ()) as Hv by reflexivity.
  split; [done|]. unfold recordOperationalEvent, lift. run_m. rewrite Hv.
  unfold insertOperationalEvents, transaction. run_m. cbn [for_each].
  unfold insertOperationalEvent, newId. run_m.
  cbv beta iota zeta. unfold enforce at 1. rewrite decide_False; [done|].
  unfold eventInt4. rewrite !Forall_cons. intros (_ & _ & Hb & _). simpl in Hb. unfold int4 in Hb. lia.
Qed.

Lemma calculateRunLogExpiry_spec_witness :
  calculateRunLogExpiry 0 365 = Ok (Some 31536000000%Z) ∧ (0 < 31536000000)%Z.
Proof.
  split; [reflexivity|].
  destruct (calculateRunLogExpiry_spec 0 365) as (e & He & _ & Hspec);
    [lia|vm_compute; discriminate|].
  apply (Hspec 31536000000%Z). assert (Ok e = (Ok (Some 31536000000%Z) : result (option Z))) as [= ->];
    [|reflexivity]. rewrite <-He. reflexivity.
Defined.
