(* ===== verification/Dates.v ===== *)
(** * Dates and their texts

    [Date.prototype.toISOString] and [new Date(text)]: the time value of the
    language in the proleptic Gregorian calendar, as the text
    [YYYY-MM-DDTHH:mm:ss.sssZ], or with six digits and a sign outside the
    years 0 to 9999. *)

From S2P Require Import Prelude Js RunLogs.

#[local] Open Scope Z_scope.

(** ** The calendar *)

Definition DayFromYear (y : Z) : Z :=
  365 * (y - 1970) + (y - 1969) / 4 - (y - 1901) / 100 + (y - 1601) / 400.

(** The year of a day: the estimate is at most one off. *)
Definition YearFromDay (day : Z) : Z :=
  let y := 1970 + day * 400 / 146097 in
  if decide (day < DayFromYear y) then y - 1
  else if decide (DayFromYear (y + 1) <= day) then y + 1
  else y.

Definition leap (y : Z) : Z := DayFromYear (y + 1) - DayFromYear y - 365.

Definition monthLengths (y : Z) : list Z := [31; 28 + leap y; 31; 30; 31; 30; 31; 31; 30; 31; 30; 31].

(** The month, from 1, and the day of it, from 0, of a day of a year. *)
Fixpoint monthOf (lengths : list Z) (month day : Z) : Z * Z :=
  match lengths with
  | [] => (month, day)
  | n :: lengths => if decide (day < n) then (month, day) else monthOf lengths (month + 1) (day - n)
  end.

(** The first day of a month, from the beginning of the year. *)
Definition monthStart (y month : Z) : Z := foldr Z.add 0 (take (Z.to_nat (month - 1)) (monthLengths y)).

(** ** Texts *)

Definition digit (n : Z) : ascii := Ascii.ascii_of_nat (Z.to_nat (48 + n)).

(** The last [w] digits of a number. *)
Fixpoint digits (w : nat) (n : Z) (rest : string) : string :=
  match w with
  | O => rest
  | S w => digits w (n / 10) (String (digit (n mod 10)) rest)
  end.

(** A number of [w] digits, and what follows it. *)
Fixpoint readDigits (w : nat) (acc : Z) (s : string) : option (Z * string) :=
  match w with
  | O => Some (acc, s)
  | S w =>
      match s with
      | String c s => if is_digit c then readDigits w (10 * acc + (Z.of_nat (Ascii.nat_of_ascii c) - 48)) s else None
      | EmptyString => None
      end
  end.

Definition yearText (y : Z) (rest : string) : string :=
  if decide (0 <= y <= 9999) then digits 4 y rest
  else String (if decide (y < 0) then "-" else "+")%char (digits 6 (Z.abs y) rest).

(** [toISOString] of a time value; that of an invalid date throws. *)
Definition toISOString (t : Z) : string :=
  let day := t / msPerDay in
  let ms := t mod msPerDay in
  let y := YearFromDay day in
  let '(month, date) := monthOf (monthLengths y) 1 (day - DayFromYear y) in
  yearText y (String "-" (digits 2 month (String "-" (digits 2 (date + 1) (String "T"
    (digits 2 (ms / 3600000) (String ":" (digits 2 (ms / 60000 mod 60) (String ":"
    (digits 2 (ms / 1000 mod 60) (String "." (digits 3 (ms mod 1000) "Z")))))))))))).

(** A given character, and what follows it. *)
Definition readChar (c : ascii) (s : string) : option string :=
  match s with String c' s => if decide (c' = c) then Some s else None | EmptyString => None end.

Definition readYear (s : string) : option (Z * string) :=
  match s with
  | String "+" s => readDigits 6 0 s
  | String "-" s => '(y, s) ← readDigits 6 0 s; if decide (y = 0) then None else Some (- y, s)
  | _ => readDigits 4 0 s
  end.

(** A text of the form [toISOString] writes, as the time value it stands
    for. *)
Definition parseInstant (s : string) : option Z :=
  '(y, s) ← readYear s;
  s ← readChar "-" s; '(month, s) ← readDigits 2 0 s;
  s ← readChar "-" s; '(date, s) ← readDigits 2 0 s;
  s ← readChar "T" s; '(hour, s) ← readDigits 2 0 s;
  s ← readChar ":" s; '(minute, s) ← readDigits 2 0 s;
  s ← readChar ":" s; '(second, s) ← readDigits 2 0 s;
  s ← readChar "." s; '(ms, s) ← readDigits 3 0 s;
  if decide (s = "Z" ∧ 1 <= month <= 12 ∧ 1 <= date <= default 0 (monthLengths y !! Z.to_nat (month - 1)) ∧
             hour <= 23 ∧ minute <= 59 ∧ second <= 59)
  then timeClip ((DayFromYear y + monthStart y month + (date - 1)) * msPerDay +
                 hour * 3600000 + minute * 60000 + second * 1000 + ms)
  else None.

Example toISOString_examples :
  toISOString <$> [0; 1755051262123; -1; 951782400000; 253402300800000; -62198755200000] =
    ["1970-01-01T00:00:00.000Z"; "2025-08-13T02:14:22.123Z"; "1969-12-31T23:59:59.999Z"; "2000-02-29T00:00:00.000Z";
     "+010000-01-01T00:00:00.000Z"; "-000001-01-01T00:00:00.000Z"].
Proof. vm_compute. reflexivity. Qed.

(** ** Reading back what is written *)

Lemma DayFromYear_bounds y : 146097 * (y - 1970) - 506 <= 400 * DayFromYear y <= 146097 * (y - 1970) + 589.
Proof. unfold DayFromYear. Z.to_euclidean_division_equations. lia. Qed.

Lemma YearFromDay_spec day : let y := YearFromDay day in DayFromYear y <= day < DayFromYear (y + 1).
Proof.
  cbv zeta. unfold YearFromDay. set (y := 1970 + day * 400 / 146097).
  pose proof (Z.div_mod (day * 400) 146097 ltac:(lia)) as Hy. pose proof (Z.mod_pos_bound (day * 400) 146097 ltac:(lia)).
  pose proof (DayFromYear_bounds (y - 1)). pose proof (DayFromYear_bounds y). pose proof (DayFromYear_bounds (y + 1)).
  pose proof (DayFromYear_bounds (y + 1 + 1)). replace (day * 400 / 146097) with (y - 1970) in Hy by lia.
  repeat case_decide; try lia.
  - replace (y - 1 + 1) with y by lia. lia.
Qed.

Lemma leap_cases y : leap y = 0 ∨ leap y = 1.
Proof. unfold leap, DayFromYear. Z.to_euclidean_division_equations. lia. Qed.

Lemma monthOf_spec lengths month day : Forall (Z.le 0) lengths → 0 <= day < foldr Z.add 0 lengths →
  let '(m, d) := monthOf lengths month day in
  month <= m < month + Z.of_nat (length lengths) ∧ (∃ n, lengths !! Z.to_nat (m - month) = Some n ∧ 0 <= d < n) ∧
  day = foldr Z.add 0 (take (Z.to_nat (m - month)) lengths) + d.
Proof.
  intros Hl. revert month day. induction Hl as [|n lengths Hn Hl IH]; intros month day Hd; simpl in *; [lia|].
  case_decide.
  - rewrite Z.sub_diag. simpl. split; [lia|]. split; [|lia]. exists n. split; [done|lia].
  - specialize (IH (month + 1) (day - n)). destruct (monthOf lengths (month + 1) (day - n)) as [m d].
    destruct IH as (Hm & (n' & Hn' & Hd') & Hsum); [lia|].
    replace (Z.to_nat (m - month)) with (S (Z.to_nat (m - (month + 1)))) by lia. simpl.
    split; [lia|]. split; [by exists n'|lia].
Qed.

Lemma digit_char n : 0 <= n < 10 → is_digit (digit n) = true ∧ Z.of_nat (Ascii.nat_of_ascii (digit n)) - 48 = n.
Proof.
  intros Hn. assert (Forall (λ n, is_digit (digit (Z.of_nat n)) = true ∧ Z.of_nat (Ascii.nat_of_ascii (digit (Z.of_nat n))) - 48 = Z.of_nat n)
    (seq 0 10)) as H by (repeat constructor). rewrite Forall_forall in H. specialize (H (Z.to_nat n)).
  rewrite Z2Nat.id in H by lia. apply H. apply elem_of_seq. lia.
Qed.

Lemma readDigits_digits w n rest : readDigits w 0 (digits w n rest) = Some (n mod 10 ^ Z.of_nat w, rest).
Proof.
  assert (∀ w v acc n s, (∀ acc, readDigits v acc s = Some (acc * 10 ^ Z.of_nat v + n mod 10 ^ Z.of_nat v, rest)) →
    readDigits (w + v) acc (digits w (n / 10 ^ Z.of_nat v) s) =
      Some (acc * 10 ^ Z.of_nat (w + v) + n mod 10 ^ Z.of_nat (w + v), rest)) as Hgo.
  { clear. intros w. induction w as [|w IH]; intros v acc n s Hs; cbn [digits]; [by rewrite Hs, Nat.add_0_l|].
    replace (n / 10 ^ Z.of_nat v / 10) with (n / 10 ^ Z.of_nat (S v)).
    2:{ rewrite Nat2Z.inj_succ, Z.pow_succ_r, Z.mul_comm, Z.div_div by lia. done. }
    replace (S w + v)%nat with (w + S v)%nat by lia. apply IH. intros acc'. simpl.
    destruct (digit_char ((n / 10 ^ Z.of_nat v) mod 10)) as [-> ->]; [by apply Z.mod_pos_bound|].
    rewrite Hs. do 2 f_equal. rewrite Nat2Z.inj_succ, Z.pow_succ_r by lia.
    rewrite (Z.mul_comm 10 (10 ^ _)). rewrite Z.rem_mul_r by lia. lia. }
  specialize (Hgo w O 0 n rest). rewrite Nat.add_0_r, Z.pow_0_r, Z.div_1_r in Hgo.
  rewrite Hgo; [done|]. intros acc. simpl. do 2 f_equal. by rewrite Z.mul_1_r, Z.mod_1_r, Z.add_0_r.
Qed.

Lemma readDigits_small w n rest : 0 <= n < 10 ^ Z.of_nat w → readDigits w 0 (digits w n rest) = Some (n, rest).
Proof. intros Hn. by rewrite readDigits_digits, Z.mod_small. Qed.

Lemma readYear_digit n s : 0 <= n < 10 → readYear (String (digit n) s) = readDigits 4 0 (String (digit n) s).
Proof.
  intros Hn. assert (n = 0 ∨ n = 1 ∨ n = 2 ∨ n = 3 ∨ n = 4 ∨ n = 5 ∨ n = 6 ∨ n = 7 ∨ n = 8 ∨ n = 9) as Hcases by lia.
  by repeat destruct Hcases as [->|Hcases]; subst.
Qed.

Lemma readYear_yearText y rest : Z.abs y < 1000000 → readYear (yearText y rest) = Some (y, rest).
Proof.
  intros Hy. unfold yearText. case_decide as Hrange.
  - rewrite <-(readDigits_small 4 y rest) by lia. cbn [digits]. apply readYear_digit. by apply Z.mod_pos_bound.
  - case_decide; unfold readYear; rewrite readDigits_small by (simpl; lia); simpl.
    + rewrite decide_False by lia. do 2 f_equal. lia.
    + do 2 f_equal. lia.
Qed.

Lemma year_days y : foldr Z.add 0 (monthLengths y) = DayFromYear (y + 1) - DayFromYear y.
Proof. unfold monthLengths. cbn [foldr]. unfold leap. lia. Qed.

Lemma monthLengths_pos y : Forall (Z.le 0) (monthLengths y).
Proof. pose proof (leap_cases y). repeat constructor; lia. Qed.

Lemma monthLengths_max y n i : monthLengths y !! i = Some n → n <= 31.
Proof.
  intros Hi. pose proof (leap_cases y). assert (Forall (λ n, n <= 31) (monthLengths y)) as Hall by (repeat constructor; lia).
  by eapply (Forall_lookup_1 _ _ _ _ Hall).
Qed.

Lemma readChar_same c s : readChar c (String c s) = Some s.
Proof. simpl. by rewrite decide_True. Qed.

Lemma time_of_day ms : 0 <= ms < msPerDay →
  0 <= ms / 3600000 <= 23 ∧ 0 <= ms / 60000 mod 60 <= 59 ∧ 0 <= ms / 1000 mod 60 <= 59 ∧ 0 <= ms mod 1000 <= 999 ∧
  ms / 3600000 * 3600000 + ms / 60000 mod 60 * 60000 + ms / 1000 mod 60 * 1000 + ms mod 1000 = ms.
Proof. unfold msPerDay. intros Hms. Z.to_euclidean_division_equations. lia. Qed.

(** The text of a date is read as the date. *)
Theorem parseInstant_toISOString t : Z.abs t <= maxTime → parseInstant (toISOString t) = Some t.
Proof.
  intros Ht. unfold toISOString. set (day := t / msPerDay). set (ms := t mod msPerDay). set (y := YearFromDay day).
  assert (t = day * msPerDay + ms) as Hdm by (unfold day, ms, msPerDay; pose proof (Z.div_mod t 86400000); lia).
  assert (0 <= ms < msPerDay) as Hms by (by apply Z.mod_pos_bound).
  pose proof (YearFromDay_spec day) as Hyear. fold y in Hyear. cbv zeta in Hyear.
  assert (Z.abs y < 1000000) as Hy.
  { pose proof (DayFromYear_bounds y). pose proof (DayFromYear_bounds (y + 1)). unfold maxTime, msPerDay in *. lia. }
  pose proof (monthOf_spec (monthLengths y) 1 (day - DayFromYear y) (monthLengths_pos y)) as Hm.
  rewrite year_days in Hm. destruct (monthOf (monthLengths y) 1 (day - DayFromYear y)) as [month date].
  destruct Hm as (Hmonth & (n & Hn & Hdate) & Hsum); [lia|]. change (Z.of_nat (length (monthLengths y))) with 12 in Hmonth.
  pose proof (monthLengths_max y n _ Hn). destruct (time_of_day ms Hms) as (Hhour & Hminute & Hsecond & Hmilli & Hsum').
  unfold parseInstant. rewrite readYear_yearText by done. cbn [mbind option_bind].
  assert (∀ w n' rest, (w = 2%nat ∧ 0 <= n' <= 99 ∨ w = 3%nat ∧ 0 <= n' <= 999) → readDigits w 0 (digits w n' rest) = Some (n', rest))
    as Hread by (intros ??? [[-> ?]|[-> ?]]; apply readDigits_small; cbn; lia).
  repeat (first [rewrite readChar_same | rewrite Hread by lia]; cbn [mbind option_bind]).
  rewrite Hn, decide_True by (split_and!; simpl; lia || done). unfold monthStart. unfold timeClip. rewrite decide_True; [f_equal|]; lia.
Qed.
