(* ===== verification/RunQueue.v ===== *)
(** * The run queue

    [apps/scheduler/src/run-queue.ts]: creation and promotion of runs.
    [apps/scheduler/src/schedule-claims.ts]: the claim of due schedules.
    [packages/database/src/queue.ts]: the claim of a job by a worker.

    [locked] lists the rows other transactions hold: what [SKIP LOCKED]
    passes over. *)

From S2P Require Import Prelude Js Contracts StateMachine Schemas Database RunLogs.

Record PipelineRunRequest := {
  request_pipelineId : string;
  request_scheduledFor : option Z;
  request_triggerId : option string }.

Record CreatedPipelineRun := {
  initialJobCount : nat;
  created_pipelineId : string;
  queuedBehindActiveRun : bool;
  created_runId : string }.

Record PromotedPipelineRun := { promoted_pipelineId : string; promoted_runId : string }.

Definition DEFAULT_QUEUED_RUN_PROMOTION_LIMIT : jsnumber := NInt 100.
Definition DEFAULT_SCHEDULE_CLAIM_LIMIT : jsnumber := NInt 100.

(** [asc(scheduledFor), asc(createdAt), asc(id)]: nulls come last. *)
Definition waitingOrder : relation RunRow :=
  then_by (on r_scheduledFor nulls_last) (then_by (on r_createdAt Z.le) (on r_id String.le)).
#[export] Instance waitingOrder_dec x y : Decision (waitingOrder x y).
Proof. unfold waitingOrder. apply _. Defined.

(** [asc(completedAt), asc(id)] *)
Definition completionOrder : relation RunRow :=
  then_by (on r_completedAt nulls_last) (on r_id String.le).
#[export] Instance completionOrder_dec x y : Decision (completionOrder x y).
Proof. unfold completionOrder. apply _. Defined.

(** [asc(nextRunAt), asc(id)] *)
Definition dueOrder : relation TriggerRow :=
  then_by (on t_nextRunAt nulls_last) (on t_id String.le).
#[export] Instance dueOrder_dec x y : Decision (dueOrder x y).
Proof. unfold dueOrder. apply _. Defined.

(** [asc(availableAt), asc(createdAt)] *)
Definition availableOrder : relation JobRow := then_by (on j_availableAt Z.le) (on j_createdAt Z.le).
#[export] Instance availableOrder_dec x y : Decision (availableOrder x y).
Proof. unfold availableOrder. apply _. Defined.

#[export] Instance waitingOrder_sort : SortKey waitingOrder.
Proof. unfold waitingOrder. apply _. Qed.
#[export] Instance completionOrder_sort : SortKey completionOrder.
Proof. unfold completionOrder. apply _. Qed.
#[export] Instance dueOrder_sort : SortKey dueOrder.
Proof. unfold dueOrder. apply _. Qed.
#[export] Instance availableOrder_sort : SortKey availableOrder.
Proof. unfold availableOrder. apply _. Qed.

(** The [where] conditions. *)
Definition terminalActive (pipelineId : string) (r : RunRow) : Prop :=
  r_pipelineId r = pipelineId ∧ r_isActive r = true ∧ r_state r ∈ terminalRunStates.
Definition activeOf (pipelineId : string) (r : RunRow) : Prop :=
  r_pipelineId r = pipelineId ∧ r_isActive r = true ∧ r_state r ∈ activeRunStates.
Definition waitingOf (pipelineId : string) (r : RunRow) : Prop :=
  r_pipelineId r = pipelineId ∧ r_isActive r = false ∧ r_state r = RunState.queued.

#[export] Instance terminalActive_dec pipelineId r : Decision (terminalActive pipelineId r).
Proof. unfold terminalActive. apply _. Defined.
#[export] Instance activeOf_dec pipelineId r : Decision (activeOf pipelineId r).
Proof. unfold activeOf. apply _. Defined.
#[export] Instance waitingOf_dec pipelineId r : Decision (waitingOf pipelineId r).
Proof. unfold waitingOf. apply _. Defined.

(** [Number.isSafeInteger(limit) && limit >= 1] *)
Definition positiveLimit (limit : jsnumber) (message : string) : result nat :=
  match isSafeInteger limit with
  | Some n => if decide (n < 1)%Z then Throw (JsError message) else Ok (Z.to_nat n)
  | None => Throw (JsError message)
  end.

(** The gate on the state of a pipeline, with the conflict it reports. *)
Definition assertPipelineCanCreateRun (state : PipelineState.t) : result unit :=
  match enqueuePipelineRun (createPipelineExecutionState state) "pending-run" with
  | Ok _ => Ok ()
  | Throw (PipelineStateTransitionError _) =>
      Throw (PipelineRunEnqueueConflictError run_not_enabled
        "Cannot create a run until the pipeline has been reviewed and enabled.")
  | Throw e => Throw e
  end.

(** The cron library: the first occurrence strictly after a time. *)
Class CronParser := { nextOccurrence : string → string → Z → result Z }.

Record ClaimedSchedule := {
  claimed_cron : string;
  claimed_nextRunAt : Z;
  claimed_pipelineId : string;
  claimed_scheduledFor : Z;
  claimed_run : CreatedPipelineRun;
  claimed_timezone : string;
  claimed_triggerId : string }.

Section queue.
Context `{!Uuids, !Formats}.

Definition findActivePipelineRun (pipelineId : string) : DB (option string) :=
  activeRun ← selectFirst runs (activeOf pipelineId);
  mret (r_id <$> activeRun).

Definition createInitialSourceJobs (pipelineId runId : string) (now : Z) : DB nat :=
  components ← select pipelineComponents (λ c, c_pipelineId c = pipelineId);
  let sourceComponents := filter (λ c, c_kind c = ComponentKind.source) components in
  if decide (length sourceComponents = 0)
  then throw (JsError "Pipeline runs require at least one Source component.")
  else
    steps ← insertRunSteps runId (c_id <$> components);
    let stepByComponentId : gmap string string :=
      foldl (λ m step, <[s_componentId step := s_id step]> m) ∅ steps in
    recordOperationalEvents ((λ step,
      lifecycleEvent OperationalEventKind.step_queued now pipelineId runId (Some (s_id step))) <$> steps);;
    rows ← for_each (λ component,
      match stepByComponentId !! c_id component with
      | None | Some "" => throw (JsError "Run step creation did not return a Source step.")
      | Some runStepId => mret (c_id component, runStepId)
      end) sourceComponents;
    insertJobs pipelineId runId now rows;;
    mret (length sourceComponents).

Definition promoteOldestQueuedRun (pipelineId : string) (now : Z) : DB (option string) :=
  waiting ← select runs (waitingOf pipelineId);
  match head (order_by waitingOrder waiting) with
  | None => mret None
  | Some queuedRun =>
      updateRunsActive (λ r, r_id r = r_id queuedRun) true;;
      createInitialSourceJobs pipelineId (r_id queuedRun) now;;
      mret (Some (r_id queuedRun))
  end.

Definition createPipelineRunInTransaction (request : PipelineRunRequest) (now : Z) :
    DB CreatedPipelineRun :=
  pipelineId ← lift (parse is_uuid (request_pipelineId request));
  pipeline ← selectFirst pipelines (λ p, p_id p = pipelineId);
  match pipeline with
  | None => throw (PipelineRunEnqueueConflictError run_not_found "The requested pipeline was not found.")
  | Some pipeline =>
      lift (assertPipelineCanCreateRun (p_state pipeline));;
      retentionDays ← getRunLogRetentionDays;
      updateRunsActive (terminalActive pipelineId) false;;
      foundRun ← findActivePipelineRun pipelineId;
      activeRun ←
        match foundRun with
        | Some id => mret (Some id)
        | None => promoteOldestQueuedRun pipelineId now
        end;
      expiry ← lift (calculateRunLogExpiry now retentionDays);
      expiresAt ← lift (persistDate expiry);
      run ← insertRun pipelineId (request_triggerId request) (bool_decide (activeRun = None))
        now expiresAt (request_scheduledFor request);
      recordOperationalEvent
        (lifecycleEvent OperationalEventKind.run_queued now pipelineId (r_id run) None);;
      jobCount ←
        match activeRun with
        | Some _ => mret 0
        | None => createInitialSourceJobs pipelineId (r_id run) now
        end;
      mret {| initialJobCount := jobCount; created_pipelineId := pipelineId;
              queuedBehindActiveRun := bool_decide (activeRun ≠ None);
              created_runId := r_id run |}
  end.

Definition createPipelineRun (request : PipelineRunRequest) (now : Z) : DB CreatedPipelineRun :=
  pipelineId ← lift (parse is_uuid (request_pipelineId request));
  transaction (createPipelineRunInTransaction
    {| request_pipelineId := pipelineId; request_scheduledFor := request_scheduledFor request;
       request_triggerId := request_triggerId request |} now).

(** The body of the loop over the completed runs. *)
Definition advancePipeline (now : Z) (completedRun : RunRow) : DB (list PromotedPipelineRun) :=
  let pipelineId := r_pipelineId completedRun in
  updateRunsActive (terminalActive pipelineId) false;;
  promotedRun ← promoteOldestQueuedRun pipelineId now;
  mret match promotedRun with
       | Some id => [{| promoted_pipelineId := pipelineId; promoted_runId := id |}]
       | None => []
       end.

Definition promoteQueuedPipelineRuns (now : Z) (limit : jsnumber) (locked : list string) :
    DB (list PromotedPipelineRun) :=
  count ← lift (positiveLimit limit "Queued run promotion limit must be a positive safe integer.");
  transaction (
    completed ← select runs (λ r, r_isActive r = true ∧ r_state r ∈ terminalRunStates ∧ r_id r ∉ locked);
    promoted ← for_each (advancePipeline now) (take count (order_by completionOrder completed));
    mret (concat promoted)).

(** A worker's claim. *)
Definition claimNextJob (workerId : string) (now : Z) (locked : list string) : DB (option JobRow) :=
  transaction (
    eligible ← select jobs (λ j, j_state j = JobState.queued ∧ (j_availableAt j ≤ now)%Z ∧ j_id j ∉ locked);
    match head (order_by availableOrder eligible) with
    | None => mret None
    | Some candidate =>
        claimed ← updateJobsClaimed (λ j, j_id j = j_id candidate ∧ j_state j = JobState.queued)
          workerId now;
        mret (head claimed)
    end).

Context `{!CronParser}.

Definition calculateNextScheduleRun (cron timezone : string) (after : Z) : result Z :=
  nextOccurrence cron timezone after.

(** A schedule that is due: the [where] of the claim, over the join with
    the pipelines. *)
Definition dueSchedule (now : Z) (locked enabled : list string) (t : TriggerRow) : Prop :=
  t_type t = TriggerType.schedule ∧ t_enabled t = true ∧ t_pipelineId t ∈ enabled ∧
  t_cron t ≠ None ∧ t_timezone t ≠ None ∧
  (match t_nextRunAt t with Some next => next ≤ now | None => False end)%Z ∧
  t_id t ∉ locked ∧ t_pipelineId t ∉ locked.
#[global] Instance dueSchedule_dec now locked enabled t : Decision (dueSchedule now locked enabled t).
Proof. unfold dueSchedule. destruct (t_nextRunAt t); apply _. Defined.

(** The body of the loop over the due schedules. *)
Definition claimSchedule (now : Z) (dueSchedule : TriggerRow) : DB ClaimedSchedule :=
  match t_cron dueSchedule, t_nextRunAt dueSchedule, t_timezone dueSchedule with
  | Some cron, Some scheduledFor, Some timezone =>
      nextRunAt ← lift (calculateNextScheduleRun cron timezone scheduledFor);
      updateTriggerClaim (t_id dueSchedule) now nextRunAt;;
      run ← createPipelineRunInTransaction
        {| request_pipelineId := t_pipelineId dueSchedule; request_scheduledFor := Some scheduledFor;
           request_triggerId := Some (t_id dueSchedule) |} now;
      mret {| claimed_cron := cron; claimed_nextRunAt := nextRunAt;
              claimed_pipelineId := t_pipelineId dueSchedule; claimed_scheduledFor := scheduledFor;
              claimed_run := run; claimed_timezone := timezone;
              claimed_triggerId := t_id dueSchedule |}
  | _, _, _ => throw (JsError "Due schedule is missing required scheduling fields.")
  end.

Definition claimDueSchedules (now : Z) (limit : jsnumber) (locked : list string) :
    DB (list ClaimedSchedule) :=
  count ← lift (positiveLimit limit "Schedule claim limit must be a positive safe integer.");
  transaction (
    enabled ← select pipelines (λ p, p_state p = PipelineState.enabled);
    due ← select pipelineTriggers (dueSchedule now locked (p_id <$> enabled));
    for_each (claimSchedule now) (take count (order_by dueOrder due))).
End queue.
