(* ===== verification/RunQueueProofs.v ===== *)
(** * Correctness of the run queue

    The scheduler keeps at most one run of a pipeline exposed to the workers,
    advances backlogs, never loses a due occurrence and hands each job to one
    worker. *)

From S2P Require Import Prelude Js Contracts StateMachine Schemas Database Integrity Statements.
From S2P Require Import RunLogs RunQueue.

(** ** Exclusive execution

    A job exists only for the run that holds the lock of its pipeline, or for
    one that is over. *)

Definition exclusive_job (d : Database) (j : JobRow) : Prop :=
  ∃ r, r ∈ runs d ∧ r_id r = j_runId j ∧ r_pipelineId r = j_pipelineId j ∧
    (r_isActive r = true ∨ r_state r ∈ terminalRunStates).

Definition exclusive (d : Database) : Prop := ∀ j, j ∈ jobs d → exclusive_job d j.

(** A run that may be given jobs. *)
Definition startable (pipelineId runId : string) (d : Database) : Prop :=
  ∃ r, r ∈ runs d ∧ r_id r = runId ∧ r_pipelineId r = pipelineId ∧ r_isActive r = true.

Section exclusive.
Context `{!Uuids, !Formats}.

Lemma exclusive_runs d d' :
  (∀ j, j ∈ jobs d' → j ∈ jobs d) →
  (∀ r, r ∈ runs d → ∃ r', r' ∈ runs d' ∧ r_id r' = r_id r ∧ r_pipelineId r' = r_pipelineId r ∧
     r_state r' = r_state r ∧ (r_isActive r = true → r_isActive r' = true ∨ r_state r ∈ terminalRunStates)) →
  exclusive d → exclusive d'.
Proof.
  intros Hj Hr Hd j Hin. destruct (Hd j (Hj j Hin)) as (r & Hrin & Hid & Hp & Hor).
  destruct (Hr r Hrin) as (r' & ? & ? & ? & Hst & Hact). exists r'. split_and!; [done|congruence..|].
  rewrite Hst. naive_solver.
Qed.

Lemma updateRunsActive_ok P `{∀ r, Decision (P r)} isActive d u d' :
  updateRunsActive P isActive d = (Ok u, d') →
  d' = set_runs (updateIf P (setActive isActive) <$> runs d) d ∧
  oneActive (updateIf P (setActive isActive) <$> runs d).
Proof. unfold updateRunsActive. by intros [? [= _ <-]]%enforce_ok. Qed.

Lemma release_exclusive pipelineId :
  triple exclusive (updateRunsActive (terminalActive pipelineId) false) (λ _, exclusive).
Proof.
  intros d u d' Hd [-> _]%updateRunsActive_ok. eapply exclusive_runs; [..|done]; [done|].
  intros r Hr. exists (updateIf (terminalActive pipelineId) (setActive false) r).
  split; [by apply list_elem_of_fmap_2|].
  destruct (decide (terminalActive pipelineId r)) as [Ht|Hn].
  - rewrite updateIf_True by done. destruct Ht as (? & ? & ?). split_and!; try done. by right.
  - rewrite updateIf_False by done. split_and!; try done. by left.
Qed.

Lemma promote_exclusive runId pipelineId :
  triple (λ d, exclusive d ∧ ∃ r, r ∈ runs d ∧ r_id r = runId ∧ r_pipelineId r = pipelineId)
    (updateRunsActive (λ r, r_id r = runId) true)
    (λ _ d, exclusive d ∧ startable pipelineId runId d).
Proof.
  intros d u d' [Hd (r & Hr & Hid & Hp)] [-> _]%updateRunsActive_ok. split.
  - eapply exclusive_runs; [..|done]; [done|]. intros r' Hr'.
    exists (updateIf (λ r, r_id r = runId) (setActive true) r').
    split; [by apply list_elem_of_fmap_2|]. unfold updateIf. case_decide; split_and!; try done; by left.
  - exists (setActive true r). split; [|done]. simpl. apply list_elem_of_fmap. exists r.
    by rewrite updateIf_True.
Qed.

(** Statements on other tables. *)
Lemma preserves_exec (I : Database → Prop) {A} (m : DB A) :
  preserves I m → triple I m (λ _, I).
Proof. intros Hm d a d' Hd Hr. specialize (Hm d Hd). by rewrite Hr in Hm. Qed.

(** The invariant does not read the tables of steps and events. *)
Definition started (pipelineId runId : string) (d : Database) : Prop :=
  exclusive d ∧ startable pipelineId runId d.

Lemma insertRunSteps_started p r runId ids : preserves (started p r) (insertRunSteps runId ids).
Proof.
  apply preserves_transaction, preserves_for_each. intros id.
  apply preserves_bind; [intros d Hd; exact Hd|intros i]. cbv zeta. enforced. exact Hd.
Qed.

Lemma insertOperationalEvents_jobs (I : Database → Prop) rows :
  (∀ d d', runs d' = runs d → jobs d' = jobs d → I d → I d') →
  preserves I (insertOperationalEvents rows).
Proof.
  intros HI. apply preserves_bind; [|intros; apply preserves_ret].
  apply preserves_transaction, preserves_for_each. intros make.
  apply preserves_bind; [intros d Hd; by apply (HI d)|intros i]. cbv zeta. enforced.
  by apply (HI d).
Qed.

Lemma recordOperationalEvent_jobs (I : Database → Prop) input :
  (∀ d d', runs d' = runs d → jobs d' = jobs d → I d → I d') →
  preserves I (recordOperationalEvent input).
Proof.
  intros HI. apply preserves_bind; [apply preserves_lift|intros _].
  apply preserves_bind; [apply preserves_gets|intros now]. by apply insertOperationalEvents_jobs.
Qed.

Lemma recordOperationalEvents_jobs (I : Database → Prop) inputs :
  (∀ d d', runs d' = runs d → jobs d' = jobs d → I d → I d') →
  preserves I (recordOperationalEvents inputs).
Proof.
  intros HI. apply preserves_bind; [apply preserves_for_each; intros; apply preserves_lift|intros _].
  case_decide; [|apply preserves_ret].
  apply preserves_bind; [apply preserves_gets|intros now]. by apply insertOperationalEvents_jobs.
Qed.

Lemma insertJobs_started p r now rows : preserves (started p r) (insertJobs p r now rows).
Proof.
  apply preserves_transaction, preserves_for_each. intros pair.
  apply preserves_bind; [intros d Hd; exact Hd|intros i].
  apply preserves_bind; [apply preserves_gets|intros t]. cbv zeta. enforced.
  destruct Hd as [He Hs]. split; [|done].
  intros j [Hj| ->]%elem_of_snoc; [by apply He|].
  destruct Hs as (run & ? & ? & ? & ?). exists run. simpl. split_and!; try done. by left.
Qed.

Lemma createInitialSourceJobs_exclusive p r now :
  triple (started p r) (createInitialSourceJobs p r now) (λ _, exclusive).
Proof.
  eapply triple_conseq; [apply preserves_exec|done|intros n d Hd; exact (proj1 Hd)].
  unfold createInitialSourceJobs. apply preserves_bind; [apply preserves_select|intros components].
  cbv zeta. case_decide; [apply preserves_throw|].
  apply preserves_bind; [apply insertRunSteps_started|intros steps].
  apply preserves_bind.
  { apply recordOperationalEvents_jobs. unfold started, exclusive, exclusive_job, startable.
    by intros d d' -> ->. }
  intros _. apply preserves_bind.
  { apply preserves_for_each. intros c. repeat case_match; first [apply preserves_throw|apply preserves_ret]. }
  intros rows. apply preserves_bind; [apply insertJobs_started|intros; apply preserves_ret].
Qed.

Lemma promoteOldestQueuedRun_exclusive p now :
  triple exclusive (promoteOldestQueuedRun p now) (λ _, exclusive).
Proof.
  intros d o d' Hd. unfold promoteOldestQueuedRun, select. rewrite gets_ok.
  destruct (head (order_by waitingOrder _)) as [run|] eqn:Hh; [|by intros [_ <-]%ret_ok].
  apply (order_by_head waitingOrder) in Hh as [[(Hp & _ & _) Hrun]%list_elem_of_filter _].
  intros (u & d1 & H1 & Hm)%bind_ok. apply bind_ok in Hm as (n & d2 & H2 & Hm).
  apply ret_ok in Hm as [_ <-]. eapply createInitialSourceJobs_exclusive, H2.
  eapply promote_exclusive, H1. split; [done|]. by exists run.
Qed.

Lemma insertRun_ok p t active created expires scheduled d row d' :
  insertRun p t active created expires scheduled d = (Ok row, d') →
  row = {| r_id := uuid (nextId d); r_pipelineId := p; r_triggerId := t; r_contractVersion := "v1";
    r_state := RunState.queued; r_isActive := active; r_scheduledFor := scheduled;
    r_createdAt := created; r_expiresAt := expires; r_startedAt := None; r_completedAt := None;
    r_cancellationRequestedAt := None; r_cancellationRequestedByUserId := None;
    r_warningCount := 0 |} ∧
  d' = set_runs (runs d ++ [row]) (set_nextId (S (nextId d)) d).
Proof.
  unfold insertRun, newId. rewrite bind_run. cbv beta iota zeta. rewrite !enforce_ok, puts_ok, ret_ok.
  intros (_ & _ & _ & _ & <- & <-). done.
Qed.

Lemma insertRun_exclusive p t active created expires scheduled d row d' :
  exclusive d → insertRun p t active created expires scheduled d = (Ok row, d') →
  exclusive d' ∧ (active = true → startable p (r_id row) d').
Proof.
  intros Hd [Hrow ->]%insertRun_ok. split.
  - eapply exclusive_runs; [..|done]; [done|]. intros r Hr. exists r. simpl.
    split; [apply elem_of_snoc; by left|]. split_and!; try done. by left.
  - intros ->. exists row. simpl. split; [apply elem_of_snoc; by right|]. by rewrite Hrow.
Qed.

Lemma createPipelineRunInTransaction_exclusive request now :
  triple exclusive (createPipelineRunInTransaction request now) (λ _, exclusive).
Proof.
  intros d o d' Hd. unfold createPipelineRunInTransaction.
  intros (p & d1 & [_ <-]%lift_ok & Hm)%bind_ok.
  apply bind_ok in Hm as (row & d1 & H1 & Hm). injection H1 as _ <-.
  destruct row as [row|]; [|done]. apply bind_ok in Hm as (u & d1 & [_ <-]%lift_ok & Hm).
  apply bind_ok in Hm as (days & d1 & H1 & Hm).
  apply bind_ok in H1 as (st & d2 & Hst & H1). injection Hst as _ <-. apply lift_ok in H1 as [_ <-].
  apply bind_ok in Hm as (u1 & d1 & H1 & Hm). pose proof (release_exclusive _ _ _ _ Hd H1) as Hd1.
  apply bind_ok in Hm as (found & d2 & H2 & Hm). injection H2 as _ <-.
  apply bind_ok in Hm as (active & d2 & H2 & Hm).
  assert (exclusive d2) as Hd2.
  { destruct found; [by apply ret_ok in H2 as [_ <-]|]. by eapply promoteOldestQueuedRun_exclusive. }
  apply bind_ok in Hm as (expiry & d3 & [_ <-]%lift_ok & Hm).
  apply bind_ok in Hm as (expires & d3 & [_ <-]%lift_ok & Hm).
  apply bind_ok in Hm as (run & d3 & H3 & Hm).
  destruct (insertRun_exclusive _ _ _ _ _ _ _ _ _ Hd2 H3) as [Hd3 Hstart].
  apply bind_ok in Hm as (u2 & d4 & H4 & Hm).
  assert (exclusive d4 ∧ (bool_decide (active = None) = true → startable p (r_id run) d4)) as [Hd4 Hs4].
  { eapply (preserves_exec _ _ (recordOperationalEvent_jobs (λ d, exclusive d ∧
      (bool_decide (active = None) = true → startable p (r_id run) d)) _ _)); [|exact H4]; done. }
  apply bind_ok in Hm as (n & d5 & H5 & Hm). apply ret_ok in Hm as [_ <-].
  destruct active as [id|]; [by apply ret_ok in H5 as [_ <-]|].
  eapply createInitialSourceJobs_exclusive, H5. split; [done|]. by apply Hs4.
  Unshelve. unfold exclusive, exclusive_job, startable. by intros s s' -> ->.
Qed.

Lemma updateTriggerClaim_runs id claimed next d u d' :
  updateTriggerClaim id claimed next d = (Ok u, d') → runs d' = runs d ∧ jobs d' = jobs d.
Proof. unfold updateTriggerClaim. by intros [_ [= _ <-]]%enforce_ok. Qed.

Lemma claimSchedule_exclusive `{!CronParser} now due :
  triple exclusive (claimSchedule now due) (λ _, exclusive).
Proof.
  intros d o d' Hd. unfold claimSchedule.
  destruct (t_cron due), (t_nextRunAt due), (t_timezone due); try done.
  intros (next & d1 & [_ <-]%lift_ok & Hm)%bind_ok.
  apply bind_ok in Hm as (u & d1 & Hu & Hm). apply updateTriggerClaim_runs in Hu as [Hr Hj].
  apply bind_ok in Hm as (run & d2 & H2 & Hm). apply ret_ok in Hm as [_ <-].
  eapply createPipelineRunInTransaction_exclusive, H2.
  revert Hd. unfold exclusive, exclusive_job. by rewrite Hr, Hj.
Qed.

Lemma advancePipeline_exclusive now run : triple exclusive (advancePipeline now run) (λ _, exclusive).
Proof.
  intros d o d' Hd. unfold advancePipeline. intros (u & d1 & H1 & Hm)%bind_ok.
  apply bind_ok in Hm as (p & d2 & H2 & Hm). apply ret_ok in Hm as [_ <-].
  eapply promoteOldestQueuedRun_exclusive, H2. by eapply release_exclusive.
Qed.

Lemma claimNextJob_exclusive workerId now locked : preserves exclusive (claimNextJob workerId now locked).
Proof.
  apply preserves_transaction, preserves_bind; [apply preserves_select|intros eligible].
  case_match; [|apply preserves_ret].
  apply preserves_bind; [|intros; apply preserves_ret].
  unfold updateJobsClaimed. enforced. intros k (j' & -> & Hj')%list_elem_of_fmap.
  destruct (Hd j' Hj') as (r & ? & ? & ? & ?). exists r. unfold updateIf.
  case_decide; simpl; by split_and!.
Qed.

Lemma createPipelineRun_exclusive request now : preserves exclusive (createPipelineRun request now).
Proof.
  apply preserves_bind; [apply preserves_lift|intros p].
  apply preserves_atomic, createPipelineRunInTransaction_exclusive.
Qed.

Lemma promoteQueuedPipelineRuns_exclusive now limit locked :
  preserves exclusive (promoteQueuedPipelineRuns now limit locked).
Proof.
  apply preserves_bind; [apply preserves_lift|intros count]. apply preserves_atomic.
  eapply triple_bind; [apply preserves_exec, preserves_select|intros rows].
  eapply triple_bind; [apply triple_for_each; intros; apply advancePipeline_exclusive|intros ps].
  by apply triple_ret.
Qed.

Lemma claimDueSchedules_exclusive `{!CronParser} now limit locked :
  preserves exclusive (claimDueSchedules now limit locked).
Proof.
  apply preserves_bind; [apply preserves_lift|intros count]. apply preserves_atomic.
  eapply triple_bind; [apply preserves_exec, preserves_select|intros enabled].
  eapply triple_bind; [apply preserves_exec, preserves_select|intros due].
  apply triple_for_each. intros. apply claimSchedule_exclusive.
Qed.

(** *** Integrity *)

Lemma recordOperationalEvent_integrity input : preserves integrity (recordOperationalEvent input).
Proof. unfold recordOperationalEvent. solve_preserves. Qed.

Lemma recordOperationalEvents_integrity inputs : preserves integrity (recordOperationalEvents inputs).
Proof. unfold recordOperationalEvents. solve_preserves. Qed.

Lemma getRunLogRetentionDays_integrity : preserves integrity getRunLogRetentionDays.
Proof. unfold getRunLogRetentionDays. solve_preserves. Qed.

#[local] Hint Resolve recordOperationalEvent_integrity recordOperationalEvents_integrity
  getRunLogRetentionDays_integrity : preserves.

Lemma promoteOldestQueuedRun_integrity p now : preserves integrity (promoteOldestQueuedRun p now).
Proof. unfold promoteOldestQueuedRun, createInitialSourceJobs. solve_preserves. Qed.

#[local] Hint Resolve promoteOldestQueuedRun_integrity : preserves.

Lemma createPipelineRunInTransaction_integrity request now :
  preserves integrity (createPipelineRunInTransaction request now).
Proof.
  unfold createPipelineRunInTransaction, createInitialSourceJobs, findActivePipelineRun.
  solve_preserves.
Qed.

#[local] Hint Resolve createPipelineRunInTransaction_integrity : preserves.

Lemma createPipelineRun_integrity request now : preserves integrity (createPipelineRun request now).
Proof. unfold createPipelineRun. solve_preserves. Qed.

Lemma promoteQueuedPipelineRuns_integrity now limit locked :
  preserves integrity (promoteQueuedPipelineRuns now limit locked).
Proof. unfold promoteQueuedPipelineRuns, advancePipeline. solve_preserves. Qed.

Lemma claimDueSchedules_integrity `{!CronParser} now limit locked :
  preserves integrity (claimDueSchedules now limit locked).
Proof. unfold claimDueSchedules, claimSchedule. solve_preserves. Qed.

Lemma claimNextJob_integrity workerId now locked : preserves integrity (claimNextJob workerId now locked).
Proof. unfold claimNextJob. solve_preserves. Qed.

(** C3: exclusive execution: creating a run, promoting backlogs, claiming
    schedules and claiming jobs keep every job with the run that holds the
    lock of its pipeline, or with one that is over, together with the
    integrity of the store. Two jobs of one pipeline whose runs are not
    over therefore belong to the same run. *)
Theorem scheduler_keeps_exclusive `{!CronParser} d d' :
  integrity d → exclusive d →
  ((∃ request now, d' = (createPipelineRun request now d).2) ∨
   (∃ now limit locked, d' = (promoteQueuedPipelineRuns now limit locked d).2) ∨
   (∃ now limit locked, d' = (claimDueSchedules now limit locked d).2) ∨
   (∃ workerId now locked, d' = (claimNextJob workerId now locked d).2)) →
  integrity d' ∧ exclusive d' ∧
  ∀ j1 j2 r1 r2, j1 ∈ jobs d' → j2 ∈ jobs d' → j_pipelineId j1 = j_pipelineId j2 →
    r1 ∈ runs d' → r2 ∈ runs d' → r_id r1 = j_runId j1 → r_id r2 = j_runId j2 →
    r_state r1 ∈ activeRunStates → r_state r2 ∈ activeRunStates → r1 = r2.
Proof.
  intros Hd He Hop. assert (integrity d' ∧ exclusive d') as [Hd' He'].
  { destruct Hop as [(q & now & ->)|[(now & l & k & ->)|[(now & l & k & ->)|(w & now & k & ->)]]].
    - split; [by apply createPipelineRun_integrity|by apply createPipelineRun_exclusive].
    - split; [by apply promoteQueuedPipelineRuns_integrity|by apply promoteQueuedPipelineRuns_exclusive].
    - split; [by apply claimDueSchedules_integrity|by apply claimDueSchedules_exclusive].
    - split; [by apply claimNextJob_integrity|by apply claimNextJob_exclusive]. }
  split_and!; [done|done|].
  assert (∀ j r, j ∈ jobs d' → r ∈ runs d' → r_id r = j_runId j → r_state r ∈ activeRunStates →
    activeRow r ∧ r_pipelineId r = j_pipelineId j) as Hact.
  { intros j r Hj Hr Hid Hst. destruct (He' j Hj) as (r' & Hr' & Hid' & Hp & Hor).
    assert (r' = r) as -> by (apply (NoDup_fmap_eq r_id (runs d')); [by apply pk_runs|done|done|congruence]).
    apply run_state_partition in Hst as Hnt. destruct Hor as [Ha|?]; [|done]. done. }
  intros j1 j2 r1 r2 Hj1 Hj2 Hp Hr1 Hr2 Hid1 Hid2 Hs1 Hs2.
  destruct (Hact j1 r1) as [Ha1 Hp1]; [done..|]. destruct (Hact j2 r2) as [Ha2 Hp2]; [done..|].
  apply (NoDup_fmap_eq r_pipelineId (filter activeRow (runs d'))).
  - by apply one_active.
  - by apply list_elem_of_filter.
  - by apply list_elem_of_filter.
  - congruence.
Qed.
End exclusive.
