(* ===== verification/RunCreation.v ===== *)
(** * Total correctness of run creation

    In a consistent store, the creation of a run of an enabled pipeline with
    a source returns, and what it returns and leaves is described exactly:
    the release of a finished run, the promotion of the oldest waiting run,
    the new run and the jobs of the run that starts. *)

From S2P Require Import Prelude Js Contracts StateMachine Schemas Database Integrity Statements.
From S2P Require Import RunLogs RunQueue RunQueueProofs.

(** ** Fresh identifiers *)

(** What the generators of random identifiers promise. *)
Class UuidLaws `{!Uuids} := {
  #[global] uuid_inj :: Inj (=) (=) uuid;
  uuid_nonempty n : uuid n ≠ "" }.

Section totality.
Context `{!Uuids, !UuidLaws, !Formats}.

(** Identifiers still to be drawn are not in use. *)
Definition unused (ids : list string) (next : nat) : Prop := ∀ n, next ≤ n → uuid n ∉ ids.

Record fresh (d : Database) : Prop := {
  fresh_runs : unused (r_id <$> runs d) (nextId d);
  fresh_steps : unused (s_id <$> runSteps d) (nextId d);
  fresh_jobs : unused (j_id <$> jobs d) (nextId d);
  fresh_events : unused (o_id <$> operationalEvents d) (nextId d) }.

Lemma unused_later ids next next' : next ≤ next' → unused ids next → unused ids next'.
Proof. intros Hle Hu n Hn. apply Hu. lia. Qed.

Lemma unused_snoc ids next : unused ids next → unused (ids ++ [uuid next]) (S next).
Proof.
  intros Hu n Hn [?|Heq%(inj uuid)]%elem_of_snoc; [|lia]. apply (Hu n); [lia|done].
Qed.

Lemma unused_here ids next : unused ids next → uuid next ∉ ids.
Proof. intros Hu. by apply Hu. Qed.

(** The rows of one insertion carry consecutive identifiers. *)
Definition numbered {A} (id : A → string) (next : nat) (rows : list A) : Prop :=
  id <$> rows = uuid <$> seq next (length rows).

Lemma unused_numbered {A} (id : A → string) ids next (rows : list A) :
  numbered id next rows → unused ids next → unused (ids ++ (id <$> rows)) (next + length rows).
Proof.
  intros Hn Hu m Hm. rewrite Hn. intros [?|(k & Heq & Hk)%list_elem_of_fmap]%elem_of_app.
  - apply (Hu m); [lia|done].
  - apply (inj uuid) in Heq. apply elem_of_seq in Hk. lia.
Qed.

(** ** Insertions that succeed *)

Lemma insertRunSteps_total runId ids d :
  unused (s_id <$> runSteps d) (nextId d) → runId ∈ r_id <$> runs d →
  (∀ c, c ∈ ids → c ∈ c_id <$> pipelineComponents d) →
  ∃ out, insertRunSteps runId ids d =
      (Ok out, set_nextId (nextId d + length ids) (set_runSteps (runSteps d ++ out) d)) ∧
    s_componentId <$> out = ids ∧ Forall (λ s, s_runId s = runId ∧ s_state s = RunState.queued) out ∧ numbered s_id (nextId d) out.
Proof.
  intros Hu Hrun Hids. unfold insertRunSteps, transaction.
  cut (∃ out, for_each (insertRunStep runId) ids d =
      (Ok out, set_nextId (nextId d + length ids) (set_runSteps (runSteps d ++ out) d)) ∧
    s_componentId <$> out = ids ∧ Forall (λ s, s_runId s = runId ∧ s_state s = RunState.queued) out ∧ numbered s_id (nextId d) out).
  { intros (out & Hr & ?). exists out. by rewrite Hr. }
  revert d Hu Hrun Hids. induction ids as [|c ids IH]; intros d Hu Hrun Hids.
  { exists []. simpl. rewrite app_nil_r, Nat.add_0_r. split_and!; try done. by destruct d. }
  cbn [for_each]. set (row := {| s_id := uuid (nextId d); s_runId := runId; s_componentId := c;
    s_state := RunState.queued; s_startedAt := None; s_completedAt := None;
    s_warningCount := 0; s_metrics := []; s_error := None |}).
  set (d1 := set_runSteps (runSteps d ++ [row]) (set_nextId (S (nextId d)) d)).
  destruct (IH d1) as (out & Hout & Hc & Hr & Hn).
  { simpl. rewrite fmap_app. by apply unused_snoc. }
  { done. }
  { intros; apply Hids. by right. }
  exists (row :: out). split; [|split_and!].
  - rewrite bind_run. unfold insertRunStep at 1, newId. rewrite bind_run. cbv beta iota zeta.
    rewrite bind_run. unfold enforce at 1. rewrite decide_True by (by apply unused_here).
    rewrite bind_run. unfold enforce at 1. rewrite decide_True by done.
    rewrite bind_run. unfold enforce at 1. rewrite decide_True by (apply Hids; left).
    rewrite bind_run. unfold puts at 1. cbv beta iota. fold row.
    change (set_runSteps _ (set_nextId (S (nextId d)) d)) with d1.
    unfold mret at 1, M_ret at 1. cbv beta iota. rewrite bind_run, Hout. unfold mret, M_ret.
    f_equal. unfold d1. simpl. by rewrite Nat.add_succ_r, <-(assoc_L (++)).
  - csimpl. by rewrite Hc.
  - by constructor.
  - unfold numbered in *. csimpl. by rewrite Hn.
Qed.

Lemma insertJobs_total p r available rows d :
  unused (j_id <$> jobs d) (nextId d) → p ∈ p_id <$> pipelines d → r ∈ r_id <$> runs d →
  (∀ pair, pair ∈ rows → pair.1 ∈ c_id <$> pipelineComponents d ∧ pair.2 ∈ s_id <$> runSteps d) →
  ∃ out, insertJobs p r available rows d =
      (Ok out, set_nextId (nextId d + length rows) (set_jobs (jobs d ++ out) d)) ∧
    (λ j, (j_componentId j, j_runStepId j)) <$> out = rows ∧
    Forall (λ j, j_pipelineId j = p ∧ j_runId j = r ∧ j_state j = JobState.queued ∧
      j_availableAt j = available ∧ j_attempt j = 0%Z) out ∧
    numbered j_id (nextId d) out.
Proof.
  intros Hu Hp Hr Hrows. unfold insertJobs, transaction.
  cut (∃ out, for_each (insertJob p r available) rows d =
      (Ok out, set_nextId (nextId d + length rows) (set_jobs (jobs d ++ out) d)) ∧
    (λ j, (j_componentId j, j_runStepId j)) <$> out = rows ∧
    Forall (λ j, j_pipelineId j = p ∧ j_runId j = r ∧ j_state j = JobState.queued ∧
      j_availableAt j = available ∧ j_attempt j = 0%Z) out ∧
    numbered j_id (nextId d) out).
  { intros (out & Ho & ?). exists out. by rewrite Ho. }
  revert d Hu Hp Hr Hrows. induction rows as [|pair rows IH]; intros d Hu Hp Hr Hrows.
  { exists []. simpl. rewrite app_nil_r, Nat.add_0_r. split_and!; try done. by destruct d. }
  cbn [for_each]. set (row := {| j_id := uuid (nextId d); j_pipelineId := p; j_runId := r;
       j_runStepId := pair.2; j_componentId := pair.1; j_state := JobState.queued;
       j_availableAt := available; j_claimedAt := None; j_heartbeatAt := None;
       j_workerId := None; j_attempt := 0; j_retryMaxAttempts := 1; j_retryDelaySeconds := 0;
       j_createdAt := clock d; j_completedAt := None |}).
  set (d1 := set_jobs (jobs d ++ [row]) (set_nextId (S (nextId d)) d)).
  destruct (IH d1) as (out & Hout & Hc & Ha & Hn); [|done|done| |].
  { simpl. rewrite fmap_app. by apply unused_snoc. }
  { intros; apply Hrows. by right. }
  destruct (Hrows pair (list_elem_of_here _ _)) as [Hpc Hps].
  exists (row :: out). split; [|split_and!].
  - rewrite bind_run. unfold insertJob at 1, newId. rewrite bind_run. cbv beta iota.
    rewrite bind_run. unfold gets at 1. cbv beta iota zeta.
    rewrite bind_run. unfold enforce at 1. rewrite decide_True by (by apply unused_here).
    do 4 (rewrite bind_run; unfold enforce at 1; rewrite decide_True by done).
    rewrite bind_run. unfold puts at 1. cbv beta iota. fold row.
    change (set_jobs _ (set_nextId (S (nextId d)) d)) with d1.
    unfold mret at 1, M_ret at 1. cbv beta iota. rewrite bind_run, Hout. unfold mret, M_ret.
    f_equal. unfold d1. simpl. by rewrite Nat.add_succ_r, <-(assoc_L (++)).
  - csimpl. rewrite Hc. by destruct pair.
  - by constructor.
  - unfold numbered in *. csimpl. by rewrite Hn.
Qed.

Lemma lifecycle_int4 now event occurred p r s id :
  eventInt4 (eventRow now (lifecycleEvent event occurred p r s) id).
Proof. unfold eventInt4. rewrite !Forall_cons, Forall_nil. simpl. done. Qed.

(** Life cycle events of runs and steps of the store. *)
Lemma insertOperationalEvents_total (inputs : list OperationalEventInput) now d :
  unused (o_id <$> operationalEvents d) (nextId d) →
  (∀ i, i ∈ inputs → ∃ event occurred p r s, i = lifecycleEvent event occurred p r s ∧
     p ∈ p_id <$> pipelines d ∧ r ∈ r_id <$> runs d ∧ referencesIf runSteps s_id s d) →
  ∃ out, insertOperationalEvents (eventRow now <$> inputs) d =
      (Ok (), set_nextId (nextId d + length inputs)
                (set_operationalEvents (operationalEvents d ++ out) d)) ∧
    Forall2 (λ i o, ∃ id, o = eventRow now i id) inputs out ∧ numbered o_id (nextId d) out.
Proof.
  intros Hu Hin. unfold insertOperationalEvents, transaction. rewrite bind_run.
  cut (∃ us out, for_each insertOperationalEvent (eventRow now <$> inputs) d =
      (Ok us, set_nextId (nextId d + length inputs)
                (set_operationalEvents (operationalEvents d ++ out) d)) ∧
    Forall2 (λ i o, ∃ id, o = eventRow now i id) inputs out ∧ numbered o_id (nextId d) out).
  { intros (us & out & Ho & ?). exists out. by rewrite Ho. }
  revert d Hu Hin. induction inputs as [|i inputs IH]; intros d Hu Hin.
  { exists [], []. simpl. rewrite app_nil_r, Nat.add_0_r. split_and!; try done; by destruct d. }
  destruct (Hin i (list_elem_of_here _ _)) as (event & occurred & p & r & s & Hi & Hp & Hr & Hs).
  csimpl. set (row := eventRow now i (uuid (nextId d))).
  set (d1 := set_operationalEvents (operationalEvents d ++ [row]) (set_nextId (S (nextId d)) d)).
  destruct (IH d1) as (us & out & Hout & Ho & Hn).
  { simpl. rewrite fmap_app. by apply unused_snoc. }
  { intros j Hj. by apply (Hin j (list_elem_of_further _ _ _ Hj)). }
  exists (() :: us), (row :: out). split; [|split].
  - rewrite bind_run. unfold insertOperationalEvent at 1, newId. rewrite bind_run. cbv beta iota zeta.
    fold row. rewrite bind_run. unfold enforce at 1.
    rewrite decide_True by (unfold row; rewrite Hi; apply lifecycle_int4).
    rewrite bind_run. unfold enforce at 1. rewrite decide_True by (by apply unused_here).
    do 2 (rewrite bind_run; unfold enforce at 1;
          rewrite decide_True by (unfold row; rewrite Hi; simpl; assumption)).
    rewrite bind_run; unfold enforce at 1;
      rewrite decide_True by (unfold row; rewrite Hi; simpl; assumption).
    rewrite bind_run; unfold enforce at 1; rewrite decide_True by (unfold row; rewrite Hi; exact I).
    unfold puts at 1. cbv beta iota.
    change (set_operationalEvents _ (set_nextId (S (nextId d)) d)) with d1.
    rewrite bind_run, Hout. unfold mret, M_ret.
    f_equal. unfold d1. simpl. by rewrite Nat.add_succ_r, <-(assoc_L (++)).
  - constructor; [by eexists|done].
  - unfold numbered in *. csimpl. by rewrite Hn.
Qed.

(** ** The work a run starts with *)

Definition componentsOf (p : string) (d : Database) : list ComponentRow :=
  filter (λ c, c_pipelineId c = p) (pipelineComponents d).
Definition sourcesOf (p : string) (d : Database) : list ComponentRow :=
  filter (λ c, c_kind c = ComponentKind.source) (componentsOf p d).

(** A step for each component with its event, a job for each Source. *)
Definition startedWith (p r : string) (now : Z) (d d' : Database) : Prop :=
  ∃ newSteps newEvents newJobs,
    d' = set_nextId (nextId d + length newSteps + length newEvents + length newJobs)
      (set_jobs (jobs d ++ newJobs) (set_operationalEvents (operationalEvents d ++ newEvents)
        (set_runSteps (runSteps d ++ newSteps) d))) ∧
    s_componentId <$> newSteps = c_id <$> componentsOf p d ∧
    Forall (λ s, s_runId s = r ∧ s_state s = RunState.queued) newSteps ∧
    Forall2 (λ s o, ∃ id, o = eventRow (clock d)
      (lifecycleEvent OperationalEventKind.step_queued now p r (Some (s_id s))) id) newSteps newEvents ∧
    j_componentId <$> newJobs = c_id <$> sourcesOf p d ∧
    Forall (λ j, j_pipelineId j = p ∧ j_runId j = r ∧ j_state j = JobState.queued ∧
      j_availableAt j = now ∧ j_attempt j = 0%Z ∧
      ∃ s, s ∈ newSteps ∧ s_id s = j_runStepId j ∧ s_componentId s = j_componentId j) newJobs.

(** The step of each component, as the code looks it up. *)
Definition stepIndex (sts : list RunStepRow) : gmap string string :=
  foldl (λ m step, <[s_componentId step := s_id step]> m) ∅ sts.

Lemma stepIndex_lookup p d sts c :
  integrity d → s_componentId <$> sts = c_id <$> componentsOf p d → c ∈ componentsOf p d →
  ∃ s, s ∈ sts ∧ s_componentId s = c_id c ∧ stepIndex sts !! c_id c = Some (s_id s).
Proof.
  intros Hd Hsc Hc. assert (c_id c ∈ s_componentId <$> sts) as Hin
    by (rewrite Hsc; by apply list_elem_of_fmap_2).
  apply list_elem_of_fmap in Hin as (s & Heq & Hs). exists s. split_and!; [done|done|]. rewrite Heq.
  apply (lookup_foldl_insert s_componentId s_id); [|done]. rewrite Hsc. apply NoDup_filter_fmap, pk_components, Hd.
Qed.

Definition stepEvents (p r : string) (now : Z) (sts : list RunStepRow) : list OperationalEventInput :=
  (λ s, lifecycleEvent OperationalEventKind.step_queued now p r (Some (s_id s))) <$> sts.

Lemma recordStepEvents_total p r now sts d :
  sts ≠ [] → unused (o_id <$> operationalEvents d) (nextId d) → p ∈ p_id <$> pipelines d → r ∈ r_id <$> runs d →
  (∀ s, s ∈ sts → s_id s ∈ s_id <$> runSteps d) →
  ∃ evs, recordOperationalEvents (stepEvents p r now sts) d =
      (Ok (), set_nextId (nextId d + length sts) (set_operationalEvents (operationalEvents d ++ evs) d)) ∧
    Forall2 (λ s o, ∃ id, o = eventRow (clock d)
      (lifecycleEvent OperationalEventKind.step_queued now p r (Some (s_id s))) id) sts evs ∧
    numbered o_id (nextId d) evs.
Proof.
  intros Hne Hu Hp Hr Hs.
  destruct (insertOperationalEvents_total (stepEvents p r now sts) (clock d) d) as (evs & E & Hev & Hen); [done| |].
  { intros i (s & -> & Hin)%list_elem_of_fmap. do 5 eexists. split_and!; [done..|]. by apply Hs. }
  exists evs. split_and!; [|by apply Forall2_fmap_l in Hev|done].
  unfold recordOperationalEvents. rewrite bind_run, (for_each_total _ (λ _, ())).
  2:{ intros i (s & -> & _)%list_elem_of_fmap. done. }
  unfold stepEvents in *. rewrite length_fmap in *. rewrite decide_True; [by rewrite bind_run|].
  destruct sts; [done|simpl; lia].
Qed.

(** The rows a start adds leave the supply ahead of every identifier. *)
Lemma started_fresh sts evs js d :
  fresh d → numbered s_id (nextId d) sts → numbered o_id (nextId d + length sts) evs →
  numbered j_id (nextId d + length sts + length evs) js →
  fresh (set_nextId (nextId d + length sts + length evs + length js)
    (set_jobs (jobs d ++ js) (set_operationalEvents (operationalEvents d ++ evs)
      (set_runSteps (runSteps d ++ sts) d)))).
Proof.
  intros [F1 F2 F3 F4] Hs Ho Hj. split; simpl; rewrite ?fmap_app.
  - eapply unused_later, F1. lia.
  - eapply unused_later; [|by apply (unused_numbered _ _ (nextId d))]. lia.
  - apply unused_numbered; [done|]. eapply unused_later, F3. lia.
  - eapply unused_later; [|apply (unused_numbered _ _ (nextId d + length sts)); [done|]]; [lia|].
    eapply unused_later, F4. lia.
Qed.

Lemma createInitialSourceJobs_total p r now d :
  integrity d → fresh d → p ∈ p_id <$> pipelines d → r ∈ r_id <$> runs d → sourcesOf p d ≠ [] →
  ∃ d', createInitialSourceJobs p r now d = (Ok (length (sourcesOf p d)), d') ∧
    startedWith p r now d d' ∧ fresh d'.
Proof.
  intros Hd Hf Hp Hr Hs. unfold createInitialSourceJobs, select. rewrite bind_run.
  unfold gets at 1. cbv beta iota zeta. fold (componentsOf p d) (sourcesOf p d).
  rewrite decide_False by (by rewrite length_zero_iff_nil).
  assert (∀ c, c ∈ componentsOf p d → c_id c ∈ c_id <$> pipelineComponents d) as Hc.
  { intros c [_ ?]%list_elem_of_filter. by apply list_elem_of_fmap_2. }
  assert (∀ c, c ∈ sourcesOf p d → c ∈ componentsOf p d) as Hsub by (by intros c [_ ?]%list_elem_of_filter).
  destruct (insertRunSteps_total r (c_id <$> componentsOf p d) d) as (sts & E1 & Hsc & Hsr & Hsn).
  { apply Hf. } { done. } { intros c (? & -> & ?)%list_elem_of_fmap. by apply Hc. }
  assert (length (c_id <$> componentsOf p d) = length sts) as Hlen by (by rewrite <-Hsc, length_fmap).
  rewrite Hlen in E1. rewrite bind_run, E1. cbv beta iota. set (d1 := set_nextId _ _) in *.
  destruct (recordStepEvents_total p r now sts d1) as (evs & E2 & Hev & Hen).
  { intros ->. apply Hs. unfold sourcesOf. by destruct (componentsOf p d). }
  { eapply unused_later, Hf. simpl. lia. } { done. } { done. }
  { intros s Hin. simpl. rewrite fmap_app, elem_of_app. right. by apply list_elem_of_fmap_2. }
  fold (stepEvents p r now sts). rewrite bind_run, E2. cbv beta iota. set (d2 := set_nextId _ _).
  pose proof (λ c Hin, stepIndex_lookup p d sts c Hd Hsc (Hsub c Hin)) as Hstep. fold (stepIndex sts).
  set (step := λ id, default "" (stepIndex sts !! id)).
  rewrite bind_run, (for_each_total _ (λ c, (c_id c, step (c_id c)))); cycle 1.
  { intros c (s & Hin & _ & Hlook)%Hstep. unfold step. rewrite Hlook. simpl.
    assert (s_id s ∈ s_id <$> sts) as Hid by (by apply list_elem_of_fmap_2).
    rewrite Hsn in Hid. apply list_elem_of_fmap in Hid as (n & -> & _).
    destruct (uuid n) eqn:E; [by destruct (uuid_nonempty n)|done]. }
  set (rows := _ <$> sourcesOf p d). cbv beta iota.
  destruct (insertJobs_total p r now rows d2) as (js & E4 & Hjc & Hj & Hjn).
  { eapply unused_later, Hf. simpl. lia. } { done. } { done. }
  { intros pair (c & -> & Hin)%list_elem_of_fmap. simpl. split; [by apply Hc, Hsub|].
    apply Hstep in Hin as (s & Hin & _ & Hlook). unfold step. rewrite Hlook. simpl.
    rewrite fmap_app, elem_of_app. right. by apply list_elem_of_fmap_2. }
  assert (length evs = length sts) as Hle by (symmetry; by eapply Forall2_length).
  assert (length js = length rows) as Hlj by (by rewrite <-Hjc, length_fmap).
  simpl in Hen, Hjn. rewrite <-Hle in Hjn at 2.
  assert (set_nextId (nextId d2 + length rows) (set_jobs (jobs d2 ++ js) d2) =
    set_nextId (nextId d + length sts + length evs + length js) (set_jobs (jobs d ++ js)
      (set_operationalEvents (operationalEvents d ++ evs) (set_runSteps (runSteps d ++ sts) d)))) as Hd'
    by (unfold d2, d1; simpl; by rewrite Hle, Hlj).
  rewrite bind_run, E4, Hd'. cbv beta iota. eexists. split; [done|]. split; [|by apply started_fresh].
  exists sts, evs, js. split_and!; try done.
  - change (j_componentId <$> js) with (fst ∘ (λ j, (j_componentId j, j_runStepId j)) <$> js).
    rewrite list_fmap_compose, Hjc. unfold rows. by rewrite <-list_fmap_compose.
  - rewrite Forall_forall in Hj |- *. intros j Hin. destruct (Hj j Hin) as (? & ? & ? & ? & ?).
    split_and!; try done.
    assert ((j_componentId j, j_runStepId j) ∈ rows) as Hrow.
    { rewrite <-Hjc. by apply (list_elem_of_fmap_2 (λ j, (j_componentId j, j_runStepId j))). }
    apply list_elem_of_fmap in Hrow as (c & [= Hjc' Hjs] & Hcs).
    apply Hstep in Hcs as (s & Hin' & Heq & Hlook). exists s. split_and!; [done| |congruence].
    rewrite Hjs. unfold step. by rewrite Hlook.
Qed.

(** ** The creation of a run *)

(** The store after [updateRunsActive (terminalActive p) false]. *)
Definition releasedRuns (p : string) (d : Database) : Database :=
  set_runs (updateIf (terminalActive p) (setActive false) <$> runs d) d.

(** The store after the promotion of run [id]. *)
Definition promotedRun (id : string) (d : Database) : Database :=
  set_runs (updateIf (λ r, r_id r = id) (setActive true) <$> runs d) d.

(** The new run and its [run_queued] event. *)
Definition requestedRun (request : PipelineRunRequest) (isActive : bool) (now expiresAt : Z)
    (d : Database) : RunRow :=
  newRun (uuid (nextId d)) (request_pipelineId request) (request_triggerId request) isActive now
    expiresAt (request_scheduledFor request).
Definition recordedRun (run : RunRow) (now : Z) (d : Database) : Database :=
  set_operationalEvents (operationalEvents d ++
    [eventRow (clock d) (lifecycleEvent OperationalEventKind.run_queued now (r_pipelineId run)
       (r_id run) None) (uuid (S (nextId d)))])
    (set_runs (runs d ++ [run]) (set_nextId (S (S (nextId d))) d)).

Lemma oneActive_release p l : oneActive l → oneActive (updateIf (terminalActive p) (setActive false) <$> l).
Proof.
  apply oneActive_update. intros r. unfold updateIf. case_decide as Ht; [|done].
  split; [done|]. destruct Ht as (_ & _ & Ht). unfold activeRow. simpl.
  split; [by intros []|]. by intros [_ ?%run_state_partition].
Qed.

(** Once the finished runs are released, a pipeline without an active run
    has its lock free. *)
Lemma released_free p d :
  (∀ r, r ∈ runs (releasedRuns p d) → ¬ activeOf p r) →
  ∀ r, r ∈ runs (releasedRuns p d) → activeRow r → r_pipelineId r ≠ p.
Proof. intros Hn r Hr [Ha Hs] Hp. by apply (Hn r Hr). Qed.

Lemma oneActive_snoc l r :
  oneActive l → (activeRow r → ∀ r', r' ∈ l → activeRow r' → r_pipelineId r' ≠ r_pipelineId r) →
  oneActive (l ++ [r]).
Proof.
  unfold oneActive. intros Hl Hr. rewrite filter_app, fmap_app, filter_cons, filter_nil.
  destruct (decide (activeRow r)) as [Ha|Ha]; csimpl; [|by rewrite app_nil_r].
  apply NoDup_snoc. split; [|done]. intros (r' & Heq & [? ?]%list_elem_of_filter)%list_elem_of_fmap.
  by eapply Hr.
Qed.

Lemma oneActive_promote p id l :
  NoDup (r_id <$> l) → oneActive l → (∀ r, r ∈ l → activeRow r → r_pipelineId r ≠ p) →
  (∀ r, r ∈ l → r_id r = id → r_pipelineId r = p) →
  oneActive (updateIf (λ r, r_id r = id) (setActive true) <$> l).
Proof.
  unfold oneActive. induction l as [|r l IH]; intros Hnd Hone Hfree Hid; csimpl; [done|].
  csimpl in Hnd. apply NoDup_cons in Hnd as [Hr Hnd]. rewrite filter_cons in Hone.
  assert (NoDup (r_pipelineId <$> filter activeRow l)) as Hl.
  { by case_decide; [csimpl in Hone; apply NoDup_cons in Hone as [_ ?]|]. }
  assert (∀ r', r' ∈ l → activeRow r' → r_pipelineId r' ≠ p) as Hfree' by (intros; apply Hfree; [by right|done]).
  destruct (decide (r_id r = id)) as [Heq|Hne].
  - rewrite updateIf_True by done.
    assert (updateIf (λ r, r_id r = id) (setActive true) <$> l = l) as ->.
    { rewrite <-(list_fmap_id l) at 2. apply list_fmap_ext. intros i r' Hi%list_elem_of_lookup_2.
      apply updateIf_False. intros Heq'. apply Hr. rewrite Heq, <-Heq'. by apply list_elem_of_fmap_2. }
    rewrite filter_cons. destruct (decide (activeRow (setActive true r))); [|exact Hl]. csimpl. apply NoDup_cons. split; [|done].
    rewrite (Hid r) by (done || left). intros (r' & Hp & [Ha Hin]%list_elem_of_filter)%list_elem_of_fmap.
    by apply (Hfree' r').
  - rewrite updateIf_False by done. rewrite filter_cons.
    assert (NoDup (r_pipelineId <$> filter activeRow (updateIf (λ r, r_id r = id) (setActive true) <$> l)))
      as HIH by (apply IH; [done..|]; intros; apply Hid; [by right|done]).
    case_decide as Ha; [|done]. csimpl in *. apply NoDup_cons. split; [|done].
    apply NoDup_cons in Hone as [Hout _].
    intros (r' & Hp & [Ha' Hin]%list_elem_of_filter)%list_elem_of_fmap.
    apply list_elem_of_fmap in Hin as (r0 & -> & Hin). revert Hp Ha'. unfold updateIf. case_decide; simpl.
    + intros Hp _. apply (Hfree r); [by left|done|]. rewrite Hp. apply Hid; [by right|done].
    + intros Hp Ha'. apply Hout. rewrite Hp. apply list_elem_of_fmap_2. by apply list_elem_of_filter.
Qed.

Lemma updateRunsActive_total P `{∀ r, Decision (P r)} isActive d :
  oneActive (updateIf P (setActive isActive) <$> runs d) →
  updateRunsActive P isActive d = (Ok (), set_runs (updateIf P (setActive isActive) <$> runs d) d).
Proof. intros Ho. unfold updateRunsActive. rewrite bind_run. unfold enforce. by rewrite decide_True. Qed.

Lemma insertRun_total request active now expires d :
  fresh d → request_pipelineId request ∈ p_id <$> pipelines d →
  referencesIf pipelineTriggers t_id (request_triggerId request) d → oneActive (runs d) →
  (active = true → ∀ r, r ∈ runs d → activeRow r → r_pipelineId r ≠ request_pipelineId request) →
  let run := requestedRun request active now expires d in
  insertRun (request_pipelineId request) (request_triggerId request) active now expires
    (request_scheduledFor request) d = (Ok run, set_runs (runs d ++ [run]) (set_nextId (S (nextId d)) d)).
Proof.
  intros Hf Hp Ht Ho Ha run. unfold insertRun, newId. rewrite bind_run. cbv beta iota zeta. fold run.
  rewrite bind_run. unfold enforce at 1. rewrite decide_True by (apply unused_here, Hf).
  rewrite bind_run. unfold enforce at 1. rewrite decide_True by done.
  rewrite bind_run. unfold enforce at 1. rewrite decide_True by done.
  rewrite bind_run. unfold enforce at 1. rewrite decide_True; [done|].
  apply oneActive_snoc; [done|]. intros [Hact _]. by apply Ha.
Qed.

(** The event of a run of the store. *)
Lemma record_run_queued run now d :
  r_pipelineId run ∈ p_id <$> pipelines d → fresh d →
  recordOperationalEvent (lifecycleEvent OperationalEventKind.run_queued now (r_pipelineId run) (r_id run) None)
    (set_runs (runs d ++ [run]) (set_nextId (S (nextId d)) d)) = (Ok (), recordedRun run now d).
Proof.
  intros Hp Hf. unfold recordOperationalEvent. rewrite bind_run. unfold lift at 1.
  rewrite lifecycleEvent_valid. cbv beta iota. rewrite bind_run. unfold gets at 1. cbv beta iota.
  destruct (insertOperationalEvents_total
    [lifecycleEvent OperationalEventKind.run_queued now (r_pipelineId run) (r_id run) None] (clock d)
    (set_runs (runs d ++ [run]) (set_nextId (S (nextId d)) d))) as (out & E & Ho & Hn).
  { eapply unused_later, Hf. simpl. lia. }
  { intros i ->%list_elem_of_singleton. do 5 eexists. split_and!; [done|done| |done].
    simpl. rewrite fmap_app, elem_of_app. right. by left. }
  change (clock (set_runs (runs d ++ [run]) (set_nextId (S (nextId d)) d))) with (clock d).
  csimpl in E. rewrite E. apply Forall2_cons_inv_l in Ho as (o & l & [id ->] & ->%Forall2_nil_inv_l & ->).
  unfold numbered in Hn. simpl in Hn. injection Hn as ->. unfold recordedRun. simpl.
  by rewrite Nat.add_1_r.
Qed.

(** What a request needs of the store to be served: a valid id, an enabled
    pipeline with a Source, the trigger it names, and a retention that
    yields a date. *)
Record servable (request : PipelineRunRequest) (now expiresAt : Z) (d : Database) : Prop := {
  servable_uuid : is_uuid (request_pipelineId request) = true;
  servable_pipeline : ∃ row, row ∈ pipelines d ∧ p_id row = request_pipelineId request ∧
    p_state row = PipelineState.enabled;
  servable_source : sourcesOf (request_pipelineId request) d ≠ [];
  servable_trigger : referencesIf pipelineTriggers t_id (request_triggerId request) d;
  servable_expiry : ∃ days, getRunLogRetentionDays d = (Ok days, d) ∧
    calculateRunLogExpiry now days = Ok (Some expiresAt) }.

(** The answer to a request. *)
Definition created (request : PipelineRunRequest) (jobCount : nat) (behind : bool) (run : RunRow) :
    CreatedPipelineRun :=
  {| initialJobCount := jobCount; created_pipelineId := request_pipelineId request;
     queuedBehindActiveRun := behind; created_runId := r_id run |}.

Lemma fresh_runs_only d l : fresh d → r_id <$> l = r_id <$> runs d → fresh (set_runs l d).
Proof. intros [F1 F2 F3 F4] Hl. split; [|done..]. simpl. by rewrite Hl. Qed.

Lemma updateIf_ids P `{∀ r, Decision (P r)} b (l : list RunRow) :
  r_id <$> (updateIf P (setActive b) <$> l) = r_id <$> l.
Proof.
  rewrite <-list_fmap_compose. apply list_fmap_ext. intros i r _. simpl. unfold updateIf.
  by destruct (decide (P r)).
Qed.

Lemma pipeline_by_id id d row :
  integrity d → row ∈ pipelines d → p_id row = id →
  selectFirst pipelines (λ p, p_id p = id) d = (Ok (Some row), d).
Proof.
  intros Hd Hr Hid. unfold selectFirst, select. rewrite bind_run. unfold gets. cbv beta iota.
  rewrite (head_filter_key p_id (λ p, p_id p = id) _ row); [done|apply pk_pipelines, Hd|done|done|].
  intros p' _ Hp'. congruence.
Qed.

Lemma fresh_recorded request active now expires d :
  fresh d → fresh (recordedRun (requestedRun request active now expires d) now d).
Proof.
  intros [F1 F2 F3 F4]. split; simpl.
  - rewrite fmap_app. simpl. eapply unused_later; [|by apply unused_snoc]. lia.
  - eapply unused_later, F2. lia.
  - eapply unused_later, F3. lia.
  - rewrite fmap_app. simpl. apply unused_snoc. eapply unused_later, F4. lia.
Qed.

(** The run behind an active one, or starting itself. *)
Definition queueRun (request : PipelineRunRequest) (activeRun : option string) (now expires : Z) :
    DB CreatedPipelineRun :=
  let p := request_pipelineId request in
  run ← insertRun p (request_triggerId request) (bool_decide (activeRun = None)) now expires
    (request_scheduledFor request);
  recordOperationalEvent (lifecycleEvent OperationalEventKind.run_queued now p (r_id run) None);;
  jobCount ← match activeRun with Some _ => mret 0 | None => createInitialSourceJobs p (r_id run) now end;
  mret (created request jobCount (bool_decide (activeRun ≠ None)) run).

(** What is left of a creation once the lock is released. *)
Definition enqueueReleased (request : PipelineRunRequest) (now expires : Z) : DB CreatedPipelineRun :=
  let p := request_pipelineId request in
  foundRun ← findActivePipelineRun p;
  activeRun ← match foundRun with Some id => mret (Some id) | None => promoteOldestQueuedRun p now end;
  queueRun request activeRun now expires.

Lemma queueRun_run request active now expires d d' n :
  let p := request_pipelineId request in
  let run := requestedRun request (bool_decide (active = None)) now expires d in
  fresh d → p ∈ p_id <$> pipelines d → referencesIf pipelineTriggers t_id (request_triggerId request) d →
  oneActive (runs d) → (active = None → ∀ r, r ∈ runs d → activeRow r → r_pipelineId r ≠ p) →
  (match active with Some _ => mret 0 | None => createInitialSourceJobs p (r_id run) now end : DB nat)
    (recordedRun run now d) = (Ok n, d') →
  queueRun request active now expires d = (Ok (created request n (bool_decide (active ≠ None)) run), d').
Proof.
  intros p run Hf Hp Ht Ho Hfree Hn. unfold queueRun. rewrite bind_run, insertRun_total; try done.
  2:{ intros Hb%bool_decide_eq_true. by apply Hfree. }
  fold run. cbv beta iota. rewrite bind_run. change (request_pipelineId request) with (r_pipelineId run).
  rewrite record_run_queued by done. cbv beta iota. change (r_pipelineId run) with p. by rewrite bind_run, Hn.
Qed.

(** The promotion of the waiting run that sorts first. *)
Lemma promoteOldestQueuedRun_run p now d :
  let waiting := order_by waitingOrder (filter (waitingOf p) (runs d)) in
  (waiting = [] → promoteOldestQueuedRun p now d = (Ok None, d)) ∧
  (integrity d → fresh d → p ∈ p_id <$> pipelines d → sourcesOf p d ≠ [] →
   (∀ r, r ∈ runs d → activeRow r → r_pipelineId r ≠ p) → ∀ w rest, waiting = w :: rest →
   ∃ d', startedWith p (r_id w) now (promotedRun (r_id w) d) d' ∧ fresh d' ∧ oneActive (runs d') ∧
     promoteOldestQueuedRun p now d = (Ok (Some (r_id w)), d')).
Proof.
  intros waiting.
  assert (promoteOldestQueuedRun p now d = match head waiting with
    | None => mret None
    | Some w => (updateRunsActive (λ r, r_id r = r_id w) true;; createInitialSourceJobs p (r_id w) now;;
                 mret (Some (r_id w)) : DB (option string))
    end d) as -> by done.
  split; [by intros ->|]. intros Hd Hf Hp Hsrc Hfree w rest Hw. rewrite Hw. cbn [head].
  assert (w ∈ runs d ∧ waitingOf p w) as [Hwin (Hwp & _ & _)].
  { assert (w ∈ waiting) as Hin by (rewrite Hw; left). unfold waiting in Hin.
    by apply elem_of_order_by, list_elem_of_filter in Hin as [? ?]. }
  assert (oneActive (updateIf (λ r, r_id r = r_id w) (setActive true) <$> runs d)) as Ho.
  { apply (oneActive_promote p); [apply pk_runs, Hd|apply one_active, Hd|done|].
    intros r Hr Hid. by rewrite (NoDup_fmap_eq r_id (runs d) r w (pk_runs d Hd) Hr Hwin Hid). }
  pose proof (updateRunsActive_integrity (λ r, r_id r = r_id w) true d Hd) as Hd1.
  rewrite updateRunsActive_total in Hd1 by done.
  destruct (createInitialSourceJobs_total p (r_id w) now (promotedRun (r_id w) d)) as (d1 & E & Hst & Hf1).
  { done. } { apply fresh_runs_only; [done|apply updateIf_ids]. } { done. }
  { simpl. rewrite updateIf_ids. by apply list_elem_of_fmap_2. } { done. }
  exists d1. split_and!; [done|done|by destruct Hst as (? & ? & ? & -> & _)|].
  rewrite bind_run, updateRunsActive_total by done. cbv beta iota. fold (promotedRun (r_id w) d).
  by rewrite bind_run, E.
Qed.

Lemma recordedRun_integrity request now expires d :
  let p := request_pipelineId request in
  integrity d → fresh d → p ∈ p_id <$> pipelines d →
  referencesIf pipelineTriggers t_id (request_triggerId request) d →
  (∀ r, r ∈ runs d → activeRow r → r_pipelineId r ≠ p) →
  integrity (recordedRun (requestedRun request true now expires d) now d).
Proof.
  intros p Hd Hf Hp Ht Hfree. set (run := requestedRun request true now expires d).
  pose proof (insertRun_integrity p (request_triggerId request) true now expires
    (request_scheduledFor request) d Hd) as Hi.
  unfold p in Hi. rewrite insertRun_total in Hi; try done; [|by apply one_active].
  pose proof (recordOperationalEvent_integrity
    (lifecycleEvent OperationalEventKind.run_queued now (r_pipelineId run) (r_id run) None) _ Hi) as Hi'.
  unfold snd at 2 in Hi'. fold run in Hi'. by rewrite (record_run_queued run now d) in Hi'.
Qed.

Lemma createPipelineRun_released request now expires d a d' :
  integrity d → servable request now expires d →
  enqueueReleased request now expires (releasedRuns (request_pipelineId request) d) = (Ok a, d') →
  createPipelineRun request now d = (Ok a, d').
Proof.
  intros Hd [Hu (row & Hrow & Hid & Hen) Hsrc Ht (days & Hdays & Hexp)] Htail.
  unfold createPipelineRun, parse. rewrite bind_run. unfold lift at 1. rewrite Hu. cbv beta iota.
  apply transaction_ok. unfold createPipelineRunInTransaction, parse. cbn [request_pipelineId].
  rewrite bind_run. unfold lift at 1. rewrite Hu. cbv beta iota.
  rewrite bind_run, (pipeline_by_id _ _ row) by done. cbv beta iota. rewrite Hen.
  rewrite bind_run. unfold lift at 1. cbv beta iota.
  rewrite bind_run, Hdays. cbv beta iota.
  rewrite bind_run, updateRunsActive_total by (apply oneActive_release, one_active, Hd). cbv beta iota.
  unfold enqueueReleased in Htail. fold (releasedRuns (request_pipelineId request) d).
  apply bind_ok in Htail as (found & d1 & Hfound & Htail). rewrite bind_run, Hfound. cbv beta iota.
  apply bind_ok in Htail as (active & d2 & Hact & Htail). rewrite bind_run, Hact. cbv beta iota.
  rewrite bind_run, Hexp. cbv beta iota. unfold lift at 1.
  rewrite bind_run. unfold lift at 1. simpl.
  exact Htail.
Qed.

(** What the request of a run does, case by case. *)
Lemma createPipelineRun_effect request now expires d :
  integrity d → fresh d → servable request now expires d →
  let p := request_pipelineId request in
  let d0 := releasedRuns p d in
  let waiting := order_by waitingOrder (filter (waitingOf p) (runs d0)) in
  ((∃ a, a ∈ runs d0 ∧ activeOf p a) →
     let run := requestedRun request false now expires d0 in
     createPipelineRun request now d = (Ok (created request 0 true run), recordedRun run now d0)) ∧
  ((∀ a, a ∈ runs d0 → ¬ activeOf p a) → ∀ w rest, waiting = w :: rest →
     ∃ d1, startedWith p (r_id w) now (promotedRun (r_id w) d0) d1 ∧
       let run := requestedRun request false now expires d1 in
       createPipelineRun request now d = (Ok (created request 0 true run), recordedRun run now d1)) ∧
  ((∀ a, a ∈ runs d0 → ¬ activeOf p a) → waiting = [] →
     let run := requestedRun request true now expires d0 in
     ∃ d1, startedWith p (r_id run) now (recordedRun run now d0) d1 ∧
       createPipelineRun request now d = (Ok (created request (length (sourcesOf p d)) false run), d1)).
Proof.
  intros Hd Hf Hs p d0 waiting.
  assert (integrity d0) as Hd0.
  { pose proof (updateRunsActive_integrity (terminalActive p) false d Hd) as Hi.
    by rewrite updateRunsActive_total in Hi by (apply oneActive_release, one_active, Hd). }
  assert (fresh d0) as Hf0 by (apply fresh_runs_only; [done|apply updateIf_ids]).
  assert (p ∈ p_id <$> pipelines d) as Hp by (destruct (servable_pipeline _ _ _ _ Hs) as (row & ? & Hid & _);
    unfold p; rewrite <-Hid; by apply list_elem_of_fmap_2).
  assert (referencesIf pipelineTriggers t_id (request_triggerId request) d) as Ht by apply Hs.
  assert (sourcesOf p d ≠ []) as Hsrc by apply Hs.
  assert ((∀ a, a ∈ runs d0 → ¬ activeOf p a) → findActivePipelineRun p d0 = (Ok None, d0)) as Hnone.
  { intros Hn. unfold findActivePipelineRun, selectFirst, select. run_m.
    rewrite (proj2 (head_filter_None _ _)); [done|]. intros a Ha. by apply Hn. }
  destruct (promoteOldestQueuedRun_run p now d0) as [Hnobody Hsomebody].
  pose proof (λ a d', createPipelineRun_released request now expires d a d' Hd Hs) as Hgo. fold d0 in Hgo.
  split_and!.
  - intros (a & Ha & Hact) run. apply Hgo. unfold enqueueReleased. fold p. fold d0.
    destruct (head (filter (activeOf p) (runs d0))) as [b|] eqn:Hb.
    2:{ rewrite head_filter_None in Hb. by destruct (Hb a). }
    assert (findActivePipelineRun p d0 = (Ok (Some (r_id b)), d0)) as E.
    { unfold findActivePipelineRun, selectFirst, select. run_m. by rewrite Hb. }
    rewrite bind_run, E. cbv beta iota. rewrite bind_run. unfold mret at 1, M_ret at 1. cbv beta iota.
    apply (queueRun_run _ (Some (r_id b))); try done. by apply one_active.
  - intros Hn w rest Hw. pose proof (released_free p d Hn) as Hfree. fold d0 in Hfree.
    destruct (Hsomebody Hd0 Hf0 Hp Hsrc Hfree w rest Hw) as (d1 & Hst & Hf1 & Ho1 & E).
    exists d1. split; [done|]. intros run. apply Hgo. unfold enqueueReleased. fold p. fold d0.
    rewrite bind_run, Hnone by done. cbv beta iota. rewrite bind_run, E. cbv beta iota.
    destruct Hst as (? & ? & ? & Hd1' & _).
    apply (queueRun_run _ (Some (r_id w))); try done; by rewrite Hd1'.
  - intros Hn Hw run. pose proof (released_free p d Hn) as Hfree. fold d0 in Hfree.
    destruct (createInitialSourceJobs_total p (r_id run) now (recordedRun run now d0)) as (d1 & E & Hst & _).
    { by apply recordedRun_integrity. } { by apply fresh_recorded. } { done. }
    { simpl. rewrite fmap_app, elem_of_app. right. by left. } { done. }
    exists d1. split; [done|]. apply Hgo. unfold enqueueReleased. fold p. fold d0.
    rewrite bind_run, Hnone by done. cbv beta iota. rewrite bind_run, Hnobody by done. cbv beta iota.
    apply (queueRun_run _ None); try done. by apply one_active.
Qed.

(** C2: in a consistent store the request of a run is always served. The
    finished run of the pipeline, if any, gives its lock back first. While
    another run is active the new one only queues. Else the waiting run
    that sorts first is promoted and receives a step per component and a
    job per Source, and the new run queues behind it; with none waiting
    the new run itself starts. *)
Theorem createPipelineRun_total request now expires d :
  integrity d → fresh d → servable request now expires d →
  let p := request_pipelineId request in
  let d0 := releasedRuns p d in
  let waiting := order_by waitingOrder (filter (waitingOf p) (runs d0)) in
  ((∃ a, a ∈ runs d0 ∧ activeOf p a) →
     let run := requestedRun request false now expires d0 in
     createPipelineRun request now d = (Ok (created request 0 true run), recordedRun run now d0)) ∧
  ((∀ a, a ∈ runs d0 → ¬ activeOf p a) → ∀ w rest, waiting = w :: rest →
     ∃ d1, startedWith p (r_id w) now (promotedRun (r_id w) d0) d1 ∧
       let run := requestedRun request false now expires d1 in
       createPipelineRun request now d = (Ok (created request 0 true run), recordedRun run now d1)) ∧
  ((∀ a, a ∈ runs d0 → ¬ activeOf p a) → waiting = [] →
     let run := requestedRun request true now expires d0 in
     ∃ d1, startedWith p (r_id run) now (recordedRun run now d0) d1 ∧
       createPipelineRun request now d = (Ok (created request (length (sourcesOf p d)) false run), d1)).
Proof. exact (createPipelineRun_effect request now expires d). Qed.
End totality.
