(* ===== verification/Actions.v ===== *)
(** * Pipeline actions

    [packages/database/src/pipelines/actions.ts]: run, enable and disable for
    an owner, with the conflicts a route can map. *)

From S2P Require Import Prelude Js Contracts StateMachine Topology Executable Schemas Database.
From S2P Require Import Integrity Statements Repository RunQueue.

Definition notFoundConflict : exn :=
  PipelineActionConflictError not_found "The requested pipeline was not found." None.
Definition notEnabledConflict : exn :=
  PipelineActionConflictError not_enabled "The pipeline must be enabled before it can run." None.
Definition lockedConflict : exn :=
  PipelineActionConflictError locked "The pipeline is locked while a run is queued or active." None.
Definition notExecutableConflict (violations : list PipelineExecutableViolation) : exn :=
  PipelineActionConflictError not_executable "The pipeline is not executable and cannot be enabled."
    (Some violations).

(** Apply the enabled-only rule of the state machine. *)
Definition assertPipelineCanRunAction (state : PipelineState.t) : result unit :=
  match enqueuePipelineRun (createPipelineExecutionState state) "manual-action" with
  | Ok _ => Ok ()
  | Throw (PipelineStateTransitionError _) => Throw notEnabledConflict
  | Throw e => Throw e
  end.

(** The [reason] a scheduler conflict carries; the conflicts of the actions
    carry one as well. *)
Definition hasPipelineRunConflictReason (error : exn) (reason : PipelineRunEnqueueConflictReason) : bool :=
  match error, reason with
  | PipelineRunEnqueueConflictError run_not_enabled _, run_not_enabled => true
  | PipelineRunEnqueueConflictError run_not_found _, run_not_found => true
  | PipelineActionConflictError not_enabled _ _, run_not_enabled => true
  | PipelineActionConflictError not_found _ _, run_not_found => true
  | _, _ => false
  end.

(** The availability an action can ask for. *)
Inductive ActionState := action_enabled | action_disabled.

Definition action_state (s : ActionState) : PipelineState.t :=
  match s with action_enabled => PipelineState.enabled | action_disabled => PipelineState.disabled end.

(** The run a state check is made against. *)
Definition blockingState (state : PipelineState.t) (blockingRun : option RunRow) : PipelineExecutionState :=
  withActiveRun (createPipelineExecutionState state)
    ((λ run, {| active_id := r_id run;
                active_state := if decide (r_state run = RunState.running) then active_running
                                else active_queued;
                cancellationRequested := false |}) <$> blockingRun).

Section actions.
Context `{!Uuids, !Formats}.

Definition parseActionInput (ownerUserId pipelineId : string) : result (string * string) :=
  pipelineId ← parse is_uuid pipelineId;
  ownerUserId ← parse is_uuid ownerUserId;
  Ok (ownerUserId, pipelineId).

Definition findOwnedPipeline (ownerUserId pipelineId : string) : DB (option PipelineState.t) :=
  pipeline ← selectFirst pipelines (λ p, p_id p = pipelineId ∧ p_ownerUserId p = ownerUserId);
  mret (p_state <$> pipeline).

Definition runPipelineForOwner (ownerUserId pipelineId : string)
    (enqueueRun : string → DB CreatedPipelineRun) : DB CreatedPipelineRun :=
  identifiers ← lift (parseActionInput ownerUserId pipelineId);
  let '(ownerUserId, pipelineId) := identifiers in
  state ← findOwnedPipeline ownerUserId pipelineId;
  match state with
  | None => throw notFoundConflict
  | Some state =>
      lift (assertPipelineCanRunAction state);;
      try_catch (enqueueRun pipelineId) (λ error,
        if hasPipelineRunConflictReason error run_not_enabled then throw notEnabledConflict
        else if hasPipelineRunConflictReason error run_not_found then throw notFoundConflict
        else throw error)
  end.

Definition readPipelineTopologyForExecutableCheck (pipelineId : string) : DB PipelineTopologyInput :=
  components ← select pipelineComponents (λ c, c_pipelineId c = pipelineId);
  edges ← select pipelineEdges (λ e, e_pipelineId e = pipelineId);
  mret {| input_edges := hydrateEdge <$> edges; input_steps := hydrateStep <$> components |}.

Definition setPipelineStateForOwner (ownerUserId pipelineId : string) (state : ActionState) (now : Z)
    (availableComponents : option (list ComponentMetadata)) : DB (string * PipelineState.t) :=
  identifiers ← lift (parseActionInput ownerUserId pipelineId);
  let '(ownerUserId, pipelineId) := identifiers in
  transaction (
    pipeline ← selectFirst pipelines (λ p, p_id p = pipelineId ∧ p_ownerUserId p = ownerUserId);
    match pipeline with
    | None => throw notFoundConflict
    | Some pipeline =>
        blockingRun ← selectFirst runs (λ r, r_pipelineId r = pipelineId ∧ r_state r ∈ activeRunStates);
        lift match setPipelineState (blockingState (p_state pipeline) blockingRun) (action_state state) with
             | Throw (PipelineStateTransitionError _) => Throw lockedConflict
             | o => o
             end;;
        (match state with
         | action_enabled =>
             topology ← readPipelineTopologyForExecutableCheck pipelineId;
             lift match assertPipelineExecutable topology (default [] availableComponents) with
                  | Throw (PipelineNotExecutableError violations) => Throw (notExecutableConflict violations)
                  | o => o
                  end
         | action_disabled => mret ()
         end);;
        updatePipelines (λ p, p_id p = pipelineId ∧ p_ownerUserId p = ownerUserId) None
          (action_state state) now;;
        mret (pipelineId, action_state state)
    end).

Definition enablePipelineForOwner (ownerUserId pipelineId : string)
    (availableComponents : list ComponentMetadata) (now : Z) : DB (string * PipelineState.t) :=
  setPipelineStateForOwner ownerUserId pipelineId action_enabled now (Some availableComponents).

Definition disablePipelineForOwner (ownerUserId pipelineId : string) (now : Z) :
    DB (string * PipelineState.t) :=
  setPipelineStateForOwner ownerUserId pipelineId action_disabled now None.

(** [apps/scheduler/src/pipeline-actions.ts] *)
Definition enqueuePipelineRunForOwner (ownerUserId pipelineId : string) (now : Z) : DB CreatedPipelineRun :=
  runPipelineForOwner ownerUserId pipelineId (λ pipelineId,
    createPipelineRun {| request_pipelineId := pipelineId; request_scheduledFor := None;
                         request_triggerId := None |} now).
End actions.

(** ** The topology an enabling is checked against *)

Definition persistedTopology (id : string) (d : Database) : PipelineTopologyInput :=
  {| input_steps := hydrateStep <$> filter (λ c, c_pipelineId c = id) (pipelineComponents d);
     input_edges := hydrateEdge <$> filter (λ e, e_pipelineId e = id) (pipelineEdges d) |}.

(** What an enabling or a disabling does to the row. *)
Definition withState (state : PipelineState.t) (now : Z) (p : PipelineRow) : PipelineRow :=
  {| p_id := p_id p; p_ownerUserId := p_ownerUserId p; p_contractVersion := p_contractVersion p;
     p_name := p_name p; p_state := state; p_createdAt := p_createdAt p; p_updatedAt := now |}.

Section facts.
Context `{!Uuids, !Formats}.

Definition ownedRow (owner id : string) (p : PipelineRow) : Prop :=
  p_id p = id ∧ p_ownerUserId p = owner.
#[global] Instance ownedRow_dec owner id p : Decision (ownedRow owner id p).
Proof. unfold ownedRow. apply _. Defined.

Lemma setPipelineState_blocking state run next :
  match setPipelineState (blockingState state run) next with
  | Ok _ => run = None
  | Throw e => run ≠ None ∧ ∃ m, e = PipelineStateTransitionError m
  end.
Proof. destruct run; simpl; [split; [done|by eexists]|done]. Qed.

(** C23: enabling, case by case: not the owner's pipeline; locked by a
    queued or running run; refused with every violation of the persisted
    graph against the catalog; or enabled, and then nothing but the state
    and the update time of that row has changed. *)
Theorem enablePipelineForOwner_spec owner id catalog now d :
  is_uuid owner = true → is_uuid id = true →
  let result := enablePipelineForOwner owner id catalog now d in
  let owned := ∃ p, p ∈ pipelines d ∧ ownedRow owner id p in
  let locked := ∃ r, r ∈ runs d ∧ r_pipelineId r = id ∧ r_state r ∈ activeRunStates in
  (¬ owned → result = (Throw notFoundConflict, d)) ∧
  (owned → locked → result = (Throw lockedConflict, d)) ∧
  (owned → ¬ locked → ∀ violations,
     checkPipelineExecutable (persistedTopology id d) catalog = not_executable_because violations →
     result = (Throw (notExecutableConflict violations), d)) ∧
  (owned → ¬ locked → checkPipelineExecutable (persistedTopology id d) catalog = executable →
     result = (Ok (id, PipelineState.enabled),
       set_pipelines (updateIf (ownedRow owner id) (withState PipelineState.enabled now) <$> pipelines d) d)).
Proof.
  intros Ho Hi result owned locked. unfold result. clear result.
  unfold enablePipelineForOwner, setPipelineStateForOwner, parseActionInput, parse. rewrite Ho, Hi.
  unfold transaction, selectFirst, select, readPipelineTopologyForExecutableCheck, select. run_m.
  destruct (head (filter _ (pipelines d))) as [row|] eqn:E; cycle 1.
  { rewrite head_filter_None in E. split_and!; [done|..]; intros (p & ? & ? & ?); naive_solver. }
  apply head_filter_Some in E as (Hrow & Hid & Hown).
  assert owned as Howned by (exists row; by split; [|split]).
  split; [done|].
  pose proof (setPipelineState_blocking (p_state row)
    (head (filter (λ r, r_pipelineId r = id ∧ r_state r ∈ activeRunStates) (runs d)))
    PipelineState.enabled) as Hblock.
  destruct (head (filter (λ r, r_pipelineId r = id ∧ _) (runs d))) as [run|] eqn:E.
  { apply head_filter_Some in E as (Hrun & Hp & Hst).
    assert locked as Hl by (by exists run). simpl. split_and!; naive_solver. }
  assert (¬ locked) as Hnl by (rewrite head_filter_None in E; unfold locked; naive_solver).
  simpl. unfold assertPipelineExecutable.
  change {| input_steps := _; input_edges := _ |} with (persistedTopology id d).
  split; [done|]. split.
  - intros _ _ violations Hc. by rewrite Hc.
  - intros _ _ Hc. by rewrite Hc.
Qed.
End facts.
