(* ===== verification/Frames.v ===== *)
(** * Frames

    Which tables a statement writes: it preserves every property of the
    store that these writes preserve. A property of a few tables is then
    carried through whole operations by [solve_preserves]. *)

From S2P Require Import Prelude Js Contracts Database Integrity.

Section frames.
Context `{!Uuids} (I : Database → Prop).

(** [I] does not read what the write replaces. *)
Definition ignores {A} (set : A → Database → Database) : Prop := ∀ x d, I d → I (set x d).

Lemma newId_frame : ignores set_nextId → preserves I newId.
Proof. intros Hn d Hd. by apply Hn. Qed.

Ltac framed :=
  repeat first [apply preserves_transaction | apply preserves_for_each; intros ?];
  repeat (apply preserves_bind; [first [apply newId_frame; assumption | apply preserves_gets
                                       | apply preserves_select]|intros ?]);
  cbv zeta; repeat (apply preserves_enforce; intros ? ?); intros;
  repeat match goal with
  | Hi : ignores ?set |- I (?set _ _) => apply Hi
  | |- I ((_ ≫= _) _).2 => rewrite bind_run; simpl
  | |- preserves I (_ ≫= _) => intros ? ?
  | |- preserves I (puts _) => intros ? ?
  | |- preserves I (mret _) => intros ? ?
  end;
  simpl; auto.

Lemma insertPipeline_frame owner version name state :
  ignores set_nextId → ignores set_pipelines → preserves I (insertPipeline owner version name state).
Proof. intros. unfold insertPipeline. framed. Qed.

Lemma updatePipelines_frame P `{∀ r, Decision (P r)} name state now :
  ignores set_pipelines → preserves I (updatePipelines P name state now).
Proof. intros. unfold updatePipelines. framed. Qed.

Lemma insertEdges_frame rows : ignores set_pipelineEdges → preserves I (insertEdges rows).
Proof. intros. unfold insertEdges. framed. Qed.

Lemma deleteEdges_frame P `{∀ r, Decision (P r)} : ignores set_pipelineEdges → preserves I (deleteEdges P).
Proof. intros. unfold deleteEdges. framed. Qed.

Lemma insertComponents_frame rows : ignores set_pipelineComponents → preserves I (insertComponents rows).
Proof. intros. unfold insertComponents. framed. Qed.

Lemma deleteComponents_frame P `{∀ r, Decision (P r)} :
  ignores set_pipelineComponents → ignores set_pipelineEdges → ignores set_sourceCheckpoints →
  preserves I (deleteComponents P).
Proof. intros. unfold deleteComponents, deleteEdges. framed. Qed.

Lemma insertTriggers_frame id triggers :
  ignores set_nextId → ignores set_pipelineTriggers → preserves I (insertTriggers id triggers).
Proof. intros. unfold insertTriggers. framed. Qed.

Lemma deleteTriggers_frame P `{∀ t, Decision (P t)} :
  ignores set_pipelineTriggers → ignores set_runs → preserves I (deleteTriggers P).
Proof. intros Ht Hr d Hd. exact (Hr _ _ (Ht _ d Hd)). Qed.

Lemma updateTriggerClaim_frame id claimed next :
  ignores set_pipelineTriggers → preserves I (updateTriggerClaim id claimed next).
Proof. intros. unfold updateTriggerClaim. framed. Qed.

(** A deletion cascades into the tables of the graph. *)
Lemma deletePipelines_frame P `{∀ r, Decision (P r)} :
  ignores set_pipelines → ignores set_pipelineTriggers → ignores set_pipelineComponents →
  ignores set_pipelineEdges → ignores set_sourceCheckpoints → ignores set_runs → preserves I (deletePipelines P).
Proof.
  intros Hp Ht Hc He Hs Hr. unfold deletePipelines. apply preserves_transaction.
  apply preserves_bind; [apply preserves_select|intros rows]. cbv zeta.
  repeat (apply preserves_enforce; intros ? ?). intros Hd.
  match goal with |- I ((?m ?d).2) => apply (λ Hm : preserves I m, Hm d Hd) end.
  apply preserves_bind; [by apply deleteTriggers_frame|intros _].
  apply preserves_bind; [by apply deleteComponents_frame|intros _].
  apply preserves_bind; [by apply deleteEdges_frame|intros _].
  apply preserves_bind; [apply preserves_puts; intros s; apply Hp|intros _]. apply preserves_ret.
Qed.

Lemma insertRun_frame p t active created expires scheduled :
  ignores set_nextId → ignores set_runs → preserves I (insertRun p t active created expires scheduled).
Proof. intros. unfold insertRun. framed. Qed.

Lemma updateRunsActive_frame P `{∀ r, Decision (P r)} b :
  ignores set_runs → preserves I (updateRunsActive P b).
Proof. intros. unfold updateRunsActive. framed. Qed.

Lemma insertRunSteps_frame r ids :
  ignores set_nextId → ignores set_runSteps → preserves I (insertRunSteps r ids).
Proof. intros. unfold insertRunSteps, insertRunStep. framed. Qed.

Lemma insertJobs_frame p r now rows :
  ignores set_nextId → ignores set_jobs → preserves I (insertJobs p r now rows).
Proof. intros. unfold insertJobs, insertJob. framed. Qed.

Lemma updateJobsClaimed_frame P `{∀ r, Decision (P r)} w now :
  ignores set_jobs → preserves I (updateJobsClaimed P w now).
Proof. intros. unfold updateJobsClaimed. framed. Qed.

Lemma insertOperationalEvents_frame rows :
  ignores set_nextId → ignores set_operationalEvents → preserves I (insertOperationalEvents rows).
Proof.
  intros. unfold insertOperationalEvents. apply preserves_bind; [|intros; apply preserves_ret].
  unfold insertOperationalEvent. framed.
Qed.

Lemma upsertSetting_frame key value now : ignores set_settings → preserves I (upsertSetting key value now).
Proof. intros. unfold upsertSetting. framed. Qed.
End frames.

(** Tables a property does not read are found by conversion. *)
#[export] Hint Extern 0 (ignores _ _) => (intros ? ? Hignored; exact Hignored) : preserves.
#[export] Hint Resolve newId_frame insertPipeline_frame updatePipelines_frame insertEdges_frame
  deleteEdges_frame insertComponents_frame deleteComponents_frame insertTriggers_frame
  deleteTriggers_frame deletePipelines_frame updateTriggerClaim_frame insertRun_frame updateRunsActive_frame insertRunSteps_frame
  insertJobs_frame updateJobsClaimed_frame insertOperationalEvents_frame upsertSetting_frame : preserves.
