(* ===== verification/QueueClaims.v ===== *)
(** * Claims of schedules and of jobs

    What a pass over the due schedules claims, leaves and creates; which job
    a worker receives; and what becomes of the schedules the control plane
    stores. *)

From S2P Require Import Prelude Js Contracts StateMachine Executable Schemas Portability Database.
From S2P Require Import Integrity Frames Statements Repository RunLogs RunQueue RunQueueProofs Actions.

(** What the cron library documents: the next occurrence is a later one. *)
Class CronLaws `{!CronParser} :=
  nextOccurrence_later cron timezone after next :
    nextOccurrence cron timezone after = Ok next → (after < next)%Z.

(** ** The runs and the triggers of the store *)

(** What a run is about, whatever its state. *)
Definition runKey (r : RunRow) : string * string * option string * option Z :=
  (r_id r, r_pipelineId r, r_triggerId r, r_scheduledFor r).

Definition framing (keys : list (string * string * option string * option Z))
    (triggers : list TriggerRow) (d : Database) : Prop :=
  runKey <$> runs d = keys ∧ pipelineTriggers d = triggers.

Section schedules.
Context `{!Uuids, !Formats}.

Lemma updateRunsActive_framing P `{∀ r, Decision (P r)} b keys triggers :
  preserves (framing keys triggers) (updateRunsActive P b).
Proof.
  unfold updateRunsActive. apply preserves_enforce. intros d _ [Hk Ht]. split; [|done]. simpl.
  rewrite <-list_fmap_compose, <-Hk. apply list_fmap_ext. intros i r _. simpl. unfold updateIf.
  by destruct (decide (P r)).
Qed.

Lemma createInitialSourceJobs_framing p r now keys triggers :
  preserves (framing keys triggers) (createInitialSourceJobs p r now).
Proof. unfold createInitialSourceJobs, recordOperationalEvents. solve_preserves. Qed.

Lemma promoteOldestQueuedRun_framing p now keys triggers :
  preserves (framing keys triggers) (promoteOldestQueuedRun p now).
Proof.
  pose proof createInitialSourceJobs_framing. pose proof @updateRunsActive_framing.
  unfold promoteOldestQueuedRun. solve_preserves.
Qed.

Lemma createPipelineRunInTransaction_framing request now keys triggers :
  triple (framing keys triggers) (createPipelineRunInTransaction request now)
    (λ c, framing (keys ++ [(created_runId c, request_pipelineId request, request_triggerId request,
       request_scheduledFor request)]) triggers).
Proof.
  intros d c d' Hd. unfold createPipelineRunInTransaction.
  intros (p & d1 & [Hp <-]%lift_ok & Hm)%bind_ok. apply parse_ok in Hp as [_ <-].
  apply bind_ok in Hm as (row & d1 & Hrow & Hm). injection Hrow as _ <-.
  destruct row as [row|]; [|done]. apply bind_ok in Hm as (u & d1 & [_ <-]%lift_ok & Hm).
  apply bind_ok in Hm as (days & d1 & Hdays & Hm).
  apply bind_ok in Hdays as (st & d2 & Hst & Hdays). injection Hst as _ <-. apply lift_ok in Hdays as [_ <-].
  apply bind_ok in Hm as (u1 & d1 & Hrel & Hm).
  assert (framing keys triggers d1) as Hd1.
  { eapply (preserves_exec _ _ (updateRunsActive_framing _ _ _ _)); [exact Hd|exact Hrel]. }
  apply bind_ok in Hm as (found & d2 & Hf & Hm). injection Hf as _ <-.
  apply bind_ok in Hm as (active & d2 & Ha & Hm).
  assert (framing keys triggers d2) as Hd2.
  { destruct found; [by apply ret_ok in Ha as [_ <-]|].
    eapply (preserves_exec _ _ (promoteOldestQueuedRun_framing _ _ _ _)); [exact Hd1|exact Ha]. }
  apply bind_ok in Hm as (expiry & d3 & [_ <-]%lift_ok & Hm).
  apply bind_ok in Hm as (expires & d3 & [_ <-]%lift_ok & Hm).
  apply bind_ok in Hm as (run & d3 & Hrun & Hm). apply insertRun_ok in Hrun as [Hrun ->].
  set (keys' := keys ++ [runKey run]).
  assert (framing keys' triggers (set_runs (runs d2 ++ [run]) (set_nextId (S (nextId d2)) d2))) as Hd3.
  { destruct Hd2 as [Hk Ht]. split; [|done]. simpl. by rewrite fmap_app, Hk. }
  apply bind_ok in Hm as (u2 & d4 & He & Hm).
  assert (framing keys' triggers d4) as Hd4.
  { eapply (preserves_exec (framing keys' triggers) (recordOperationalEvent _));
      [unfold recordOperationalEvent; solve_preserves|exact Hd3|exact He]. }
  apply bind_ok in Hm as (n & d5 & Hj & Hm). apply ret_ok in Hm as [<- <-]. simpl.
  assert (framing keys' triggers d5) as Hd5.
  { destruct active; [by apply ret_ok in Hj as [_ <-]|].
    eapply (preserves_exec _ _ (createInitialSourceJobs_framing _ _ _ _ _)); [exact Hd4|exact Hj]. }
  unfold keys' in Hd5. by rewrite Hrun in Hd5 |- *.
Qed.

Context `{!CronParser}.

(** The claim made of a due schedule. *)
Definition claim_of (t : TriggerRow) (c : ClaimedSchedule) : Prop :=
  t_id t = claimed_triggerId c ∧ t_pipelineId t = claimed_pipelineId c ∧
  t_cron t = Some (claimed_cron c) ∧ t_timezone t = Some (claimed_timezone c) ∧
  t_nextRunAt t = Some (claimed_scheduledFor c) ∧
  nextOccurrence (claimed_cron c) (claimed_timezone c) (claimed_scheduledFor c) = Ok (claimed_nextRunAt c).

(** The run a claim creates. *)
Definition claim_key (c : ClaimedSchedule) : string * string * option string * option Z :=
  (created_runId (claimed_run c), claimed_pipelineId c, Some (claimed_triggerId c),
   Some (claimed_scheduledFor c)).

(** The triggers after the claims. *)
Definition advanced (now : Z) (claims : list ClaimedSchedule) (triggers : list TriggerRow) :
    list TriggerRow :=
  foldl (λ triggers c, updateIf (λ t, t_id t = claimed_triggerId c)
    (claimTrigger now (claimed_nextRunAt c)) <$> triggers) triggers claims.

Lemma claimSchedule_ok now t c d d' keys triggers :
  framing keys triggers d → claimSchedule now t d = (Ok c, d') →
  claim_of t c ∧ framing (keys ++ [claim_key c]) (advanced now [c] triggers) d'.
Proof.
  intros Hd. unfold claimSchedule.
  destruct (t_cron t) as [cron|] eqn:Hc, (t_nextRunAt t) as [at_|] eqn:Hn, (t_timezone t) as [tz|] eqn:Hz;
    try done.
  intros (next & d1 & [Hnext <-]%lift_ok & Hm)%bind_ok.
  apply bind_ok in Hm as (u & d1 & Hu & Hm). apply bind_ok in Hm as (run & d2 & Hrun & Hm).
  apply ret_ok in Hm as [<- <-]. split; [by split_and!|].
  unfold updateTriggerClaim in Hu. apply enforce_ok in Hu as [_ [= _ <-]].
  refine (createPipelineRunInTransaction_framing _ _ _ _ _ _ _ _ Hrun).
  destruct Hd as [Hk Ht]. split; [done|]. simpl. by rewrite Ht.
Qed.

Lemma claims_ok now l claims d d' keys triggers :
  framing keys triggers d → for_each (claimSchedule now) l d = (Ok claims, d') →
  Forall2 claim_of l claims ∧ framing (keys ++ (claim_key <$> claims)) (advanced now claims triggers) d'.
Proof.
  revert claims d keys triggers. induction l as [|t l IH]; intros claims d keys triggers Hd; simpl.
  - intros [<- <-]%ret_ok. split; [constructor|]. by rewrite app_nil_r.
  - intros (c & d1 & Hc & Hm)%bind_ok. apply bind_ok in Hm as (cs & d2 & Hcs & Hm).
    apply ret_ok in Hm as [<- <-]. destruct (claimSchedule_ok _ _ _ _ _ _ _ Hd Hc) as [Hof Hd1].
    destruct (IH _ _ _ _ Hd1 Hcs) as [Hall Hd2]. split; [by constructor|].
    rewrite <-(assoc_L (++)) in Hd2. exact Hd2.
Qed.

(** The schedules a pass may claim. *)
Definition dueSchedules (now : Z) (locked : list string) (d : Database) : list TriggerRow :=
  filter (dueSchedule now locked (p_id <$> filter (λ p, p_state p = PipelineState.enabled) (pipelines d)))
    (pipelineTriggers d).

Lemma claimDueSchedules_ok now limit locked claims d d' :
  claimDueSchedules now limit locked d = (Ok claims, d') →
  ∃ n, isSafeInteger limit = Some (Z.of_nat n) ∧ 1 ≤ n ∧
    Forall2 claim_of (take n (order_by dueOrder (dueSchedules now locked d))) claims ∧
    runKey <$> runs d' = (runKey <$> runs d) ++ (claim_key <$> claims) ∧
    pipelineTriggers d' = advanced now claims (pipelineTriggers d).
Proof.
  unfold claimDueSchedules, positiveLimit. intros (n & d1 & [Hn <-]%lift_ok & Hm)%bind_ok.
  destruct (isSafeInteger limit) as [z|]; [|done]. destruct (decide (z < 1)%Z); [done|].
  injection Hn as <-. rewrite transaction_ok in Hm. unfold select in Hm. rewrite !gets_ok in Hm.
  apply (claims_ok _ _ _ _ _ (runKey <$> runs d) (pipelineTriggers d)) in Hm as [Hall [Hk Ht]]; [|done].
  exists (Z.to_nat z). split_and!; try done; [f_equal; lia|lia].
Qed.

Lemma advanced_ids now claims triggers : t_id <$> advanced now claims triggers = t_id <$> triggers.
Proof.
  revert triggers. induction claims as [|c cs IH]; intros triggers; simpl; [done|].
  rewrite IH, <-list_fmap_compose. apply list_fmap_ext. intros i t _. simpl. unfold updateIf.
  by destruct (decide _).
Qed.

(** A trigger claimed once is advanced to the next occurrence. *)
Lemma advanced_elem now claims triggers t :
  NoDup (claimed_triggerId <$> claims) → t ∈ advanced now claims triggers →
  ∃ t0, t0 ∈ triggers ∧
    ((t = t0 ∧ t_id t0 ∉ claimed_triggerId <$> claims) ∨
     ∃ c, c ∈ claims ∧ claimed_triggerId c = t_id t0 ∧ t = claimTrigger now (claimed_nextRunAt c) t0).
Proof.
  revert triggers. induction claims as [|c cs IH]; intros triggers; simpl.
  { intros _ Ht. exists t. split; [done|]. left. split; [done|]. apply not_elem_of_nil. }
  csimpl. intros [Hc Hnd]%NoDup_cons Ht. destruct (IH _ Hnd Ht) as (t1 & Ht1 & Hor). clear IH.
  apply list_elem_of_fmap in Ht1 as (t0 & -> & Ht0). exists t0. split; [done|].
  unfold updateIf in Hor. destruct (decide (t_id t0 = claimed_triggerId c)) as [Heq|Hne].
  - right. destruct Hor as [[-> _]|(c' & Hc' & Hid & _)].
    + exists c. split; [left|]. done.
    + exfalso. apply Hc. simpl in Hid. rewrite <-Heq, <-Hid. by apply list_elem_of_fmap_2.
  - destruct Hor as [[-> Hn]|(c' & Hc' & Hid & ->)].
    + left. split; [done|]. intros [?|?]%elem_of_cons; done.
    + right. exists c'. split; [by right|done].
Qed.

Lemma claim_ids l claims :
  Forall2 claim_of l claims → claimed_triggerId <$> claims = t_id <$> l.
Proof. induction 1 as [|t c l cs [Hid _] _ IH]; csimpl; [done|]. by rewrite IH, Hid. Qed.

Lemma due_NoDup now locked n d :
  integrity d → NoDup (t_id <$> take n (order_by dueOrder (dueSchedules now locked d))).
Proof.
  intros Hd. eapply sublist_NoDup; [|apply fmap_sublist, sublist_take].
  rewrite order_by_Permutation. apply NoDup_filter_fmap, pk_triggers, Hd.
Qed.


(** An occurrence is claimed once and none is skipped: when two passes
    claim the same schedule, the second claims the occurrence the first one
    moved it to, which is later. *)
Theorem claims_never_repeat `{!CronLaws} now1 limit1 locked1 now2 limit2 locked2 d cs1 d1 cs2 d2 c1 c2 :
  integrity d →
  claimDueSchedules now1 limit1 locked1 d = (Ok cs1, d1) →
  claimDueSchedules now2 limit2 locked2 d1 = (Ok cs2, d2) →
  c1 ∈ cs1 → c2 ∈ cs2 → claimed_triggerId c1 = claimed_triggerId c2 →
  claimed_scheduledFor c2 = claimed_nextRunAt c1 ∧ (claimed_scheduledFor c1 < claimed_scheduledFor c2)%Z.
Proof.
  intros Hd (n1 & _ & _ & Hall1 & _ & Ht1)%claimDueSchedules_ok (n2 & _ & _ & Hall2 & _ & _)%claimDueSchedules_ok
    Hc1 Hc2 Hid.
  pose proof (due_NoDup now1 locked1 n1 d Hd) as Hnd. rewrite <-(claim_ids _ _ Hall1) in Hnd.
  apply list_elem_of_lookup in Hc2 as [i Hi].
  destruct (Forall2_lookup_r _ _ _ _ _ Hall2 Hi) as (t & Ht & Hid2 & _ & _ & _ & Hn2 & _).
  assert (t ∈ pipelineTriggers d1) as Hin.
  { apply list_elem_of_lookup_2, take_elem_of, elem_of_order_by, list_elem_of_filter in Ht. by destruct Ht. }
  rewrite Ht1 in Hin. destruct (advanced_elem _ _ _ _ Hnd Hin) as (t0 & _ & [[-> Hn]|(c & Hc & Hidc & ->)]).
  - exfalso. apply Hn. rewrite Hid2, <-Hid. by apply list_elem_of_fmap_2.
  - simpl in Hid2, Hn2. assert (c = c1) as ->.
    { apply (NoDup_fmap_eq claimed_triggerId cs1); [done..|]. congruence. }
    injection Hn2 as <-. split; [done|]. apply list_elem_of_lookup in Hc1 as [k Hk].
    destruct (Forall2_lookup_r _ _ _ _ _ Hall1 Hk) as (t1 & _ & _ & _ & _ & _ & _ & Hl).
    by eapply nextOccurrence_later.
Qed.

(** ** Jobs *)

Definition claimable (now : Z) (locked : list string) (d : Database) (j : JobRow) : Prop :=
  j ∈ jobs d ∧ j_state j = JobState.queued ∧ (j_availableAt j ≤ now)%Z ∧ j_id j ∉ locked.

(** What a claim returns was claimable before. *)
Lemma claimNextJob_ok workerId now locked d k d' :
  claimNextJob workerId now locked d = (Ok (Some k), d') →
  ∃ j, claimable now locked d j ∧ j_id k = j_id j.
Proof.
  unfold claimNextJob, select. rewrite transaction_ok, gets_ok.
  destruct (head (order_by availableOrder _)) as [j|] eqn:E; [|by intros [? _]%ret_ok].
  apply head_elem_of, elem_of_order_by, list_elem_of_filter in E as [(? & ? & ?) ?].
  intros (claimed & d1 & Hu & [Hh _]%ret_ok)%bind_ok. exists j. split; [done|].
  unfold updateJobsClaimed in Hu. apply enforce_ok in Hu as [_ Hu]. rewrite gets_ok, puts_ok, ret_ok in Hu.
  destruct Hu as [<- _]. apply head_elem_of, list_elem_of_fmap in Hh as (j' & -> & Hj').
  apply list_elem_of_filter in Hj' as [[Hid _] _]. exact Hid.
Qed.

(** C27: a worker receives a queued job that is available and not held by
    another transaction, one that became available first, and nothing exactly
    when there is none. The job is marked as its own, with one attempt more,
    every other job stays as it was, and no later claim, by any worker,
    receives the job again while it is not queued again. *)
Theorem claimNextJob_spec workerId now locked d :
  integrity d → Forall (λ j, int4 (j_attempt j + 1)) (jobs d) →
  ((∀ j, ¬ claimable now locked d j) ∧ claimNextJob workerId now locked d = (Ok None, d)) ∨
  ∃ j, claimable now locked d j ∧ (∀ k, claimable now locked d k → availableOrder j k) ∧
    let d' := set_jobs (updateIf (λ k, j_id k = j_id j) (claimJob workerId now) <$> jobs d) d in
    claimNextJob workerId now locked d = (Ok (Some (claimJob workerId now j)), d') ∧
    ∀ worker' now' locked' k d'', claimNextJob worker' now' locked' d' = (Ok (Some k), d'') → j_id k ≠ j_id j.
Proof.
  intros Hd Hint. unfold claimNextJob at 1 2, select, transaction. run_m.
  destruct (head (order_by availableOrder _)) as [j|] eqn:E; cycle 1.
  { left. split; [|done]. intros j (? & ? & ? & ?).
    assert (j ∈ order_by availableOrder (filter (λ j, j_state j = JobState.queued ∧ (j_availableAt j ≤ now)%Z ∧
      j_id j ∉ locked) (jobs d))) as Hin by (by apply elem_of_order_by, list_elem_of_filter).
    destruct (order_by _ _); [by apply elem_of_nil in Hin|done]. }
  right. apply (order_by_head availableOrder) in E as [Hj Hleast].
  apply list_elem_of_filter in Hj as [(Hq & Ha & Hl) Hj]. exists j. split; [done|]. split.
  { intros k (? & ? & ? & ?). apply Hleast. by apply list_elem_of_filter. }
  assert (∀ k, k ∈ jobs d → j_id k = j_id j → k = j) as Huniq.
  { intros k Hk Hid. by apply (NoDup_fmap_eq j_id (jobs d)); [apply pk_jobs|..]. }
  set (P := λ k, j_id k = j_id j ∧ j_state k = JobState.queued).
  assert (updateJobsClaimed P workerId now d = (Ok [claimJob workerId now j],
    set_jobs (updateIf (λ k, j_id k = j_id j) (claimJob workerId now) <$> jobs d) d)) as E.
  { unfold updateJobsClaimed. rewrite bind_run. unfold enforce. rewrite decide_True; cycle 1.
    { apply Forall_forall. intros k Hk _. rewrite Forall_forall in Hint. by apply Hint. }
    run_m. f_equal.
    - assert (filter P (jobs d) = [j]) as ->; [|done].
      rewrite <-(filter_key_singleton j_id (jobs d) j (pk_jobs d Hd) Hj). apply list_filter_ext_in.
      intros k Hk. unfold P. split; [by intros []|]. intros Hid. by rewrite (Huniq k Hk Hid).
    - f_equal. apply list_fmap_ext. intros i k Hk%list_elem_of_lookup_2.
      destruct (decide (j_id k = j_id j)) as [Hid|Hne].
      + rewrite !updateIf_True; [done|done|]. unfold P. by rewrite (Huniq k Hk Hid).
      + by rewrite !updateIf_False by (unfold P; naive_solver). }
  rewrite E. split; [done|]. intros w' now' locked' k d'' (k' & (Hk' & Hq' & _) & ->)%claimNextJob_ok Hid.
  simpl in Hk'. apply list_elem_of_fmap in Hk' as (k0 & -> & Hk0). revert Hq' Hid. unfold updateIf.
  destruct (decide (j_id k0 = j_id j)); simpl; [done|]. by intros _ ?.
Qed.
End schedules.

(** ** Schedules nobody starts *)

(** No trigger has a next occurrence. *)
Definition unscheduled (d : Database) : Prop := Forall (λ t, t_nextRunAt t = None) (pipelineTriggers d).

Section unscheduled.
Context `{!Uuids, !Formats, !CronParser}.

Lemma insertTriggers_unscheduled id triggers : preserves unscheduled (insertTriggers id triggers).
Proof.
  apply preserves_transaction, preserves_for_each. intros trigger.
  apply preserves_bind; [apply newId_frame; intros n d Hd; exact Hd|intros i].
  apply preserves_bind; [apply preserves_gets|intros now]. cbv zeta.
  repeat (apply preserves_enforce; intros ? ?). intros Hd. unfold unscheduled. simpl.
  apply Forall_app. split; [exact Hd|]. constructor; [by destruct trigger|constructor].
Qed.

Lemma deleteTriggers_unscheduled P `{∀ t, Decision (P t)} : preserves unscheduled (deleteTriggers P).
Proof. intros d Hd. by apply Forall_delete. Qed.

#[local] Hint Resolve insertTriggers_unscheduled deleteTriggers_unscheduled : preserves.

Lemma deletePipelines_unscheduled P `{∀ r, Decision (P r)} : preserves unscheduled (deletePipelines P).
Proof.
  unfold deletePipelines. apply preserves_transaction.
  apply preserves_bind; [apply preserves_select|intros rows]. cbv zeta.
  repeat (apply preserves_enforce; intros ? ?). intros Hd.
  match goal with |- unscheduled ((?m ?d).2) => apply (λ Hm : preserves unscheduled m, Hm d Hd) end.
  apply preserves_bind; [apply deleteTriggers_unscheduled|intros _].
  do 2 (apply preserves_bind; [eauto with preserves|intros _]).
  apply preserves_bind; [apply preserves_puts; intros s Hs; exact Hs|intros _]. apply preserves_ret.
Qed.

#[local] Hint Resolve deletePipelines_unscheduled : preserves.

Lemma recordEvents_unscheduled inputs : preserves unscheduled (recordOperationalEvents inputs).
Proof. unfold recordOperationalEvents. solve_preserves. Qed.

#[local] Hint Resolve recordEvents_unscheduled : preserves.

Lemma createPipelineRun_unscheduled request now : preserves unscheduled (createPipelineRun request now).
Proof.
  unfold createPipelineRun, createPipelineRunInTransaction, findActivePipelineRun, promoteOldestQueuedRun,
    createInitialSourceJobs, recordOperationalEvent, getRunLogRetentionDays. solve_preserves.
Qed.

Lemma createPipeline_unscheduled owner request : preserves unscheduled (createPipeline owner request).
Proof. unfold createPipeline, createPipelineGraph. solve_preserves. Qed.

Lemma unscheduled_claims now limit locked d :
  unscheduled d →
  claimDueSchedules now limit locked d =
    (match positiveLimit limit "Schedule claim limit must be a positive safe integer." with
     | Ok _ => Ok [] | Throw e => Throw e end, d).
Proof.
  intros Hd. unfold claimDueSchedules, select, transaction. rewrite bind_run. unfold lift at 1.
  destruct (positiveLimit _ _) as [n|e]; [|done]. run_m.
  rewrite (filter_none _ (pipelineTriggers d)); [by destruct n|].
  intros t Ht (_ & _ & _ & _ & _ & Hn & _). unfold unscheduled in Hd. rewrite Forall_forall in Hd.
  by rewrite (Hd t Ht) in Hn.
Qed.

(** What the control plane and the scheduler can do to the store. *)
Inductive operation : Database → Database → Prop :=
  | op_create owner request d : operation d (createPipeline owner request d).2
  | op_update owner id update now d : operation d (updatePipeline owner id update now d).2
  | op_delete owner id d : operation d (deletePipeline owner id d).2
  | op_duplicate owner id name d : operation d (duplicatePipeline owner id name newId d).2
  | op_enable owner id catalog now d : operation d (enablePipelineForOwner owner id catalog now d).2
  | op_disable owner id now d : operation d (disablePipelineForOwner owner id now d).2
  | op_run owner id now d : operation d (enqueuePipelineRunForOwner owner id now d).2
  | op_request request now d : operation d (createPipelineRun request now d).2
  | op_promote now limit locked d : operation d (promoteQueuedPipelineRuns now limit locked d).2
  | op_schedules now limit locked d : operation d (claimDueSchedules now limit locked d).2
  | op_job workerId now locked d : operation d (claimNextJob workerId now locked d).2
  | op_retention days now d : operation d (setRunLogRetentionDays days now d).2.

Lemma operation_unscheduled d d' : operation d d' → unscheduled d → unscheduled d'.
Proof.
  pose proof createPipelineRun_unscheduled as Hrun. pose proof createPipeline_unscheduled as Hcreate.
  intros Hop Hd. destruct Hop.
  - by apply createPipeline_unscheduled.
  - eapply (λ Hm : preserves unscheduled (updatePipeline owner id update now), Hm d Hd). Unshelve.
    unfold updatePipeline, updatePipelineInTransaction, replaceGraphRecords, replaceComponents,
      replaceTriggers, insertReplacementEdges, readPipelineGraph, findActiveRun. solve_preserves.
  - eapply (λ Hm : preserves unscheduled (deletePipeline owner id), Hm d Hd). Unshelve.
    unfold deletePipeline. solve_preserves.
  - eapply (λ Hm : preserves unscheduled (duplicatePipeline owner id name newId), Hm d Hd). Unshelve.
    unfold duplicatePipeline, buildDuplicateCreateRequest, getPipeline, readPipelineGraph. solve_preserves.
  - eapply (λ Hm : preserves unscheduled (enablePipelineForOwner owner id catalog now), Hm d Hd). Unshelve.
    unfold enablePipelineForOwner, setPipelineStateForOwner, readPipelineTopologyForExecutableCheck.
    solve_preserves.
  - eapply (λ Hm : preserves unscheduled (disablePipelineForOwner owner id now), Hm d Hd). Unshelve.
    unfold disablePipelineForOwner, setPipelineStateForOwner, readPipelineTopologyForExecutableCheck.
    solve_preserves.
  - eapply (λ Hm : preserves unscheduled (enqueuePipelineRunForOwner owner id now), Hm d Hd). Unshelve.
    unfold enqueuePipelineRunForOwner, runPipelineForOwner, findOwnedPipeline. solve_preserves.
  - by apply createPipelineRun_unscheduled.
  - eapply (λ Hm : preserves unscheduled (promoteQueuedPipelineRuns now limit locked), Hm d Hd). Unshelve.
    unfold promoteQueuedPipelineRuns, advancePipeline, promoteOldestQueuedRun, createInitialSourceJobs.
    solve_preserves.
  - by rewrite unscheduled_claims.
  - eapply (λ Hm : preserves unscheduled (claimNextJob workerId now locked), Hm d Hd). Unshelve.
    unfold claimNextJob. solve_preserves.
  - eapply (λ Hm : preserves unscheduled (setRunLogRetentionDays days now), Hm d Hd). Unshelve.
    unfold setRunLogRetentionDays. solve_preserves.
Qed.

(** C36: the schedules of pipelines never start a run: no operation gives a
    trigger its first occurrence, so from a store without one, whatever is
    created, updated, duplicated, enabled or run since, a pass over the due
    schedules claims nothing. *)
Theorem schedules_never_fire d d' now n locked :
  unscheduled d → rtc operation d d' → (1 ≤ n ≤ MAX_SAFE_INTEGER)%Z →
  claimDueSchedules now (NInt n) locked d' = (Ok [], d').
Proof.
  intros Hd Hops Hn. rewrite unscheduled_claims.
  - unfold positiveLimit. cbn [isSafeInteger]. rewrite decide_True by lia. by rewrite decide_False by lia.
  - induction Hops as [|d d1 d2 Hop _ IH]; [done|]. apply IH. by eapply operation_unscheduled.
Qed.
End unscheduled.
