(* ===== verification/Paths.v ===== *)
(** * Paths

    The functions of [node:path] on POSIX the storage code uses. A resolved
    path is absolute and normalized: it is represented by its segments, with
    neither empty ones nor [.] and [..], and printed by [path_string]. *)

From S2P Require Import Prelude Js.

(** [s.split(c)]: always at least one piece. *)
Fixpoint split_on (c : ascii) (s : string) : list string :=
  match s with
  | EmptyString => [""]
  | String d s =>
      if decide (d = c) then "" :: split_on c s
      else match split_on c s with
           | [] => [String d ""]
           | piece :: pieces => String d piece :: pieces
           end
  end.

Definition slash : ascii := "/"%char.

Definition segments (s : string) : list string := filter (λ piece, piece ≠ "") (split_on slash s).

(** One segment met on the way: [..] at the root stays there. *)
Definition push (path : list string) (segment : string) : list string :=
  if decide (segment = ".") then path
  else if decide (segment = "..") then removelast path
  else path ++ [segment].

Definition isAbsolute (s : string) : bool := startsWith "/" s.

(** [resolve(base, s)] for a resolved base. *)
Definition resolve (base : list string) (s : string) : list string :=
  foldl push (if isAbsolute s then [] else base) (segments s).

Definition path_string (path : list string) : string := "/" +:+ join "/" path.

(** The segments two resolved paths do not share. *)
Fixpoint diverge (from to : list string) : list string * list string :=
  match from, to with
  | x :: from', y :: to' => if decide (x = y) then diverge from' to' else (from, to)
  | _, _ => (from, to)
  end.

(** [relative(from, to)] *)
Definition relative (from to : list string) : string :=
  let '(up, down) := diverge from to in
  join "/" (replicate (length up) ".." ++ down).

(** The test both storage classes make. *)
Definition escapes (root path : list string) : bool :=
  bool_decide (relative root path = "") || bool_decide (relative root path = "..") ||
  startsWith "../" (relative root path).

(** [extname(s)]: from the last dot of the last segment, unless the segment
    starts with it or is [..]. *)
Fixpoint from_last_dot (s : string) : option (string * string) :=
  match s with
  | EmptyString => None
  | String c s' =>
      match from_last_dot s' with
      | Some (before, ext) => Some (String c before, ext)
      | None => if decide (c = "."%char) then Some ("", s) else None
      end
  end.

Definition extname (s : string) : string :=
  let base := default "" (last (segments s)) in
  if decide (base = "..") then "" else
  match from_last_dot base with
  | None | Some ("", _) => ""
  | Some (_, ext) => ext
  end.

(** ** Normalized paths *)

Definition plain_segment (s : string) : Prop :=
  s ≠ "" ∧ s ≠ "." ∧ s ≠ ".." ∧ has_char slash s = false.

Lemma split_on_plain s piece : piece ∈ split_on slash s → has_char slash piece = false.
Proof.
  revert piece. induction s as [|d s IH]; intros piece; simpl.
  - by intros ->%list_elem_of_singleton.
  - case_decide as Hd; [intros [->|?]%elem_of_cons; [done|by apply IH]|].
    destruct (split_on slash s) as [|p ps].
    + intros ->%list_elem_of_singleton. simpl. rewrite bool_decide_eq_false_2; [done|congruence].
    + intros [->|Hin]%elem_of_cons; [|by apply IH; right].
      simpl. rewrite bool_decide_eq_false_2 by congruence. by apply IH; left.
Qed.

Lemma push_plain path segment :
  Forall plain_segment path → segment ≠ "" → has_char slash segment = false →
  Forall plain_segment (push path segment).
Proof.
  intros Hp Hne Hs. unfold push. case_decide; [done|]. case_decide.
  - rewrite Forall_forall in Hp |- *. intros x Hx. apply Hp.
    destruct path as [|y path _] using rev_ind; [done|]. rewrite removelast_last in Hx.
    apply elem_of_app. by left.
  - apply Forall_app. split; [done|]. by repeat constructor.
Qed.

Lemma resolve_plain base s : Forall plain_segment base → Forall plain_segment (resolve base s).
Proof.
  intros Hb. unfold resolve.
  assert (Forall plain_segment (if isAbsolute s then [] else base)) as Hstart by (by case_match).
  assert (∀ piece, piece ∈ segments s → piece ≠ "" ∧ has_char slash piece = false) as Hseg.
  { intros piece [? ?%split_on_plain]%list_elem_of_filter. done. }
  revert Hstart. generalize (if isAbsolute s then [] else base). induction (segments s) as [|x l IH];
    intros path Hpath; simpl; [done|].
  apply IH; [intros; apply Hseg; by right|]. destruct (Hseg x); [left|]. by apply push_plain.
Qed.

(** Splitting a path written from plain segments. *)
Lemma split_on_none c s : has_char c s = false → split_on c s = [s].
Proof.
  induction s as [|d s IH]; [done|]. cbn [has_char split_on]. intros [Hd Hs]%orb_false_iff.
  apply bool_decide_eq_false in Hd. rewrite decide_False by done. by rewrite IH.
Qed.

Lemma split_on_app c s t : has_char c s = false → split_on c (s +:+ String c t) = s :: split_on c t.
Proof.
  induction s as [|d s IH].
  - intros _. change (split_on c (String c t) = "" :: split_on c t). cbn [split_on]. by rewrite decide_True.
  - cbn [has_char]. intros [Hd Hs]%orb_false_iff. apply bool_decide_eq_false in Hd.
    change (split_on c (String d (s +:+ String c t)) = String d s :: split_on c t).
    cbn [split_on]. rewrite decide_False by done. by rewrite IH.
Qed.

Lemma push_plain_segment path segment : plain_segment segment → push path segment = path ++ [segment].
Proof. intros (_ & ? & ? & _). unfold push. by rewrite !decide_False. Qed.

(** ** What the escape test decides *)

Lemma diverge_spec from to up down :
  diverge from to = (up, down) → ∃ shared, from = shared ++ up ∧ to = shared ++ down.
Proof.
  revert to. induction from as [|x from IH]; intros [|y to]; simpl; try by intros [= <- <-]; exists [].
  case_decide as Heq; [|intros [= <- <-]; by exists []].
  intros (shared & -> & ->)%IH. exists (x :: shared). by rewrite Heq.
Qed.

Lemma join_cons_nonempty sep x y l : join sep (x :: y :: l) = x +:+ sep +:+ join sep (y :: l).
Proof. done. Qed.

Lemma append_nil_r s : s +:+ "" = s.
Proof. induction s as [|c s IH]; [done|]. change (String c (s +:+ "") = String c s). by rewrite IH. Qed.

Lemma startsWith_iff p s : startsWith p s = true ↔ ∃ t, s = p +:+ t.
Proof.
  unfold startsWith. revert s. induction p as [|c p IH]; intros s.
  - split; [by exists s|]. by destruct s.
  - destruct s as [|d s]; [split; [done|by intros [t ?]]|]. cbn [String.prefix].
    destruct (Ascii.ascii_dec c d) as [<-|Hne].
    + rewrite IH. split; intros [t Ht]; exists t; [by rewrite Ht|by injection Ht].
    + split; [done|]. intros [t [= ? ?]]. by destruct Hne.
Qed.

(** A path printed from its segments starts with [../] only by its first
    segment. *)
Lemma startsWith_dots x rest :
  has_char slash x = false → startsWith "../" (x +:+ rest) = true → x = ".." ∨ x = "." ∨ x = "".
Proof.
  intros Hs [t Ht]%startsWith_iff.
  destruct x as [|a [|b [|c x]]]; [by right; right|..].
  - injection Ht as -> _. by right; left.
  - injection Ht as -> -> _. by left.
  - injection Ht as -> -> -> _. done.
Qed.

(** A path passes the test exactly when it lies strictly beneath the root. *)
Lemma escapes_false root path :
  Forall plain_segment path →
  escapes root path = false ↔ ∃ below, below ≠ [] ∧ path = root ++ below.
Proof.
  intros Hp. unfold escapes, relative. destruct (diverge root path) as [up down] eqn:E.
  pose proof (diverge_spec _ _ _ _ E) as (shared & -> & ->). split.
  - rewrite !orb_false_iff, !bool_decide_eq_false. intros [[Hne Hdd] Hpre].
    destruct up as [|u up]; cbn [length replicate app] in *.
    + rewrite app_nil_r in *. exists down. split; [|done]. by intros ->.
    + exfalso. destruct (replicate (length up) ".." ++ down) as [|x l]; [by apply Hdd|].
      rewrite join_cons_nonempty in Hpre. apply not_true_iff_false in Hpre. apply Hpre, startsWith_iff.
      by exists (join "/" (x :: l)).
  - intros (below & Hb & Heq). rewrite <-(assoc_L (++)) in Heq. apply (inj (app shared)) in Heq. subst down.
    assert (diverge (shared ++ up) (shared ++ up ++ below) = ([], below)) as E'.
    { clear. rewrite (assoc_L (++)). induction (shared ++ up) as [|x l IH]; simpl; [done|].
      by rewrite decide_True. }
    rewrite E' in E. injection E as <- _. simpl.
    rewrite Forall_app in Hp. destruct Hp as [_ Hp]. simpl in Hp.
    destruct below as [|x below]; [done|]. apply Forall_cons in Hp as [(Hx1 & Hx2 & Hx3 & Hx4) _].
    assert (∃ rest, join "/" (x :: below) = x +:+ rest ∧ (rest = "" ∨ ∃ r, rest = String slash r)) as (rest & -> & Hrest).
    { destruct below as [|y below]; [exists ""; split; [by rewrite append_nil_r|by left]|].
      exists ("/" +:+ join "/" (y :: below)). split; [done|]. right. by eexists. }
    rewrite !orb_false_iff, !bool_decide_eq_false. split_and!.
    + by destruct x.
    + intros Hdd. destruct Hrest as [->|(r & ->)]; [by rewrite append_nil_r in Hdd|].
      destruct x as [|a [|b [|c x]]]; simplify_eq/=.
    + apply not_true_is_false. intros Hs. by apply startsWith_dots in Hs as [?|[?|?]].
Qed.
