(* ===== verification/Development.v ===== *)
(** * The local stack

    scripts/development.mjs: the command that builds, starts, supervises,
    inspects and resets the services of a developer's machine.

    The script talks to the operating system and waits for it, so it is an
    interaction tree over the calls it makes, [osE]: what each of them
    answers is left open, and the theorems of [DevelopmentProofs] hold for
    every answer. A [Script] also has the outcome of a function that may
    throw. [while] is [ITree.iter]. [Promise.all] runs its elements to the
    end, in list order; nothing is assumed of the answers they get.

    The path separator is that of POSIX: the only code that needs one does
    not run on Windows. *)

From stdpp Require Import pretty.
From ITree Require Import Core.ITreeDefinition Interp.Traces.
From S2P Require Import Prelude Js Numbers Paths.

(** ** The operating system *)

Inductive Signal := SIG0 | SIGTERM | SIGKILL.
#[export] Instance Signal_eq_dec : EqDecision Signal.
Proof. solve_decision. Defined.

(** How [process.kill] ends: [ESRCH] means there is no such process. *)
Inductive KillAnswer := Delivered | ESRCH | KillRefused.

(** How a child of [run] ends. *)
Inductive Exit := Exited (code : Z) | Stopped (signal : string) | NotStarted.

(** A file read and parsed by [JSON.parse]. *)
Inductive FileAnswer := FileJson (document : Json) | FileMalformed | FileMissing | FileUnreadable.

Inductive ListenAnswer := Listening | EADDRINUSE | ListenRefused.

(** What wakes the supervisor up. *)
Inductive Wake := ServiceExit (index : nat) (code : option Z) (signal : option string) | SIGINT_received | SIGTERM_received.

Inductive osE : Type → Type :=
  | Log (line : string) : osE unit
  | RunCommand (command : list string) : osE Exit
  | ExecFile (command : list string) : osE (option string)
  | Kill (target : Z) (signal : Signal) : osE KillAnswer
  | ChildKill (index : nat) (signal : Signal) : osE unit
  | ChildAlive (index : nat) : osE bool
  | Spawn (index : nat) (command : list string) : osE (option (option Z))
  | ReadFile (path : string) : osE FileAnswer
  | WriteFile (path : string) (document : Json) : osE bool
  | Rm (path : string) : osE bool
  | Mkdir (path : string) : osE bool
  | Access (path : string) : osE bool
  | LoadEnvFile (path : string) : osE bool
  | GetEnv (name : string) : osE (option string)
  | SetEnv (name value : string) : osE unit
  | Listen (port : Z) : osE ListenAnswer
  | HttpGet (port : Z) (path : string) : osE (option Z)
  | Now : osE Z
  | Timestamp : osE string
  | Sleep (milliseconds : Z) : osE unit
  | NextEvent : osE Wake
  | ExitProcess (code : Z) : osE Empty_set.

(** ** Scripts *)

Inductive ScriptError := Message (text : string) | SystemError.

Definition Script (A : Type) : Type := itree osE (outcome ScriptError A).

#[export] Instance script_ret : MRet Script := λ A a, Ret (Ok a).
#[export] Instance script_bind : MBind Script := λ A B k m,
  ITree.bind m (λ o, match o with Ok a => k a | Throw e => Ret (Throw e) end).

Definition os {A} (e : osE A) : Script A := ITree.bind (ITree.trigger e) (λ a, Ret (Ok a)).
Definition raise {A} (e : ScriptError) : Script A := Ret (Throw e).
Definition error {A} (text : string) : Script A := raise (Message text).

(** [try { m } catch (e) { h(e) }] *)
Definition rescue {A} (m : Script A) (h : ScriptError → Script A) : Script A :=
  ITree.bind m (λ o, match o with Ok a => Ret (Ok a) | Throw e => h e end).

(** [for (;;)]: [inl] goes on, [inr] leaves the loop. *)
Definition loop {I R} (body : I → Script (I + R)) (i : I) : Script R :=
  ITree.iter (λ i, ITree.bind (body i) (λ o,
    match o with
    | Ok (inl i) => Ret (inl i)
    | Ok (inr r) => Ret (inr (Ok r))
    | Throw e => Ret (inr (Throw e))
    end)) i.

(** [for (const x of l)], with its results. *)
Fixpoint each {A B} (f : A → Script B) (l : list A) : Script (list B) :=
  match l with
  | [] => mret []
  | x :: l => y ← f x; ys ← each f l; mret (y :: ys)
  end.

(** [Promise.all(l.map(f))]: every element runs; the first failure rejects. *)
Fixpoint all {A} (f : A → Script unit) (l : list A) : Script unit :=
  match l with
  | [] => mret ()
  | x :: l => ITree.bind (f x) (λ o, ITree.bind (all f l) (λ o', Ret (match o with Ok _ => o' | Throw e => Throw e end)))
  end.

(** [l.some(f)] *)
Fixpoint some {A} (f : A → Script bool) (l : list A) : Script bool :=
  match l with
  | [] => mret false
  | x :: l => b ← f x; if b : bool then mret true else some f l
  end.

(** A call that rejects when the system refuses it. *)
Definition demand_ok (e : osE bool) : Script unit := b ← os e; if b : bool then mret () else raise SystemError.

(** ** The script *)

Record Service := { s_name : string; s_arguments : list string; s_healthPath : string; s_port : Z }.

Definition services : list Service :=
  [{| s_name := "web"; s_arguments := ["web:dev"]; s_healthPath := "/"; s_port := 3000 |};
   {| s_name := "scheduler"; s_arguments := ["scheduler:dev"]; s_healthPath := "/health"; s_port := 3010 |};
   {| s_name := "garbage-collector"; s_arguments := ["garbage-collector:dev"]; s_healthPath := "/health"; s_port := 3011 |};
   {| s_name := "worker"; s_arguments := ["worker:dev"]; s_healthPath := "/health"; s_port := 3020 |}]%Z.

(** A child process: the place of its service and its process id. *)
Record Child := { child_index : nat; child_pid : option Z }.

Definition newline : ascii := Ascii.ascii_of_nat 10.
Definition carriageReturn : ascii := Ascii.ascii_of_nat 13.
Definition NEWLINE : string := String newline "".

Section development.
Context (win32 : bool) (repositoryRoot : string).

Definition localRuntimeDirectory : string := repositoryRoot +:+ "/.pantaetl".
Definition stackStatePath : string := localRuntimeDirectory +:+ "/local-stack.json".
Definition localStorageRoot : string := repositoryRoot +:+ "/storage".
Definition pnpm : string := if win32 then "pnpm.cmd" else "pnpm".
Definition docker : string := if win32 then "docker.exe" else "docker".

Definition run (command : string) (arguments : list string) : Script unit :=
  let displayCommand := join " " (command :: arguments) in
  os (Log (NEWLINE +:+ "$ " +:+ displayCommand));;
  e ← os (RunCommand (command :: arguments));
  match e with
  | Exited 0%Z => mret ()
  | Exited code => error (displayCommand +:+ " exited with " +:+ pretty code +:+ ".")
  | Stopped signal => error (displayCommand +:+ " was stopped by " +:+ signal +:+ ".")
  | NotStarted => raise SystemError
  end.

(** [Number.isInteger(v) && v > 0] *)
Definition positiveInteger (n : jsnumber) : option Z :=
  match isInteger n with
  | Some z => if decide (0 < z)%Z then Some z else None
  | None => None
  end.

Definition positivePid (v : option Json) : option Z :=
  match v with Some (JNumber n) => positiveInteger n | _ => None end.

Definition askCommand (processId : Z) : osE (option string) := ExecFile ["ps"; "-p"; pretty processId; "-o"; "command="].
Definition isSupervisor (command : string) : bool := includes "scripts/development.mjs stack-up" command.

Definition isOwnedSupervisor (supervisorPid : option Json) : Script bool :=
  match positivePid supervisorPid with
  | None => mret false
  | Some pid =>
      k ← os (Kill pid SIG0);
      match k with
      | Delivered =>
          if win32 then mret true
          else o ← os (askCommand pid); mret (match o with Some command => isSupervisor command | None => false end)
      | _ => mret false
      end
  end.

(** [state.key] on the value the state file holds. *)
Definition member (state : Json) (key : string) : option Json :=
  match state with JObject fields => get_field fields key | _ => None end.

Definition readStackState : Script (option Json) :=
  f ← os (ReadFile stackStatePath);
  match f with
  | FileJson JNull => raise SystemError
  | FileJson state => mret (if isText (member state "repositoryRoot") repositoryRoot then Some state else None)
  | FileMissing => mret None
  | FileMalformed | FileUnreadable => raise SystemError
  end.

Definition removeStackState : Script unit := demand_ok (Rm stackStatePath).

(** [while (await condition() && Date.now() < deadline) await sleep(100)] *)
Definition waitWhile (condition : Script bool) (timeoutMilliseconds : Z) : Script unit :=
  start ← os Now;
  let deadline := (start + timeoutMilliseconds)%Z in
  loop (λ _ : unit,
    b ← condition;
    if b : bool then
      now ← os Now;
      if decide (now < deadline)%Z then os (Sleep 100);; mret (inl ()) else mret (inr ())
    else mret (inr ())) ().

Definition waitForSupervisorExit (supervisorPid : option Json) : Script bool :=
  waitWhile (isOwnedSupervisor supervisorPid) 10000;;
  b ← isOwnedSupervisor supervisorPid; mret (negb b).

(** [process.kill(pid, signal)], which throws. *)
Definition kill (target : Z) (signal : Signal) : Script unit :=
  k ← os (Kill target signal);
  match k with Delivered => mret () | _ => raise SystemError end.

(** Both callers pass the identifier of a supervisor they own. *)
Definition terminateSupervisor (log : string) (supervisorPid : option Json) : Script unit :=
  os (Log log);;
  match positivePid supervisorPid with
  | Some pid => kill pid SIGTERM
  | None => raise SystemError
  end;;
  gone ← waitForSupervisorExit supervisorPid;
  if gone : bool then mret ()
  else error "The local service supervisor did not stop within 10 seconds.".

Definition stopOwnedSupervisor : option Json → Script unit := terminateSupervisor "Restarting local services...".

(** What the script asks [lsof] and [ps], and how it reads the answers. *)
Definition askListeners (port : Z) : osE (option string) :=
  ExecFile ["lsof"; "-nP"; "-t"; "-iTCP:" +:+ pretty port; "-sTCP:LISTEN"].
Definition readListeners (output : string) : list Z :=
  omap (λ value, positiveInteger (Number value)) (split_on newline output).

Definition askDirectory (processId : Z) : osE (option string) :=
  ExecFile ["lsof"; "-a"; "-p"; pretty processId; "-d"; "cwd"; "-Fn"].
Definition readDirectory (output : string) : option string :=
  slice 1 ∘ snd <$> list_find (λ line, startsWith "n" line = true) (split_on newline output).

Definition askGroup (processId : Z) : osE (option string) := ExecFile ["ps"; "-p"; pretty processId; "-o"; "pgid="].
Definition readGroup (output : string) : option Z := positiveInteger (Number (trim output)).

Definition listeningProcessIds (port : Z) : Script (list Z) :=
  if win32 then mret []
  else o ← os (askListeners port); mret (default [] (readListeners <$> o)).

Definition processWorkingDirectory (processId : Z) : Script (option string) :=
  o ← os (askDirectory processId); mret (o ≫= readDirectory).

Definition processGroupId (processId : Z) : Script (option Z) :=
  o ← os (askGroup processId); mret (o ≫= readGroup).

Definition inWorkspace (workingDirectory : string) : bool :=
  bool_decide (workingDirectory = repositoryRoot) || startsWith (repositoryRoot +:+ "/") workingDirectory.

Definition isWorkspaceProcess (processId : Z) : Script bool :=
  d ← processWorkingDirectory processId;
  mret (match d with Some workingDirectory => inWorkspace workingDirectory | None => false end).

Definition signalProcessGroup (groupId : Z) (signal : Signal) : Script unit :=
  k ← os (Kill (- groupId) signal);
  match k with KillRefused => raise SystemError | _ => mret () end.

(** The group of a listener, unless it is of another application. *)
Definition workspaceGroupOf (processId : Z) : Script (option Z) :=
  b ← isWorkspaceProcess processId;
  if b : bool then processGroupId processId else mret None.

(** The groups of the listeners of this repository, service by service. *)
Definition workspaceGroups (service : Service) : Script (list (option Z)) :=
  processIds ← listeningProcessIds (s_port service);
  each workspaceGroupOf processIds.

Definition hasWorkspaceListener (service : Service) : Script bool :=
  processIds ← listeningProcessIds (s_port service);
  some isWorkspaceProcess processIds.

Definition killListeners (service : Service) : Script unit :=
  processIds ← listeningProcessIds (s_port service);
  each (λ processId,
    groupId ← workspaceGroupOf processId;
    match groupId with Some g => signalProcessGroup g SIGKILL | None => mret () end) processIds;;
  mret ().

Definition stopOrphanedServices : Script unit :=
  if win32 then mret ()
  else
    found ← each workspaceGroups services;
    let processGroups := foldl (λ groups g, set_add g groups) [] (omap id (mjoin found)) in
    if decide (processGroups = []) then mret ()
    else
      os (Log "Stopping orphaned local services...");;
      each (λ groupId, signalProcessGroup groupId SIGTERM) processGroups;;
      waitWhile (some hasWorkspaceListener services) 10000;;
      each killListeners services;;
      mret ().

Definition requireLocalDatabaseEnvironment : Script unit :=
  let environmentPath := repositoryRoot +:+ "/.env" in
  readable ← os (Access environmentPath);
  if readable : bool then
    demand_ok (LoadEnvFile environmentPath);;
    url ← os (GetEnv "DATABASE_URL");
    if decide (default "" url = "")
    then error "DATABASE_URL is required. Set it in .env before starting the local stack."
    else mret ()
  else error "Missing .env. Copy .env.example to .env before starting the local stack.".

Definition startService (index : nat) (service : Service) : Script Child :=
  c ← os (Spawn index (pnpm :: s_arguments service));
  match c with
  | Some pid => mret {| child_index := index; child_pid := pid |}
  | None => error ("Unable to capture output for " +:+ s_name service +:+ ".")
  end.

Definition ensureServicePortAvailable (service : Service) : Script unit :=
  l ← os (Listen (s_port service));
  match l with
  | Listening => mret ()
  | EADDRINUSE => error ("Port " +:+ pretty (s_port service) +:+ " for " +:+ s_name service +:+
      " is already in use. Stop the existing process before starting the local stack.")
  | ListenRefused => raise SystemError
  end.

(** The group of a child, when it has one. *)
Definition groupOf (child : Child) : option Z := if win32 then None else child_pid child.

Definition signalService (child : Child) (signal : Signal) : Script unit :=
  match groupOf child with
  | None => os (ChildKill (child_index child) signal)
  | Some pid =>
      k ← os (Kill (- pid) signal);
      match k with KillRefused => raise SystemError | _ => mret () end
  end.

Definition isServiceRunning (child : Child) : Script bool :=
  match groupOf child with
  | None => os (ChildAlive (child_index child))
  | Some pid => k ← os (Kill (- pid) SIG0); mret (match k with Delivered => true | _ => false end)
  end.

Definition waitForServiceExit (child : Child) (timeoutMilliseconds : Z) : Script bool :=
  waitWhile (isServiceRunning child) timeoutMilliseconds;;
  b ← isServiceRunning child; mret (negb b).

Definition stopService (child : Child) : Script unit :=
  alive ← isServiceRunning child;
  if alive : bool then
    signalService child SIGTERM;;
    gone ← waitForServiceExit child 10000;
    if gone : bool then mret ()
    else
      signalService child SIGKILL;;
      waitForServiceExit child 1000;;
      mret ()
  else mret ().

Definition buildPackages : Script unit := run pnpm ["packages:build"].

Definition generateArtifacts : Script unit :=
  run pnpm ["--filter"; "@pantaetl/contracts"; "generate:types"];;
  run "uv" ["run"; "python"; "scripts/generate_python_contract_models.py"];;
  run "uv" ["run"; "python"; "scripts/generate_component_capability_catalog.py"];;
  buildPackages;;
  run pnpm ["web:build"].

Definition checkGeneratedArtifacts : Script unit :=
  run pnpm ["--filter"; "@pantaetl/contracts"; "check:types"];;
  run "uv" ["run"; "python"; "scripts/check_python_contract_models.py"];;
  run "uv" ["run"; "python"; "scripts/generate_component_capability_catalog.py"; "--check"].

Definition migrate : list string := ["--filter"; "@pantaetl/database"; "migrate:apply"].

Definition useDevelopmentStorage : Script unit :=
  e ← os (GetEnv "PANTAETL_ENV");
  match e with Some _ => mret () | None => os (SetEnv "PANTAETL_ENV" "development") end;;
  r ← os (GetEnv "STORAGE_ROOT");
  if decide (default "" (trim <$> r) = "") then demand_ok (Mkdir (localStorageRoot +:+ "/imports")) else mret ().

(** The document of the state file; an undefined pid is left out. *)
Definition stackState (supervisorPid : Z) (startedAt : string) (children : list Child) : Json :=
  JObject [("repositoryRoot", JString repositoryRoot); ("supervisorPid", JNumber (NInt supervisorPid));
           ("startedAt", JString startedAt);
           ("services", JArray ((λ '(child, service), JObject (("name", JString (s_name service)) ::
              match child_pid child with Some pid => [("pid", JNumber (NInt pid))] | None => [] end))
              <$> zip children services))].

Definition shutdown (children : list Child) (exitCode : Z) : Script Empty_set :=
  os (Log (NEWLINE +:+ "Stopping local services..."));;
  all stopService children;;
  removeStackState;;
  os (Log "Local services stopped. PostgreSQL remains available for the next pnpm stack:up.");;
  os (ExitProcess exitCode).

(** Only the first event shuts the stack down: [stopping] is set for the
    others. *)
Definition supervise (children : list Child) : Script Empty_set :=
  w ← os NextEvent;
  match w with
  | ServiceExit index code signal =>
      os (Log ("[" +:+ default "" (s_name <$> services !! index) +:+ "] stopped unexpectedly " +:+
        match signal with Some s => "(" +:+ s +:+ ")" | None => "(exit " +:+ pretty (default 1%Z code) +:+ ")" end +:+ "."));;
      shutdown children (default 1%Z code)
  | SIGINT_received | SIGTERM_received => shutdown children 0
  end.

Definition startStack (processPid : Z) : Script Empty_set :=
  requireLocalDatabaseEnvironment;;
  priorState ← readStackState;
  match priorState with
  | Some state =>
      owned ← isOwnedSupervisor (member state "supervisorPid");
      if owned : bool then stopOwnedSupervisor (member state "supervisorPid") else mret ()
  | None => mret ()
  end;;
  stopOrphanedServices;;
  match priorState with Some _ => removeStackState | None => mret () end;;
  all ensureServicePortAvailable services;;
  run docker ["compose"; "up"; "-d"; "--wait"; "postgres"];;
  checkGeneratedArtifacts;;
  buildPackages;;
  rescue (run pnpm migrate) (λ _, error "Database migrations failed. Inspect the existing local database before retrying; pnpm stack:reset is available only when its data can be discarded.");;
  useDevelopmentStorage;;
  children ← each (λ '(index, service), startService index service) (zip (seq 0 (length services)) services);
  demand_ok (Mkdir localRuntimeDirectory);;
  startedAt ← os Timestamp;
  demand_ok (WriteFile stackStatePath (stackState processPid startedAt children));;
  os (Log (NEWLINE +:+ "Local stack is running. Press Ctrl+C to stop services; PostgreSQL remains available."));;
  os (Log ("Run pnpm stack:up to restart services or pnpm stack:reset for a fresh local stack." +:+ NEWLINE));;
  supervise children.

Definition isRecordedServiceRunning (serviceState : option Json) : Script bool :=
  match positivePid (state ← serviceState; member state "pid") with
  | None => mret false
  | Some pid =>
      let probe target := k ← os (Kill target SIG0); mret (match k with Delivered => true | _ => false end) in
      if win32 then probe pid
      else
        groupId ← processGroupId pid;
        match groupId with Some g => probe (- g)%Z | None => mret false end
  end.

Definition requestServiceHealth (service : Service) : Script bool :=
  status ← os (HttpGet (s_port service) (s_healthPath service));
  mret (match status with Some s => bool_decide (200 ≤ s < 400)%Z | None => false end).

(** [new Map(state?.services?.map(...) ?? [])], looked up by name. *)
Definition recordedServices (state : option Json) : outcome ScriptError (list (option Json * Json)) :=
  match state ≫= λ state, member state "services" with
  | None | Some JNull => Ok []
  | Some (JArray l) =>
      if existsb (λ service, match service with JNull => true | _ => false end) l then Throw SystemError
      else Ok ((λ service, (member service "name", service)) <$> l)
  | Some _ => Throw SystemError
  end.

Definition recordedService (recorded : list (option Json * Json)) (name : string) : option Json :=
  snd <$> last (filter (λ entry, isText entry.1 name = true) recorded).

Definition statusLine (isHealthy isRunning : bool) : string :=
  if isHealthy then "running (healthy)" else if isRunning then "running (unhealthy)" else "stopped".

Definition showService (recorded : list (option Json * Json)) (service : Service) : Script unit :=
  ownedListener ← hasWorkspaceListener service;
  recordedRunning ← isRecordedServiceRunning (recordedService recorded (s_name service));
  isHealthy ← requestServiceHealth service;
  os (Log ("  " +:+ s_name service +:+ ": " +:+ statusLine isHealthy (recordedRunning || ownedListener) +:+
    " — http://127.0.0.1:" +:+ pretty (s_port service) +:+ s_healthPath service)).

Definition showStackStatus : Script unit :=
  state ← readStackState;
  match recordedServices state with
  | Throw e => raise e
  | Ok recorded =>
      os (Log "Local services:");;
      each (showService recorded) services;;
      os (Log (NEWLINE +:+ "PostgreSQL:"));;
      run docker ["compose"; "ps"]
  end.

Definition removeVolumes : list string := ["compose"; "down"; "--volumes"; "--remove-orphans"].

Definition resetStack (processPid : Z) : Script Empty_set :=
  requireLocalDatabaseEnvironment;;
  state ← readStackState;
  match state with
  | Some state =>
      owned ← isOwnedSupervisor (member state "supervisorPid");
      if owned : bool
      then terminateSupervisor "Stopping local services for reset..." (member state "supervisorPid")
      else mret ()
  | None => mret ()
  end;;
  stopOrphanedServices;;
  removeStackState;;
  run docker removeVolumes;;
  startStack processPid.

(** What the last argument of the command line asks for. *)
Definition main (processPid : Z) (command : string) : Script unit :=
  let never (m : Script Empty_set) : Script unit := e ← m; match e : Empty_set with end in
  if decide (command = "setup") then run pnpm ["install"; "--frozen-lockfile"];; run "uv" ["sync"; "--frozen"]
  else if decide (command = "generate") then generateArtifacts
  else if decide (command = "generate-check") then checkGeneratedArtifacts
  else if decide (command = "migrate") then requireLocalDatabaseEnvironment;; run pnpm migrate
  else if decide (command = "stack-up") then never (startStack processPid)
  else if decide (command = "stack-status") then showStackStatus
  else if decide (command = "stack-reset") then never (resetStack processPid)
  else error "Use one of: setup, generate, generate-check, migrate, stack-up, stack-status, stack-reset.".

(** ** Output *)

(** [s.split(/\r?\n/)]: never empty. *)
Fixpoint splitLines (s : string) : string * list string :=
  match s with
  | EmptyString => ("", [])
  | String c s' =>
      let '(line, lines) := splitLines s' in
      if decide (c = newline) then ("", line :: lines)
      else match s' with
           | String d s'' => if decide (c = carriageReturn ∧ d = newline) then (line, lines) else (String c line, lines)
           | EmptyString => (String c line, lines)
           end
  end.

Definition linesOf (s : string) : list string := let '(line, lines) := splitLines s in line :: lines.

Definition labelled (serviceName : string) (lines : list string) : list string :=
  (λ line, "[" +:+ serviceName +:+ "] " +:+ line) <$> filter (λ line, line ≠ "") lines.

(** One chunk: what is logged, and what stays pending. *)
Definition onData (serviceName : string) (pending chunk : string) : list string * string :=
  let lines := linesOf (pending +:+ chunk) in
  (labelled serviceName (removelast lines), default "" (last lines)).

Definition onEnd (serviceName : string) (pending : string) : list string := labelled serviceName [pending].

(** A stream that delivers chunks and ends. *)
Fixpoint prefixOutput (serviceName : string) (pending : string) (chunks : list string) : list string :=
  match chunks with
  | [] => onEnd serviceName pending
  | chunk :: chunks =>
      let '(logged, pending) := onData serviceName pending chunk in
      logged ++ prefixOutput serviceName pending chunks
  end.
End development.
