(* ===== verification/DevelopmentProofs.v ===== *)
(** * What the development script may do to a machine

    A logic of scripts: [ensures] speaks of every trace of an interaction
    tree, finished or not, whatever the operating system answers. With it,
    the targets of every signal and the moment of every irreversible command
    of [Development] are bounded. Then the output of services, which does not
    depend on how the streams cut it. *)

From stdpp Require Import pretty.
From ITree Require Import Core.ITreeDefinition Eq.Shallow Interp.Traces.
From Stdlib Require Import Program.Equality.
From S2P Require Import Prelude Js Numbers Paths Development.

(** ** Traces with their past *)

(** The calls answered so far, the last one first. *)
Definition history : Type := list (event osE).

Fixpoint after {A} (h : history) (tr : @trace osE A) : history :=
  match tr with
  | TEventResponse e x tr => after (Event _ e x :: h) tr
  | _ => h
  end.

(** Every call of a trace is permitted by what was answered before it. *)
Fixpoint guarded {A} (permitted : history → ∀ X, osE X → Prop) (h : history) (tr : @trace osE A) : Prop :=
  match tr with
  | TEventEnd e => permitted h _ e
  | TEventResponse e x tr => permitted h _ e ∧ guarded permitted (Event _ e x :: h) tr
  | _ => True
  end.

Section ensures.
Context (permitted : history → ∀ X, osE X → Prop).

Definition ensures {A} (h : history) (t : itree osE A) (Q : A → history → Prop) : Prop :=
  ∀ tr, is_trace t tr → guarded permitted h tr ∧ ∀ a, trace_ret tr = Some a → Q a (after h tr).

Lemma ensures_ret {A} h (a : A) (Q : A → history → Prop) : Q a h → ensures h (Ret a) Q.
Proof. intros HQ tr Htr. unfold is_trace in Htr. simpl in Htr. inversion Htr; subst; simpl; split; naive_solver. Qed.

Lemma ensures_weaken {A} h (t : itree osE A) (P Q : A → history → Prop) :
  ensures h t P → (∀ a h', P a h' → Q a h') → ensures h t Q.
Proof. intros Ht HPQ tr Htr. destruct (Ht tr Htr) as [? ?]. split; [done|]. auto. Qed.

(** What a tree ensures passes to its subtrees. *)
Lemma ensures_tau {A} h (t t' : itree osE A) Q : observe t = TauF t' → ensures h t Q → ensures h t' Q.
Proof. intros Ht H tr Htr. apply H. unfold is_trace. rewrite Ht. by constructor. Qed.

Lemma ensures_vis {A X} h (t : itree osE A) (e : osE X) k Q : observe t = VisF e k → ensures h t Q →
  permitted h _ e ∧ ∀ x, ensures (Event _ e x :: h) (k x) Q.
Proof.
  intros Ht H. split.
  - destruct (H (TEventEnd e)) as [? _]; [unfold is_trace; rewrite Ht; by constructor|done].
  - intros x tr Htr. destruct (H (TEventResponse e x tr)) as [[_ ?] HQ]; [unfold is_trace; rewrite Ht; by constructor|].
    split; [done|]. exact HQ.
Qed.

Lemma ensures_done {A} h (t : itree osE A) a Q : observe t = RetF a → ensures h t Q → Q a h.
Proof.
  intros Ht H. destruct (H (TRet a)) as [_ HQ]; [unfold is_trace; rewrite Ht; by constructor|]. by apply HQ.
Qed.

Lemma ensures_trigger {X} h (e : osE X) (Q : X → history → Prop) :
  permitted h _ e → (∀ x, Q x (Event _ e x :: h)) → ensures h (ITree.trigger e) Q.
Proof.
  intros He HQ tr Htr. unfold is_trace in Htr. simpl in Htr. dependent destruction Htr; simpl; try (split; [done|naive_solver]).
  simpl in Htr. inversion Htr; subst; simpl; split; naive_solver.
Qed.

Lemma after_suffix {A} h (tr : @trace osE A) : h `suffix_of` after h tr.
Proof.
  revert h. induction tr as [| | |X e x tr IH]; intros h; simpl; try done.
  trans (Event _ e x :: h); [by apply suffix_cons_r|apply IH].
Qed.

(** One step of the tree in front of a continuation; [h0] is where it began. *)
Lemma ensures_bind {A B} h (t : itree osE A) (k : A → itree osE B) (P : A → history → Prop) Q :
  ensures h t P → (∀ a h', h `suffix_of` h' → P a h' → ensures h' (k a) Q) → ensures h (ITree.bind t k) Q.
Proof.
  intros Ht Hk. assert (h `suffix_of` h) as Hh by done. revert Hh Hk. generalize h at 1 3 as h0.
  intros h0 Hh Hk tr Htr. unfold is_trace in Htr. remember (observe (ITree.bind t k)) as o eqn:Ho.
  revert t h Ht Hh Ho. induction Htr as [o|r|t' tr Htr IH|X e k'|X e x k' tr Htr IH]; intros t h Ht Hh Ho;
    [simpl; split; naive_solver| | | |]; rewrite observe_bind in Ho; simpl in Ho;
    destruct (observe t) as [a|t1|X1 e1 k1] eqn:Hobs; simpl in Ho; try discriminate Ho;
    try (apply (Hk a h); [done|by eapply ensures_done|unfold is_trace; rewrite <-Ho; by constructor]).
  - injection Ho as ->. apply (IH t1); [by eapply ensures_tau|done|done].
  - destruct (ensures_vis _ _ _ _ _ Hobs Ht) as [Hp _]. dependent destruction Ho. by simpl.
  - destruct (ensures_vis _ _ _ _ _ Hobs Ht) as [Hp Hx]. dependent destruction Ho.
    destruct (IH (k1 x) (Event _ e1 x :: h)) as [Hg HQ]; [done|by apply suffix_cons_r|done|]. simpl. by split.
Qed.

Lemma ensures_iter {I R} (Inv : I → history → Prop) (body : I → itree osE (I + R)) Q i h :
  (∀ i h, Inv i h → ensures h (body i) (λ r h', match r with inl i' => Inv i' h' | inr r => Q r h' end)) →
  Inv i h → ensures h (ITree.iter body i) Q.
Proof.
  intros Hbody Hi tr Htr.
  assert (∀ o tr, is_traceF o tr → ∀ (t : itree osE (I + R)) h,
    ensures h t (λ r h', match r with inl i' => Inv i' h' | inr r => Q r h' end) →
    o = observe (ITree.bind t (λ r, match r with inl i' => Tau (ITree.iter body i') | inr r => Ret r end)) →
    guarded permitted h tr ∧ ∀ a, trace_ret tr = Some a → Q a (after h tr)) as Hmain.
  { clear -Hbody. intros o tr Htr. induction Htr as [o|r|t' tr Htr IH|X e k'|X e x k' tr Htr IH]; intros t h Ht Ho;
      [simpl; split; naive_solver| | | |]; rewrite observe_bind in Ho; simpl in Ho;
      destruct (observe t) as [[i'|a]|t1|X1 e1 k1] eqn:Hobs; simpl in Ho; try discriminate Ho.
    - injection Ho as ->. pose proof (ensures_done _ _ _ _ Hobs Ht) as HQ. simpl. split; [done|]. by intros ? [= <-].
    - injection Ho as ->. apply (IH (body i')); [apply Hbody; exact (ensures_done _ _ _ _ Hobs Ht)|reflexivity].
    - injection Ho as ->. apply (IH t1); [by eapply ensures_tau|done].
    - destruct (ensures_vis _ _ _ _ _ Hobs Ht) as [Hp _]. dependent destruction Ho. by simpl.
    - destruct (ensures_vis _ _ _ _ _ Hobs Ht) as [Hp Hx]. dependent destruction Ho.
      destruct (IH (k1 x) (Event _ e1 x :: h)) as [Hg HQ]; [done|done|]. simpl. by split. }
  apply (Hmain _ _ Htr (body i)); [by apply Hbody|reflexivity].
Qed.
End ensures.

(** ** Scripts: what holds when they return *)

Section does.
Context (permitted : history → ∀ X, osE X → Prop).

Definition does {A} (h : history) (m : Script A) (Q : A → history → Prop) : Prop :=
  ensures permitted h m (λ o h', match o with Ok a => Q a h' | Throw _ => True end).

Lemma does_ret {A} h (a : A) (Q : A → history → Prop) : Q a h → does h (mret a) Q.
Proof. intros. by apply ensures_ret. Qed.

Lemma does_raise {A} h e (Q : A → history → Prop) : does h (raise e) Q.
Proof. by apply ensures_ret. Qed.

Lemma does_weaken {A} h (m : Script A) (P Q : A → history → Prop) :
  does h m P → (∀ a h', h `suffix_of` h' → P a h' → Q a h') → does h m Q.
Proof.
  intros Hm HPQ tr Htr. destruct (Hm tr Htr) as [Hg HQ]. split; [done|].
  intros [a|e] Ha; [|done]. apply HPQ; [apply after_suffix|exact (HQ _ Ha)].
Qed.

Lemma does_bind {A B} h (m : Script A) (k : A → Script B) P Q :
  does h m P → (∀ a h', h `suffix_of` h' → P a h' → does h' (k a) Q) → does h (m ≫= k) Q.
Proof.
  intros Hm Hk. eapply ensures_bind; [exact Hm|]. intros [a|e] h' Hh HP; [by apply Hk|by apply ensures_ret].
Qed.

Lemma does_os {X} h (e : osE X) (Q : X → history → Prop) :
  permitted h _ e → (∀ x, Q x (Event _ e x :: h)) → does h (os e) Q.
Proof.
  intros He HQ. eapply ensures_bind; [apply (ensures_trigger _ _ _ (λ x h', h' = Event _ e x :: h)); auto|].
  intros x ? _ ->. by apply ensures_ret.
Qed.

(** The first call of a script. *)
Lemma does_os_bind {X B} h (e : osE X) (k : X → Script B) Q :
  permitted h _ e → (∀ x, does (Event _ e x :: h) (k x) Q) → does h (os e ≫= k) Q.
Proof.
  intros He Hk. apply (does_bind _ _ _ (λ x h', h' = Event _ e x :: h)); [by apply does_os|].
  intros x ? _ ->. apply Hk.
Qed.

Lemma does_rescue {A} h (m : Script A) k Q :
  does h m Q → (∀ e h', h `suffix_of` h' → does h' (k e) Q) → does h (rescue m k) Q.
Proof.
  intros Hm Hk. eapply ensures_bind; [exact Hm|]. intros [a|e] h' Hh HP; [by apply ensures_ret|by apply Hk].
Qed.

Lemma does_loop {I R} (Inv : I → history → Prop) (body : I → Script (I + R)) i h Q :
  (∀ i h, Inv i h → does h (body i) (λ r h', match r with inl i' => Inv i' h' | inr r => Q r h' end)) →
  Inv i h → does h (loop body i) Q.
Proof.
  intros Hbody. apply ensures_iter. intros j g Hj. eapply ensures_bind; [by apply Hbody|].
  intros [[i'|r]|e] h' _ HP; by apply ensures_ret.
Qed.

(** Facts that stay true as the history grows. *)
Definition stable (P : history → Prop) : Prop := ∀ h h', h `suffix_of` h' → P h → P h'.

Lemma does_each {A B} (R : B → history → Prop) (f : A → Script B) l h :
  (∀ y, stable (R y)) → (∀ x h', x ∈ l → h `suffix_of` h' → does h' (f x) (λ y h'', R y h'')) →
  does h (each f l) (λ ys h', ∀ y, y ∈ ys → R y h').
Proof.
  intros HR. revert h. induction l as [|x l IH]; intros h Hf; simpl.
  { apply does_ret. intros y Hy. by apply elem_of_nil in Hy. }
  eapply does_bind; [apply Hf; [left|done]|]. intros y h1 H1 Hy.
  eapply does_bind; [apply IH; intros z g Hz Hg; apply Hf; [by right|by trans h1]|]. intros ys h2 H2 Hys.
  apply does_ret. intros z [->|Hz]%elem_of_cons; [by eapply HR|by apply Hys].
Qed.

Lemma does_all {A} (R : A → history → Prop) (f : A → Script unit) l h :
  (∀ x, stable (R x)) → (∀ x h', x ∈ l → h `suffix_of` h' → does h' (f x) (λ _ h'', R x h'')) →
  does h (all f l) (λ _ h', ∀ x, x ∈ l → R x h').
Proof.
  intros HR. revert h. induction l as [|x l IH]; intros h Hf; simpl.
  { apply does_ret. intros x Hx. by apply elem_of_nil in Hx. }
  eapply ensures_bind; [apply (Hf x h); [left|done]|]. intros o h1 H1 Ho.
  eapply ensures_bind; [apply (IH h1); intros z g Hz Hg; apply Hf; [by right|by trans h1]|].
  intros o' h2 H2 Ho'. apply ensures_ret. destruct o as [[]|e]; [|done]. destruct o' as [[]|e]; [|done].
  intros z Hz. apply elem_of_cons in Hz as [->|Hz]; [by eapply HR|by apply Ho'].
Qed.

(** A script that may always run, whatever it finds. *)
Definition harmless {A} (m : Script A) : Prop := ∀ h, does h m (λ _ _, True).

Lemma harmless_ret {A} (a : A) : harmless (mret a).
Proof. intros h. by apply does_ret. Qed.
Lemma harmless_raise {A} e : harmless (@raise A e).
Proof. intros h. by apply does_raise. Qed.
Lemma harmless_bind {A B} (m : Script A) (k : A → Script B) : harmless m → (∀ a, harmless (k a)) → harmless (m ≫= k).
Proof. intros Hm Hk h. eapply does_bind; [apply Hm|]. intros a h' _ _. apply Hk. Qed.
Lemma harmless_os {X} (e : osE X) : (∀ h, permitted h _ e) → harmless (os e).
Proof. intros He h. by apply does_os. Qed.
Lemma harmless_each {A B} (f : A → Script B) l : (∀ x, harmless (f x)) → harmless (each f l).
Proof.
  intros Hf. induction l as [|x l IH]; simpl; [apply harmless_ret|].
  apply harmless_bind; [done|]. intros y. apply harmless_bind; [done|]. intros ys. apply harmless_ret.
Qed.
Lemma harmless_some {A} (f : A → Script bool) l : (∀ x, harmless (f x)) → harmless (some f l).
Proof.
  intros Hf. induction l as [|x l IH]; simpl; [apply harmless_ret|].
  apply harmless_bind; [done|]. intros []; [apply harmless_ret|done].
Qed.
Lemma harmless_loop {I R} (body : I → Script (I + R)) i : (∀ i, harmless (body i)) → harmless (loop body i).
Proof.
  intros Hbody h. apply (does_loop (λ _ _, True)); [|done]. intros j g _.
  eapply does_weaken; [apply Hbody|]. by intros [].
Qed.
End does.

Create HintDb harmless.
#[export] Hint Resolve harmless_ret harmless_raise harmless_bind harmless_each harmless_some harmless_loop : harmless.

(** Closes [harmless] of a script made of calls that are always permitted. *)
Ltac harmless := repeat (first
  [ done | progress intros | match goal with H : harmless _ _ |- _ => exact H end
  | apply harmless_ret | apply harmless_raise | apply harmless_os; intros; simpl; done
  | apply harmless_bind | apply harmless_each | apply harmless_some | apply harmless_loop
  | match goal with |- harmless _ (match ?x with _ => _ end) => destruct x end
  | progress (eauto 1 with harmless) ]).

(** ** What the commands may do *)

Definition answered {X} (h : history) (e : osE X) (x : X) : Prop := Event _ e x ∈ h.

Lemma answered_stable {X} (e : osE X) x : stable (λ h, answered h e x).
Proof. intros h h' [k ->] H. apply elem_of_app. by right. Qed.

Lemma answered_now {X} (e : osE X) x h : answered (Event _ e x :: h) e x.
Proof. by left. Qed.

(** The set of groups the loop collects. *)
Lemma elem_of_groups (found : list (list (option Z))) g :
  g ∈ foldl (λ groups g, set_add g groups) [] (omap id (mjoin found)) ↔ ∃ gs, gs ∈ found ∧ Some g ∈ gs.
Proof.
  assert (∀ l acc, g ∈ foldl (λ groups g, set_add g groups) acc l ↔ g ∈ acc ∨ g ∈ l) as Hfold.
  { induction l as [|x l IH]; intros acc; simpl; [set_solver|]. rewrite IH, elem_of_set_add, elem_of_cons. tauto. }
  rewrite Hfold, list_elem_of_omap. setoid_rewrite list_elem_of_join. set_solver.
Qed.

Section commands.
Context (win32 : bool) (repositoryRoot : string).
Abbreviation statePath := (stackStatePath repositoryRoot).

(** The state file of this repository names a supervisor. *)
Definition recorded (h : history) (pid : Z) : Prop := ∃ state,
  answered h (ReadFile statePath) (FileJson state) ∧ isText (member state "repositoryRoot") repositoryRoot = true ∧
  positivePid (member state "supervisorPid") = Some pid.

(** A process was seen to be a supervisor; it was seen not to be one. *)
Definition supervising (h : history) (pid : Z) : Prop :=
  answered h (Kill pid SIG0) Delivered ∧
  (win32 = true ∨ ∃ command, answered h (askCommand pid) (Some command) ∧ isSupervisor command = true).

Definition unsupervised (h : history) (pid : Z) : Prop :=
  (∃ k, k ≠ Delivered ∧ answered h (Kill pid SIG0) k) ∨
  (∃ o, answered h (askCommand pid) o ∧ match o with Some command => isSupervisor command = false | None => True end).

(** A group of a process of this repository that listens on a port of the
    services; a group the script started. *)
Definition workspaceGroup (h : history) (g : Z) : Prop := ∃ service listing pid place directory group,
  service ∈ services ∧
  answered h (askListeners (s_port service)) (Some listing) ∧ pid ∈ readListeners listing ∧
  answered h (askDirectory pid) (Some place) ∧ readDirectory place = Some directory ∧
  inWorkspace repositoryRoot directory = true ∧
  answered h (askGroup pid) (Some group) ∧ readGroup group = Some g.

Definition startedGroup (h : history) (g : Z) : Prop := ∃ index command, answered h (Spawn index command) (Some (Some g)).

(** The state that was read names no supervisor, or one that is gone. *)
Definition cleared (h : history) : Prop := ∃ f, answered h (ReadFile statePath) f ∧
  ∀ state pid, f = FileJson state → isText (member state "repositoryRoot") repositoryRoot = true →
    positivePid (member state "supervisorPid") = Some pid → unsupervised h pid.

Definition permitted (resetting : bool) (h : history) (X : Type) (e : osE X) : Prop :=
  match e with
  | Kill _ SIG0 => True
  | Kill target signal =>
      (signal = SIGTERM ∧ recorded h target ∧ supervising h target) ∨
      (∃ g, target = (- g)%Z ∧ (workspaceGroup h g ∨ startedGroup h g))
  | Spawn _ _ =>
      (∀ service, service ∈ services → answered h (Listen (s_port service)) Listening) ∧
      answered h (RunCommand (pnpm win32 :: migrate)) (Exited 0)
  | RunCommand command => command = docker win32 :: removeVolumes →
      resetting = true ∧ cleared h ∧ answered h (Rm statePath) true
  | Rm path | WriteFile path _ => path = statePath
  | Mkdir path => path = localRuntimeDirectory repositoryRoot ∨ path = localStorageRoot repositoryRoot +:+ "/imports"
  | _ => True
  end.

Lemma answered_more {X} (e : osE X) x h h' : h `suffix_of` h' → answered h e x → answered h' e x.
Proof. apply answered_stable. Qed.
#[local] Hint Resolve answered_more answered_now : core.

Lemma recorded_stable pid : stable (λ h, recorded h pid).
Proof. intros h h' Hs (state & ? & ? & ?). exists state. eauto. Qed.
Lemma supervising_stable pid : stable (λ h, supervising h pid).
Proof. intros h h' Hs [? [?|(command & ? & ?)]]; split; eauto 6. Qed.
Lemma unsupervised_stable pid : stable (λ h, unsupervised h pid).
Proof. intros h h' Hs [(k & ? & ?)|(o & ? & ?)]; [left|right]; eauto. Qed.
Lemma workspaceGroup_stable g : stable (λ h, workspaceGroup h g).
Proof.
  intros h h' Hs (service & listing & pid & place & directory & group & ? & ? & ? & ? & ? & ? & ? & ?).
  exists service, listing, pid, place, directory, group. split_and!; eauto.
Qed.
Lemma startedGroup_stable g : stable (λ h, startedGroup h g).
Proof. intros h h' Hs (i & command & ?). exists i, command. eauto. Qed.

Section scripts.
Context (resetting : bool).
Abbreviation does := (does (permitted resetting)).
Abbreviation harmless := (harmless (permitted resetting)).

Lemma log_harmless line : harmless (os (Log line)).
Proof. by apply harmless_os. Qed.

Lemma isOwnedSupervisor_does h v : does h (isOwnedSupervisor win32 v) (λ b h',
  if b then ∃ pid, positivePid v = Some pid ∧ supervising h' pid
  else ∀ pid, positivePid v = Some pid → unsupervised h' pid).
Proof.
  unfold isOwnedSupervisor. destruct (positivePid v) as [pid|]; [|by apply does_ret].
  apply does_os_bind; [done|]. intros k. destruct k.
  2,3: apply does_ret; intros ? [= <-]; left; eexists; split; [|by left]; done.
  destruct win32 eqn:Hw; [apply does_ret; exists pid; split; [done|]; split; [by left|by left]|].
  apply does_os_bind; [done|]. intros o. apply does_ret.
  destruct o as [command|]; [destruct (isSupervisor command) eqn:Hc|].
  - exists pid. split; [done|]. split; [right; by left|]. right. exists command. split; [by left|done].
  - intros ? [= <-]. right. exists (Some command). split; [by left|done].
  - intros ? [= <-]. right. exists None. split; [by left|done].
Qed.

Lemma isOwnedSupervisor_harmless v : harmless (isOwnedSupervisor win32 v).
Proof. intros h. by eapply does_weaken; [apply isOwnedSupervisor_does|]. Qed.

Lemma waitWhile_harmless condition timeout : harmless condition → harmless (waitWhile condition timeout).
Proof.
  intros Hc. unfold waitWhile. apply harmless_bind; [by apply harmless_os|]. intros start. apply harmless_loop. intros _.
  apply harmless_bind; [done|]. intros []; [|apply harmless_ret]. apply harmless_bind; [by apply harmless_os|].
  intros now. case_decide; [|apply harmless_ret]. apply harmless_bind; [by apply harmless_os|]. intros. apply harmless_ret.
Qed.

Lemma readStackState_does h : does h (readStackState repositoryRoot) (λ s h',
  match s with
  | Some state => answered h' (ReadFile statePath) (FileJson state) ∧ isText (member state "repositoryRoot") repositoryRoot = true
  | None => cleared h'
  end).
Proof.
  unfold readStackState. apply does_os_bind; [done|]. intros f.
  destruct f as [state| | |]; try apply does_raise.
  - assert (does (Event osE (ReadFile statePath) (FileJson state) :: h)
      (mret (if isText (member state "repositoryRoot") repositoryRoot then Some state else None) : Script _)
      (λ s h', match s with
        | Some state => answered h' (ReadFile statePath) (FileJson state) ∧ isText (member state "repositoryRoot") repositoryRoot = true
        | None => cleared h' end)) as Hd.
    { apply does_ret. destruct (isText _ _) eqn:Ht; [split; [by left|done]|].
      exists (FileJson state). split; [by left|]. intros ? pid [= <-] Ht'. congruence. }
    destruct state; [apply does_raise|exact Hd..].
  - apply does_ret. exists FileMissing. split; [by left|]. done.
Qed.

Lemma waitForSupervisorExit_does h v : does h (waitForSupervisorExit win32 v) (λ b h',
  b = true → ∀ pid, positivePid v = Some pid → unsupervised h' pid).
Proof.
  unfold waitForSupervisorExit. eapply does_bind; [apply waitWhile_harmless, isOwnedSupervisor_harmless|].
  intros _ h1 _ _. eapply does_bind; [apply isOwnedSupervisor_does|]. intros b h2 _ Hb.
  apply does_ret. destruct b; [done|]. by intros _.
Qed.

Lemma terminateSupervisor_does h log v pid :
  positivePid v = Some pid → recorded h pid → supervising h pid →
  does h (terminateSupervisor win32 log v) (λ _ h', unsupervised h' pid).
Proof.
  intros Hv Hr Hs. unfold terminateSupervisor. apply does_os_bind; [done|]. intros []. rewrite Hv.
  eapply does_bind with (P := λ _ _, True).
  - unfold kill. apply does_os_bind; [|intros []; [by apply does_ret|apply does_raise..]].
    left. split; [done|]. split; [apply (recorded_stable pid h)|apply (supervising_stable pid h)]; try done; by apply suffix_cons_r.
  - intros _ h1 _ _. eapply does_bind; [apply waitForSupervisorExit_does|]. intros gone h2 _ Hgone. simpl in Hgone.
    destruct gone; [|apply does_raise]. apply does_ret. by apply Hgone.
Qed.

(** The supervisor the state file names, stopped when it runs. *)
Lemma clear_does h log state :
  answered h (ReadFile statePath) (FileJson state) → isText (member state "repositoryRoot") repositoryRoot = true →
  does h (owned ← isOwnedSupervisor win32 (member state "supervisorPid");
          if owned : bool then terminateSupervisor win32 log (member state "supervisorPid") else mret ())
    (λ _ h', cleared h').
Proof.
  intros Hread Htext. eapply does_bind; [apply isOwnedSupervisor_does|]. intros owned h1 H1 Hb. simpl in Hb.
  assert (∀ h', h `suffix_of` h' → (∀ pid, positivePid (member state "supervisorPid") = Some pid → unsupervised h' pid) →
    cleared h') as Hclear.
  { intros h' Hh' Hun. exists (FileJson state). split; [eauto|]. intros ? pid [= <-] _ Hpid. by apply Hun. }
  destruct owned; [|apply does_ret; by apply Hclear].
  destruct Hb as (pid & Hpid & Hsup).
  eapply does_weaken; [apply (terminateSupervisor_does _ _ _ pid); [done| |done]|].
  - exists state. eauto.
  - intros [] h2 H2 Hun. simpl in Hun. apply Hclear; [by trans h1|]. intros pid' Hp. rewrite Hpid in Hp. injection Hp as <-. done.
Qed.

(** *** Listeners of the repository *)

(** A listener of a service's port, and one that belongs to the repository. *)
Definition listener (h : history) (service : Service) (pid : Z) : Prop := ∃ listing,
  answered h (askListeners (s_port service)) (Some listing) ∧ pid ∈ readListeners listing.
Definition workspaceListener (h : history) (pid : Z) : Prop := ∃ place directory,
  answered h (askDirectory pid) (Some place) ∧ readDirectory place = Some directory ∧ inWorkspace repositoryRoot directory = true.

Lemma listener_stable service pid : stable (λ h, listener h service pid).
Proof. intros h h' Hs (listing & ? & ?). exists listing. eauto. Qed.
Lemma workspaceListener_stable pid : stable (λ h, workspaceListener h pid).
Proof. intros h h' Hs (place & directory & ? & ? & ?). exists place, directory. eauto. Qed.

Lemma listeningProcessIds_does h service : does h (listeningProcessIds win32 (s_port service)) (λ pids h',
  ∀ pid, pid ∈ pids → listener h' service pid).
Proof.
  unfold listeningProcessIds. destruct win32.
  - apply does_ret. intros pid Hp. by apply elem_of_nil in Hp.
  - apply does_os_bind; [done|]. intros o. apply does_ret. destruct o as [listing|]; simpl; [|intros pid Hp; by apply elem_of_nil in Hp].
    intros pid Hp. exists listing. by split; [left|].
Qed.

Lemma isWorkspaceProcess_does h pid : does h (isWorkspaceProcess repositoryRoot pid) (λ b h', b = true → workspaceListener h' pid).
Proof.
  unfold isWorkspaceProcess, processWorkingDirectory. eapply does_bind with
    (P := λ d h', ∀ directory, d = Some directory → ∃ place, answered h' (askDirectory pid) (Some place) ∧ readDirectory place = Some directory).
  - apply does_os_bind; [done|]. intros o. apply does_ret. intros directory (place & -> & Hd)%bind_Some.
    exists place. by split; [left|].
  - intros d h1 _ Hd. simpl in Hd. apply does_ret. destruct d as [directory|]; [|done]. intros Hin.
    destruct (Hd _ eq_refl) as (place & ? & ?). by exists place, directory.
Qed.

Lemma processGroupId_does h pid : does h (processGroupId pid) (λ g h',
  ∀ group, g = Some group → ∃ text, answered h' (askGroup pid) (Some text) ∧ readGroup text = Some group).
Proof.
  apply does_os_bind; [done|]. intros o. apply does_ret. intros group (text & -> & Hg)%bind_Some.
  exists text. by split; [left|].
Qed.

Lemma workspaceGroupOf_does h service pid : service ∈ services → listener h service pid →
  does h (workspaceGroupOf repositoryRoot pid) (λ g h', ∀ group, g = Some group → workspaceGroup h' group).
Proof.
  intros Hin Hl. eapply does_bind; [apply isWorkspaceProcess_does|]. intros b h1 H1 Hb. simpl in Hb.
  destruct b; [|by apply does_ret]. eapply does_weaken; [apply processGroupId_does|]. intros g h2 H2 Hg group ->.
  destruct (Hg _ eq_refl) as (text & Htext & Hread).
  destruct (workspaceListener_stable pid _ _ H2 (Hb eq_refl)) as (place & directory & ? & ? & ?).
  destruct (listener_stable service pid h h2) as (listing & ? & ?); [by trans h1|done|].
  by exists service, listing, pid, place, directory, text.
Qed.

Lemma signalProcessGroup_does h g signal : workspaceGroup h g → does h (signalProcessGroup g signal) (λ _ _, True).
Proof.
  intros Hg. unfold signalProcessGroup. apply does_os_bind.
  - destruct signal; [done|right|right]; exists g; by split; [|left].
  - intros []; [by apply does_ret..|apply does_raise].
Qed.

Lemma workspaceGroups_does h service : service ∈ services →
  does h (workspaceGroups win32 repositoryRoot service) (λ gs h', ∀ g, Some g ∈ gs → workspaceGroup h' g).
Proof.
  intros Hin. unfold workspaceGroups. eapply does_bind; [apply listeningProcessIds_does|]. intros pids h1 _ Hp. simpl in Hp.
  eapply does_weaken; [apply (does_each _ (λ g h, ∀ group, g = Some group → workspaceGroup h group))|].
  - intros g h' h'' Hs Hw group Hg. eapply workspaceGroup_stable; [done|by apply Hw].
  - intros pid h2 Hpid H2. apply (workspaceGroupOf_does _ service); [done|]. eapply listener_stable; [done|by apply Hp].
  - intros gs h2 _ Hgs g Hg. by apply (Hgs (Some g)).
Qed.

Lemma killListeners_harmless service : service ∈ services → harmless (killListeners win32 repositoryRoot service).
Proof.
  intros Hin h. unfold killListeners. eapply does_bind; [apply listeningProcessIds_does|]. intros pids h1 _ Hp. simpl in Hp.
  eapply does_bind; [apply (does_each _ (λ _ _, True)); [done|]|intros; by apply does_ret].
  intros pid h2 Hpid H2. eapply does_bind; [apply (workspaceGroupOf_does _ service); [done|]|].
  - eapply listener_stable; [done|by apply Hp].
  - intros [g|] h3 H3 Hg; [|by apply does_ret]. apply signalProcessGroup_does. by apply Hg.
Qed.

Lemma isWorkspaceProcess_harmless pid : harmless (isWorkspaceProcess repositoryRoot pid).
Proof. intros h. by eapply does_weaken; [apply isWorkspaceProcess_does|]. Qed.

Lemma hasWorkspaceListener_harmless service : harmless (hasWorkspaceListener win32 repositoryRoot service).
Proof.
  apply harmless_bind; [intros h; by eapply does_weaken; [apply listeningProcessIds_does|]|].
  intros pids. apply harmless_some. intros. apply isWorkspaceProcess_harmless.
Qed.

Lemma stopOrphanedServices_harmless : harmless (stopOrphanedServices win32 repositoryRoot).
Proof.
  intros h. unfold stopOrphanedServices. destruct win32 eqn:Hw; [by apply does_ret|]. rewrite <-Hw.
  eapply does_bind; [apply (does_each _ (λ gs h, ∀ g, Some g ∈ gs → workspaceGroup h g))|].
  { intros gs h' h'' Hs Hg g Hin. eapply workspaceGroup_stable; [done|by apply Hg]. }
  { intros service h' Hin _. by apply workspaceGroups_does. }
  intros found h1 _ Hfound. simpl in Hfound. case_decide; [by apply does_ret|].
  apply does_os_bind; [done|]. intros []. set (h2 := _ :: h1).
  eapply does_bind; [apply (does_each _ (λ _ _, True)); [done|]|].
  { intros g h3 Hg H3. apply signalProcessGroup_does. rewrite elem_of_groups in Hg.
    destruct Hg as (gs & Hgs & Hg). apply (workspaceGroup_stable g h1); [|by apply (Hfound gs)].
    trans h2; [by apply suffix_cons_r|done]. }
  intros _ h3 _ _. eapply does_bind; [apply waitWhile_harmless, harmless_some, hasWorkspaceListener_harmless|].
  intros _ h4 _ _. eapply does_bind; [apply (does_each _ (λ _ _, True)); [done|]|intros; by apply does_ret].
  intros service h5 Hin _. by apply killListeners_harmless.
Qed.

(** *** Commands, ports and services *)

Lemma run_does h command arguments : permitted resetting h _ (RunCommand (command :: arguments)) →
  does h (run command arguments) (λ _ h', answered h' (RunCommand (command :: arguments)) (Exited 0)).
Proof.
  intros Hp. unfold run. apply does_os_bind; [done|]. intros []. apply does_os_bind.
  - simpl in *. intros Heq. destruct (Hp Heq) as (? & (f & ? & Hf) & ?). split; [done|]. split; [|by right].
    exists f. split; [by right|]. intros state pid ? ? ?. eapply unsupervised_stable; [by apply suffix_cons_r|by eapply Hf].
  - intros [code|signal|]; [|apply does_raise..]. destruct code; [|apply does_raise..]. apply does_ret. by left.
Qed.

(** Every command but the removal of the volumes. *)
Lemma run_other_does h command arguments : command :: arguments ≠ docker win32 :: removeVolumes →
  does h (run command arguments) (λ _ h', answered h' (RunCommand (command :: arguments)) (Exited 0)).
Proof. intros Hne. apply run_does. simpl. congruence. Qed.

Lemma run_other_harmless command arguments : command :: arguments ≠ docker win32 :: removeVolumes → harmless (run command arguments).
Proof. intros Hne h. by eapply does_weaken; [apply run_other_does|]. Qed.

Lemma demand_does h e : permitted resetting h _ e → does h (demand_ok e) (λ _ h', answered h' e true).
Proof.
  intros He. apply does_os_bind; [done|]. intros []; [|apply does_raise]. apply does_ret. by left.
Qed.

Lemma demand_harmless e : (∀ h, permitted resetting h _ e) → harmless (demand_ok e).
Proof. intros He h. by eapply does_weaken; [apply demand_does|]. Qed.

Lemma ports_does h : does h (all ensureServicePortAvailable services) (λ _ h',
  ∀ service, service ∈ services → answered h' (Listen (s_port service)) Listening).
Proof.
  apply does_all; [intros; apply answered_stable|]. intros service h' _ _. apply does_os_bind; [done|].
  intros []; [|apply does_raise..]. apply does_ret. by left.
Qed.

Definition startable (h : history) : Prop :=
  (∀ service, service ∈ services → answered h (Listen (s_port service)) Listening) ∧
  answered h (RunCommand (pnpm win32 :: migrate)) (Exited 0).

Lemma startable_stable : stable startable.
Proof. intros h h' Hs [Hl ?]. split; [intros service Hin; eapply answered_more; [done|by apply Hl]|eauto]. Qed.

(** A child is in a group of its own. *)
Definition ownChild (child : Child) (h : history) : Prop := ∀ pid, child_pid child = Some pid → startedGroup h pid.

Lemma ownChild_stable child : stable (ownChild child).
Proof. intros h h' Hs Hc pid Hp. eapply startedGroup_stable; [done|by apply Hc]. Qed.

Lemma startService_does h index service : startable h →
  does h (startService win32 index service) (λ child h', ownChild child h').
Proof.
  intros Hs. apply does_os_bind; [exact Hs|]. intros [pid|]; [|apply does_raise]. apply does_ret.
  intros g Hg. simpl in Hg. subst. exists index, (pnpm win32 :: s_arguments service). by left.
Qed.

Lemma isServiceRunning_harmless child : harmless (isServiceRunning win32 child).
Proof.
  unfold isServiceRunning. destruct (groupOf win32 child); [|by apply harmless_os].
  apply harmless_bind; [by apply harmless_os|]. intros. apply harmless_ret.
Qed.

Lemma signalService_does h child signal : ownChild child h → does h (signalService win32 child signal) (λ _ _, True).
Proof.
  intros Hc. unfold signalService, groupOf. destruct win32; [by apply does_os|].
  destruct (child_pid child) as [pid|] eqn:Hpid; [|by apply does_os]. apply does_os_bind.
  - destruct signal; [done|right|right]; exists pid; (split; [done|]); right; by apply Hc.
  - intros []; [by apply does_ret..|apply does_raise].
Qed.

Lemma waitForServiceExit_harmless child timeout : harmless (waitForServiceExit win32 child timeout).
Proof.
  apply harmless_bind; [apply waitWhile_harmless, isServiceRunning_harmless|]. intros _.
  apply harmless_bind; [apply isServiceRunning_harmless|]. intros. apply harmless_ret.
Qed.

Lemma stopService_does h child : ownChild child h → does h (stopService win32 child) (λ _ _, True).
Proof.
  intros Hc. unfold stopService. eapply does_bind; [apply isServiceRunning_harmless|]. intros alive h1 H1 _.
  destruct alive; [|by apply does_ret]. eapply does_bind; [apply signalService_does; by eapply ownChild_stable|].
  intros _ h2 H2 _. eapply does_bind; [apply waitForServiceExit_harmless|]. intros gone h3 H3 _.
  destruct gone; [by apply does_ret|]. eapply does_bind; [apply signalService_does|].
  - apply (ownChild_stable child h); [|done]. trans h1; [done|]. by trans h2.
  - intros _ h4 _ _. eapply does_bind; [apply waitForServiceExit_harmless|]. intros. by apply does_ret.
Qed.

Lemma shutdown_does h children code : (∀ child, child ∈ children → ownChild child h) →
  does h (shutdown win32 repositoryRoot children code) (λ _ _, True).
Proof.
  intros Hc. unfold shutdown. apply does_os_bind; [done|]. intros []. eapply does_bind.
  { apply (does_all _ (λ _ _, True)); [done|]. intros child h' Hin Hs. apply stopService_does.
    apply (ownChild_stable child h); [|by apply Hc]. etrans; [|exact Hs]. by apply suffix_cons_r. }
  intros _ h1 _ _. eapply does_bind; [by apply demand_harmless|]. intros _ h2 _ _.
  apply does_os_bind; [done|]. intros []. by apply does_os.
Qed.

Lemma supervise_does h children : (∀ child, child ∈ children → ownChild child h) →
  does h (supervise win32 repositoryRoot children) (λ _ _, True).
Proof.
  intros Hc. assert (∀ h', h `suffix_of` h' → ∀ child, child ∈ children → ownChild child h') as Hc'.
  { intros h' Hs child Hin. eapply ownChild_stable; [done|by apply Hc]. }
  apply does_os_bind; [done|]. intros [index code signal| |].
  - apply does_os_bind; [done|]. intros []. apply shutdown_does, Hc'. by do 2 apply suffix_cons_r.
  - apply shutdown_does, Hc'. by apply suffix_cons_r.
  - apply shutdown_does, Hc'. by apply suffix_cons_r.
Qed.

Lemma requireEnvironment_harmless : harmless (requireLocalDatabaseEnvironment repositoryRoot).
Proof.
  apply harmless_bind; [by apply harmless_os|]. intros []; [|apply harmless_raise].
  apply harmless_bind; [by apply demand_harmless|]. intros _. apply harmless_bind; [by apply harmless_os|].
  intros url. case_decide; [apply harmless_raise|apply harmless_ret].
Qed.

Lemma useDevelopmentStorage_harmless : harmless (useDevelopmentStorage repositoryRoot).
Proof.
  apply harmless_bind; [by apply harmless_os|]. intros e. apply harmless_bind.
  { destruct e; [apply harmless_ret|by apply harmless_os]. }
  intros _. apply harmless_bind; [by apply harmless_os|]. intros r. case_decide; [|apply harmless_ret].
  apply demand_harmless. intros h. by right.
Qed.

Lemma not_volumes_pnpm arguments : pnpm win32 :: arguments ≠ docker win32 :: removeVolumes.
Proof. unfold pnpm, docker. by destruct win32. Qed.
Lemma not_volumes_uv arguments : "uv" :: arguments ≠ docker win32 :: removeVolumes.
Proof. unfold docker. by destruct win32. Qed.
#[local] Hint Resolve not_volumes_pnpm not_volumes_uv run_other_harmless : core.

Lemma buildPackages_harmless : harmless (buildPackages win32).
Proof. by apply run_other_harmless. Qed.

Lemma checkGeneratedArtifacts_harmless : harmless (checkGeneratedArtifacts win32).
Proof. repeat (apply harmless_bind; [by apply run_other_harmless|intros _]). by apply run_other_harmless. Qed.

Lemma generateArtifacts_harmless : harmless (generateArtifacts win32).
Proof.
  do 3 (apply harmless_bind; [by apply run_other_harmless|intros _]).
  apply harmless_bind; [apply buildPackages_harmless|]. intros _. by apply run_other_harmless.
Qed.

(** Services start once their ports are free and the store is migrated. *)
Lemma migrated_does h : does h (rescue (run (pnpm win32) migrate) (λ _, error "Database migrations failed. Inspect the existing local database before retrying; pnpm stack:reset is available only when its data can be discarded."))
  (λ _ h', answered h' (RunCommand (pnpm win32 :: migrate)) (Exited 0)).
Proof. apply does_rescue; [by apply run_other_does|]. intros. apply does_raise. Qed.

Lemma launch_does h processPid : startable h →
  does h (children ← each (λ '(index, service), startService win32 index service) (zip (seq 0 (length services)) services);
          demand_ok (Mkdir (localRuntimeDirectory repositoryRoot));;
          startedAt ← os Timestamp;
          demand_ok (WriteFile statePath (stackState repositoryRoot processPid startedAt children));;
          os (Log (NEWLINE +:+ "Local stack is running. Press Ctrl+C to stop services; PostgreSQL remains available."));;
          os (Log ("Run pnpm stack:up to restart services or pnpm stack:reset for a fresh local stack." +:+ NEWLINE));;
          supervise win32 repositoryRoot children) (λ _ _, True).
Proof.
  intros Hs. eapply does_bind.
  { apply (does_each _ ownChild); [intros; apply ownChild_stable|]. intros [index service] h' _ H'.
    apply startService_does. by eapply startable_stable. }
  intros children h1 _ Hc. simpl in Hc.
  eapply does_bind; [apply demand_harmless; by left|]. intros _ h2 H2 _.
  apply does_os_bind; [done|]. intros startedAt. eapply does_bind; [by apply demand_harmless|]. intros _ h3 H3 _.
  apply does_os_bind; [done|]. intros []. apply does_os_bind; [done|]. intros [].
  apply supervise_does. intros child Hin. apply (ownChild_stable child h1); [|by apply Hc].
  trans h2; [done|]. etrans; [by apply suffix_cons_r|]. etrans; [exact H3|]. by do 2 apply suffix_cons_r.
Qed.

Lemma startStack_harmless processPid : harmless (startStack win32 repositoryRoot processPid).
Proof.
  intros h. unfold startStack. eapply does_bind; [apply requireEnvironment_harmless|]. intros _ h1 _ _.
  eapply does_bind; [apply readStackState_does|]. intros prior h2 _ Hprior. simpl in Hprior.
  eapply does_bind with (P := λ _ _, True).
  { destruct prior as [state|]; [|by apply does_ret]. destruct Hprior.
    by eapply does_weaken; [apply clear_does|]. }
  intros _ h3 _ _. eapply does_bind; [apply stopOrphanedServices_harmless|]. intros _ h4 _ _.
  eapply does_bind with (P := λ _ _, True).
  { destruct prior; [by apply demand_harmless|by apply does_ret]. }
  intros _ h5 _ _. eapply does_bind; [apply ports_does|]. intros [] h6 _ Hports. simpl in Hports.
  eapply does_bind; [apply run_other_does; unfold docker; by destruct win32|]. intros _ h7 H7 _.
  eapply does_bind; [apply checkGeneratedArtifacts_harmless|]. intros _ h8 H8 _.
  eapply does_bind; [apply buildPackages_harmless|]. intros _ h9 H9 _.
  eapply does_bind; [apply migrated_does|]. intros [] h10 H10 Hmigrated. simpl in Hmigrated.
  eapply does_bind; [apply useDevelopmentStorage_harmless|]. intros _ h11 H11 _.
  apply launch_does. split; [|eauto]. intros service Hin. eapply answered_more; [|by apply Hports].
  trans h7; [done|]. trans h8; [done|]. trans h9; [done|]. by trans h10.
Qed.

Lemma showStackStatus_harmless : harmless (showStackStatus win32 repositoryRoot).
Proof.
  apply harmless_bind. { intros h. by eapply does_weaken; [apply readStackState_does|]. }
  intros state. destruct (recordedServices state) as [recorded'|e]; [|apply harmless_raise].
  apply harmless_bind; [by apply harmless_os|]. intros _. apply harmless_bind.
  - apply harmless_each. intros service. apply harmless_bind; [apply hasWorkspaceListener_harmless|]. intros owned.
    apply harmless_bind.
    + unfold isRecordedServiceRunning. destruct (positivePid _) as [pid|]; [|apply harmless_ret].
      assert (∀ target, harmless (k ← os (Kill target SIG0); mret (match k with Delivered => true | _ => false end) : Script bool)) as Hprobe.
      { intros target. apply harmless_bind; [by apply harmless_os|]. intros. apply harmless_ret. }
      destruct win32; [apply Hprobe|]. apply harmless_bind; [intros h; by eapply does_weaken; [apply processGroupId_does|]|].
      intros [g|]; [apply Hprobe|apply harmless_ret].
    + intros running. apply harmless_bind; [|intros healthy; by apply harmless_os].
      apply harmless_bind; [by apply harmless_os|]. intros. apply harmless_ret.
  - intros _. apply harmless_bind; [by apply harmless_os|]. intros _. apply run_other_harmless.
    unfold docker. by destruct win32.
Qed.
End scripts.

Lemma resetStack_harmless processPid : harmless (permitted true) (resetStack win32 repositoryRoot processPid).
Proof.
  intros h. unfold resetStack. eapply does_bind; [apply requireEnvironment_harmless|]. intros _ h1 _ _.
  eapply does_bind; [apply readStackState_does|]. intros state h2 _ Hstate. simpl in Hstate.
  eapply does_bind with (P := λ _ h', cleared h').
  { destruct state as [state|]; [destruct Hstate; by apply clear_does|by apply does_ret]. }
  intros [] h3 _ Hclear. simpl in Hclear.
  eapply does_bind; [apply stopOrphanedServices_harmless|]. intros _ h4 H4 _.
  eapply does_bind; [by apply demand_does|]. intros [] h5 H5 Hrm. simpl in Hrm.
  eapply does_bind; [apply run_does|].
  - intros _. split; [done|]. split; [|done]. destruct Hclear as (f & Hf & Hun). exists f. split; [eapply answered_more; [|exact Hf]; by trans h4|].
    intros s pid ? ? ?. eapply unsupervised_stable; [|by eapply Hun]. by trans h4.
  - intros _ h6 _ _. apply startStack_harmless.
Qed.

Lemma main_harmless processPid command :
  harmless (permitted (bool_decide (command = "stack-reset"))) (main win32 repositoryRoot processPid command).
Proof.
  unfold main.
  repeat match goal with |- context [if decide (?c = ?x) then _ else _] => destruct (decide (c = x)) as [->|_] end.
  - apply harmless_bind; [apply run_other_harmless, not_volumes_pnpm|intros _]. apply run_other_harmless, not_volumes_uv.
  - apply generateArtifacts_harmless.
  - apply checkGeneratedArtifacts_harmless.
  - apply harmless_bind; [apply requireEnvironment_harmless|intros _]. apply run_other_harmless, not_volumes_pnpm.
  - apply harmless_bind; [apply startStack_harmless|]. by intros [].
  - apply showStackStatus_harmless.
  - apply harmless_bind; [apply resetStack_harmless|]. by intros [].
  - apply harmless_raise.
Qed.
End commands.

