(* ===== verification/DevelopmentRuns.v ===== *)
(** * Runs of the development script

    The script on a machine: a state with an answer to every call. Its waits
    end when the clock of the machine advances, and an example of a machine
    with services an interrupted supervisor left behind. Then the output of
    services, which does not depend on how the streams cut it. *)

From stdpp Require Import pretty.
From ITree Require Import Core.ITreeDefinition Eq.Shallow Interp.Traces.
From S2P Require Import Prelude Js Numbers Paths Development DevelopmentProofs.

(** ** Machines *)

(** [None]: the call does not come back. *)
Class Machine (S : Type) := answer : ∀ X, osE X → S → option (X * S).

Section machine.
Context {S : Type} `{!Machine S}.

Fixpoint replay {A} (fuel : nat) (s : S) (t : itree osE A) : @trace osE A :=
  match fuel with
  | O => TEnd
  | Datatypes.S fuel =>
      match observe t with
      | RetF a => TRet a
      | TauF t => replay fuel s t
      | VisF e k => match answer _ e s with
                    | Some (x, s) => TEventResponse e x (replay fuel s (k x))
                    | None => TEventEnd e
                    end
      end
  end.

Lemma replay_is_trace {A} fuel s (t : itree osE A) : is_trace t (replay fuel s t).
Proof.
  revert s t. induction fuel as [|fuel IH]; intros s t; simpl; [constructor|].
  unfold is_trace. destruct (observe t) as [a|t'|X e k]; [constructor| |].
  - constructor. apply IH.
  - destruct (answer X e s) as [[x s']|]; constructor. apply IH.
Qed.

(** A tree that comes back with a result. *)
Inductive returns {A} (s : S) (t : itree osE A) (a : A) (s' : S) : Prop :=
  | returns_ret : observe t = RetF a → s = s' → returns s t a s'
  | returns_tau t' : observe t = TauF t' → returns s t' a s' → returns s t a s'
  | returns_vis X (e : osE X) k x s1 : observe t = VisF e k → answer _ e s = Some (x, s1) →
      returns s1 (k x) a s' → returns s t a s'.

Lemma returns_bind {A B} s t s1 (a : A) (k : A → itree osE B) b s' :
  returns s t a s1 → returns s1 (k a) b s' → returns s (ITree.bind t k) b s'.
Proof.
  intros Ht Hk. induction Ht as [s t a s1 Hobs ->|s t a s1 t' Hobs Ht IH|s t a s1 X e k' x s2 Hobs Ha Ht IH].
  - destruct Hk as [Ho Hs|t' Ho Hr|X e k' x s2 Ho Ha Hr].
    + eapply returns_ret; [by rewrite observe_bind, Hobs|done].
    + eapply returns_tau; [by rewrite observe_bind, Hobs|done].
    + eapply returns_vis; [by rewrite observe_bind, Hobs|done|done].
  - eapply returns_tau; [by rewrite observe_bind, Hobs|by apply IH].
  - eapply returns_vis; [by rewrite observe_bind, Hobs|exact Ha|by apply IH].
Qed.

(** Enough fuel replays all of it. *)
Lemma returns_replay {A} s (t : itree osE A) a s' : returns s t a s' → ∃ fuel, trace_ret (replay fuel s t) = Some a.
Proof.
  induction 1 as [s t a s1 Hobs ->|s t a s1 t' Hobs Ht [fuel IH]|s t a s1 X e k' x s2 Hobs Ha Ht [fuel IH]].
  - exists 1%nat. simpl. by rewrite Hobs.
  - exists (Datatypes.S fuel). simpl. by rewrite Hobs.
  - exists (Datatypes.S fuel). simpl. by rewrite Hobs, Ha.
Qed.
End machine.

(** A machine that answers every call but the one that ends the script, and
    whose clock advances by what a sleep takes. *)
Definition exits {X} (e : osE X) : bool := match e with ExitProcess _ => true | _ => false end.

Class TickingMachine (S : Type) `{!Machine S} := {
  clock : S → Z;
  answers {X} (e : osE X) s : exits e = false → ∃ x s', answer _ e s = Some (x, s') ∧ (clock s ≤ clock s')%Z;
  tells_time s x s' : answer _ Now s = Some (x, s') → x = clock s;
  sleeps ms s x s' : answer _ (Sleep ms) s = Some (x, s') → (clock s + ms ≤ clock s')%Z }.

Section ticking.
Context {S : Type} `{!Machine S, !TickingMachine S}.

(** A script that comes back, with a value or an exception, wherever it is
    started; time does not go back. *)
Definition ends {A} (m : Script A) : Prop := ∀ s, ∃ o s', returns s m o s' ∧ (clock s ≤ clock s')%Z.

Lemma ends_ret {A} (a : A) : ends (mret a).
Proof. intros s. exists (Ok a), s. split; [by apply returns_ret|done]. Qed.

Lemma ends_raise {A} e : ends (@raise A e).
Proof. intros s. exists (Throw e), s. split; [by apply returns_ret|done]. Qed.

Lemma ends_bind {A B} (m : Script A) (k : A → Script B) : ends m → (∀ a, ends (k a)) → ends (m ≫= k).
Proof.
  intros Hm Hk s. destruct (Hm s) as ([a|e] & s1 & Hr & Hc).
  - destruct (Hk a s1) as (o & s2 & Hr' & Hc'). exists o, s2. split; [by eapply returns_bind|lia].
  - exists (Throw e), s1. split; [|done]. eapply returns_bind; [exact Hr|]. by apply returns_ret.
Qed.

Lemma os_returns {X} (e : osE X) s x s' : answer _ e s = Some (x, s') → returns s (os e) (Ok x) s'.
Proof.
  intros Ha. apply (returns_vis _ _ _ _ _ e (λ x, ITree.bind (Ret x) (λ a, Ret (Ok a))) x s');
    [reflexivity|exact Ha|by apply returns_ret].
Qed.

Lemma ends_os {X} (e : osE X) : exits e = false → ends (os e).
Proof.
  intros He s. destruct (answers e s He) as (x & s' & Ha & Hc). exists (Ok x), s'. split; [by apply os_returns|done].
Qed.

Lemma ends_each {A B} (f : A → Script B) l : (∀ x, ends (f x)) → ends (each f l).
Proof.
  intros Hf. induction l as [|x l IH]; simpl; [apply ends_ret|].
  apply ends_bind; [done|]. intros y. apply ends_bind; [done|]. intros. apply ends_ret.
Qed.

Lemma ends_some {A} (f : A → Script bool) l : (∀ x, ends (f x)) → ends (some f l).
Proof.
  intros Hf. induction l as [|x l IH]; simpl; [apply ends_ret|]. apply ends_bind; [done|]. intros []; [apply ends_ret|done].
Qed.

Lemma ends_all {A} (f : A → Script unit) l : (∀ x, ends (f x)) → ends (all f l).
Proof.
  intros Hf. induction l as [|x l IH]; simpl; [apply ends_ret|]. intros s.
  destruct (Hf x s) as (o & s1 & Hr & Hc). destruct (IH s1) as (o' & s2 & Hr' & Hc').
  exists (match o with Ok _ => o' | Throw e => Throw e end), s2. split; [|lia].
  eapply returns_bind; [exact Hr|]. eapply returns_bind; [exact Hr'|]. by apply returns_ret.
Qed.

(** One turn of a loop. *)
Lemma loop_returns {I R} (body : I → Script (I + R)) i s o s1 o' s2 :
  returns s (body i) o s1 →
  match o with
  | Ok (inl i') => returns s1 (loop body i') o' s2
  | Ok (inr r) => o' = Ok r ∧ s2 = s1
  | Throw e => o' = Throw e ∧ s2 = s1
  end → returns s (loop body i) o' s2.
Proof.
  intros Hr Ho. unfold loop.
  assert (returns s (ITree.bind (ITree.bind (body i) (λ o, match o with
    | Ok (inl i) => Ret (inl i) | Ok (inr r) => Ret (inr (Ok r)) | Throw e => Ret (inr (Throw e)) end))
    (λ r, match r with inl i' => Tau (loop body i') | inr r => Ret r end)) o' s2) as H.
  { eapply (returns_bind _ _ s1 (match o with Ok (inl i) => inl i | Ok (inr r) => inr (Ok r) | Throw e => inr (Throw e) end)).
    { eapply returns_bind; [exact Hr|destruct o as [[i'|r]|e]; by apply returns_ret]. }
    destruct o as [[i'|r]|e]; simpl; [by eapply returns_tau|destruct Ho as [-> ->]; by apply returns_ret..]. }
  destruct H as [Hobs Hs|t' Hobs Hr'|X e k x s3 Hobs Ha Hr'];
    [by eapply returns_ret|by eapply returns_tau|by eapply returns_vis].
Qed.

Lemma ok_bind_returns {A B} s (m : Script A) a s1 (k : A → Script B) o s2 :
  returns s m (Ok a) s1 → returns s1 (k a) o s2 → returns s (m ≫= k) o s2.
Proof. intros Hm Hk. eapply (returns_bind s m s1 (Ok a)); [exact Hm|exact Hk]. Qed.

(** The wait ends: every turn that goes on has slept. *)
Lemma ends_waitWhile condition timeout : ends condition → ends (waitWhile condition timeout).
Proof.
  intros Hc. unfold waitWhile. apply ends_bind; [by apply ends_os|]. intros start.
  set (deadline := (start + timeout)%Z). clearbody deadline. intros s.
  remember (Z.to_nat (deadline - clock s)) as n eqn:Hn. revert s Hn.
  induction n as [n IH] using lt_wf_ind. intros s ->. set (body := λ _ : unit, _).
  destruct (Hc s) as ([b|e] & s1 & Hr & H1).
  2: { exists (Throw e), s1. split; [|done].
       eapply loop_returns; [unfold body; eapply returns_bind; [exact Hr|by apply returns_ret]|done]. }
  destruct b.
  2: { exists (Ok ()), s1. split; [|done].
       eapply loop_returns; [unfold body; eapply ok_bind_returns; [exact Hr|by apply returns_ret]|done]. }
  destruct (answers Now s1 eq_refl) as (now & s2 & Hnow & H2). pose proof (tells_time _ _ _ Hnow) as ->.
  destruct (decide (clock s1 < deadline)%Z) as [Hlt|Hge].
  - destruct (answers (Sleep 100) s2 eq_refl) as ([] & s3 & Hsleep & _). pose proof (sleeps _ _ _ _ Hsleep) as H3.
    destruct (IH (Z.to_nat (deadline - clock s3)) ltac:(lia) s3 eq_refl) as (o & s4 & Hr4 & H4).
    exists o, s4. split; [|lia]. eapply loop_returns.
    + unfold body. eapply ok_bind_returns; [exact Hr|]. eapply ok_bind_returns; [by apply os_returns|].
      simpl. rewrite decide_True by done. eapply ok_bind_returns; [by apply os_returns|]. by apply returns_ret.
    + exact Hr4.
  - exists (Ok ()), s2. split; [|lia]. eapply loop_returns.
    + unfold body. eapply ok_bind_returns; [exact Hr|]. eapply ok_bind_returns; [by apply os_returns|].
      simpl. rewrite decide_False by done. by apply returns_ret.
    + done.
Qed.

(** Peels a script whose calls all come back. *)
#[local] Ltac ends := repeat match goal with
  | |- ends (waitWhile _ _) => apply ends_waitWhile
  | |- ends (os _) => by apply ends_os
  | |- ends (mret _) => apply ends_ret
  | |- ends (raise _) => apply ends_raise
  | |- ends (error _) => apply ends_raise
  | |- ends (each _ _) => apply ends_each
  | |- ends (some _ _) => apply ends_some
  | |- ends (all _ _) => apply ends_all
  | |- ends (_ ≫= _) => apply ends_bind
  | |- ends (match ?x with _ => _ end) => destruct x
  | |- ends (let _ := _ in _) => cbv zeta
  | |- ends _ => fail 1
  | |- _ => intro
  end.

Context (win32 : bool) (repositoryRoot : string).

Lemma isOwnedSupervisor_ends v : ends (isOwnedSupervisor win32 v).
Proof. unfold isOwnedSupervisor. ends. Qed.

Lemma waitForSupervisorExit_ends v : ends (waitForSupervisorExit win32 v).
Proof. unfold waitForSupervisorExit. ends; apply isOwnedSupervisor_ends. Qed.

Lemma stopOrphanedServices_ends : ends (stopOrphanedServices win32 repositoryRoot).
Proof.
  unfold stopOrphanedServices, workspaceGroups, killListeners, hasWorkspaceListener, listeningProcessIds,
    workspaceGroupOf, isWorkspaceProcess, processWorkingDirectory, processGroupId, signalProcessGroup. ends.
Qed.

Lemma isServiceRunning_ends child : ends (isServiceRunning win32 child).
Proof. unfold isServiceRunning. ends. Qed.

Lemma stopService_ends child : ends (stopService win32 child).
Proof. unfold stopService, signalService, waitForServiceExit. ends; apply isServiceRunning_ends. Qed.
End ticking.

(** C40: on every machine that answers and whose clock advances while the
    script sleeps, the waits end: waiting for a supervisor to exit, stopping
    the services an interrupted supervisor left, and stopping all services
    of a stack come back after finitely many calls, with a result or an
    exception. *)
Theorem waits_end {S : Type} `{!Machine S, !TickingMachine S} win32 repositoryRoot s :
  (∀ v, ∃ fuel o, trace_ret (replay fuel s (waitForSupervisorExit win32 v)) = Some o) ∧
  (∃ fuel o, trace_ret (replay fuel s (stopOrphanedServices win32 repositoryRoot)) = Some o) ∧
  (∀ children, ∃ fuel o, trace_ret (replay fuel s (all (stopService win32) children)) = Some o).
Proof.
  assert (∀ A (m : Script A), ends m → ∃ fuel o, trace_ret (replay fuel s m) = Some o) as Hends.
  { intros A m Hm. destruct (Hm s) as (o & s' & Hr & _). destruct (returns_replay _ _ _ _ Hr) as [fuel Hf]. by exists fuel, o. }
  split; [intros v; apply Hends, waitForSupervisorExit_ends|]. split; [apply Hends, stopOrphanedServices_ends|].
  intros children. apply Hends, ends_all, stopService_ends.
Qed.

(** ** A developer's machine *)

(** The scheduler of an interrupted stack still listens, in a group of its
    own; killed targets stay dead. *)
Record Desk := { d_clock : Z; d_killed : list Z; d_group : string }.

Definition orphan : Z := 4242.

Definition desk_file (command : list string) (d : Desk) : option string :=
  let asks (e : osE (option string)) := match e with ExecFile c => bool_decide (c = command) | _ => false end in
  if asks (askListeners 3010) then (if decide (d_killed d = []) then Some ("4242" +:+ NEWLINE) else None)
  else if asks (askDirectory orphan) then
    Some ("p4242" +:+ NEWLINE +:+ "fcwd" +:+ NEWLINE +:+ "n/home/dev/pantaetl/apps/scheduler" +:+ NEWLINE)
  else if asks (askGroup orphan) then Some (" " +:+ d_group d +:+ NEWLINE)
  else None.

Definition desk_kill (target : Z) (signal : Signal) (d : Desk) : KillAnswer * Desk :=
  if decide (target ∈ d_killed d) then (ESRCH, d)
  else if decide (signal = SIG0) then (Delivered, d)
  else (Delivered, {| d_clock := d_clock d; d_killed := target :: d_killed d; d_group := d_group d |}).

#[export] Instance desk : Machine Desk := λ X e d,
  match e in osE X return option (X * Desk) with
  | Log _ => Some ((), d)
  | RunCommand _ => Some (Exited 0, d)
  | ExecFile command => Some (desk_file command d, d)
  | Kill target signal => Some (desk_kill target signal d)
  | ChildKill _ _ => Some ((), d)
  | ChildAlive _ => Some (false, d)
  | Spawn index _ => Some (Some (Some (5000 + Z.of_nat index)%Z), d)
  | ReadFile _ => Some (FileMissing, d)
  | WriteFile _ _ => Some (true, d)
  | Rm _ => Some (true, d)
  | Mkdir _ => Some (true, d)
  | Access _ => Some (true, d)
  | LoadEnvFile _ => Some (true, d)
  | GetEnv name => Some (if decide (name = "DATABASE_URL") then Some "postgres://localhost/pantaetl" else None, d)
  | SetEnv _ _ => Some ((), d)
  | Listen _ => Some (Listening, d)
  | HttpGet _ _ => Some (Some 200%Z, d)
  | Now => Some (d_clock d, d)
  | Timestamp => Some ("2026-01-01T00:00:00.000Z", d)
  | Sleep ms => Some ((), {| d_clock := d_clock d + Z.max 0 ms; d_killed := d_killed d; d_group := d_group d |})
  | NextEvent => Some (SIGTERM_received, d)
  | ExitProcess _ => None
  end.

#[export, refine] Instance desk_ticks : TickingMachine Desk := {| clock := d_clock |}.
Proof.
  - intros X e d He. destruct e; try discriminate He; try by (eexists _, _; split; [reflexivity|simpl; lia]).
    exists (desk_kill target signal d).1, (desk_kill target signal d).2.
    split; [unfold answer, desk; by rewrite <-surjective_pairing|]. unfold desk_kill. by repeat case_decide.
  - by intros s x s' [= <- _].
  - intros ms s x s' [= _ <-]. simpl. lia.
Defined.

Definition morning (group : string) : Desk := {| d_clock := 0; d_killed := []; d_group := group |}.

(** The signals of a trace, probes apart, and the code it exits with. *)
Fixpoint signals {A} (tr : @trace osE A) : list (Z * Signal) :=
  match tr with
  | TEventResponse e _ tr =>
      match e with Kill target signal => if decide (signal = SIG0) then [] else [(target, signal)] | _ => [] end ++ signals tr
  | _ => []
  end.

Fixpoint exitCode {A} (tr : @trace osE A) : option Z :=
  match tr with
  | TEventResponse _ _ tr => exitCode tr
  | TEventEnd e => match e with ExitProcess code => Some code | _ => None end
  | _ => None
  end.

Definition stackUp (group : string) : @trace osE (outcome ScriptError unit) :=
  replay 1000 (morning group) (main false "/home/dev/pantaetl" 900 "stack-up").


(** A listener in group 1, as in a container, makes the script signal every
    process it may. *)
Example signals_everything : head (signals (stackUp "1")) = Some (-1, SIGTERM)%Z.
Proof. vm_compute. reflexivity. Qed.

Lemma waits_end_witness : ∃ fuel o,
  trace_ret (replay fuel (morning "4200") (stopOrphanedServices false "/home/dev/pantaetl")) = Some o.
Proof. exact (proj1 (proj2 (waits_end false "/home/dev/pantaetl" (morning "4200")))). Defined.

(** ** Output *)

Lemma linesOf_nonempty s : linesOf s ≠ [].
Proof. unfold linesOf. by destruct (splitLines s). Qed.

Lemma splitLines_newline s : splitLines (String newline s) = ("", linesOf s).
Proof. unfold linesOf. simpl. by destruct (splitLines s). Qed.

(** A character that no line break begins with goes to the first line. *)
Lemma splitLines_char c s : c ≠ newline → (c = carriageReturn → ∀ s', s ≠ String newline s') →
  splitLines (String c s) = (String c (splitLines s).1, (splitLines s).2).
Proof.
  intros Hc Hs. simpl. destruct (splitLines s) as [line lines]. rewrite decide_False by done.
  destruct s as [|d s]; [done|]. rewrite decide_False; [done|]. intros [-> ->]. by apply (Hs eq_refl s).
Qed.

Lemma splitLines_crlf s : splitLines (String carriageReturn (String newline s)) = splitLines (String newline s).
Proof. simpl. by destruct (splitLines s). Qed.

Lemma splitLines_cases c s : c = newline ∨ (c = carriageReturn ∧ ∃ s', s = String newline s') ∨
  (c ≠ newline ∧ (c = carriageReturn → ∀ s', s ≠ String newline s')).
Proof.
  destruct (decide (c = newline)); [by left|right]. destruct (decide (c = carriageReturn)) as [->|]; [|by right].
  destruct s as [|d s]; [by right|]. destruct (decide (d = newline)) as [->|]; [left; eauto|right]. split; [done|]. intros _ s' [= -> ->]. done.
Qed.

Lemma splitLines_one s line : splitLines s = (line, []) → line = s.
Proof.
  revert line. induction s as [|c s IH]; intros line; [by intros [= <-]|].
  destruct (splitLines_cases c s) as [->|[[-> [s' ->]]|[Hc Hs]]].
  - rewrite splitLines_newline. by intros [= _ ?%linesOf_nonempty].
  - rewrite splitLines_crlf, splitLines_newline. by intros [= _ ?%linesOf_nonempty].
  - rewrite splitLines_char by done. destruct (splitLines s) as [l ls]. intros [= <- ->]. by rewrite (IH l).
Qed.

(** Reading a text in two pieces: the last line of the first goes on. *)
Lemma linesOf_app s t :
  linesOf (s +:+ t) = removelast (linesOf s) ++ linesOf (default "" (last (linesOf s)) +:+ t).
Proof.
  unfold linesOf. induction s as [|c s IH]; [done|].
  change (String c s +:+ t) with (String c (s +:+ t)).
  destruct (splitLines_cases c s) as [->|[[-> [s' ->]]|[Hc Hs]]].
  - rewrite !splitLines_newline. unfold linesOf. rewrite IH. destruct (splitLines s). simpl. done.
  - change (String newline s' +:+ t) with (String newline (s' +:+ t)) in *. by rewrite !splitLines_crlf.
  - rewrite (splitLines_char c s) by done. destruct s as [|d s]; [by destruct t|].
    rewrite (splitLines_char c (String d s +:+ t)); [|done|intros Hcr s' [= -> _]; by apply (Hs Hcr s)].
    destruct (splitLines (String d s)) as [line lines] eqn:Hsplit, (splitLines (String d s +:+ t)) as [line' lines'] eqn:Happ.
    cbn [fst snd]. destruct lines as [|l lines].
    + apply splitLines_one in Hsplit as ->. change (default "" (last [String c (String d s)]) +:+ t) with (String c (String d s +:+ t)).
      rewrite (splitLines_char c (String d s +:+ t)), Happ; [done|done|intros Hcr s' [= -> _]; by apply (Hs Hcr s)].
    + simpl in IH. simpl. by injection IH as -> ->.
Qed.

Lemma labelled_app name l k : labelled name (l ++ k) = labelled name l ++ labelled name k.
Proof. unfold labelled. by rewrite filter_app, fmap_app. Qed.

Lemma lines_ends (l : list string) : l ≠ [] → l = removelast l ++ [default "" (last l)].
Proof.
  intros Hl. destruct l as [|x l] using rev_ind; [done|]. by rewrite removelast_last, last_snoc.
Qed.

Lemma string_app_assoc (s t u : string) : (s +:+ t) +:+ u = s +:+ (t +:+ u).
Proof. induction s as [|c s IH]; [done|]. change (String c ((s +:+ t) +:+ u) = String c (s +:+ (t +:+ u))). by rewrite IH. Qed.

(** What stays pending is one line. *)
Lemma linesOf_pending s : linesOf (default "" (last (linesOf s))) = [default "" (last (linesOf s))].
Proof.
  pose proof (linesOf_app s "") as Happ. rewrite !string_app_nil in Happ.
  pose proof (lines_ends (linesOf s) (linesOf_nonempty s)) as Hends. rewrite Hends in Happ at 1.
  by apply app_inv_head in Happ.
Qed.

(** However a stream is cut into chunks, the supervisor logs every line
    of the whole output that is not empty, under the name of its service and
    in order; a line, or a line break, that is split between chunks is put
    together again. *)
Theorem prefixOutput_spec name chunks :
  prefixOutput name "" chunks = labelled name (linesOf (foldr String.append "" chunks)).
Proof.
  assert (∀ pending, linesOf pending = [pending] →
    prefixOutput name pending chunks = labelled name (linesOf (pending +:+ foldr String.append "" chunks))) as Hmain.
  { induction chunks as [|chunk chunks IH]; intros pending Hp; simpl.
    - unfold onEnd. by rewrite string_app_nil, Hp.
    - rewrite IH by apply linesOf_pending. rewrite <-labelled_app. f_equal.
      by rewrite <-linesOf_app, string_app_assoc. }
  by apply Hmain.
Qed.

Example output_example :
  prefixOutput "web" "" ["rea"; "dy" +:+ String carriageReturn ""; NEWLINE +:+ NEWLINE +:+ "on"; " 3000"] =
    ["[web] ready"; "[web] on 3000"].
Proof. vm_compute. reflexivity. Qed.
