(* ===== verification/Files.v ===== *)
(** * Stored files

    The metadata store together with the files of the storage root, known by
    their absolute paths: what the upload route writes and the garbage
    collector removes. The contents of a file are not observed. *)

From S2P Require Import Prelude Js Contracts Database Paths.

Record World := { database : Database; files : gset (list string) }.

Definition set_files (f : gset (list string)) (w : World) : World :=
  {| database := database w; files := f |}.

Definition set_database (d : Database) (w : World) : World := {| database := d; files := files w |}.

(** What the operating system refuses: a permission, a full disk. *)
Class FileSystem := {
  rm_error : list string → option exn;
  write_error : list string → option exn }.

Definition on_database {A} (m : DB A) : M World exn A := λ w,
  let '(r, d) := m (database w) in (r, {| database := d; files := files w |}).

Section files.
Context `{!FileSystem}.

(** [rm(path, { force: true })] *)
Definition rm (path : list string) : M World exn unit :=
  match rm_error path with
  | Some e => throw e
  | None => puts (λ w, set_files (files w ∖ {[path]}) w)
  end.

(** [mkdir(dirname(path), { recursive: true })] and then
    [writeFile(path, contents, { flag: "wx" })], which creates the file. *)
Definition createFile (path : list string) : M World exn unit :=
  match write_error path with
  | Some e => throw e
  | None => λ w,
      if decide (path ∈ files w) then (Throw (JsError "EEXIST: file already exists"), w)
      else (Ok (), set_files ({[path]} ∪ files w) w)
  end.

Lemma rm_run path w :
  rm path w = match rm_error path with
              | Some e => (Throw e, w)
              | None => (Ok (), set_files (files w ∖ {[path]}) w)
              end.
Proof. unfold rm. by destruct (rm_error path). Qed.
End files.

Lemma on_database_run {A} (m : DB A) w r d :
  m (database w) = (r, d) → on_database m w = (r, set_database d w).
Proof. unfold on_database. by intros ->. Qed.

Lemma on_database_read {A} (m : DB A) w r :
  m (database w) = (r, database w) → on_database m w = (r, w).
Proof. intros ->%on_database_run. by destruct w. Qed.
