(* ===== verification/Http.v ===== *)
(** * Requests and responses

    What a route handler sees of a request (its method, its bearer header and
    its body, as text that is blank, that is not JSON, or as a document) and
    what it answers. The signed-in identity [getSession] resolves is an
    argument of the handlers. *)

From S2P Require Import Prelude Js Contracts.

Inductive RequestBody := blank | malformed | document (j : Json).

Record Request := {
  request_method : string;
  authorization : option string;
  request_body : RequestBody }.

(** [await request.json()]: [None] where it throws. *)
Definition requestJson (request : Request) : option Json :=
  match request_body request with document j => Some j | _ => None end.

(** [Response.json(body, { status })] or [new Response(null, { status })]. *)
Record Response (B : Type) := { status : Z; body : option B }.
Arguments status {B} _.
Arguments body {B} _.
Arguments Build_Response {B} _ _.

Definition emptyResponse {B} (s : Z) : Response B := {| status := s; body := None |}.
Definition jsonResponse {B} (s : Z) (b : B) : Response B := {| status := s; body := Some b |}.

(** [response.ok] *)
Definition response_ok {B} (r : Response B) : bool := bool_decide (200 ≤ status r < 300)%Z.

(** [{ code }] *)
Definition codeDocument (code : string) : Json := JObject [("code", JString code)].

(** The documents of the control plane: a pipeline is written with its
    timestamps in ISO 8601, everything else is plain JSON. *)
Inductive Document :=
  | plain (j : Json)
  | pipelineDocument (p : Pipeline)
  | pipelinesDocument (l : list Pipeline)
  | violationsDocument (code : string) (violations : list PipelineExecutableViolation).

Definition codeResponse (s : Z) (code : string) : Response Document :=
  jsonResponse s (plain (codeDocument code)).

(** [new Response(null, { status: 401 })] *)
Definition unauthenticatedResponse : Response Document := emptyResponse 401.

(** Which error of a handler is an answer: the others propagate. *)
Definition answering {S A} (m : M S exn A) (respond : exn → option A) : M S exn A :=
  try_catch m (λ e, match respond e with Some r => mret r | None => throw e end).

Lemma answering_ok {S A} (m : M S exn A) respond s a s' :
  m s = (Ok a, s') → answering m respond s = (Ok a, s').
Proof. unfold answering, try_catch. by intros ->. Qed.

Lemma answering_throw {S A} (m : M S exn A) respond s e s' :
  m s = (Throw e, s') →
  answering m respond s = (match respond e with Some r => Ok r | None => Throw e end, s').
Proof. unfold answering, try_catch. intros ->. by destruct (respond e). Qed.
