(* ===== verification/Documents.v ===== *)
(** * Documents

    The JSON shapes of the contracts: what the strict object schemas of
    [packages/contracts] read out of a parsed document, and the documents
    [JSON.stringify] writes. A schema accepts a document when it has the
    shape read here and the formats and patterns of [Schemas]. *)

From S2P Require Import Prelude Js Contracts Schemas RunQueue.

(** ** Reading *)

Definition asString (j : Json) : option string := match j with JString s => Some s | _ => None end.
Definition asBoolean (j : Json) : option bool := match j with JBool b => Some b | _ => None end.
Definition asNumber (j : Json) : option jsnumber := match j with JNumber n => Some n | _ => None end.
Definition asArray {A} (decode : Json → option A) (j : Json) : option (list A) :=
  match j with JArray l => mapM decode l | _ => None end.

(** [typeof value === "object" && value !== null && !Array.isArray(value)] *)
Definition asObject (j : Json) : option (list (string * Json)) :=
  match j with JObject fields => Some fields | _ => None end.

(** An object without other keys than these. *)
Definition strictObject (keys : list string) (j : Json) : option (list (string * Json)) :=
  fields ← asObject j;
  if forallb (λ f, bool_decide (f.1 ∈ keys)) fields then Some fields else None.

Definition required {A} (fields : list (string * Json)) (key : string) (decode : Json → option A) :
    option A := get_field fields key ≫= decode.

Definition optionalField {A} (fields : list (string * Json)) (key : string) (decode : Json → option A) :
    option (option A) :=
  match get_field fields key with
  | None => Some None
  | Some j => Some <$> decode j
  end.

Definition decodeKind (j : Json) : option ComponentKind.t :=
  match j with
  | JString "source" => Some ComponentKind.source
  | JString "transform" => Some ComponentKind.transform
  | JString "export" => Some ComponentKind.export
  | _ => None
  end.

Definition decodeState (j : Json) : option PipelineState.t :=
  match j with
  | JString "draft" => Some PipelineState.draft
  | JString "enabled" => Some PipelineState.enabled
  | JString "disabled" => Some PipelineState.disabled
  | _ => None
  end.

Definition decodeBinding (j : Json) : option SecretBinding :=
  fields ← strictObject ["key"; "binding"] j;
  key ← required fields "key" asString;
  binding ← required fields "binding" asString;
  Some {| binding_key := key; binding_binding := binding |}.

Definition decodeConfiguration (j : Json) : option ComponentConfiguration :=
  fields ← strictObject ["values"; "secretBindings"] j;
  v ← required fields "values" asObject;
  b ← required fields "secretBindings" (asArray decodeBinding);
  Some {| values := v; secretBindings := b |}.

Definition decodeStep (j : Json) : option PipelineStep :=
  fields ← strictObject ["id"; "kind"; "componentType"; "componentVersion"; "configuration"] j;
  id ← required fields "id" asString;
  kind ← required fields "kind" decodeKind;
  type ← required fields "componentType" asString;
  version ← required fields "componentVersion" asString;
  config ← required fields "configuration" decodeConfiguration;
  Some {| step_id := id; step_kind := kind; componentType := type; componentVersion := version;
          configuration := config |}.

Definition decodeEdge (j : Json) : option PipelineEdge :=
  fields ← strictObject ["fromStepId"; "toStepId"] j;
  from ← required fields "fromStepId" asString;
  to ← required fields "toStepId" asString;
  Some {| fromStepId := from; toStepId := to |}.

(** The discriminated union on [type]. *)
Definition decodeWritableTrigger (j : Json) : option WritablePipelineTrigger :=
  fields ← asObject j;
  type ← required fields "type" asString;
  if decide (type = "manual") then
    fields ← strictObject ["enabled"; "type"] j;
    enabled ← required fields "enabled" asBoolean;
    Some (WritableManual enabled)
  else if decide (type = "schedule") then
    fields ← strictObject ["cron"; "enabled"; "timezone"; "type"] j;
    cron ← required fields "cron" asString;
    enabled ← required fields "enabled" asBoolean;
    timezone ← required fields "timezone" asString;
    Some (WritableSchedule cron enabled timezone)
  else None.

Definition decodeCreateRequest (j : Json) : option PipelineCreateRequest :=
  fields ← strictObject ["contractVersion"; "edges"; "name"; "steps"; "triggers"] j;
  version ← required fields "contractVersion" asString;
  e ← required fields "edges" (asArray decodeEdge);
  name ← required fields "name" asString;
  s ← required fields "steps" (asArray decodeStep);
  t ← required fields "triggers" (asArray decodeWritableTrigger);
  Some {| create_contractVersion := version; create_edges := e; create_name := name;
          create_steps := s; create_triggers := t |}.

Definition decodeUpdateRequest (j : Json) : option PipelineUpdateRequest :=
  fields ← strictObject ["edges"; "name"; "state"; "steps"; "triggers"] j;
  e ← optionalField fields "edges" (asArray decodeEdge);
  name ← optionalField fields "name" asString;
  state ← optionalField fields "state" decodeState;
  s ← optionalField fields "steps" (asArray decodeStep);
  t ← optionalField fields "triggers" (asArray decodeWritableTrigger);
  Some {| update_edges := e; update_name := name; update_state := state; update_steps := s;
          update_triggers := t |}.

Definition decodeDuplicateBody (j : Json) : option (option string) :=
  fields ← strictObject ["name"] j;
  optionalField fields "name" asString.

(** [z.number().int().min(0).max(Number.MAX_SAFE_INTEGER)] *)
Definition decodeCount (j : Json) : option nat :=
  n ← asNumber j;
  z ← isSafeInteger n;
  if decide (0 ≤ z)%Z then Some (Z.to_nat z) else None.

Definition decodeRunResponse (j : Json) : option CreatedPipelineRun :=
  fields ← strictObject ["initialJobCount"; "pipelineId"; "queuedBehindActiveRun"; "runId"] j;
  count ← required fields "initialJobCount" decodeCount;
  pipelineId ← required fields "pipelineId" asString;
  behind ← required fields "queuedBehindActiveRun" asBoolean;
  runId ← required fields "runId" asString;
  Some {| initialJobCount := count; created_pipelineId := pipelineId; queuedBehindActiveRun := behind;
          created_runId := runId |}.

(** [schema.safeParse(value)]: the shape, then the formats. *)
Definition safeParse {A} (decode : Json → option A) (schema : A → bool) (j : Json) : option A :=
  a ← decode j;
  if schema a then Some a else None.

(** ** Writing *)

Definition encodeKind (kind : ComponentKind.t) : Json :=
  JString match kind with
          | ComponentKind.source => "source"
          | ComponentKind.transform => "transform"
          | ComponentKind.export => "export"
          end.

Definition encodeState (state : PipelineState.t) : Json :=
  JString match state with
          | PipelineState.draft => "draft"
          | PipelineState.enabled => "enabled"
          | PipelineState.disabled => "disabled"
          end.

Definition encodeBinding (b : SecretBinding) : Json :=
  JObject [("key", JString (binding_key b)); ("binding", JString (binding_binding b))].

Definition encodeConfiguration (c : ComponentConfiguration) : Json :=
  JObject [("values", JObject (values c)); ("secretBindings", JArray (encodeBinding <$> secretBindings c))].

Definition encodeStep (s : PipelineStep) : Json :=
  JObject [("id", JString (step_id s)); ("kind", encodeKind (step_kind s));
           ("componentType", JString (componentType s)); ("componentVersion", JString (componentVersion s));
           ("configuration", encodeConfiguration (configuration s))].

Definition encodeEdge (e : PipelineEdge) : Json :=
  JObject [("fromStepId", JString (fromStepId e)); ("toStepId", JString (toStepId e))].

Definition encodeWritableTrigger (t : WritablePipelineTrigger) : Json :=
  match t with
  | WritableManual enabled => JObject [("enabled", JBool enabled); ("type", JString "manual")]
  | WritableSchedule cron enabled timezone =>
      JObject [("cron", JString cron); ("enabled", JBool enabled); ("timezone", JString timezone);
               ("type", JString "schedule")]
  end.

Definition encodeCreateRequest (r : PipelineCreateRequest) : Json :=
  JObject [("contractVersion", JString (create_contractVersion r));
           ("edges", JArray (encodeEdge <$> create_edges r)); ("name", JString (create_name r));
           ("steps", JArray (encodeStep <$> create_steps r));
           ("triggers", JArray (encodeWritableTrigger <$> create_triggers r))].

(** A property that is [undefined] is not written. *)
Definition presentField (key : string) (value : option Json) : list (string * Json) :=
  match value with None => [] | Some j => [(key, j)] end.

Definition encodeUpdateRequest (r : PipelineUpdateRequest) : Json :=
  JObject (presentField "edges" ((λ l, JArray (encodeEdge <$> l)) <$> update_edges r) ++
           presentField "name" (JString <$> update_name r) ++
           presentField "state" (encodeState <$> update_state r) ++
           presentField "steps" ((λ l, JArray (encodeStep <$> l)) <$> update_steps r) ++
           presentField "triggers" ((λ l, JArray (encodeWritableTrigger <$> l)) <$> update_triggers r)).

Definition encodeRunResponse (run : CreatedPipelineRun) : Json :=
  JObject [("initialJobCount", JNumber (NInt (Z.of_nat (initialJobCount run))));
           ("pipelineId", JString (created_pipelineId run));
           ("queuedBehindActiveRun", JBool (queuedBehindActiveRun run));
           ("runId", JString (created_runId run))].

(** ** What is written is read back *)

Lemma asArray_encode {A} (encode : A → Json) (decode : Json → option A) (l : list A) :
  (∀ a, decode (encode a) = Some a) → asArray decode (JArray (encode <$> l)) = Some l.
Proof. intros Hd. apply mapM_fmap_Some. intros x. by apply Hd. Qed.

(** Reads a literal document field by field: keys are compared, what is
    below them is left to the lemmas. *)
Ltac read_document :=
  lazy -[asArray list_fmap decodeEdge encodeEdge decodeWritableTrigger encodeWritableTrigger
         decodeBinding encodeBinding decodeConfiguration encodeConfiguration decodeStep encodeStep
         decodeKind encodeKind decodeState encodeState];
  rewrite ?asArray_encode by auto with documents.

Create HintDb documents.

Lemma decode_kind k : decodeKind (encodeKind k) = Some k.
Proof. by destruct k. Qed.
Lemma decode_state s : decodeState (encodeState s) = Some s.
Proof. by destruct s. Qed.
Lemma decode_edge e : decodeEdge (encodeEdge e) = Some e.
Proof. by destruct e. Qed.
Lemma decode_writable t : decodeWritableTrigger (encodeWritableTrigger t) = Some t.
Proof. destruct t; vm_compute; reflexivity. Qed.
Lemma decode_binding b : decodeBinding (encodeBinding b) = Some b.
Proof. by destruct b. Qed.
#[export] Hint Resolve decode_edge decode_writable decode_binding : documents.

Lemma decode_configuration c : decodeConfiguration (encodeConfiguration c) = Some c.
Proof. destruct c. unfold decodeConfiguration, encodeConfiguration. by read_document. Qed.

Lemma decode_step s : decodeStep (encodeStep s) = Some s.
Proof.
  destruct s. unfold decodeStep, encodeStep. read_document. by rewrite decode_kind, decode_configuration.
Qed.
#[export] Hint Resolve decode_step : documents.

Lemma decode_create r : decodeCreateRequest (encodeCreateRequest r) = Some r.
Proof. destruct r. unfold decodeCreateRequest, encodeCreateRequest. by read_document. Qed.

Lemma decode_run run : (Z.of_nat (initialJobCount run) ≤ MAX_SAFE_INTEGER)%Z →
  decodeRunResponse (encodeRunResponse run) = Some run.
Proof.
  destruct run as [count id behind runId]. intros Hle. simpl in Hle.
  assert (decodeCount (JNumber (NInt (Z.of_nat count))) = Some count) as Hc.
  { unfold decodeCount. simpl. rewrite (decide_True (P := (Z.abs _ ≤ _)%Z)) by lia. simpl.
    rewrite decide_True by lia. by rewrite Nat2Z.id. }
  unfold decodeRunResponse, encodeRunResponse. simpl initialJobCount.
  set (n := JNumber _) in *. by lazy -[decodeCount] in Hc |- *; rewrite Hc.
Qed.

Lemma decode_update r : decodeUpdateRequest (encodeUpdateRequest r) = Some r.
Proof.
  unfold decodeUpdateRequest, encodeUpdateRequest, optionalField.
  destruct r as [[e|] [n|] [s|] [l|] [t|]]; read_document; by rewrite ?decode_state.
Qed.

Section roundtrip.
Context `{!Formats}.

(** A create request or an update request the schemas accept, written as
    a document, is read back as itself, and so is the answer to a run
    request whose count of jobs is a safe integer. *)
Theorem requests_roundtrip :
  (∀ r, pipelineCreateRequestSchema r = true →
     safeParse decodeCreateRequest pipelineCreateRequestSchema (encodeCreateRequest r) = Some r) ∧
  (∀ r, pipelineUpdateRequestSchema r = true →
     safeParse decodeUpdateRequest pipelineUpdateRequestSchema (encodeUpdateRequest r) = Some r) ∧
  (∀ run, (Z.of_nat (initialJobCount run) ≤ MAX_SAFE_INTEGER)%Z →
     decodeRunResponse (encodeRunResponse run) = Some run).
Proof.
  split_and!.
  - intros r Hr. unfold safeParse.
    rewrite decode_create. simpl. by rewrite Hr.
  - intros r Hr. unfold safeParse.
    rewrite decode_update. simpl. by rewrite Hr.
  - apply decode_run.
Qed.
End roundtrip.
