(* ===== verification/Retention.v ===== *)
(** * Retention

    [packages/database/src/retention.ts]: the bounded queries for expired
    rows and their conditional deletion. *)

From S2P Require Import Prelude Js Contracts Database Integrity Frames Statements.

Definition DEFAULT_RETENTION_BATCH_SIZE : jsnumber := NInt 100.

Definition validateBatchSize (batchSize : jsnumber) : result nat :=
  match isInteger batchSize with
  | Some n =>
      if decide (n < 1)%Z then Throw (JsError "Retention batch size must be a positive integer.")
      else Ok (Z.to_nat n)
  | None => Throw (JsError "Retention batch size must be a positive integer.")
  end.

(** The stored object of an expired row. *)
Record StoredObject := { storageKind : StorageKind.t; storageLocation : string }.

Record ExpiredStorageRecord := { expired_id : string; expired_object : StoredObject }.

(** A nullable [expiresAt <= now]. *)
Definition elapsed (expiresAt : option Z) (now : Z) : Prop :=
  match expiresAt with Some t => (t ≤ now)%Z | None => False end.
#[export] Instance elapsed_dec expiresAt now : Decision (elapsed expiresAt now).
Proof. destruct expiresAt; simpl; apply _. Defined.

(** [orderBy(asc(expiresAt), asc(id)).limit(limit)] *)
Definition expiryOrder {A} (expiresAt : A → option Z) (id : A → string) : relation A :=
  then_by (on expiresAt nulls_last) (on id String.le).
#[export] Instance expiryOrder_dec {A} (expiresAt : A → option Z) id x y :
  Decision (expiryOrder expiresAt id x y).
Proof. unfold expiryOrder. apply _. Defined.
#[export] Instance expiryOrder_sort {A} (expiresAt : A → option Z) id : SortKey (expiryOrder expiresAt id).
Proof. unfold expiryOrder. apply _. Qed.

Definition firstExpired {A} (table : Database → list A) (P : A → Prop) `{∀ a, Decision (P a)}
    (expiresAt : A → option Z) (id : A → string) (batchSize : jsnumber) : DB (list A) :=
  limit ← lift (validateBatchSize batchSize);
  rows ← select table P;
  mret (take limit (order_by (expiryOrder expiresAt id) rows)).

(** The runs that are over: of the [innerJoin] and of the [exists]. *)
Definition terminalRuns (d : Database) : list string :=
  r_id <$> filter (λ r, r_state r ∈ terminalRunStates) (runs d).

Definition listExpiredDatasets (now : Z) (batchSize : jsnumber) : DB (list DatasetRow) :=
  terminal ← gets terminalRuns;
  firstExpired datasets (λ a, elapsed (d_expiresAt a) now ∧ d_runId a ∈ terminal) d_expiresAt d_id batchSize.

Definition listExpiredStagedUploads (now : Z) (batchSize : jsnumber) : DB (list StagedUploadRow) :=
  firstExpired stagedUploads (λ u, (up_expiresAt u ≤ now)%Z) (λ u, Some (up_expiresAt u)) up_id batchSize.

Definition listExpiredArtifacts (now : Z) (batchSize : jsnumber) : DB (list ArtifactRow) :=
  firstExpired artifacts (λ a, (a_expiresAt a ≤ now)%Z) (λ a, Some (a_expiresAt a)) a_id batchSize.

(** A run the collector may delete. *)
Definition expiredRun (now : Z) (r : RunRow) : Prop :=
  (r_expiresAt r ≤ now)%Z ∧ r_state r ∈ terminalRunStates.
#[export] Instance expiredRun_dec now r : Decision (expiredRun now r).
Proof. unfold expiredRun. apply _. Defined.

Definition listExpiredRuns (now : Z) (batchSize : jsnumber) : DB (list RunRow) :=
  firstExpired runs (expiredRun now) (λ r, Some (r_expiresAt r)) r_id batchSize.

Definition listExpiredRunLogs (now : Z) (batchSize : jsnumber) : DB (list RunLogRow) :=
  firstExpired runLogs (λ l, (l_expiresAt l ≤ now)%Z) (λ l, Some (l_expiresAt l)) l_id batchSize.

Definition isNonEmpty {A} (l : list A) : bool := match l with [] => false | _ => true end.

Definition deleteExpiredArtifact (id : string) (now : Z) : DB bool :=
  deleted ← deleteArtifacts (λ a, a_id a = id ∧ (a_expiresAt a ≤ now)%Z);
  mret (isNonEmpty deleted).

Definition deleteExpiredDataset (id : string) (now : Z) : DB bool :=
  terminal ← gets terminalRuns;
  deleted ← deleteDatasets (λ a, d_id a = id ∧ elapsed (d_expiresAt a) now ∧ d_runId a ∈ terminal);
  mret (isNonEmpty deleted).

Definition deleteExpiredStagedUpload (id : string) (now : Z) : DB bool :=
  deleted ← deleteStagedUploads (λ u, up_id u = id ∧ (up_expiresAt u ≤ now)%Z);
  mret (isNonEmpty deleted).

Definition deleteExpiredRunLog (id : string) (now : Z) : DB bool :=
  deleted ← deleteRunLogs (λ l, l_id l = id ∧ (l_expiresAt l ≤ now)%Z);
  mret (isNonEmpty deleted).

(** [exists(eligibleRun)] *)
Definition eligibleRun (id : string) (now : Z) (d : Database) : Prop :=
  Exists (λ r, r_id r = id ∧ expiredRun now r) (runs d).
#[export] Instance eligibleRun_dec id now d : Decision (eligibleRun id now d).
Proof. unfold eligibleRun. apply _. Defined.

(** No row of the run is left in the tables of its output. *)
Definition noRemaining (id : string) (d : Database) : Prop :=
  Forall (λ l, l_runId l ≠ id) (runLogs d) ∧ Forall (λ a, a_runId a ≠ id) (artifacts d) ∧
  Forall (λ a, d_runId a ≠ id) (datasets d).
#[export] Instance noRemaining_dec id d : Decision (noRemaining id d).
Proof. unfold noRemaining. apply _. Defined.

Definition deleteExpiredRun (id : string) (now : Z) : DB bool := transaction (
  eligible ← gets (λ d, bool_decide (eligibleRun id now d));
  deleteJobs (λ j, j_runId j = id ∧ eligible = true);;
  deleteRunSteps (λ s, s_runId s = id ∧ eligible = true);;
  clear ← gets (λ d, bool_decide (noRemaining id d));
  deleted ← deleteRuns (λ r, r_id r = id ∧ expiredRun now r ∧ clear = true);
  mret (isNonEmpty deleted)).

Section uploads.
Context `{!Uuids}.

Definition createStagedUpload (ownerUserId : string) (kind : StorageKind.t) (location : string)
    (expiresAt : Z) : DB string :=
  created ← insertStagedUpload ownerUserId kind location expiresAt;
  mret (up_id created).

Definition claimStagedUploads (ownerUserId : string) (storageLocations : list string) : DB nat :=
  if decide (length storageLocations = 0) then mret 0
  else
    released ← deleteStagedUploads (λ u, up_ownerUserId u = ownerUserId ∧
      up_storageLocation u ∈ storageLocations);
    mret (length released).
End uploads.

(** ** The pages of expired rows *)

(** At most [n] of the rows that satisfy [P], the ones that expired first. *)
Record oldest_page {A} (n : nat) (P : A → Prop) (R : relation A) (rows page : list A) : Prop := {
  page_bound : length page ≤ n;
  page_rows : ∀ a, a ∈ page → a ∈ rows ∧ P a;
  page_full : ∀ a, a ∈ rows → P a → a ∉ page → length page = n;
  page_first : ∀ a b, a ∈ page → b ∈ rows → P b → b ∉ page → R a b }.

Lemma firstExpired_run {A} (table : Database → list A) P `{∀ a, Decision (P a)} expiresAt id batchSize n d :
  validateBatchSize batchSize = Ok n →
  firstExpired table P expiresAt id batchSize d =
    (Ok (take n (order_by (expiryOrder expiresAt id) (filter P (table d)))), d).
Proof. intros Hn. unfold firstExpired. rewrite bind_run. unfold lift. by rewrite Hn. Qed.

Lemma firstExpired_page {A} (table : Database → list A) P `{∀ a, Decision (P a)} expiresAt id batchSize d :
  match validateBatchSize batchSize with
  | Throw e => firstExpired table P expiresAt id batchSize d = (Throw e, d)
  | Ok n => ∃ page, firstExpired table P expiresAt id batchSize d = (Ok page, d) ∧
      oldest_page n P (expiryOrder expiresAt id) (table d) page
  end.
Proof.
  unfold firstExpired. rewrite bind_run. unfold lift at 1 2.
  destruct (validateBatchSize batchSize) as [n|e]; [|done].
  eexists. split; [done|]. set (R := expiryOrder expiresAt id).
  set (l := filter P (table d)).
  assert (∀ a, a ∈ table d → P a → a ∉ take n (order_by R l) → a ∈ drop n (order_by R l)) as Hdrop.
  { intros a Ha HP Hn. assert (a ∈ order_by R l) as Hin by (by apply elem_of_order_by, list_elem_of_filter).
    rewrite <-(take_drop n (order_by R l)), elem_of_app in Hin. by destruct Hin. }
  split.
  - rewrite length_take. lia.
  - intros a Ha%take_elem_of. by apply elem_of_order_by, list_elem_of_filter in Ha as [? ?].
  - intros a Ha HP Hn. apply (Hdrop a Ha HP) in Hn. apply list_elem_of_lookup in Hn as [i Hi%lookup_lt_Some].
    rewrite length_drop in Hi. rewrite length_take. fold l. lia.
  - intros a b Ha Hb HP Hn. apply (order_by_prefix R l n); [done|by apply Hdrop].
Qed.

(** The collector's queries are bounded pages of expired rows, earliest
    first, that miss a row only when they are full; datasets and runs are
    listed only once the run is over. A batch size that is not a positive
    integer is refused. *)
Theorem listExpired_pages now batchSize n d :
  validateBatchSize batchSize = Ok n →
  (∃ page, listExpiredArtifacts now batchSize d = (Ok page, d) ∧
     oldest_page n (λ a, (a_expiresAt a ≤ now)%Z) (expiryOrder (λ a, Some (a_expiresAt a)) a_id) (artifacts d) page) ∧
  (∃ page, listExpiredStagedUploads now batchSize d = (Ok page, d) ∧
     oldest_page n (λ a, (up_expiresAt a ≤ now)%Z) (expiryOrder (λ a, Some (up_expiresAt a)) up_id) (stagedUploads d) page) ∧
  (∃ page, listExpiredRunLogs now batchSize d = (Ok page, d) ∧
     oldest_page n (λ a, (l_expiresAt a ≤ now)%Z) (expiryOrder (λ a, Some (l_expiresAt a)) l_id) (runLogs d) page) ∧
  (∃ page, listExpiredRuns now batchSize d = (Ok page, d) ∧
     oldest_page n (expiredRun now) (expiryOrder (λ a, Some (r_expiresAt a)) r_id) (runs d) page) ∧
  (∃ page, listExpiredDatasets now batchSize d = (Ok page, d) ∧
     oldest_page n (λ a, elapsed (d_expiresAt a) now ∧
       ∃ r, r ∈ runs d ∧ r_id r = d_runId a ∧ r_state r ∈ terminalRunStates)
       (expiryOrder d_expiresAt d_id) (datasets d) page).
Proof.
  intros Hn.
  pose proof (λ A table P H expiresAt id, @firstExpired_page A table P H expiresAt id batchSize d) as Hpage.
  rewrite Hn in Hpage. split_and!; [apply Hpage..|].
  destruct (Hpage _ datasets (λ a, elapsed (d_expiresAt a) now ∧ d_runId a ∈ terminalRuns d) _ d_expiresAt d_id)
    as (page & Hrun & Hp).
  exists page. split; [unfold listExpiredDatasets; by rewrite bind_run|].
  assert (∀ a, d_runId a ∈ terminalRuns d ↔
    ∃ r, r ∈ runs d ∧ r_id r = d_runId a ∧ r_state r ∈ terminalRunStates) as Hterm.
  { intros a. unfold terminalRuns. rewrite list_elem_of_fmap. setoid_rewrite list_elem_of_filter. naive_solver. }
  destruct Hp as [Hb Hr Hf Hfirst]. split; [done|..].
  - intros a Ha. rewrite <-Hterm. by apply Hr.
  - intros a. rewrite <-Hterm. apply Hf.
  - intros a b. rewrite <-Hterm. apply Hfirst.
Qed.

(** ** The deletion of a run *)

(** The rows of an execution agree on their run. *)
Record run_scoped (d : Database) : Prop := {
  job_step_run : ∀ j s, j ∈ jobs d → s ∈ runSteps d → s_id s = j_runStepId j → s_runId s = j_runId j;
  event_step_run : ∀ o s, o ∈ operationalEvents d → s ∈ runSteps d → o_runStepId o = Some (s_id s) →
    s_runId s = o_runId o;
  event_job_run : ∀ o j, o ∈ operationalEvents d → j ∈ jobs d → o_jobId o = Some (j_id j) →
    j_runId j = o_runId o;
  dataset_step_run : ∀ a s, a ∈ datasets d → s ∈ runSteps d → s_id s = d_runStepId a →
    s_runId s = d_runId a }.

(** The store without the jobs and the steps of a run. *)
Definition withoutWork (id : string) (d : Database) : Database :=
  set_runSteps (filter (λ s, s_runId s ≠ id) (runSteps d))
    (set_jobs (filter (λ j, j_runId j ≠ id) (jobs d)) d).

Lemma deleteJobs_total P `{∀ j, Decision (P j)} d :
  (∀ j o, j ∈ jobs d → P j → o ∈ operationalEvents d → o_jobId o ≠ Some (j_id j)) →
  deleteJobs P d = (Ok (), set_jobs (filter (λ j, ¬ P j) (jobs d)) d).
Proof.
  intros Hn. unfold deleteJobs. rewrite bind_run. unfold enforce. rewrite decide_True; [done|].
  apply Forall_forall. intros j Hj HP. apply Forall_forall. intros o Ho. by apply Hn.
Qed.

Lemma deleteRunSteps_total P `{∀ j, Decision (P j)} d :
  (∀ s, s ∈ runSteps d → P s →
    (∀ j, j ∈ jobs d → j_runStepId j ≠ s_id s) ∧ (∀ o, o ∈ operationalEvents d → o_runStepId o ≠ Some (s_id s)) ∧
    (∀ a, a ∈ datasets d → d_runStepId a ≠ s_id s)) →
  deleteRunSteps P d = (Ok (), set_runSteps (filter (λ s, ¬ P s) (runSteps d)) d).
Proof.
  intros Hn. unfold deleteRunSteps.
  do 3 (rewrite bind_run; unfold enforce at 1; rewrite decide_True;
    [|apply Forall_forall; intros s Hs HP; apply Forall_forall; destruct (Hn s Hs HP) as (? & ? & ?);
      naive_solver]).
  done.
Qed.

Lemma filter_neq_ext {A} (key : A → string) id (eligible : bool) (l : list A) :
  eligible = true → filter (λ a, ¬ (key a = id ∧ eligible = true)) l = filter (λ a, key a ≠ id) l.
Proof. intros ->. apply list_filter_ext_in. naive_solver. Qed.

Lemma filter_keep {A} (key : A → string) id (l : list A) :
  filter (λ a, ¬ (key a = id ∧ false = true)) l = l.
Proof. apply filter_all. naive_solver. Qed.

Lemma deleteRuns_total P `{∀ r, Decision (P r)} d :
  (∀ r, r ∈ runs d → P r →
    (∀ l, l ∈ runLogs d → l_runId l ≠ r_id r) ∧ (∀ s, s ∈ runSteps d → s_runId s ≠ r_id r) ∧
    (∀ j, j ∈ jobs d → j_runId j ≠ r_id r) ∧ (∀ o, o ∈ operationalEvents d → o_runId o ≠ r_id r) ∧
    (∀ a, a ∈ artifacts d → a_runId a ≠ r_id r) ∧ (∀ a, a ∈ datasets d → d_runId a ≠ r_id r)) →
  deleteRuns P d = (Ok (filter P (runs d)), set_runs (filter (λ r, ¬ P r) (runs d)) d).
Proof.
  intros Hn. unfold deleteRuns.
  do 6 (rewrite bind_run; unfold enforce at 1; rewrite decide_True;
    [|apply Forall_forall; intros r Hr HP; apply Forall_forall;
      destruct (Hn r Hr HP) as (? & ? & ? & ? & ? & ?); naive_solver]).
  done.
Qed.

Lemma deleteRuns_events P `{∀ r, Decision (P r)} d out d' :
  deleteRuns P d = (Ok out, d') →
  out = filter P (runs d) ∧ d' = set_runs (filter (λ r, ¬ P r) (runs d)) d ∧
  ∀ r o, r ∈ runs d → P r → o ∈ operationalEvents d → o_runId o ≠ r_id r.
Proof.
  unfold deleteRuns, select. rewrite !enforce_ok, gets_ok, puts_ok, ret_ok.
  intros (_ & _ & _ & He & _ & _ & <- & <-). split_and!; try done.
  intros r o Hr HP Ho Heq. rewrite unreferenced_spec in He. apply (He o r Ho Hr HP). by rewrite Heq.
Qed.

Lemma deleteExpiredRun_kept id now d :
  run_scoped d → ¬ eligibleRun id now d → deleteExpiredRun id now d = (Ok false, d).
Proof.
  intros Hs. intros Hn. unfold deleteExpiredRun, transaction. rewrite bind_run. unfold gets at 1. cbv beta iota.
  rewrite (bool_decide_eq_false_2 _ Hn).
  rewrite bind_run, deleteJobs_total by naive_solver. cbv beta iota.
  rewrite bind_run, deleteRunSteps_total by naive_solver. cbv beta iota.
  rewrite bind_run. unfold gets at 1. cbv beta iota. rewrite !filter_keep.
  assert (∀ r b, r ∈ runs d → ¬ (r_id r = id ∧ expiredRun now r ∧ b = true)) as Hnone.
  { intros r b Hr (? & ? & _). apply Hn. apply Exists_exists. by exists r. }
  rewrite bind_run, deleteRuns_total; [|intros r Hr HP; by destruct (Hnone r _ Hr HP)]. cbv beta iota.
  rewrite filter_none by (intros r Hr; by apply Hnone). rewrite filter_all by (intros r Hr; by apply Hnone).
  unfold mret, M_ret. f_equal. by destruct d.
Qed.

Lemma deleteExpiredRun_event id now d b d' :
  (∃ o, o ∈ operationalEvents d ∧ o_runId o = id) →
  deleteExpiredRun id now d = (Ok b, d') → b = false ∧ runs d' = runs d.
Proof.
  intros (o & Ho & Hid). unfold deleteExpiredRun. rewrite transaction_ok, gets_ok.
  intros (u1 & d1 & Hj & Hm)%bind_ok. apply bind_ok in Hm as (u2 & d2 & Hst & Hm).
  unfold deleteJobs in Hj. apply enforce_ok in Hj as [_ Hj]. injection Hj as _ <-.
  unfold deleteRunSteps in Hst. rewrite !enforce_ok in Hst. destruct Hst as (_ & _ & _ & Hst).
  injection Hst as _ <-. rewrite gets_ok in Hm. apply bind_ok in Hm as (out & d3 & Hr & Hm).
  apply deleteRuns_events in Hr as (-> & -> & Hev). apply ret_ok in Hm as [<- <-].
  rewrite filter_none; [|intros r Hr (Heq & Hexp); apply (Hev r o); [done|by split|done|congruence]].
  split; [done|]. simpl. apply filter_all. intros r Hr (Heq & Hexp).
  apply (Hev r o); [done|by split|done|congruence].
Qed.

Lemma deleteExpiredRun_eligible id now d :
  run_scoped d → eligibleRun id now d → (∀ o, o ∈ operationalEvents d → o_runId o ≠ id) →
  (∀ a, a ∈ datasets d → d_runId a ≠ id) →
  deleteExpiredRun id now d =
    if decide (Forall (λ l, l_runId l ≠ id) (runLogs d) ∧ Forall (λ a, a_runId a ≠ id) (artifacts d))
    then (Ok true, set_runs (filter (λ r, ¬ (r_id r = id ∧ expiredRun now r)) (runs d)) (withoutWork id d))
    else (Ok false, withoutWork id d).
Proof.
  intros Hs. intros He Hev Hds. unfold deleteExpiredRun, transaction. rewrite bind_run. unfold gets at 1. cbv beta iota.
  rewrite (bool_decide_eq_true_2 _ He).
  rewrite bind_run, deleteJobs_total.
  2:{ intros j o Hj [Hid _] Ho Heq. apply (Hev o Ho). by rewrite <-(event_job_run d Hs o j). }
  cbv beta iota. rewrite bind_run, deleteRunSteps_total.
  2:{ intros s Hst [Hid _]. simpl in *. split_and!.
      - intros j [Hj Hjin]%list_elem_of_filter Heq. apply Hj. split; [|done].
        by rewrite <-(job_step_run d Hs j s).
      - intros o Ho Heq. apply (Hev o Ho). by rewrite <-(event_step_run d Hs o s).
      - intros a Ha Heq. apply (Hds a Ha). by rewrite <-(dataset_step_run d Hs a s). }
  cbv beta iota. rewrite bind_run. unfold gets at 1. cbv beta iota.
  rewrite !filter_neq_ext by done. simpl. fold (withoutWork id d).
  set (clear := bool_decide _).
  rewrite bind_run, deleteRuns_total.
  2:{ intros r Hr (Hid & _ & Hc). simpl in *. rewrite Hid.
      apply bool_decide_eq_true in Hc as (Hl & Ha & _). simpl in *. rewrite Forall_forall in Hl. rewrite Forall_forall in Ha.
      split_and!; try done; by intros x [? _]%list_elem_of_filter. }
  cbv beta iota. change (runs (withoutWork id d)) with (runs d).
  apply Exists_exists in He as (r & Hr & Hid & Hexp).
  destruct (decide _) as [[Hl Ha]|Hn].
  + assert (clear = true) as ->.
    { apply bool_decide_eq_true. split_and!; [done|done|]. apply Forall_forall. intros a. apply Hds. }
    destruct (filter _ (runs d)) as [|r' l] eqn:E.
    { exfalso. apply (not_elem_of_nil r). rewrite <-E. by apply list_elem_of_filter. }
    unfold mret, M_ret. simpl. f_equal. f_equal. apply list_filter_ext_in. naive_solver.
  + assert (clear = false) as ->.
    { apply bool_decide_eq_false. intros (Hl & Ha & _). by apply Hn. }
    rewrite filter_none by naive_solver. rewrite filter_all by naive_solver. unfold mret, M_ret.
    f_equal.
Qed.


(** ** Staged uploads *)

Lemma deleteStagedUploads_run P `{∀ a, Decision (P a)} d :
  deleteStagedUploads P d =
    (Ok (filter P (stagedUploads d)), set_stagedUploads (filter (λ u, ¬ P u) (stagedUploads d)) d).
Proof. done. Qed.

Lemma claimStagedUploads_run owner locations d :
  let claimed := λ u, up_ownerUserId u = owner ∧ up_storageLocation u ∈ locations in
  claimStagedUploads owner locations d = (Ok (length (filter claimed (stagedUploads d))),
    set_stagedUploads (filter (λ u, ¬ claimed u) (stagedUploads d)) d).
Proof.
  intros claimed. unfold claimStagedUploads. case_decide as Hl.
  - apply nil_length_inv in Hl. subst locations.
    assert (∀ u, ¬ claimed u) as Hnone by (by intros u [_ ?%elem_of_nil]).
    rewrite filter_none by auto. rewrite filter_all by auto. by destruct d.
  - by rewrite bind_run, deleteStagedUploads_run.
Qed.

(** Claiming releases exactly the uploads of that owner at those
    locations and counts them; uploads of other owners and every other table
    stay. Claiming again releases nothing, and the collector no longer
    lists what was claimed. *)
Theorem claimStagedUploads_spec owner locations d :
  let claimed := λ u, up_ownerUserId u = owner ∧ up_storageLocation u ∈ locations in
  let d' := set_stagedUploads (filter (λ u, ¬ claimed u) (stagedUploads d)) d in
  claimStagedUploads owner locations d = (Ok (length (filter claimed (stagedUploads d))), d') ∧
  claimStagedUploads owner locations d' = (Ok 0, d') ∧
  ∀ now batchSize page u, listExpiredStagedUploads now batchSize d' = (Ok page, d') → u ∈ page → ¬ claimed u.
Proof.
  intros claimed d'.
  split_and!.
  - apply claimStagedUploads_run.
  - rewrite claimStagedUploads_run. fold claimed. simpl. rewrite filter_none; [|by intros u [? _]%list_elem_of_filter].
    rewrite filter_all; [done|by intros u [? _]%list_elem_of_filter].
  - intros now batchSize page u Hlist Hu.
    pose proof (firstExpired_page stagedUploads (λ u, (up_expiresAt u ≤ now)%Z) (λ u, Some (up_expiresAt u))
      up_id batchSize d') as Hp.
    unfold listExpiredStagedUploads in Hlist. destruct (validateBatchSize batchSize); [|congruence].
    destruct Hp as (page' & Hp & Hpage). assert (page' = page) as -> by congruence.
    apply (page_rows _ _ _ _ _ Hpage) in Hu as [[? _]%list_elem_of_filter _]. done.
Qed.
