(* ===== verification/Collector.v ===== *)
(** * The garbage collector

    [apps/garbage-collector/src]: storage.ts (containment of deletions in the
    storage root), cleanup.ts (the two retention passes, over interfaces for
    metadata and storage), runtime.ts and server.ts.

    [Promise.all] starts every operation and rejects with a failure; the
    others still take effect. Each operation here is one statement or one
    transaction, so their effects follow one another; they are taken in the
    order of the list. *)

From S2P Require Import Prelude Js Contracts Http Database Integrity Statements Paths Files Retention.

(** ** storage.ts *)

Inductive StorageCleanupResult := handled | unsupported.

(** Deletion of one stored object, in any state. *)
Class RetentionStorage (S : Type) := { storage_delete : StoredObject → M S exn StorageCleanupResult }.

Definition backslash : ascii := Ascii.ascii_of_nat 92.

Definition pathForLocation (root : list string) (location : string) : result (list string) :=
  if decide (String.length location = 0 ∨ has_char backslash location = true)
  then Throw (JsError "Storage location must be a safe relative POSIX path.")
  else
    let path := resolve root location in
    if escapes root path then Throw (JsError "Storage location escapes the configured root.")
    else Ok path.

Definition LocalRetentionStorage `{!FileSystem} (root : list string) : RetentionStorage World := {|
  storage_delete object :=
    if decide (storageKind object ≠ StorageKind.local) then mret unsupported
    else
      path ← lift (pathForLocation root (storageLocation object));
      rm path;;
      mret handled |}.

(** ** cleanup.ts *)

Record RetentionRepository (S : Type) := {
  repo_listExpiredArtifacts : Z → jsnumber → M S exn (list ExpiredStorageRecord);
  repo_listExpiredDatasets : Z → jsnumber → M S exn (list ExpiredStorageRecord);
  repo_listExpiredStagedUploads : Z → jsnumber → M S exn (list ExpiredStorageRecord);
  repo_deleteExpiredArtifact : string → Z → M S exn bool;
  repo_deleteExpiredDataset : string → Z → M S exn bool;
  repo_deleteExpiredStagedUpload : string → Z → M S exn bool;
  repo_listExpiredRuns : Z → jsnumber → M S exn (list string);
  repo_listExpiredRunLogs : Z → jsnumber → M S exn (list string);
  repo_deleteExpiredRun : string → Z → M S exn bool;
  repo_deleteExpiredRunLog : string → Z → M S exn bool }.
Arguments repo_listExpiredArtifacts {S} _ _ _.
Arguments repo_listExpiredDatasets {S} _ _ _.
Arguments repo_listExpiredStagedUploads {S} _ _ _.
Arguments repo_deleteExpiredArtifact {S} _ _ _.
Arguments repo_deleteExpiredDataset {S} _ _ _.
Arguments repo_deleteExpiredStagedUpload {S} _ _ _.
Arguments repo_listExpiredRuns {S} _ _ _.
Arguments repo_listExpiredRunLogs {S} _ _ _.
Arguments repo_deleteExpiredRun {S} _ _ _.
Arguments repo_deleteExpiredRunLog {S} _ _ _.

Definition artifactRecord (a : ArtifactRow) : ExpiredStorageRecord :=
  {| expired_id := a_id a;
     expired_object := {| storageKind := a_storageKind a; storageLocation := a_storageLocation a |} |}.
Definition datasetRecord (a : DatasetRow) : ExpiredStorageRecord :=
  {| expired_id := d_id a;
     expired_object := {| storageKind := d_storageKind a; storageLocation := d_storageLocation a |} |}.
Definition uploadRecord (u : StagedUploadRow) : ExpiredStorageRecord :=
  {| expired_id := up_id u;
     expired_object := {| storageKind := up_storageKind u; storageLocation := up_storageLocation u |} |}.

(** [createRetentionRepository(database)] *)
Definition databaseRepository : RetentionRepository World := {|
  repo_listExpiredArtifacts now n :=
    on_database (rows ← listExpiredArtifacts now n; mret (artifactRecord <$> rows));
  repo_listExpiredDatasets now n :=
    on_database (rows ← listExpiredDatasets now n; mret (datasetRecord <$> rows));
  repo_listExpiredStagedUploads now n :=
    on_database (rows ← listExpiredStagedUploads now n; mret (uploadRecord <$> rows));
  repo_deleteExpiredArtifact id now := on_database (deleteExpiredArtifact id now);
  repo_deleteExpiredDataset id now := on_database (deleteExpiredDataset id now);
  repo_deleteExpiredStagedUpload id now := on_database (deleteExpiredStagedUpload id now);
  repo_listExpiredRuns now n := on_database (rows ← listExpiredRuns now n; mret (r_id <$> rows));
  repo_listExpiredRunLogs now n := on_database (rows ← listExpiredRunLogs now n; mret (l_id <$> rows));
  repo_deleteExpiredRun id now := on_database (deleteExpiredRun id now);
  repo_deleteExpiredRunLog id now := on_database (deleteExpiredRunLog id now) |}.

Record CleanupSummary := { candidates : nat; metadataDeleted : nat; failed : nat; skipped : nat }.

Definition emptySummary : CleanupSummary :=
  {| candidates := 0; metadataDeleted := 0; failed := 0; skipped := 0 |}.

Definition addSummaries (left right : CleanupSummary) : CleanupSummary :=
  {| candidates := candidates left + candidates right;
     metadataDeleted := metadataDeleted left + metadataDeleted right;
     failed := failed left + failed right; skipped := skipped left + skipped right |}.

Definition sumSummaries (l : list CleanupSummary) : CleanupSummary := foldl addSummaries emptySummary l.

Record ExecutionCleanupSummary := { logsDeleted : nat; runCandidates : nat; runsDeleted : nat }.

Definition countDeleted (results : list bool) : nat := length (filter (λ b, b = true) results).

(** [Promise.all(l)] *)
Fixpoint promise_all {S E A} (l : list (M S E A)) : M S E (list A) := λ s,
  match l with
  | [] => (Ok [], s)
  | m :: l =>
      let '(r, s1) := m s in
      let '(rs, s2) := promise_all l s1 in
      (match r, rs with
       | Throw e, _ => Throw e
       | Ok _, Throw e => Throw e
       | Ok a, Ok l => Ok (a :: l)
       end, s2)
  end.

Section cleanup.
Context {S : Type} (repository : RetentionRepository S) `{!RetentionStorage S} (batchSize : jsnumber).

(** The callback of [cleanupRecords]. *)
Definition cleanupRecord (now : Z) (deleteMetadata : string → Z → M S exn bool)
    (record : ExpiredStorageRecord) : M S exn CleanupSummary :=
  try_catch
    (outcome ← storage_delete (expired_object record);
     match outcome with
     | unsupported => mret {| candidates := 1; metadataDeleted := 0; failed := 0; skipped := 1 |}
     | handled =>
         deleted ← deleteMetadata (expired_id record) now;
         mret {| candidates := 1; metadataDeleted := if (deleted : bool) then 1 else 0; failed := 0;
                 skipped := 0 |}
     end)
    (λ _, mret {| candidates := 1; metadataDeleted := 0; failed := 1; skipped := 0 |}).

Definition cleanupRecords (now : Z) (deleteMetadata : string → Z → M S exn bool)
    (records : list ExpiredStorageRecord) : M S exn CleanupSummary :=
  results ← promise_all (cleanupRecord now deleteMetadata <$> records);
  mret (sumSummaries results).

(** [RetentionCleanup.run] *)
Definition retentionCleanup (now : Z) : M S exn CleanupSummary :=
  artifacts ← repo_listExpiredArtifacts repository now batchSize;
  datasets ← repo_listExpiredDatasets repository now batchSize;
  uploads ← repo_listExpiredStagedUploads repository now batchSize;
  summaries ← promise_all [
    cleanupRecords now (repo_deleteExpiredArtifact repository) artifacts;
    cleanupRecords now (repo_deleteExpiredDataset repository) datasets;
    cleanupRecords now (repo_deleteExpiredStagedUpload repository) uploads];
  mret (sumSummaries summaries).

(** [ExecutionRetentionCleanup.run] *)
Definition executionRetentionCleanup (now : Z) : M S exn ExecutionCleanupSummary :=
  expiredLogs ← repo_listExpiredRunLogs repository now batchSize;
  deletedLogs ← promise_all ((λ id, repo_deleteExpiredRunLog repository id now) <$> expiredLogs);
  expiredRuns ← repo_listExpiredRuns repository now batchSize;
  deletedRuns ← promise_all ((λ id, repo_deleteExpiredRun repository id now) <$> expiredRuns);
  mret {| logsDeleted := countDeleted deletedLogs; runCandidates := length expiredRuns;
          runsDeleted := countDeleted deletedRuns |}.
End cleanup.

(** ** runtime.ts and main.ts *)

(** Whether the timer is set, and how often the failure callback ran. *)
Record GarbageCollectorRuntime := { timer : bool; cleanupFailures : nat }.

Section runtime.
Context {S : Type}.

(** [runCleanup]: a failed pass is reported and forgotten. *)
Definition runCleanup {A} (cleanup : M S exn A) : M (GarbageCollectorRuntime * S) exn unit := λ '(rt, s),
  match cleanup s with
  | (Ok _, s') => (Ok (), (rt, s'))
  | (Throw _, s') => (Ok (), ({| timer := timer rt; cleanupFailures := cleanupFailures rt + 1 |}, s'))
  end.

Definition start {A} (cleanup : M S exn A) : M (GarbageCollectorRuntime * S) exn unit := λ '(rt, s),
  if timer rt then (Ok (), (rt, s))
  else
    let '(_, (rt', s')) := runCleanup cleanup (rt, s) in
    (Ok (), ({| timer := true; cleanupFailures := cleanupFailures rt' |}, s')).

(** The timer fires only while it is set. *)
Definition tick {A} (cleanup : M S exn A) : M (GarbageCollectorRuntime * S) exn unit := λ '(rt, s),
  if timer rt then runCleanup cleanup (rt, s) else (Ok (), (rt, s)).

Definition stop : M (GarbageCollectorRuntime * S) exn unit := λ '(rt, s),
  (Ok (), ({| timer := false; cleanupFailures := cleanupFailures rt |}, s)).
End runtime.

(** The operation main.ts repeats. *)
Definition collectorPass `{!FileSystem} (root : list string) (batchSize : jsnumber) (now : Z) :
    M World exn unit :=
  retentionCleanup (RetentionStorage0 := LocalRetentionStorage root) databaseRepository batchSize now;;
  executionRetentionCleanup databaseRepository batchSize now;;
  mret ().

(** ** server.ts *)

Definition garbageCollectorServer (serviceName method url : string) (checkDatabase : result unit) :
    Response Json :=
  if decide (method = "GET" ∧ url = "/health") then
    match checkDatabase with
    | Ok _ => jsonResponse 200 (JObject [("service", JString serviceName); ("status", JString "ok")])
    | Throw _ => jsonResponse 503 (JObject [("service", JString serviceName); ("status", JString "unavailable")])
    end
  else jsonResponse 404 (JObject [("error", JString "not_found")]).
