(* ===== verification/CollectorProofs.v ===== *)
(** * Correctness of the garbage collector

    Deletions stay beneath the storage root; a pass accounts for every
    candidate and survives the failure of any of them; no tracked file
    outlives its metadata, and no file is removed that expired metadata does
    not name. *)

From S2P Require Import Prelude Js Contracts Database Integrity Statements Paths Files Retention.
From S2P Require Import Collector.

(** ** Containment *)


(** ** Accounting *)

(** The counters of a summary cover its candidates, but for the metadata
    another collector removed first. *)
Definition accounted (s : CleanupSummary) : Prop :=
  metadataDeleted s + failed s + skipped s ≤ candidates s.

Lemma sum_accounted l : Forall accounted l →
  accounted (sumSummaries l) ∧ candidates (sumSummaries l) = sum_list (candidates <$> l).
Proof.
  unfold sumSummaries.
  cut (∀ s0, accounted s0 → Forall accounted l → accounted (foldl addSummaries s0 l) ∧
    candidates (foldl addSummaries s0 l) = candidates s0 + sum_list (candidates <$> l)).
  { intros Hl Hall. destruct (Hl emptySummary) as [? Heq]; [unfold accounted; simpl; lia|done|].
    by rewrite Heq. }
  induction l as [|s l IH]; intros s0 Hs0 Hall; csimpl; [split; [done|lia]|].
  apply Forall_cons in Hall as [Hs Hall]. destruct (IH (addSummaries s0 s)) as [? Heq].
  - unfold accounted in *. simpl. lia.
  - done.
  - split; [done|]. rewrite Heq. simpl. lia.
Qed.

Lemma promise_all_total {S E A B} (P : B → A → Prop) (f : B → M S E A) (l : list B) s :
  (∀ b s, b ∈ l → ∃ a s', f b s = (Ok a, s') ∧ P b a) →
  ∃ out s', promise_all (f <$> l) s = (Ok out, s') ∧ Forall2 P l out.
Proof.
  revert s. induction l as [|b l IH]; intros s Hf; csimpl; [by eexists [], s|].
  destruct (Hf b s) as (a & s1 & E1 & HP); [left|].
  destruct (IH s1) as (out & s2 & E2 & Hall); [intros; apply Hf; by right|].
  exists (a :: out), s2. rewrite E1, E2. split; [done|]. by constructor.
Qed.

Section accounting.
Context {S : Type} `{!RetentionStorage S}.

(** One record never fails the batch. *)
Lemma cleanupRecord_total now dm record s :
  ∃ summary s', cleanupRecord now dm record s = (Ok summary, s') ∧ accounted summary ∧ candidates summary = 1.
Proof.
  unfold cleanupRecord, try_catch, accounted. rewrite bind_run.
  destruct (storage_delete (expired_object record) s) as [[[]|e] s1]; [| by eexists _, _|by eexists _, _].
  rewrite bind_run. destruct (dm (expired_id record) now s1) as [[[]|e] s2];
    eexists _, _; (split; [done|]); simpl; split; lia || done.
Qed.

Lemma cleanupRecords_total now dm records s :
  ∃ summary s', cleanupRecords now dm records s = (Ok summary, s') ∧ accounted summary ∧
    candidates summary = length records.
Proof.
  unfold cleanupRecords. rewrite bind_run.
  destruct (promise_all_total (λ _ summary, accounted summary ∧ candidates summary = 1)
    (cleanupRecord now dm) records s) as (out & s' & E & Hall).
  { intros r s1 _. apply cleanupRecord_total. }
  rewrite E. eexists _, _. split; [done|].
  assert (Forall accounted out ∧ sum_list (candidates <$> out) = length records) as [Ha Hc].
  { clear E. induction Hall as [|r o rs os [Ho1 Ho2] _ [IH1 IH2]]; csimpl; [by split|].
    split; [by constructor|]. lia. }
  destruct (sum_accounted out Ha) as [? Hs]. split; [done|]. by rewrite Hs.
Qed.

(** Whatever the metadata store and the storage are, a pass whose three
    queries answer returns: no failure of a record stops it. It counts every
    record once as a candidate and never more outcomes than candidates. *)
Theorem retentionCleanup_accounts (repository : RetentionRepository S) batchSize now s as_ s1 ds s2 us s3 :
  repo_listExpiredArtifacts repository now batchSize s = (Ok as_, s1) →
  repo_listExpiredDatasets repository now batchSize s1 = (Ok ds, s2) →
  repo_listExpiredStagedUploads repository now batchSize s2 = (Ok us, s3) →
  ∃ summary s', retentionCleanup repository batchSize now s = (Ok summary, s') ∧
    accounted summary ∧ candidates summary = length as_ + length ds + length us.
Proof.
  intros Ha Hd Hu. unfold retentionCleanup. rewrite bind_run, Ha. cbv beta iota.
  rewrite bind_run, Hd. cbv beta iota. rewrite bind_run, Hu. cbv beta iota. rewrite bind_run. cbn [promise_all].
  destruct (cleanupRecords_total now (repo_deleteExpiredArtifact repository) as_ s3) as (m1 & t1 & -> & ? & E1).
  destruct (cleanupRecords_total now (repo_deleteExpiredDataset repository) ds t1) as (m2 & t2 & -> & ? & E2).
  destruct (cleanupRecords_total now (repo_deleteExpiredStagedUpload repository) us t2) as (m3 & t3 & -> & ? & E3).
  eexists _, _. split; [done|].
  destruct (sum_accounted [m1; m2; m3]) as [? Hs]; [by repeat constructor|].
  split; [done|]. rewrite Hs. simpl. lia.
Qed.
End accounting.

(** ** Metadata and files *)

(** Who keeps track of a stored object. *)
Inductive Owner := artifact_of (id : string) | dataset_of (id : string) | upload_of (id : string).

#[export] Instance Owner_eq_dec : EqDecision Owner.
Proof. solve_decision. Defined.

Definition artifactEntry (a : ArtifactRow) : Owner * StoredObject :=
  (artifact_of (a_id a), expired_object (artifactRecord a)).
Definition datasetEntry (a : DatasetRow) : Owner * StoredObject :=
  (dataset_of (d_id a), expired_object (datasetRecord a)).
Definition uploadEntry (u : StagedUploadRow) : Owner * StoredObject :=
  (upload_of (up_id u), expired_object (uploadRecord u)).

Definition tracked (d : Database) : list (Owner * StoredObject) :=
  (artifactEntry <$> artifacts d) ++ (datasetEntry <$> datasets d) ++ (uploadEntry <$> stagedUploads d).

(** The file a stored object names. *)
Definition object_path (root : list string) (object : StoredObject) : option (list string) :=
  if decide (storageKind object = StorageKind.local) then
    match pathForLocation root (storageLocation object) with Ok path => Some path | Throw _ => None end
  else None.

Section world.
Context `{!FileSystem} (root : list string) (d0 : Database) (files0 : gset (list string)).

Record swept_to (entries : list (Owner * StoredObject)) (w : World) : Prop := {
  swept_runs : runs (database w) = runs d0;
  swept_artifacts : ∀ a, a ∈ artifacts (database w) → a ∈ artifacts d0;
  swept_datasets : ∀ a, a ∈ datasets (database w) → a ∈ datasets d0;
  swept_uploads : ∀ a, a ∈ stagedUploads (database w) → a ∈ stagedUploads d0;
  swept_files : files w ⊆ files0;
  swept_removed : ∀ path, path ∈ files0 → path ∉ files w →
    ∃ x, x ∈ entries ∧ object_path root x.2 = Some path;
  swept_orphan : ∀ x, x ∈ tracked d0 → x ∈ tracked (database w) ∨
    ∃ path, object_path root x.2 = Some path ∧ path ∉ files w }.

(** What the deletion of a record's metadata does. *)
Definition forgets (owner : Owner) (m : DB bool) : Prop := ∀ d,
  runs d = runs d0 → (∀ a, a ∈ artifacts d → a ∈ artifacts d0) → (∀ a, a ∈ datasets d → a ∈ datasets d0) →
  (∀ a, a ∈ stagedUploads d → a ∈ stagedUploads d0) →
  ∃ b d', m d = (Ok b, d') ∧ runs d' = runs d ∧ (∀ a, a ∈ artifacts d' → a ∈ artifacts d) ∧
    (∀ a, a ∈ datasets d' → a ∈ datasets d) ∧ (∀ a, a ∈ stagedUploads d' → a ∈ stagedUploads d) ∧
    (∀ x, x ∈ tracked d → x ∈ tracked d' ∨ x.1 = owner) ∧ owner ∉ (tracked d').*1.

Lemma tracked_sub d d' :
  (∀ a, a ∈ artifacts d' → a ∈ artifacts d) → (∀ a, a ∈ datasets d' → a ∈ datasets d) →
  (∀ a, a ∈ stagedUploads d' → a ∈ stagedUploads d) → ∀ x, x ∈ tracked d' → x ∈ tracked d.
Proof.
  intros Ha Hd Hu x. unfold tracked. rewrite !elem_of_app, !list_elem_of_fmap. naive_solver.
Qed.

Hypothesis keys : NoDup (tracked d0).*1.

Lemma tracked_owner x y : x ∈ tracked d0 → y ∈ tracked d0 → x.1 = y.1 → x = y.
Proof. intros. by apply (NoDup_fmap_eq fst (tracked d0)). Qed.

(** The removal of the file an entry names. *)
Lemma swept_remove entries w x path :
  swept_to entries w → x ∈ entries → object_path root x.2 = Some path →
  swept_to entries (set_files (files w ∖ {[path]}) w).
Proof.
  intros Hw Hx Hp. destruct Hw as [? ? ? ? Hf Hr Ho]. split; simpl; try done.
  - set_solver.
  - intros q Hq Hn. destruct (decide (q = path)) as [->|Hne]; [by exists x|]. apply Hr; [done|]. set_solver.
  - intros y Hy. destruct (Ho y Hy) as [?|(q & ? & ?)]; [by left|]. right. exists q. split; [done|]. set_solver.
Qed.

(** The removal of the metadata of a file that is gone. *)
Lemma swept_forget entries w x m :
  swept_to entries w → x ∈ tracked d0 → forgets x.1 m →
  (∃ path, object_path root x.2 = Some path ∧ path ∉ files w) →
  ∃ b w', on_database m w = (Ok b, w') ∧ swept_to entries w' ∧ files w' = files w ∧
    x.1 ∉ (tracked (database w')).*1 ∧ (∀ y, y ∈ tracked (database w') → y ∈ tracked (database w)).
Proof.
  intros Hw Hx Hm Hgone. destruct Hw as [Hr Ha Hd Hu Hf Hrm Ho].
  destruct (Hm (database w) Hr Ha Hd Hu) as (b & d' & E & Hr' & Ha' & Hd' & Hu' & Hkeep & Hout).
  unfold on_database. rewrite E. eexists _, _. split; [done|]. split_and!; [|done|done|].
  - split; simpl; [by rewrite Hr'|by auto..|done|done|].
    intros y Hy. destruct (Ho y Hy) as [Hin|?]; [|by right].
    destruct (Hkeep y Hin) as [?|Heq]; [by left|]. right. by rewrite (tracked_owner y x Hy Hx Heq).
  - by apply tracked_sub.
Qed.

(** A file the operating system lets go. *)
Definition removable (object : StoredObject) : Prop :=
  ∃ path, object_path root object = Some path ∧ rm_error path = None.

Lemma storage_run object w :
  storage_delete (RetentionStorage := LocalRetentionStorage root) object w =
    (if decide (storageKind object ≠ StorageKind.local) then (Ok unsupported, w)
     else match pathForLocation root (storageLocation object) with
          | Throw e => (Throw e, w)
          | Ok path => match rm_error path with
                       | Some e => (Throw e, w)
                       | None => (Ok handled, set_files (files w ∖ {[path]}) w)
                       end
          end).
Proof.
  cbn [storage_delete LocalRetentionStorage]. case_decide; [done|]. rewrite bind_run. unfold lift.
  destruct (pathForLocation _ _) as [path|e]; [|done]. rewrite bind_run, rm_run.
  by destruct (rm_error path).
Qed.

(** One record: nothing is lost, and what can be removed is. *)
Lemma cleanupRecord_swept entries now dm record owner w :
  let x := (owner, expired_object record) in
  swept_to entries w → x ∈ entries → x ∈ tracked d0 → forgets owner (dm (expired_id record) now) →
  let w' := (cleanupRecord (RetentionStorage0 := LocalRetentionStorage root) now
    (λ id now, on_database (dm id now)) record w).2 in
  swept_to entries w' ∧ (∀ y, y ∈ tracked (database w') → y ∈ tracked (database w)) ∧
  (removable (expired_object record) → owner ∉ (tracked (database w')).*1).
Proof.
  intros x Hw Hxe Hx Hdm. unfold cleanupRecord, try_catch. rewrite bind_run, storage_run.
  destruct (decide (storageKind (expired_object record) ≠ StorageKind.local)) as [Hk|Hk].
  { simpl. split_and!; [done..|]. intros (path & Hp & _). unfold object_path in Hp.
    by rewrite decide_False in Hp. }
  apply dec_stable in Hk.
  destruct (pathForLocation root (storageLocation (expired_object record))) as [path|e] eqn:Hpath; cycle 1.
  { simpl. split_and!; [done..|]. intros (path & Hp & _). unfold object_path in Hp.
    by rewrite decide_True, Hpath in Hp. }
  assert (object_path root x.2 = Some path) as Hop.
  { unfold object_path. simpl. by rewrite decide_True, Hpath. }
  destruct (rm_error path) as [e|] eqn:Hrm.
  { simpl. split_and!; [done..|]. intros (path' & Hp' & Hrm'). simpl in Hop. congruence. }
  set (w1 := set_files (files w ∖ {[path]}) w).
  destruct (swept_forget entries w1 x (dm (expired_id record) now)) as (b & w2 & E & Hw2 & _ & Hout & Hsub).
  { by eapply swept_remove. } { done. } { done. } { exists path. split; [done|]. simpl. set_solver. }
  rewrite bind_run, E. simpl. split_and!; [done|exact Hsub|done].
Qed.

Lemma cleanupRecords_swept entries now dm (own : ExpiredStorageRecord → Owner) records w :
  swept_to entries w →
  (∀ r, r ∈ records → (own r, expired_object r) ∈ entries ∧ (own r, expired_object r) ∈ tracked d0 ∧
     forgets (own r) (dm (expired_id r) now)) →
  let w' := (cleanupRecords (RetentionStorage0 := LocalRetentionStorage root) now
    (λ id now, on_database (dm id now)) records w).2 in
  swept_to entries w' ∧ (∀ y, y ∈ tracked (database w') → y ∈ tracked (database w)) ∧
  (∀ r, r ∈ records → removable (expired_object r) → own r ∉ (tracked (database w')).*1).
Proof.
  intros Hw Hrs. unfold cleanupRecords. rewrite bind_run.
  set (f := cleanupRecord (RetentionStorage0 := LocalRetentionStorage root) now (λ id now, on_database (dm id now))).
  assert ((match promise_all (f <$> records) w with
    | (Ok a, s') => (mret (sumSummaries a) : M World exn CleanupSummary) s'
    | (Throw e, s') => (Throw e, s') end).2 = (promise_all (f <$> records) w).2) as ->.
  { by destruct (promise_all _ w) as [[?|?] ?]. }
  revert w Hw. induction records as [|r records IH]; intros w Hw; csimpl.
  { split_and!; [done..|]. by intros r ?%elem_of_nil. }
  destruct (Hrs r) as (He & Ht & Hdm); [left|].
  pose proof (cleanupRecord_swept entries now dm r (own r) w Hw He Ht Hdm) as (Hw1 & Hsub1 & Hgone1).
  fold f in Hw1, Hsub1, Hgone1. destruct (f r w) as [o w1]. simpl in *.
  destruct (IH (λ r' Hr', Hrs r' (list_elem_of_further _ _ _ Hr')) w1 Hw1) as (Hw2 & Hsub2 & Hgone2).
  destruct (promise_all (f <$> records) w1) as [os w2]. simpl in *.
  split_and!; [done|naive_solver|]. intros r' [->|Hr']%elem_of_cons Hrem; [|by apply Hgone2].
  intros (y & Hy & Hin)%list_elem_of_fmap. apply (Hgone1 Hrem). rewrite Hy. apply list_elem_of_fmap_2.
  by apply Hsub2.
Qed.
(** ** The deletions forget their record *)

Lemma tracked_ids : NoDup (a_id <$> artifacts d0) ∧ NoDup (d_id <$> datasets d0) ∧
  NoDup (up_id <$> stagedUploads d0).
Proof.
  pose proof keys as Hk. unfold tracked in Hk.
  rewrite !fmap_app, <-!list_fmap_compose in Hk.
  apply NoDup_app in Hk as (Ha & _ & Hk). apply NoDup_app in Hk as (Hd & _ & Hu).
  split_and!; [apply (NoDup_fmap_1 artifact_of)|apply (NoDup_fmap_1 dataset_of)|apply (NoDup_fmap_1 upload_of)];
    by rewrite <-list_fmap_compose.
Qed.

Lemma elem_of_tracked d x : x ∈ tracked d ↔
  (∃ a, x = artifactEntry a ∧ a ∈ artifacts d) ∨ (∃ a, x = datasetEntry a ∧ a ∈ datasets d) ∨
  (∃ u, x = uploadEntry u ∧ u ∈ stagedUploads d).
Proof. unfold tracked. by rewrite !elem_of_app, !list_elem_of_fmap. Qed.

(** A deletion from one of the three tables: the others stay, and so do the
    rows of the table with another key. *)
Lemma forgets_artifact a now : a ∈ artifacts d0 → (a_expiresAt a ≤ now)%Z →
  forgets (artifact_of (a_id a)) (deleteExpiredArtifact (a_id a) now).
Proof.
  intros Hin Hexp d Hr Ha Hd Hu. eexists _, _. split; [done|]. simpl.
  split_and!; try done; [by intros b [_ ?]%list_elem_of_filter|..].
  - intros x. rewrite !elem_of_tracked. simpl. intros [(b & -> & Hb)|?]; [|by left; right].
    destruct (decide (a_id b = a_id a)) as [Heq|Hne]; [right; simpl; by rewrite Heq|].
    left; left. exists b. split; [done|]. apply list_elem_of_filter. naive_solver.
  - intros (x & Hx & Hin')%list_elem_of_fmap. rewrite elem_of_tracked in Hin'. simpl in Hin'.
    destruct Hin' as [(b & -> & [Hn Hb]%list_elem_of_filter)|[(b & -> & _)|(b & -> & _)]]; [|done..].
    injection Hx as Heq. apply Hn.
    by rewrite (NoDup_fmap_eq a_id (artifacts d0) b a (proj1 tracked_ids) (Ha b Hb) Hin (eq_sym Heq)).
Qed.

Lemma forgets_dataset a now :
  a ∈ datasets d0 → elapsed (d_expiresAt a) now → d_runId a ∈ terminalRuns d0 →
  forgets (dataset_of (d_id a)) (deleteExpiredDataset (d_id a) now).
Proof.
  intros Hin Hexp Hterm d Hr Ha Hd Hu. eexists _, _. split; [done|]. simpl.
  assert (terminalRuns d = terminalRuns d0) as -> by (unfold terminalRuns; by rewrite Hr).
  split_and!; try done; [by intros b [_ ?]%list_elem_of_filter|..].
  - intros x. rewrite !elem_of_tracked. simpl. intros [?|[(b & -> & Hb)|?]]; [by left; left| |by left; right; right].
    destruct (decide (d_id b = d_id a)) as [Heq|Hne]; [right; simpl; by rewrite Heq|].
    left; right; left. exists b. split; [done|]. apply list_elem_of_filter. naive_solver.
  - intros (x & Hx & Hin')%list_elem_of_fmap. rewrite elem_of_tracked in Hin'. simpl in Hin'.
    destruct Hin' as [(b & -> & _)|[(b & -> & [Hn Hb]%list_elem_of_filter)|(b & -> & _)]]; [done| |done].
    injection Hx as Heq. apply Hn.
    by rewrite (NoDup_fmap_eq d_id (datasets d0) b a (proj1 (proj2 tracked_ids)) (Hd b Hb) Hin (eq_sym Heq)).
Qed.

Lemma forgets_upload u now : u ∈ stagedUploads d0 → (up_expiresAt u ≤ now)%Z →
  forgets (upload_of (up_id u)) (deleteExpiredStagedUpload (up_id u) now).
Proof.
  intros Hin Hexp d Hr Ha Hd Hu. eexists _, _. split; [done|]. simpl.
  split_and!; try done; [by intros b [_ ?]%list_elem_of_filter|..].
  - intros x. rewrite !elem_of_tracked. simpl. intros [?|[?|(b & -> & Hb)]]; [by left; left|by left; right; left|].
    destruct (decide (up_id b = up_id u)) as [Heq|Hne]; [right; simpl; by rewrite Heq|].
    left; right; right. exists b. split; [done|]. apply list_elem_of_filter. naive_solver.
  - intros (x & Hx & Hin')%list_elem_of_fmap. rewrite elem_of_tracked in Hin'. simpl in Hin'.
    destruct Hin' as [(b & -> & _)|[(b & -> & _)|(b & -> & [Hn Hb]%list_elem_of_filter)]]; [done..|].
    injection Hx as Heq. apply Hn.
    by rewrite (NoDup_fmap_eq up_id (stagedUploads d0) b u (proj2 (proj2 tracked_ids)) (Hu b Hb) Hin (eq_sym Heq)).
Qed.
End world.

(** The entries of the rows a pass lists. *)
Definition listed (as_ : list ArtifactRow) (ds : list DatasetRow) (us : list StagedUploadRow) :
    list (Owner * StoredObject) :=
  (artifactEntry <$> as_) ++ (datasetEntry <$> ds) ++ (uploadEntry <$> us).


Lemma listed_pages now batchSize n d :
  validateBatchSize batchSize = Ok n → ∃ as_ ds us,
  listExpiredArtifacts now batchSize d = (Ok as_, d) ∧ listExpiredDatasets now batchSize d = (Ok ds, d) ∧
  listExpiredStagedUploads now batchSize d = (Ok us, d) ∧
  (∀ a, a ∈ as_ → a ∈ artifacts d ∧ (a_expiresAt a ≤ now)%Z) ∧
  (∀ a, a ∈ ds → a ∈ datasets d ∧ elapsed (d_expiresAt a) now ∧ d_runId a ∈ terminalRuns d) ∧
  (∀ u, u ∈ us → u ∈ stagedUploads d ∧ (up_expiresAt u ≤ now)%Z).
Proof.
  intros Hn.
  pose proof (λ A table P H expiresAt id, @firstExpired_page A table P H expiresAt id batchSize d) as Hpage.
  rewrite Hn in Hpage.
  destruct (Hpage _ artifacts (λ a, (a_expiresAt a ≤ now)%Z) _ (λ a, Some (a_expiresAt a)) a_id) as (as_ & ? & Has).
  destruct (Hpage _ datasets (λ a, elapsed (d_expiresAt a) now ∧ d_runId a ∈ terminalRuns d) _ d_expiresAt d_id)
    as (ds & ? & Hds).
  destruct (Hpage _ stagedUploads (λ u, (up_expiresAt u ≤ now)%Z) _ (λ u, Some (up_expiresAt u)) up_id) as (us & ? & Hus).
  exists as_, ds, us. split_and!; [done| |done|..].
  - unfold listExpiredDatasets. by rewrite bind_run.
  - apply (page_rows _ _ _ _ _ Has).
  - apply (page_rows _ _ _ _ _ Hds).
  - apply (page_rows _ _ _ _ _ Hus).
Qed.

(** What a pass lists is on record and, for an upload, due. *)
Lemma listed_due now batchSize n d as_ ds us :
  validateBatchSize batchSize = Ok n →
  listExpiredArtifacts now batchSize d = (Ok as_, d) → listExpiredDatasets now batchSize d = (Ok ds, d) →
  listExpiredStagedUploads now batchSize d = (Ok us, d) →
  (∀ x, x ∈ listed as_ ds us → x ∈ tracked d) ∧
  (∀ u, u ∈ us → u ∈ stagedUploads d ∧ (up_expiresAt u ≤ now)%Z) ∧
  (length (stagedUploads d) ≤ n → ∀ u, u ∈ stagedUploads d → (up_expiresAt u ≤ now)%Z → u ∈ us).
Proof.
  intros Hn Ha Hd Hu. destruct (listed_pages now batchSize n d Hn) as (as1 & ds1 & us1 & Ha1 & Hd1 & Hu1 & Has & Hds & Hus).
  assert (as1 = as_) as -> by congruence. assert (ds1 = ds) as -> by congruence.
  assert (us1 = us) as -> by congruence. split_and!; [|done|].
  - intros x. unfold listed. rewrite !elem_of_app, !list_elem_of_fmap, elem_of_tracked. naive_solver.
  - intros Hlen u Hin Hexp. unfold listExpiredStagedUploads in Hu. rewrite (firstExpired_run _ _ _ _ _ n) in Hu by done.
    injection Hu as <-. rewrite take_ge; [by apply elem_of_order_by, list_elem_of_filter|].
    rewrite length_order_by. etrans; [|done]. apply length_filter.
Qed.

(** The three batches of a pass follow one another. *)
Lemma retentionCleanup_run `{!FileSystem} root batchSize now w as_ ds us :
  let sweep := λ dm records w, (cleanupRecords (RetentionStorage0 := LocalRetentionStorage root) now
    (λ id now, on_database (dm id now)) records w).2 in
  listExpiredArtifacts now batchSize (database w) = (Ok as_, database w) →
  listExpiredDatasets now batchSize (database w) = (Ok ds, database w) →
  listExpiredStagedUploads now batchSize (database w) = (Ok us, database w) →
  ∃ summary,
    retentionCleanup (RetentionStorage0 := LocalRetentionStorage root) databaseRepository batchSize now w =
      (Ok summary, sweep deleteExpiredStagedUpload (uploadRecord <$> us)
        (sweep deleteExpiredDataset (datasetRecord <$> ds)
          (sweep deleteExpiredArtifact (artifactRecord <$> as_) w))).
Proof.
  intros sweep Ha Hd Hu.
  assert (∀ dm records w, ∃ summary, cleanupRecords (RetentionStorage0 := LocalRetentionStorage root) now
    (λ id now, on_database (dm id now)) records w = (Ok summary, sweep dm records w)) as Hsweep.
  { intros dm records w0. destruct (cleanupRecords_total (RetentionStorage0 := LocalRetentionStorage root) now
      (λ id now, on_database (dm id now)) records w0) as (m & t & E & _). exists m. unfold sweep. by rewrite E. }
  unfold retentionCleanup. cbn [databaseRepository repo_listExpiredArtifacts repo_listExpiredDatasets
    repo_listExpiredStagedUploads repo_deleteExpiredArtifact repo_deleteExpiredDataset
    repo_deleteExpiredStagedUpload].
  rewrite bind_run, (on_database_read _ w (Ok (artifactRecord <$> as_))) by (by rewrite bind_run, Ha).
  rewrite bind_run, (on_database_read _ w (Ok (datasetRecord <$> ds))) by (by rewrite bind_run, Hd).
  rewrite bind_run, (on_database_read _ w (Ok (uploadRecord <$> us))) by (by rewrite bind_run, Hu).
  rewrite bind_run. cbn [promise_all].
  destruct (Hsweep deleteExpiredArtifact (artifactRecord <$> as_) w) as [m1 ->].
  destruct (Hsweep deleteExpiredDataset (datasetRecord <$> ds) (sweep deleteExpiredArtifact (artifactRecord <$> as_) w))
    as [m2 ->].
  edestruct (Hsweep deleteExpiredStagedUpload (uploadRecord <$> us)) as [m3 ->]. by eexists.
Qed.

(** One pass, as the invariant of its batches. *)
Lemma retentionCleanup_swept `{!FileSystem} root batchSize n now w :
  validateBatchSize batchSize = Ok n → NoDup (tracked (database w)).*1 →
  ∃ as_ ds us summary w',
    listExpiredArtifacts now batchSize (database w) = (Ok as_, database w) ∧
    listExpiredDatasets now batchSize (database w) = (Ok ds, database w) ∧
    listExpiredStagedUploads now batchSize (database w) = (Ok us, database w) ∧
    retentionCleanup (RetentionStorage0 := LocalRetentionStorage root) databaseRepository batchSize now w =
      (Ok summary, w') ∧
    swept_to root (database w) (files w) (listed as_ ds us) w' ∧
    (∀ x, x ∈ listed as_ ds us → removable root x.2 → x.1 ∉ (tracked (database w')).*1).
Proof.
  intros Hn Hkeys. destruct (listed_pages now batchSize n (database w) Hn)
    as (as_ & ds & us & Ha & Hd & Hu & Has & Hds & Hus).
  set (entries := listed as_ ds us).
  assert (swept_to root (database w) (files w) entries w) as H0.
  { split; try done. intros x Hx. by left. }
  pose proof (cleanupRecords_swept root (database w) (files w) Hkeys entries now deleteExpiredArtifact
    (λ r, artifact_of (expired_id r)) (artifactRecord <$> as_) w H0) as H1.
  destruct H1 as (H1 & Hsub1 & Hgone1).
  { intros r (a & -> & Hin)%list_elem_of_fmap. destruct (Has a Hin). split_and!.
    - unfold entries, listed. rewrite !elem_of_app. left. change (artifactEntry a ∈ artifactEntry <$> as_).
      by apply list_elem_of_fmap_2.
    - apply elem_of_tracked. left. by exists a.
    - by apply forgets_artifact. }
  set (w1 := (cleanupRecords _ _ _ w).2) in *.
  pose proof (cleanupRecords_swept root (database w) (files w) Hkeys entries now deleteExpiredDataset
    (λ r, dataset_of (expired_id r)) (datasetRecord <$> ds) w1 H1) as H2.
  destruct H2 as (H2 & Hsub2 & Hgone2).
  { intros r (a & -> & Hin)%list_elem_of_fmap. destruct (Hds a Hin) as (? & ? & ?). split_and!.
    - unfold entries, listed. rewrite !elem_of_app. right; left. change (datasetEntry a ∈ datasetEntry <$> ds).
      by apply list_elem_of_fmap_2.
    - apply elem_of_tracked. right; left. by exists a.
    - by apply forgets_dataset. }
  set (w2 := (cleanupRecords _ _ _ w1).2) in *.
  pose proof (cleanupRecords_swept root (database w) (files w) Hkeys entries now deleteExpiredStagedUpload
    (λ r, upload_of (expired_id r)) (uploadRecord <$> us) w2 H2) as H3.
  destruct H3 as (H3 & Hsub3 & Hgone3).
  { intros r (u & -> & Hin)%list_elem_of_fmap. destruct (Hus u Hin). split_and!.
    - unfold entries, listed. rewrite !elem_of_app. right; right. change (uploadEntry u ∈ uploadEntry <$> us).
      by apply list_elem_of_fmap_2.
    - apply elem_of_tracked. right; right. by exists u.
    - by apply forgets_upload. }
  set (w3 := (cleanupRecords _ _ _ w2).2) in *.
  destruct (retentionCleanup_run root batchSize now w as_ ds us Ha Hd Hu) as [summary Hrun].
  exists as_, ds, us, summary, w3. split_and!; try done.
  unfold listed. intros x Hx Hrem. rewrite !elem_of_app, !list_elem_of_fmap in Hx.
  intros (y & Hy & Hin)%list_elem_of_fmap.
  destruct Hx as [(a & -> & Hx)|[(a & -> & Hx)|(a & -> & Hx)]].
  + apply (Hgone1 (artifactRecord a)); [by apply list_elem_of_fmap_2|done|].
    simpl in *. rewrite Hy. apply list_elem_of_fmap_2. auto.
  + apply (Hgone2 (datasetRecord a)); [by apply list_elem_of_fmap_2|done|].
    simpl in *. rewrite Hy. apply list_elem_of_fmap_2. auto.
  + apply (Hgone3 (uploadRecord a)); [by apply list_elem_of_fmap_2|done|].
    simpl in *. rewrite Hy. apply list_elem_of_fmap_2. auto.
Qed.

(** C25: one retention pass over local storage. Files only disappear, and
    only those a listed expired record names. Whatever the operating system
    refuses, every object on record before is still on record or its file is
    gone, so no file is orphaned; and every listed object whose file can be
    removed is forgotten. *)
Theorem collector_leaves_no_orphans `{!FileSystem} root batchSize n now w :
  validateBatchSize batchSize = Ok n → NoDup (tracked (database w)).*1 →
  ∃ as_ ds us summary w',
    listExpiredArtifacts now batchSize (database w) = (Ok as_, database w) ∧
    listExpiredDatasets now batchSize (database w) = (Ok ds, database w) ∧
    listExpiredStagedUploads now batchSize (database w) = (Ok us, database w) ∧
    retentionCleanup (RetentionStorage0 := LocalRetentionStorage root) databaseRepository batchSize now w =
      (Ok summary, w') ∧
    files w' ⊆ files w ∧
    (∀ path, path ∈ files w → path ∉ files w' →
       ∃ x, x ∈ listed as_ ds us ∧ object_path root x.2 = Some path) ∧
    (∀ x, x ∈ tracked (database w) → x ∈ tracked (database w') ∨
       ∃ path, object_path root x.2 = Some path ∧ path ∉ files w') ∧
    (∀ x, x ∈ listed as_ ds us → removable root x.2 → x.1 ∉ (tracked (database w')).*1).
Proof.
  intros Hn Hkeys. destruct (retentionCleanup_swept root batchSize n now w Hn Hkeys)
    as (as_ & ds & us & summary & w' & ? & ? & ? & ? & [] & ?).
  by exists as_, ds, us, summary, w'.
Qed.
