(* ===== verification/Accounts.v ===== *)
(** * Accounts

    [apps/web/src/auth]: admin-credentials.ts and admin.ts (the first
    administrator and password resets), initial-setup.ts, api-token.ts
    (bearer credentials), session.ts and route-guard.ts, over the tables of
    [packages/database/src/schema/users.ts], and the token routes of
    [apps/web/src/routes/api].

    Password hashing and SHA-256 are library functions and parameters; a
    random salt and the bytes [randomBytes] returns are arguments, and so is
    the session the authentication library resolves. *)

From S2P Require Import Prelude Js Contracts Schemas Database Paths Http.

(** ** The tables of users.ts *)

Record AccountRow := {
  ac_id : string; ac_accountId : string; ac_providerId : string; ac_userId : string;
  ac_accessToken : option string; ac_refreshToken : option string; ac_idToken : option string;
  ac_accessTokenExpiresAt : option Z; ac_refreshTokenExpiresAt : option Z; ac_scope : option string;
  ac_password : option string; ac_createdAt : Z; ac_updatedAt : Z }.

Record SessionRow := {
  ss_id : string; ss_expiresAt : Z; ss_token : string; ss_createdAt : Z; ss_updatedAt : Z;
  ss_ipAddress : option string; ss_userAgent : option string; ss_userId : string }.

Record ApiTokenRow := {
  tk_id : string; tk_ownerUserId : string; tk_name : string; tk_tokenHash : string;
  tk_createdAt : Z; tk_revokedAt : option Z }.

(** The store with the tables only the authentication code uses. *)
Record Directory := {
  tables : Database;
  accounts : list AccountRow;
  sessions : list SessionRow;
  apiTokens : list ApiTokenRow }.

Abbreviation DIR := (M Directory exn).

Definition set_users (l : list UserRow) (d : Database) : Database :=
  {| users := l; pipelines := pipelines d; pipelineComponents := pipelineComponents d;
     pipelineEdges := pipelineEdges d; pipelineTriggers := pipelineTriggers d; runs := runs d;
     runLogs := runLogs d; runSteps := runSteps d; jobs := jobs d;
     operationalEvents := operationalEvents d; artifacts := artifacts d; datasets := datasets d;
     stagedUploads := stagedUploads d; sourceCheckpoints := sourceCheckpoints d;
     settings := settings d; clock := clock d; nextId := nextId d |}.

Definition set_tables (d : Database) (s : Directory) : Directory :=
  {| tables := d; accounts := accounts s; sessions := sessions s; apiTokens := apiTokens s |}.
Definition set_accounts (l : list AccountRow) (s : Directory) : Directory :=
  {| tables := tables s; accounts := l; sessions := sessions s; apiTokens := apiTokens s |}.
Definition set_sessions (l : list SessionRow) (s : Directory) : Directory :=
  {| tables := tables s; accounts := accounts s; sessions := l; apiTokens := apiTokens s |}.
Definition set_apiTokens (l : list ApiTokenRow) (s : Directory) : Directory :=
  {| tables := tables s; accounts := accounts s; sessions := sessions s; apiTokens := l |}.

Definition on_tables {A} (m : DB A) : DIR A := λ s,
  let '(r, d) := m (tables s) in (r, set_tables d s).

(** A constraint of these tables. *)
Definition demand (P : Directory → Prop) `{∀ s, Decision (P s)} (constraint : string) : DIR unit := λ s,
  if decide (P s) then (Ok (), s) else (Throw (DatabaseError constraint), s).

Definition hasUser (id : string) (s : Directory) : Prop := id ∈ u_id <$> users (tables s).

#[export] Instance hasUser_dec id s : Decision (hasUser id s).
Proof. unfold hasUser. apply _. Defined.

(** The row of an account on insertion. *)
Definition newAccount (id accountId providerId userId password : string) (now : Z) : AccountRow :=
  {| ac_id := id; ac_accountId := accountId; ac_providerId := providerId; ac_userId := userId;
     ac_accessToken := None; ac_refreshToken := None; ac_idToken := None;
     ac_accessTokenExpiresAt := None; ac_refreshTokenExpiresAt := None; ac_scope := None;
     ac_password := Some password; ac_createdAt := now; ac_updatedAt := now |}.

Section statements.
Context `{!Uuids}.

Definition insertUser (email username : string) (emailVerified isAdmin requiresPasswordChange : bool) :
    DIR UserRow :=
  id ← on_tables newId;
  now ← gets (λ s, clock (tables s));
  let row := {| u_id := id; u_email := email; u_username := username; u_passwordHash := None;
                u_emailVerified := emailVerified; u_isAdmin := isAdmin;
                u_requiresPasswordChange := requiresPasswordChange; u_createdAt := now; u_updatedAt := now |} in
  demand (λ s, ¬ hasUser id s) "users_pkey";;
  demand (λ s, email ∉ u_email <$> users (tables s)) "users_email_unique";;
  demand (λ s, username ∉ u_username <$> users (tables s)) "users_username_unique";;
  puts (λ s, set_tables (set_users (users (tables s) ++ [row]) (tables s)) s);;
  mret row.

Definition updateUsers (P : UserRow → Prop) `{∀ u, Decision (P u)} (f : UserRow → UserRow) : DIR unit :=
  demand (λ s, NoDup (u_email <$> (updateIf P f <$> users (tables s)))) "users_email_unique";;
  puts (λ s, set_tables (set_users (updateIf P f <$> users (tables s)) (tables s)) s).

Definition insertAccount (accountId providerId userId password : string) : DIR unit :=
  id ← on_tables newId;
  now ← gets (λ s, clock (tables s));
  demand (λ s, id ∉ ac_id <$> accounts s) "accounts_pkey";;
  demand (hasUser userId) "accounts_user_id_users_id_fk";;
  puts (λ s, set_accounts (accounts s ++ [newAccount id accountId providerId userId password now]) s).

(** [UPDATE ... RETURNING]: the number of rows updated. *)
Definition updateAccounts (P : AccountRow → Prop) `{∀ a, Decision (P a)} (f : AccountRow → AccountRow) :
    DIR nat :=
  updated ← gets (λ s, length (filter P (accounts s)));
  puts (λ s, set_accounts (updateIf P f <$> accounts s) s);;
  mret updated.

Definition deleteSessions (P : SessionRow → Prop) `{∀ r, Decision (P r)} : DIR unit :=
  puts (λ s, set_sessions (filter (λ r, ¬ P r) (sessions s)) s).

Definition insertApiToken (name ownerUserId tokenHash : string) : DIR ApiTokenRow :=
  id ← on_tables newId;
  now ← gets (λ s, clock (tables s));
  let row := {| tk_id := id; tk_ownerUserId := ownerUserId; tk_name := name; tk_tokenHash := tokenHash;
                tk_createdAt := now; tk_revokedAt := None |} in
  demand (λ s, id ∉ tk_id <$> apiTokens s) "api_tokens_pkey";;
  demand (λ s, tokenHash ∉ tk_tokenHash <$> apiTokens s) "api_tokens_token_hash_unique";;
  demand (hasUser ownerUserId) "api_tokens_owner_user_id_users_id_fk";;
  puts (λ s, set_apiTokens (apiTokens s ++ [row]) s);;
  mret row.
End statements.

(** ** admin-credentials.ts *)

Definition DEFAULT_ADMIN_EMAIL : string := "admin@admin.com".
Definition DEFAULT_ADMIN_USERNAME : string := "admin".
Definition DEFAULT_ADMIN_PASSWORD : string := "changeme".
Definition MINIMUM_ADMIN_PASSWORD_LENGTH : nat := 12.

(** A dot with something on either side. *)
Fixpoint dot_inside (s : string) : bool :=
  match s with
  | String _ ((String c (String _ _)) as rest) => bool_decide (c = "."%char) || dot_inside rest
  | _ => false
  end.

(** [/^[^\s@]+@[^\s@]+\.[^\s@]+$/u] *)
Definition isValidAdminEmail (value : string) : bool :=
  all_chars (λ c, negb (is_white c)) value &&
  match split_on "@"%char value with
  | [local; domain] => bool_decide (local ≠ "") && dot_inside domain
  | _ => false
  end.

(** ** Random text: [randomBytes(n).toString("base64url")] *)

Definition BASE64URL : string := "ABCDEFGHIJKLMNOPQRSTUVWXYZabcdefghijklmnopqrstuvwxyz0123456789-_".

Definition sextet (n : nat) : ascii := default "A"%char (String.get n BASE64URL).

Fixpoint base64url (bytes : list nat) : string :=
  match bytes with
  | a :: b :: c :: bytes =>
      String (sextet (a / 4)) (String (sextet ((a mod 4) * 16 + b / 16))
        (String (sextet ((b mod 16) * 4 + c / 64)) (String (sextet (c mod 64)) (base64url bytes))))
  | [a; b] =>
      String (sextet (a / 4)) (String (sextet ((a mod 4) * 16 + b / 16))
        (String (sextet ((b mod 16) * 4)) EmptyString))
  | [a] => String (sextet (a / 4)) (String (sextet ((a mod 4) * 16)) EmptyString)
  | [] => EmptyString
  end.

(** ** admin.ts *)

(** better-auth's password hashing, with a random salt. *)
Class PasswordHashing := { hashPassword : nat → string → string }.

Record AdminIdentity := { identity_email : string; identity_username : string }.

Record AdminCredentialResult := { created : bool; temporaryPassword : option string }.

(** [value || fallback] on a string that may be absent. *)
Definition orDefault (value : option string) (fallback : string) : string :=
  match value with None | Some "" => fallback | Some s => s end.

Definition parseAdminIdentity (email username : option string) : result AdminIdentity :=
  let email := toLowerCase (orDefault (trim <$> email) DEFAULT_ADMIN_EMAIL) in
  let username := orDefault (trim <$> username) DEFAULT_ADMIN_USERNAME in
  if negb (isValidAdminEmail email)
  then Throw (JsError "PANTAETL_ADMIN_EMAIL must be a valid email address.")
  else if decide (String.length username < 3)
  then Throw (JsError "PANTAETL_ADMIN_USERNAME must contain at least three characters.")
  else Ok {| identity_email := email; identity_username := username |}.

Definition defaultIdentity : AdminIdentity :=
  {| identity_email := DEFAULT_ADMIN_EMAIL; identity_username := DEFAULT_ADMIN_USERNAME |}.

Definition generateTemporaryPassword (bytes : list nat) : string := base64url bytes.

(** SQLSTATE 23505: the unique indexes and primary keys. *)
Definition isUniqueViolation (error : exn) : bool :=
  match error with
  | DatabaseError constraint => endsWith "_unique" constraint || endsWith "_pkey" constraint
  | _ => false
  end.

Definition credentialOf (userId : string) (a : AccountRow) : Prop :=
  ac_userId a = userId ∧ ac_providerId a = "credential".

#[export] Instance credentialOf_dec userId a : Decision (credentialOf userId a).
Proof. unfold credentialOf. apply _. Defined.

Definition with_password (password : string) (now : Z) (a : AccountRow) : AccountRow :=
  {| ac_id := ac_id a; ac_accountId := ac_accountId a; ac_providerId := ac_providerId a;
     ac_userId := ac_userId a; ac_accessToken := ac_accessToken a; ac_refreshToken := ac_refreshToken a;
     ac_idToken := ac_idToken a; ac_accessTokenExpiresAt := ac_accessTokenExpiresAt a;
     ac_refreshTokenExpiresAt := ac_refreshTokenExpiresAt a; ac_scope := ac_scope a;
     ac_password := Some password; ac_createdAt := ac_createdAt a; ac_updatedAt := now |}.

Definition with_requirement (email : option string) (requiresPasswordChange : bool) (now : Z) (u : UserRow) :
    UserRow :=
  {| u_id := u_id u; u_email := default (u_email u) email; u_username := u_username u;
     u_passwordHash := u_passwordHash u; u_emailVerified := u_emailVerified u; u_isAdmin := u_isAdmin u;
     u_requiresPasswordChange := requiresPasswordChange; u_createdAt := u_createdAt u; u_updatedAt := now |}.

Section admin.
Context `{!Uuids, !PasswordHashing}.

(** The transaction of [ensureFirstAdmin] with its [catch]: what a caller
    that saw no account goes on to do, whoever seeded in between. *)
Definition seedFirstAdmin (identity : AdminIdentity) (initialPassword password : string) :
    DIR AdminCredentialResult :=
  try_catch
    (transaction (
      user ← insertUser (identity_email identity) (identity_username identity) true true true;
      insertAccount (u_id user) "credential" (u_id user) password;;
      mret {| created := true; temporaryPassword := Some initialPassword |}))
    (λ error, if isUniqueViolation error then mret {| created := false; temporaryPassword := None |}
              else throw error).

Definition ensureFirstAdmin (identity : AdminIdentity) (initialPassword : string) (salt : nat) :
    DIR AdminCredentialResult :=
  anyUser ← gets (λ s, head (users (tables s)));
  match anyUser with
  | Some _ => mret {| created := false; temporaryPassword := None |}
  | None => seedFirstAdmin identity initialPassword (hashPassword salt initialPassword)
  end.

(** The new credential of a user, inserted when there is none to update. *)
Definition writeCredential (userId password : string) (now : Z) : DIR unit :=
  updated ← updateAccounts (credentialOf userId) (with_password password now);
  if decide (updated = 0) then insertAccount userId "credential" userId password else mret ().

Definition resetAdminPassword (email : string) (bytes : list nat) (salt : nat) (now : Z) :
    DIR (option string) :=
  identity ← lift (parseAdminIdentity (Some email) (Some "admin"));
  user ← gets (λ s, head (filter (λ u, u_email u = identity_email identity ∧ u_isAdmin u = true)
    (users (tables s))));
  match user with
  | None => mret None
  | Some user =>
      let temporaryPassword := generateTemporaryPassword bytes in
      transaction (
        writeCredential (u_id user) (hashPassword salt temporaryPassword) now;;
        updateUsers (λ u, u_id u = u_id user) (with_requirement None true now);;
        deleteSessions (λ r, ss_userId r = u_id user));;
      mret (Some temporaryPassword)
  end.

Definition completeInitialAdminSetup (email password userId : string) (salt : nat) (now : Z) : DIR unit :=
  let email := toLowerCase (trim email) in
  if negb (isValidAdminEmail email) then throw (AdminSetupError invalid_email)
  else if decide (password = DEFAULT_ADMIN_PASSWORD) then throw (AdminSetupError reused_default_password)
  else if decide (String.length password < MINIMUM_ADMIN_PASSWORD_LENGTH)
  then throw (AdminSetupError weak_password)
  else transaction (
    pending ← gets (λ s, head (filter (λ u, u_id u = userId ∧ u_requiresPasswordChange u = true)
      (users (tables s))));
    match pending with
    | None => throw (AdminSetupError already_completed)
    | Some _ =>
        conflicting ← gets (λ s, head (filter (λ u, u_email u = email) (users (tables s))));
        (match conflicting with
         | Some other => if decide (u_id other ≠ userId) then throw (AdminSetupError email_in_use) else mret ()
         | None => mret ()
         end);;
        writeCredential userId (hashPassword salt password) now;;
        updateUsers (λ u, u_id u = userId) (with_requirement (Some email) false now)
    end).
End admin.

(** ** session.ts, route-guard.ts and initial-setup.ts *)

Record SessionIdentity := {
  session_email : string; session_id : string; session_isAdmin : bool;
  session_requiresPasswordChange : bool; session_username : string }.

(** The user of a session, as the session shows it. *)
Definition sessionOf (u : UserRow) : SessionIdentity :=
  {| session_email := u_email u; session_id := u_id u; session_isAdmin := u_isAdmin u;
     session_requiresPasswordChange := u_requiresPasswordChange u; session_username := u_username u |}.

Inductive Redirect := to_login (returnTo : string) | to_welcome | to_home.

Definition requireSession (session : option SessionIdentity) (href : string) : Redirect + SessionIdentity :=
  match session with
  | None => inl (to_login href)
  | Some session => if session_requiresPasswordChange session then inl to_welcome else inr session
  end.

Definition requireInitialSetup (session : option SessionIdentity) (href : string) :
    Redirect + SessionIdentity :=
  match session with
  | None => inl (to_login href)
  | Some session => if negb (session_requiresPasswordChange session) then inl to_home else inr session
  end.

Inductive AdminSetupOutcome := setup_ok | setup_refused (reason : option AdminSetupRejection).

(** [unauthenticated] is a refusal without a reason of the repository. *)
Definition completeAdminSetup `{!Uuids, !PasswordHashing} (session : option SessionIdentity)
    (email password : string) (salt : nat) (now : Z) : DIR AdminSetupOutcome :=
  match session with
  | Some session =>
      if negb (session_requiresPasswordChange session) then mret (setup_refused None)
      else try_catch
        (completeInitialAdminSetup email password (session_id session) salt now;; mret setup_ok)
        (λ error, match error with
                  | AdminSetupError reason => mret (setup_refused (Some reason))
                  | _ => throw error
                  end)
  | None => mret (setup_refused None)
  end.

(** ** api-token.ts *)

(** [createHash("sha256").update(token).digest("hex")] *)
Class Sha256 := { sha256hex : string → string }.

Definition API_TOKEN_PREFIX : string := "pantaetl_".
Definition API_TOKEN_SECRET_LENGTH : nat := 43.
Definition MAX_API_TOKEN_NAME_LENGTH : nat := 128.

Record ApiTokenIdentity := {
  token_email : string; token_userId : string; token_isAdmin : bool; token_tokenId : string;
  token_username : string }.

Record CreatedApiToken := {
  createdToken_createdAt : Z; createdToken_id : string; createdToken_name : string; createdToken_token : string }.

Record ApiTokenMetadata := {
  tokenMetadata_createdAt : Z; tokenMetadata_id : string; tokenMetadata_name : string;
  tokenMetadata_revokedAt : option Z }.

Definition generateApiToken (bytes : list nat) : string := API_TOKEN_PREFIX +:+ base64url bytes.

Definition hashApiToken `{!Sha256} (token : string) : string := sha256hex token.

Definition parseApiTokenName (value : option Json) : result string :=
  match value with
  | Some (JString value) =>
      let name := trim value in
      if decide (String.length name = 0 ∨ MAX_API_TOKEN_NAME_LENGTH < String.length name)
      then Throw (JsError "API token names must be between 1 and 128 characters.")
      else Ok name
  | _ => Throw (JsError "An API token name is required.")
  end.

(** [A-Za-z0-9_-], where ignoring case changes nothing. *)
Definition is_token_char (c : ascii) : bool :=
  is_lower_letter c || is_upper_letter c || is_digit c ||
  bool_decide (c = "_"%char) || bool_decide (c = "-"%char).

(** [/^Bearer ([A-Za-z0-9_-]+)$/i], then the shape of the credential. *)
Definition extractBearerToken (authorization : option string) : option string :=
  match authorization with
  | None => None
  | Some authorization =>
      if decide (toLowerCase (String.substring 0 7 authorization) = "bearer ") then
        let token := String.substring 7 (String.length authorization - 7) authorization in
        if all_chars is_token_char token && bool_decide (token ≠ "") &&
           startsWith API_TOKEN_PREFIX token &&
           bool_decide (String.length token = String.length API_TOKEN_PREFIX + API_TOKEN_SECRET_LENGTH)
        then Some token else None
      else None
  end.

Definition metadataOf (t : ApiTokenRow) : ApiTokenMetadata :=
  {| tokenMetadata_createdAt := tk_createdAt t; tokenMetadata_id := tk_id t;
     tokenMetadata_name := tk_name t; tokenMetadata_revokedAt := tk_revokedAt t |}.

Definition with_revocation (now : Z) (t : ApiTokenRow) : ApiTokenRow :=
  {| tk_id := tk_id t; tk_ownerUserId := tk_ownerUserId t; tk_name := tk_name t;
     tk_tokenHash := tk_tokenHash t; tk_createdAt := tk_createdAt t; tk_revokedAt := Some now |}.

Definition revocable (ownerUserId tokenId : string) (t : ApiTokenRow) : Prop :=
  tk_id t = tokenId ∧ tk_ownerUserId t = ownerUserId ∧ tk_revokedAt t = None.

#[export] Instance revocable_dec ownerUserId tokenId t : Decision (revocable ownerUserId tokenId t).
Proof. unfold revocable. apply _. Defined.

Section tokens.
Context `{!Uuids, !Formats, !Sha256}.

Definition createApiToken (name ownerUserId : string) (bytes : list nat) : DIR CreatedApiToken :=
  let token := generateApiToken bytes in
  row ← insertApiToken name ownerUserId (hashApiToken token);
  mret {| createdToken_createdAt := tk_createdAt row; createdToken_id := tk_id row;
          createdToken_name := tk_name row; createdToken_token := token |}.

Definition listApiTokens (ownerUserId : string) : DIR (list ApiTokenMetadata) :=
  gets (λ s, metadataOf <$> order_by (on tk_createdAt Z.le)
    (filter (λ t, tk_ownerUserId t = ownerUserId) (apiTokens s))).

(** PostgreSQL reads the parameter as a [uuid]: any other text is an error. *)
Definition revokeApiToken (ownerUserId tokenId : string) (now : Z) : DIR bool :=
  lift (if is_uuid tokenId then Ok () else Throw (DatabaseError "invalid input syntax for type uuid"));;
  revoked ← gets (λ s, length (filter (revocable ownerUserId tokenId) (apiTokens s)));
  puts (λ s, set_apiTokens (updateIf (revocable ownerUserId tokenId) (with_revocation now) <$> apiTokens s) s);;
  mret (bool_decide (revoked = 1)).

(** The inner join of the live tokens of a digest with their owners. *)
Definition identitiesOf (tokenHash : string) (s : Directory) : list ApiTokenIdentity :=
  t ← filter (λ t, tk_tokenHash t = tokenHash ∧ tk_revokedAt t = None) (apiTokens s);
  u ← filter (λ u, u_id u = tk_ownerUserId t) (users (tables s));
  [{| token_email := u_email u; token_userId := u_id u; token_isAdmin := u_isAdmin u;
      token_tokenId := tk_id t; token_username := u_username u |}].

Definition authenticateApiToken (authorization : option string) : DIR (option ApiTokenIdentity) :=
  match extractBearerToken authorization with
  | None => mret None
  | Some token => gets (λ s, head (identitiesOf (hashApiToken token) s))
  end.

(** ** The routes of /api/tokens and /api/authentication *)

Inductive TokenDocument :=
  | tokenList (tokens : list ApiTokenMetadata)
  | tokenCreated (token : CreatedApiToken)
  | tokenRefused (code : string)
  | identityDocument (email id : string) (isAdmin : bool) (username : string).

Definition listTokensRoute (session : option string) : DIR (Response TokenDocument) :=
  match session with
  | None => mret (emptyResponse 401)
  | Some userId => tokens ← listApiTokens userId; mret (jsonResponse 200 (tokenList tokens))
  end.

(** [body?.name], where the body is a JSON object. *)
Definition bodyField (request : Request) (key : string) : option Json :=
  match requestJson request with
  | Some (JObject fields) => get_field fields key
  | _ => None
  end.

Definition createTokenRoute (session : option string) (request : Request) (bytes : list nat) :
    DIR (Response TokenDocument) :=
  match session with
  | None => mret (emptyResponse 401)
  | Some userId =>
      match parseApiTokenName (bodyField request "name") with
      | Throw _ => mret (jsonResponse 400 (tokenRefused "invalid_api_token_name"))
      | Ok name => token ← createApiToken name userId bytes; mret (jsonResponse 201 (tokenCreated token))
      end
  end.

Definition revokeTokenRoute (session : option string) (tokenId : string) (now : Z) :
    DIR (Response TokenDocument) :=
  match session with
  | None => mret (emptyResponse 401)
  | Some userId => revokeApiToken userId tokenId now;; mret (emptyResponse 204)
  end.

Definition authenticationRoute (authorization : option string) : DIR (Response TokenDocument) :=
  identity ← authenticateApiToken authorization;
  match identity with
  | None => mret (emptyResponse 401)
  | Some i => mret (jsonResponse 200
      (identityDocument (token_email i) (token_userId i) (token_isAdmin i) (token_username i)))
  end.
End tokens.
