(* ===== verification/Migrations.v ===== *)
(** * Adoption of migration history

    [packages/database/scripts/adopt-migration-history.mjs]: a database that
    was built before migrations were journalled is compared with the
    fingerprint of each historical migration; what it has is recorded, what
    it lacks below that is applied.

    The SQL engine, the files and the digest are parameters; the catalog of
    PostgreSQL is the sets of names the script reads of it. *)

From S2P Require Import Prelude Js Contracts Accounts.

Record Fingerprint := {
  fp_columns : list string; fp_constraints : list string; fp_enums : list string;
  fp_indexes : list string; fp_nullableColumns : list string; fp_tables : list string }.

Definition migrationFingerprints : list (string * Fingerprint) := [
  ("0000_elite_shape",
   {| fp_columns := [];
     fp_constraints := ["artifacts_pipeline_id_pipelines_id_fk"; "artifacts_run_id_runs_id_fk";
                         "jobs_component_id_pipeline_components_id_fk";
                         "jobs_pipeline_id_pipelines_id_fk"; "jobs_run_id_runs_id_fk";
                         "jobs_run_step_id_run_steps_id_fk";
                         "pipeline_components_pipeline_id_pipelines_id_fk";
                         "pipeline_edges_from_component_foreign_key";
                         "pipeline_edges_pipeline_id_pipelines_id_fk";
                         "pipeline_edges_to_component_foreign_key";
                         "pipeline_triggers_pipeline_id_pipelines_id_fk";
                         "pipelines_owner_user_id_users_id_fk";
                         "run_steps_component_id_pipeline_components_id_fk";
                         "run_steps_run_id_runs_id_fk";
                         "runs_cancellation_requested_by_user_id_users_id_fk"];
     fp_enums := ["artifact_storage_kind"; "component_kind"; "job_state"; "pipeline_state";
                   "run_state"; "run_step_state"; "trigger_type"];
     fp_indexes := ["artifacts_run_id_index"; "jobs_run_id_index";
                     "pipeline_components_pipeline_id_index"; "pipeline_triggers_pipeline_id_index";
                     "pipelines_owner_user_id_index"; "run_steps_run_id_index";
                     "runs_pipeline_id_created_at_index"; "users_email_unique"; "users_username_unique"];
     fp_nullableColumns := [];
     fp_tables := ["artifacts"; "jobs"; "pipeline_components"; "pipeline_edges"; "pipeline_triggers";
                    "pipelines"; "run_steps"; "runs"; "settings"; "users"] |});
  ("0001_fantastic_king_cobra",
   {| fp_columns := ["jobs.attempt"; "jobs.available_at"; "jobs.claimed_at"; "jobs.heartbeat_at";
                     "jobs.worker_id"];
     fp_constraints := [];
     fp_enums := [];
     fp_indexes := ["jobs_eligible_work_index"];
     fp_nullableColumns := [];
     fp_tables := [] |});
  ("0002_clever_miek",
   {| fp_columns := ["artifacts.expires_at"; "runs.expires_at"];
     fp_constraints := ["datasets_pipeline_id_pipelines_id_fk"; "datasets_run_id_runs_id_fk";
                         "datasets_run_step_id_run_steps_id_fk"; "run_logs_run_id_runs_id_fk";
                         "source_checkpoints_pipeline_id_pipelines_id_fk";
                         "source_checkpoints_source_component_foreign_key"];
     fp_enums := [];
     fp_indexes := ["artifacts_expiry_index"; "datasets_expiry_index"; "datasets_run_id_index";
                     "run_logs_expiry_index"; "run_logs_run_id_index"];
     fp_nullableColumns := [];
     fp_tables := ["datasets"; "run_logs"; "source_checkpoints"] |});
  ("0003_dashing_black_cat",
   {| fp_columns := [];
     fp_constraints := ["connection_secrets_owner_user_id_users_id_fk"];
     fp_enums := [];
     fp_indexes := ["connection_secrets_owner_user_id_index"];
     fp_nullableColumns := [];
     fp_tables := ["connection_secrets"] |});
  ("0004_misty_sersi",
   {| fp_columns := [];
     fp_constraints := ["uploads_owner_user_id_users_id_fk"];
     fp_enums := [];
     fp_indexes := ["uploads_expiry_index"; "uploads_owner_user_id_index"];
     fp_nullableColumns := [];
     fp_tables := ["uploads"] |});
  ("0005_odd_mentor",
   {| fp_columns := ["pipeline_triggers.last_claimed_at"; "pipeline_triggers.next_run_at"];
     fp_constraints := ["pipeline_triggers_schedule_fields_check"];
     fp_enums := [];
     fp_indexes := ["pipeline_triggers_due_schedule_index"];
     fp_nullableColumns := [];
     fp_tables := [] |});
  ("0006_uneven_tyger_tiger",
   {| fp_columns := ["runs.is_active"; "runs.scheduled_for"; "runs.trigger_id"];
     fp_constraints := ["runs_trigger_id_pipeline_triggers_id_fk"];
     fp_enums := [];
     fp_indexes := ["runs_one_active_pipeline_index"];
     fp_nullableColumns := [];
     fp_tables := [] |});
  ("0007_soft_shriek",
   {| fp_columns := ["users.email_verified"];
     fp_constraints := ["accounts_user_id_users_id_fk"; "sessions_user_id_users_id_fk"];
     fp_enums := [];
     fp_indexes := ["accounts_user_id_index"; "sessions_token_unique"; "sessions_user_id_index";
                     "verifications_identifier_index"];
     fp_nullableColumns := ["users.password_hash"];
     fp_tables := ["accounts"; "sessions"; "verifications"] |})].

Record Migration := {
  migration_createdAt : Z; migration_contents : string; migration_hash : string;
  migration_index : nat; migration_tag : string }.

(** An entry of the migration journal file. *)
Record JournalEntry := { entry_idx : nat; entry_tag : string; entry_when : Z }.

Definition readMigrations `{!Sha256} (readFile : string → string) (entries : list JournalEntry) : list Migration :=
  (λ entry, {| migration_createdAt := entry_when entry;
               migration_contents := readFile (entry_tag entry +:+ ".sql");
               migration_hash := sha256hex (readFile (entry_tag entry +:+ ".sql"));
               migration_index := entry_idx entry; migration_tag := entry_tag entry |}) <$> entries.

Record Catalog := {
  cat_columns : gset string; cat_constraints : gset string; cat_enums : gset string;
  cat_indexes : gset string; cat_nullableColumns : gset string; cat_tables : gset string }.

Inductive MigrationState := absent | present | partial.
#[export] Instance MigrationState_eq_dec : EqDecision MigrationState.
Proof. solve_decision. Defined.

Definition migrationState (catalog : Catalog) (fingerprint : Fingerprint) : MigrationState :=
  let checks := [(cat_columns catalog, fp_columns fingerprint);
                 (cat_constraints catalog, fp_constraints fingerprint);
                 (cat_enums catalog, fp_enums fingerprint);
                 (cat_indexes catalog, fp_indexes fingerprint);
                 (cat_nullableColumns catalog, fp_nullableColumns fingerprint);
                 (cat_tables catalog, fp_tables fingerprint)] in
  let requiredValues := checks ≫= snd in
  let presentValues := checks ≫= (λ check : gset string * list string, filter (λ v, v ∈ check.1) check.2) in
  if decide (length presentValues = 0) then absent
  else if decide (length presentValues = length requiredValues) then present else partial.

(** The database: its catalog, and the journal of Drizzle once there is one. *)
Record JournalRow := { row_hash : string; row_createdAt : Z }.
Record MigrationStore := { catalog : Catalog; journal : option (list JournalRow) }.

Definition set_journal (rows : list JournalRow) (s : MigrationStore) : MigrationStore :=
  {| catalog := catalog s; journal := Some rows |}.
Definition set_catalog (c : Catalog) (s : MigrationStore) : MigrationStore :=
  {| catalog := c; journal := journal s |}.

Definition hashes (s : MigrationStore) : list string := row_hash <$> default [] (journal s).

(** The SQL of a statement, as what it does to the catalog. *)
Class SqlEngine := { execute : string → Catalog → result Catalog }.

Abbreviation MIG := (M MigrationStore exn).

Definition ensureMigrationTable : MIG unit := puts (λ s, set_journal (default [] (journal s)) s).

(** No column but the serial key is unique, so nothing conflicts. *)
Definition recordMigration (migration : Migration) : MIG unit := λ s,
  match journal s with
  | None => (Throw (DatabaseError "relation drizzle.__drizzle_migrations does not exist"), s)
  | Some rows => (Ok (), set_journal (rows ++ [{| row_hash := migration_hash migration;
                                                  row_createdAt := migration_createdAt migration |}]) s)
  end.

(** [s.split(separator)]; [skip] characters of a separator are still to be
    dropped. *)
Fixpoint split_by (separator : string) (skip : nat) (s : string) : list string :=
  match s with
  | EmptyString => [""]
  | String c rest =>
      match skip with
      | S skip => split_by separator skip rest
      | 0 =>
          if startsWith separator s then "" :: split_by separator (String.length separator - 1) rest
          else match split_by separator 0 rest with
               | [] => [String c ""]
               | piece :: pieces => String c piece :: pieces
               end
      end
  end.

Definition executeStatement `{!SqlEngine} (statement : string) : MIG unit := λ s,
  match execute statement (catalog s) with
  | Ok c => (Ok (), set_catalog c s)
  | Throw e => (Throw e, s)
  end.

Definition applyHistoricalMigration `{!SqlEngine} (migration : Migration) : MIG unit :=
  transaction (
    for_each (λ statement, if decide (trim statement ≠ "") then executeStatement statement else mret ())
      (split_by "--> statement-breakpoint" 0 (migration_contents migration));;
    recordMigration migration).

Definition fingerprintOf (fingerprints : list (string * Fingerprint)) (tag : string) : option Fingerprint :=
  snd <$> head (filter (λ entry, entry.1 = tag) fingerprints).

(** One turn of the loop that sorts the migrations. *)
Definition classify (c : Catalog) (recordedHashes : list string) (migration : Migration)
    (fingerprint : Fingerprint) : result bool :=
  match migrationState c fingerprint with
  | partial => Throw (JsError ("Cannot adopt migration " +:+ migration_tag migration +:+
      ": its schema fingerprint is incomplete. Repair the database before applying migrations."))
  | absent =>
      if decide (migration_hash migration ∈ recordedHashes)
      then Throw (JsError ("Migration " +:+ migration_tag migration +:+
        " is recorded but its schema fingerprint is missing. Repair the database before applying migrations."))
      else Ok false
  | present => Ok true
  end.

(** [Math.max], which of nothing is below every number. *)
Definition highest (indexes : list nat) : option nat :=
  match indexes with [] => None | _ => Some (max_list indexes) end.

Definition below (i : nat) (bound : option nat) : Prop := match bound with None => False | Some b => i < b end.
#[export] Instance below_dec i bound : Decision (below i bound).
Proof. unfold below. destruct bound; apply _. Defined.

Section adoption.
Context `{!SqlEngine} (fingerprints : list (string * Fingerprint)).

(** The migrations the script knows, with their fingerprints. *)
Definition known (migrations : list Migration) : list (Migration * Fingerprint) :=
  omap (λ m, (λ f, (m, f)) <$> fingerprintOf fingerprints (migration_tag m)) migrations.

Definition adoptMigrationHistory (allMigrations : list Migration) : MIG unit :=
  existingMigrations ← gets hashes;
  migrationTable ← gets journal;
  c ← gets catalog;
  let migrations := known allMigrations in
  states ← for_each (λ m : Migration * Fingerprint, lift (classify c existingMigrations m.1 m.2)) migrations;
  let classified := zip (fst <$> migrations) states in
  let presentMigrations := fst <$> filter (λ p, p.2 = true) classified in
  let absentMigrations := fst <$> filter (λ p, p.2 = false) classified in
  if decide (length existingMigrations = 0 ∧ length presentMigrations = 0) then mret ()
  else
    let adoptedMigrations := filter (λ m, migration_hash m ∉ existingMigrations) presentMigrations in
    let recordedIndexes := migration_index <$>
      (filter (λ p : Migration * bool, migration_hash p.1 ∈ existingMigrations ∨ p.2 = true) classified).*1 in
    let missingHistoricalMigrations :=
      filter (λ m, below (migration_index m) (highest recordedIndexes)) absentMigrations in
    if decide (length adoptedMigrations = 0 ∧ length missingHistoricalMigrations = 0) then mret ()
    else
      (match migrationTable with None => ensureMigrationTable | Some _ => mret () end);;
      for_each recordMigration adoptedMigrations;;
      for_each applyHistoricalMigration missingHistoricalMigrations;;
      mret ().
End adoption.
