(* ===== verification/MigrationProofs.v ===== *)
(** * What adopting a migration history does to a database

    The script writes nothing when a fingerprint contradicts the journal;
    otherwise it records what is there, applies what is missing below it, and
    stops, if at all, between two migrations. When it returns, no migration
    it knows is missing below one that is recorded. *)

From S2P Require Import Prelude Js Contracts Accounts Migrations.

(** ** Fingerprints and the loop that sorts *)

#[export] Instance Migration_eq_dec : EqDecision Migration.
Proof. solve_decision. Defined.
#[export] Instance Fingerprint_eq_dec : EqDecision Fingerprint.
Proof. solve_decision. Defined.

(** A fingerprint is in part there, or its migration is recorded and it is
    not all there. *)
Definition inconsistent (s : MigrationStore) (p : Migration * Fingerprint) : Prop :=
  migrationState (catalog s) p.2 = partial ∨
  (migration_hash p.1 ∈ hashes s ∧ migrationState (catalog s) p.2 ≠ present).
#[export] Instance inconsistent_dec s p : Decision (inconsistent s p).
Proof. unfold inconsistent. apply _. Defined.

Definition recorded (s : MigrationStore) (p : Migration * Fingerprint) : Prop := migration_hash p.1 ∈ hashes s.
Definition here (s : MigrationStore) (p : Migration * Fingerprint) : Prop :=
  migrationState (catalog s) p.2 = present.
#[export] Instance recorded_dec s p : Decision (recorded s p).
Proof. unfold recorded. apply _. Defined.
#[export] Instance here_dec s p : Decision (here s p).
Proof. unfold here. apply _. Defined.

Lemma classify_consistent s p :
  ¬ inconsistent s p → classify (catalog s) (hashes s) p.1 p.2 = Ok (bool_decide (here s p)).
Proof.
  unfold inconsistent, classify. intros Hp.
  destruct (decide (here s p)) as [Hh|Hh].
  { rewrite bool_decide_true by done. unfold here in Hh. by rewrite Hh. }
  rewrite bool_decide_false by done. unfold here in Hh.
  destruct (migrationState (catalog s) p.2) eqn:E; [|done|naive_solver].
  rewrite decide_False by naive_solver. done.
Qed.

Lemma classify_inconsistent s p :
  inconsistent s p → ∃ e, classify (catalog s) (hashes s) p.1 p.2 = Throw e.
Proof.
  unfold inconsistent, classify.
  destruct (migrationState (catalog s) p.2) eqn:E; intros [?|[? ?]]; try done; [|by eexists..].
  rewrite decide_True by done. by eexists.
Qed.

Lemma classify_all_throw s ps :
  Exists (inconsistent s) ps →
  ∃ e, for_each (λ p, lift (classify (catalog s) (hashes s) p.1 p.2)) ps s = (Throw e, s).
Proof.
  induction ps as [|p ps IH]; [by intros ?%Exists_nil|]. intros Hps. csimpl. rewrite bind_run.
  destruct (decide (inconsistent s p)) as [Hp|Hp].
  - destruct (classify_inconsistent s p Hp) as [e He]. exists e. unfold lift. by rewrite He.
  - unfold lift at 1. rewrite classify_consistent by done. rewrite bind_run.
    apply Exists_cons in Hps as [?|Hps]; [done|]. destruct (IH Hps) as [e ->]. by exists e.
Qed.

Lemma below_highest i l : below i (highest l) ↔ ∃ j, j ∈ l ∧ i < j.
Proof.
  assert (i < max_list l ↔ ∃ j, j ∈ l ∧ i < j) as Hmax.
  { induction l as [|j l IH]; [split; [simpl; lia|]; by intros (j & ?%elem_of_nil & _)|].
    setoid_rewrite elem_of_cons. change (max_list (j :: l)) with (j `max` max_list l). split.
    - intros Hi. destruct (decide (i < j)); [by exists j; eauto|].
      destruct IH as [[j' [? ?]] _]; [lia|]. exists j'. eauto.
    - intros (j' & [->|Hj] & ?); [lia|]. enough (i < max_list l) by lia. apply IH. eauto. }
  destruct l; [|exact Hmax]. simpl. split; [done|]. by intros (j & ?%elem_of_nil & _).
Qed.

Lemma filter_fmap {A B} (f : A → B) (P : B → Prop) `{∀ b, Decision (P b)} (l : list A) :
  filter P (f <$> l) = f <$> filter (λ a, P (f a)) l.
Proof.
  induction l as [|a l IH]; [done|]. csimpl. rewrite !filter_cons.
  destruct (decide (P (f a))); csimpl; by rewrite IH.
Qed.

Lemma zip_fst_fmap {A B C} (f : A → B) (g : A → C) (l : list A) :
  zip (f <$> l) (g <$> l) = (λ a, (f a, g a)) <$> l.
Proof. induction l; csimpl; by f_equal. Qed.

(** ** Writing the journal *)

Section adoption_facts.
Context `{!SqlEngine}.

Lemma hashes_set_journal rows s : hashes (set_journal rows s) = row_hash <$> rows.
Proof. done. Qed.

Lemma recordMigrations_run ms s rows :
  journal s = Some rows →
  ∃ out, for_each recordMigration ms s = (Ok out,
    set_journal (rows ++ ((λ m, {| row_hash := migration_hash m; row_createdAt := migration_createdAt m |}) <$> ms)) s).
Proof.
  revert s rows. induction ms as [|m ms IH]; intros s rows Hs; csimpl.
  - exists []. rewrite app_nil_r. destruct s; simpl in *. by subst.
  - rewrite bind_run. unfold recordMigration at 1. rewrite Hs, bind_run.
    edestruct IH as [out ->]; [done|]. exists (() :: out). by rewrite <-app_assoc.
Qed.

Lemma statements_keep_journal (statements : list string) s o s' :
  for_each (λ statement, if decide (trim statement ≠ "") then executeStatement statement else mret ())
    statements s = (o, s') → journal s' = journal s.
Proof.
  revert s o s'. induction statements as [|statement statements IH]; intros s o s'; csimpl; [by intros [= _ <-]|].
  rewrite bind_run. destruct (decide (trim statement ≠ "")); unfold executeStatement at 1.
  - destruct (execute statement (catalog s)) as [c|e]; [|by intros [= _ <-]]. rewrite bind_run.
    destruct (for_each _ statements (set_catalog c s)) as [[out|e] s1] eqn:E; intros [= _ <-]; exact (IH _ _ _ E).
  - unfold mret at 1, M_ret at 1. rewrite bind_run.
    destruct (for_each _ statements s) as [[out|e] s1] eqn:E; intros [= _ <-]; exact (IH _ _ _ E).
Qed.

Lemma apply_ok m s s' :
  journal s ≠ None → applyHistoricalMigration m s = (Ok (), s') →
  hashes s' = hashes s ++ [migration_hash m] ∧ journal s' ≠ None.
Proof.
  intros Hs Hrun. unfold applyHistoricalMigration in Hrun. rewrite transaction_ok, bind_ok in Hrun.
  destruct Hrun as (out & s1 & Hst & Hrec). apply statements_keep_journal in Hst as Hj.
  unfold recordMigration in Hrec. rewrite Hj in Hrec. unfold hashes.
  destruct (journal s) as [rows|]; [|done]. simplify_eq. split; [|done]. simpl. by rewrite fmap_app.
Qed.

Lemma apply_throw m s e s' : applyHistoricalMigration m s = (Throw e, s') → s' = s.
Proof. unfold applyHistoricalMigration. rewrite transaction_throw. naive_solver. Qed.

(** The states migrations applied one after the other go through. *)
Fixpoint applied (ms : list Migration) (s s' : MigrationStore) : Prop :=
  match ms with
  | [] => s' = s
  | m :: ms => ∃ t, applyHistoricalMigration m s = (Ok (), t) ∧ applied ms t s'
  end.

Lemma applied_hashes ms s s' :
  journal s ≠ None → applied ms s s' → hashes s' = hashes s ++ (migration_hash <$> ms).
Proof.
  revert s. induction ms as [|m ms IH]; intros s Hs; csimpl; [intros ->; by rewrite app_nil_r|].
  intros (t & [Hh Hj]%apply_ok & Ht); [|done]. by rewrite (IH _ Hj Ht), Hh, <-(assoc_L (++)).
Qed.

Lemma applyMigrations_run ms s o s' :
  for_each applyHistoricalMigration ms s = (o, s') →
  ∃ finished rest, ms = finished ++ rest ∧ applied finished s s' ∧ (is_ok o = true ↔ rest = []).
Proof.
  revert s o s'. induction ms as [|m ms IH]; intros s o s'; csimpl.
  - intros [= <- <-]. exists [], []. naive_solver.
  - rewrite bind_run. destruct (applyHistoricalMigration m s) as [[[]|e] s1] eqn:E; cycle 1.
    + intros [= <- <-]. apply apply_throw in E as ->. exists [], (m :: ms). naive_solver.
    + rewrite bind_run. destruct (for_each _ ms s1) as [o1 s2] eqn:E1.
      destruct (IH _ _ _ E1) as (finished & rest & -> & Hap & Hok).
      intros Hrun. exists (m :: finished), rest.
      assert (s' = s2 ∧ is_ok o = is_ok o1) as [-> ->]
        by (unfold mret, M_ret in Hrun; destruct o1; by simplify_eq/=).
      split_and!; [done|by exists s1|done].
Qed.

(** ** The plan of a run *)

Context (fingerprints : list (string * Fingerprint)) (allMigrations : list Migration).
Abbreviation migrations := (known fingerprints allMigrations).

(** A migration that is recorded, or all there, lies above [p]. *)
Definition superseded (s : MigrationStore) (p : Migration * Fingerprint) : Prop :=
  Exists (λ q : Migration * Fingerprint,
    (recorded s q ∨ here s q) ∧ migration_index p.1 < migration_index q.1) migrations.
#[local] Instance superseded_dec s p : Decision (superseded s p).
Proof. unfold superseded. apply _. Defined.

Definition toRecord (s : MigrationStore) : list Migration :=
  fst <$> filter (λ p, here s p ∧ ¬ recorded s p) migrations.
Definition toApply (s : MigrationStore) : list Migration :=
  fst <$> filter (λ p, ¬ here s p ∧ superseded s p) migrations.

Definition classified (s : MigrationStore) : list (Migration * bool) :=
  (λ p, (p.1, bool_decide (here s p))) <$> migrations.

Lemma adopted_plan s :
  filter (λ m, migration_hash m ∉ hashes s) (fst <$> filter (λ p : Migration * bool, p.2 = true) (classified s)) =
    toRecord s.
Proof.
  unfold classified, toRecord. rewrite filter_fmap, list_filter_filter, filter_fmap, <-list_fmap_compose. f_equal.
  apply list_filter_iff. intros p. simpl. rewrite bool_decide_eq_true. unfold recorded. naive_solver.
Qed.

#[local] Opaque hashes.

Lemma below_plan s p :
  below (migration_index p.1) (highest (migration_index <$>
      (filter (λ p : Migration * bool, migration_hash p.1 ∈ hashes s ∨ p.2 = true) (classified s)).*1)) ↔
    superseded s p.
Proof.
  rewrite below_highest. unfold superseded, classified. rewrite filter_fmap, Exists_exists.
  setoid_rewrite list_elem_of_fmap. setoid_rewrite list_elem_of_fmap. setoid_rewrite list_elem_of_fmap.
  setoid_rewrite list_elem_of_filter. simpl. setoid_rewrite bool_decide_eq_true. unfold recorded. split.
  - intros (j & (m & -> & x & -> & q & -> & ? & ?) & ?). exists q. naive_solver.
  - intros (q & ? & ? & ?). eexists. split; [|done]. eexists. split; [done|]. eexists. split; [|eauto]. done.
Qed.

Lemma missing_plan s :
  filter (λ m, below (migration_index m) (highest (migration_index <$>
      (filter (λ p : Migration * bool, migration_hash p.1 ∈ hashes s ∨ p.2 = true) (classified s)).*1)))
    (fst <$> filter (λ p : Migration * bool, p.2 = false) (classified s)) = toApply s.
Proof.
  generalize (below_plan s). generalize (highest (migration_index <$>
    (filter (λ p : Migration * bool, migration_hash p.1 ∈ hashes s ∨ p.2 = true) (classified s)).*1)).
  intros highestRecordedIndex Hb. unfold classified, toApply.
  rewrite filter_fmap, list_filter_filter, filter_fmap, <-list_fmap_compose. f_equal.
  apply list_filter_iff. intros p. cbn [fst snd]. rewrite Hb, bool_decide_eq_false. naive_solver.
Qed.

Lemma nothing_known s :
  hashes s = [] → fst <$> filter (λ p : Migration * bool, p.2 = true) (classified s) = [] →
  toRecord s = [] ∧ toApply s = [].
Proof.
  intros Hs Hp. rewrite <-adopted_plan, <-missing_plan, Hp. split; [done|].
  replace (filter (λ p : Migration * bool, migration_hash p.1 ∈ hashes s ∨ p.2 = true) (classified s))
    with (filter (λ p : Migration * bool, p.2 = true) (classified s)); cycle 1.
  { apply list_filter_iff. intros p. rewrite Hs, elem_of_nil. naive_solver. }
  apply elem_of_nil_inv. intros m [Hm _]%list_elem_of_filter. by rewrite Hp in Hm.
Qed.

Lemma adopt_run s :
  ¬ Exists (inconsistent s) migrations →
  adoptMigrationHistory fingerprints allMigrations s =
    if decide (toRecord s = [] ∧ toApply s = []) then (Ok (), s)
    else ((match journal s with None => ensureMigrationTable | Some _ => mret () end);;
          for_each recordMigration (toRecord s);; for_each applyHistoricalMigration (toApply s);; mret ()) s.
Proof.
  intros Hc. unfold adoptMigrationHistory. rewrite bind_run. unfold gets at 1. rewrite bind_run. unfold gets at 1.
  rewrite bind_run. unfold gets at 1. rewrite bind_run.
  rewrite (for_each_total _ (λ p, bool_decide (here s p))); cycle 1.
  { intros p Hp. unfold lift. rewrite classify_consistent; [done|]. intros ?. apply Hc, Exists_exists. eauto. }
  rewrite zip_fst_fmap. change ((λ a, (a.1, bool_decide (here s a))) <$> migrations) with (classified s).
  cbv beta zeta. rewrite adopted_plan, missing_plan.
  destruct (decide (_ ∧ _)) as [[He Hp]|_].
  - apply length_zero_iff_nil in He, Hp. rewrite decide_True by by apply nothing_known. done.
  - destruct (decide (_ ∧ _)) as [[Hr Ha]|Hne].
    + apply length_zero_iff_nil in Hr, Ha. by rewrite decide_True by done.
    + rewrite decide_False; [done|]. intros [Hr Ha]. apply Hne. by rewrite Hr, Ha.
Qed.

(** What the journal and the catalog are once the found migrations are
    recorded. *)
Lemma recording_run s :
  ∃ s1, (∀ k : MIG (), ((match journal s with None => ensureMigrationTable | Some _ => mret () end);;
                        for_each recordMigration (toRecord s);; k) s = k s1) ∧
    journal s1 ≠ None ∧ catalog s1 = catalog s ∧ hashes s1 = hashes s ++ (migration_hash <$> toRecord s).
Proof.
  set (s0 := set_journal (default [] (journal s)) s).
  assert ((match journal s with None => ensureMigrationTable | Some _ => mret () end : MIG ()) s = (Ok (), s0)) as Hens.
  { unfold s0. destruct s as [c [rows|]]; done. }
  destruct (recordMigrations_run (toRecord s) s0 _ eq_refl) as [out Hrec].
  eexists. split; [intros k; by rewrite bind_run, Hens, bind_run, Hrec|]. split_and!; [done|done|].
  rewrite hashes_set_journal, fmap_app, <-list_fmap_compose. done.
Qed.

(** A run over a consistent store: the found migrations are recorded in [s1],
    and then the missing ones are applied as far as they go. *)
Lemma adopt_steps s o s' :
  ¬ Exists (inconsistent s) migrations → adoptMigrationHistory fingerprints allMigrations s = (o, s') →
  ∃ s1 o1, for_each applyHistoricalMigration (toApply s) s1 = (o1, s') ∧ is_ok o = is_ok o1 ∧
    (journal s1 ≠ None ∨ toApply s = []) ∧ catalog s1 = catalog s ∧
    hashes s1 = hashes s ++ (migration_hash <$> toRecord s) ∧
    (toRecord s = [] → toApply s = [] → o = Ok () ∧ s' = s).
Proof.
  intros Hc. rewrite adopt_run by done. destruct (decide _) as [[Hr Ha]|Hne].
  - intros [= <- <-]. exists s, (Ok []). rewrite Hr, Ha, app_nil_r. split_and!; eauto.
  - destruct (recording_run s) as (s1 & Hrec & Hj & Hcat & Hh). rewrite Hrec, bind_run.
    destruct (for_each applyHistoricalMigration (toApply s) s1) as [o1 s2] eqn:E. intros Hrun. exists s1, o1.
    assert (s' = s2 ∧ is_ok o = is_ok o1) as [-> ->] by (unfold mret, M_ret in Hrun; destruct o1; by simplify_eq/=).
    split_and!; eauto. intros Hr Ha. by destruct Hne.
Qed.
(** ** Nothing is missing below what is recorded *)

Lemma known_hash_inj p q :
  NoDup ((λ p : Migration * Fingerprint, migration_hash p.1) <$> migrations) → p ∈ migrations → q ∈ migrations →
  migration_hash p.1 = migration_hash q.1 → p = q.
Proof.
  intros Hnd [i Hi]%list_elem_of_lookup [j Hj]%list_elem_of_lookup Hpq.
  rewrite NoDup_alt in Hnd. assert (i = j) as ->; [|congruence].
  eapply Hnd; rewrite list_lookup_fmap; [by rewrite Hi|rewrite Hj; simpl; by rewrite Hpq].
Qed.

Lemma elem_of_hashes (P : Migration * Fingerprint → Prop) `{∀ p, Decision (P p)} h :
  h ∈ migration_hash <$> (fst <$> filter P migrations) ↔ ∃ p, p ∈ migrations ∧ P p ∧ h = migration_hash p.1.
Proof.
  rewrite <-list_fmap_compose, list_elem_of_fmap. setoid_rewrite list_elem_of_filter. simpl. naive_solver.
Qed.

Lemma superseded_trans s p q :
  superseded s q → migration_index p.1 < migration_index q.1 → superseded s p.
Proof. unfold superseded. rewrite !Exists_exists. intros (r & ? & ? & ?) ?. exists r. split_and!; [done|done|lia]. Qed.

Lemma no_gap s s' p q :
  NoDup ((λ p : Migration * Fingerprint, migration_hash p.1) <$> migrations) →
  hashes s' = hashes s ++ (migration_hash <$> toRecord s ++ toApply s) →
  p ∈ migrations → q ∈ migrations → migration_index p.1 < migration_index q.1 →
  recorded s' q → recorded s' p.
Proof.
  intros Hnd Hs' Hp Hq Hlt. unfold recorded at 1 2. rewrite Hs', fmap_app, !elem_of_app.
  unfold toRecord, toApply. rewrite !elem_of_hashes. intros Hrec.
  assert (superseded s p) as Hsup.
  { destruct Hrec as [Hrec|[(r & Hr & [Hh _] & Heq)|(r & Hr & [_ Hh] & Heq)]].
    - apply Exists_exists. exists q. unfold recorded. eauto.
    - apply known_hash_inj in Heq as ->; [|done..]. apply Exists_exists. exists r. eauto.
    - apply known_hash_inj in Heq as ->; [|done..]. by eapply superseded_trans. }
  destruct (decide (recorded s p)); [by left|]. right.
  destruct (decide (here s p)); [left|right]; by exists p.
Qed.

(** C20: adopting a history: when a fingerprint is there in part, or a
    recorded migration is not there, the run throws and writes nothing.
    Otherwise the journal grows by the migrations found and then by the
    missing ones below them, in order and, should the engine refuse one, up
    to it; recording alone leaves the schema as it is. After a run that
    returns, no known migration is missing below a recorded one. *)
Theorem adoptMigrationHistory_spec s o s' :
  adoptMigrationHistory fingerprints allMigrations s = (o, s') →
  (Exists (inconsistent s) migrations → is_ok o = false ∧ s' = s) ∧
  (¬ Exists (inconsistent s) migrations →
    (∃ finished rest, toApply s = finished ++ rest ∧
      hashes s' = hashes s ++ (migration_hash <$> toRecord s ++ finished) ∧ (is_ok o = true ↔ rest = [])) ∧
    (toApply s = [] → catalog s' = catalog s) ∧ (toRecord s = [] → toApply s = [] → s' = s)) ∧
  (is_ok o = true → NoDup ((λ p : Migration * Fingerprint, migration_hash p.1) <$> migrations) →
    ∀ p q, p ∈ migrations → q ∈ migrations → migration_index p.1 < migration_index q.1 →
      recorded s' q → recorded s' p).
Proof.
  intros Hrun. assert (Exists (inconsistent s) migrations → is_ok o = false ∧ s' = s) as Hbad.
  { intros Hps. destruct (classify_all_throw s _ Hps) as [e He]. unfold adoptMigrationHistory in Hrun.
    rewrite !bind_run in Hrun. unfold gets in Hrun. rewrite !bind_run, He in Hrun. by simplify_eq. }
  split; [exact Hbad|]. destruct (decide (Exists (inconsistent s) migrations)) as [Hps|Hps].
  { split; [done|]. destruct (Hbad Hps) as [-> _]. done. }
  destruct (adopt_steps s o s' Hps Hrun) as (s1 & o1 & Happly & Ho & Hj & Hcat & Hh & Hnone).
  assert (∃ finished rest, toApply s = finished ++ rest ∧
    hashes s' = hashes s ++ (migration_hash <$> toRecord s ++ finished) ∧ (is_ok o = true ↔ rest = [])) as Hgrow.
  { destruct Hj as [Hj|Hnil].
    - destruct (applyMigrations_run _ _ _ _ Happly) as (finished & rest & ? & Hap & ?).
      exists finished, rest. split_and!; [done| |by rewrite Ho]. by rewrite (applied_hashes _ _ _ Hj Hap), Hh, fmap_app, (assoc_L (++)).
    - rewrite Hnil in Happly |- *. injection Happly as <- <-. exists [], [].
      split_and!; [done|by rewrite app_nil_r|by rewrite Ho]. }
  split.
  - intros _. split; [exact Hgrow|]. split; [|intros Hr Ha; by destruct (Hnone Hr Ha)].
    intros Hnil. rewrite Hnil in Happly. by injection Happly as _ <-.
  - intros Hok Hnd p q. destruct Hgrow as (finished & rest & Hfin & Hs' & Hrest).
    apply Hrest in Hok as ->. rewrite app_nil_r in Hfin. subst finished. by apply (no_gap s).
Qed.

(** ** Running again *)

Lemma known_inj p q : p ∈ migrations → q ∈ migrations → p.1 = q.1 → p = q.
Proof.
  unfold known. rewrite !list_elem_of_omap. intros (m & _ & Hm) (m' & _ & Hm').
  destruct (fingerprintOf fingerprints (migration_tag m)) as [f|] eqn:E; [|done].
  destruct (fingerprintOf fingerprints (migration_tag m')) as [f'|] eqn:E'; [|done].
  injection Hm as <-. injection Hm' as <-. simpl. intros <-. congruence.
Qed.

(** The SQL of a migration makes what its fingerprint names, and nothing
    of another fingerprint. *)
Definition faithful : Prop := ∀ p t t', p ∈ migrations → applyHistoricalMigration p.1 t = (Ok (), t') →
  here t' p ∧ ∀ q, q ∈ migrations → q ≠ p → migrationState (catalog t') q.2 = migrationState (catalog t) q.2.

Lemma applied_states ps s s' q :
  faithful → (∀ p, p ∈ ps → p ∈ migrations) → q ∈ migrations → applied (fst <$> ps) s s' →
  migrationState (catalog s') q.2 = if decide (q.1 ∈ fst <$> ps) then present else migrationState (catalog s) q.2.
Proof.
  intros Hf. revert s. induction ps as [|p ps IH]; intros s Hps Hq; csimpl; [by intros ->|].
  intros (t & Hp & Ht). apply Hf in Hp as [Hhere Hother]; [|apply Hps; by left].
  rewrite (IH t) by (try done; intros ??; apply Hps; by right).
  destruct (decide (q.1 ∈ fst <$> ps)) as [Hin|Hin]; [by rewrite decide_True by by right|].
  destruct (decide (q.1 = p.1)) as [Heq|Hne].
  - rewrite decide_True by (rewrite Heq; left). apply known_inj in Heq as ->; [done..|]. apply Hps. by left.
  - rewrite decide_False by (by rewrite not_elem_of_cons). apply Hother; [done|]. by intros ->.
Qed.

(** The part of a run that was not reached is what is left to apply. *)
Section resumption.
Context (s s1 s' : MigrationStore) (finished rest : list (Migration * Fingerprint)).
Hypothesis (Hf : faithful) (Hnd : NoDup ((λ p : Migration * Fingerprint, migration_hash p.1) <$> migrations)).
Hypothesis (Hc : ¬ Exists (inconsistent s) migrations).
Hypothesis (Hplan : filter (λ p, ¬ here s p ∧ superseded s p) migrations = finished ++ rest).
Hypothesis (Hcat : catalog s1 = catalog s) (Happlied : applied (fst <$> finished) s1 s').
Hypothesis (Hhashes : hashes s' = hashes s ++ (migration_hash <$> toRecord s ++ (fst <$> finished))).

Lemma finished_known p : p ∈ finished → p ∈ migrations ∧ ¬ here s p ∧ superseded s p.
Proof using Hplan.
  clear -Hplan.
  intros Hp. assert (p ∈ filter (λ p, ¬ here s p ∧ superseded s p) migrations) as ?%list_elem_of_filter.
  { rewrite Hplan. apply elem_of_app. by left. }
  naive_solver.
Qed.

Lemma state_after q : q ∈ migrations →
  migrationState (catalog s') q.2 = if decide (q ∈ finished) then present else migrationState (catalog s) q.2.
Proof using Hplan Hf Hcat Happlied.
  intros Hq. rewrite (applied_states finished s1) by (try done; intros ? [? _]%finished_known; done).
  rewrite Hcat. destruct (decide (q ∈ finished)) as [Hin|Hin].
  - rewrite decide_True; [done|]. by apply list_elem_of_fmap_2.
  - rewrite decide_False; [done|]. intros (r & Hr & Hin')%list_elem_of_fmap.
    apply known_inj in Hr as ->; [done..|]. by apply finished_known.
Qed.

Lemma here_after q : q ∈ migrations → here s' q ↔ here s q ∨ q ∈ finished.
Proof using Hplan Hf Hcat Happlied.
  intros Hq. unfold here. rewrite state_after by done. destruct (decide (q ∈ finished)); naive_solver.
Qed.

Lemma recorded_here q : q ∈ migrations → recorded s q → here s q.
Proof using Hc.
  intros Hq Hr. destruct (decide (here s q)) as [|Hh]; [done|]. destruct Hc. apply Exists_exists. exists q.
  split; [done|]. by right.
Qed.

Lemma recorded_after q : q ∈ migrations → recorded s' q ↔ here s' q.
Proof using All.
  intros Hq. rewrite here_after by done. unfold recorded. rewrite Hhashes, fmap_app, !elem_of_app.
  unfold toRecord. rewrite elem_of_hashes, <-list_fmap_compose, list_elem_of_fmap. split.
  - intros [Hr|[(p & Hp & [? ?] & Heq)|(p & Heq & Hin)]]; [left; by apply recorded_here|left|right].
    + by apply known_hash_inj in Heq as ->.
    + apply known_hash_inj in Heq as ->; [done..|]. by apply finished_known.
  - intros [Hh|Hin]; [|right; right; by exists q].
    destruct (decide (recorded s q)); [by left|right; left; by exists q].
Qed.

Lemma consistent_after : ¬ Exists (inconsistent s') migrations.
Proof using All.
  rewrite Exists_exists. intros (q & Hq & Hbad). unfold inconsistent in Hbad.
  destruct Hbad as [Hbad|[Hr Hbad]]; [|by apply Hbad, recorded_after].
  rewrite state_after in Hbad by done. destruct (decide (q ∈ finished)); [done|].
  apply Hc, Exists_exists. exists q. split; [done|]. by left.
Qed.

Lemma toRecord_after : toRecord s' = [].
Proof using All.
  unfold toRecord. rewrite filter_none; [done|]. intros p Hp [Hh Hr]. by apply Hr, recorded_after.
Qed.

Lemma superseded_after q : superseded s' q ↔ superseded s q.
Proof using All.
  split; intros Hs; assert (Hs' := Hs); unfold superseded in Hs'; apply Exists_exists in Hs' as (r & Hr & Hrec & Hlt).
  - assert (here s r ∨ r ∈ finished) as [Hh|Hin].
    { apply here_after; [done|]. destruct Hrec as [Hrec|Hrec]; [by apply recorded_after|done]. }
    + apply Exists_exists. exists r. eauto.
    + apply finished_known in Hin as (_ & _ & Hsup). by eapply superseded_trans.
  - apply Exists_exists. exists r. split; [done|]. split; [|done]. right. apply here_after; [done|]. left.
    destruct Hrec; [by apply recorded_here|done].
Qed.

Lemma toApply_after : toApply s' = fst <$> rest.
Proof using All.
  unfold toApply. f_equal.
  transitivity (filter (λ p, p ∉ finished) (filter (λ p, ¬ here s p ∧ superseded s p) migrations)).
  - rewrite list_filter_filter. apply list_filter_ext_in. intros q Hq. rewrite superseded_after, here_after by done.
    naive_solver.
  - assert (NoDup (finished ++ rest)) as (_ & Hdisj & _)%NoDup_app.
    { rewrite <-Hplan. apply NoDup_filter. by eapply NoDup_fmap_1. }
    rewrite Hplan, filter_app. rewrite (filter_none _ finished), (filter_all _ rest); [done|naive_solver..].
Qed.
End resumption.

(** C18: a run that stopped, because the engine refused a statement, leaves a
    store in which the next run adopts nothing again and applies exactly the
    migrations this one did not reach; after a run that returned the next
    one changes nothing. *)
Theorem adoptMigrationHistory_resumes s o s' :
  faithful → NoDup ((λ p : Migration * Fingerprint, migration_hash p.1) <$> migrations) →
  ¬ Exists (inconsistent s) migrations →
  adoptMigrationHistory fingerprints allMigrations s = (o, s') →
  ¬ Exists (inconsistent s') migrations ∧ toRecord s' = [] ∧
  (∃ finished, toApply s = finished ++ toApply s') ∧
  (is_ok o = true → adoptMigrationHistory fingerprints allMigrations s' = (Ok (), s')).
Proof.
  intros Hf Hnd Hc Hrun.
  destruct (adopt_steps s o s' Hc Hrun) as (s1 & o1 & Happly & Ho & Hj & Hcat & Hh & _).
  destruct (applyMigrations_run _ _ _ _ Happly) as (done1 & rest1 & Hplan & Hap & Hok).
  assert (hashes s' = hashes s ++ (migration_hash <$> toRecord s ++ done1)) as Hs'.
  { rewrite fmap_app, (assoc_L (++)), <-Hh. destruct Hj as [Hj|Hnil]; [by apply applied_hashes|].
    rewrite Hnil in Hplan. symmetry in Hplan. apply app_nil in Hplan as [-> ->]. simpl in Hap.
    by rewrite Hap, app_nil_r. }
  apply fmap_app_inv in Hplan as (finished & rest & -> & -> & Hplan).
  pose proof (consistent_after s s1 s' finished rest Hf Hnd Hc Hplan Hcat Hap Hs') as Hc'.
  pose proof (toRecord_after s s1 s' finished rest Hf Hnd Hc Hplan Hcat Hap Hs') as Hrec.
  pose proof (toApply_after s s1 s' finished rest Hf Hnd Hc Hplan Hcat Hap Hs') as Hleft.
  split_and!; [done|done| |].
  - exists (fst <$> finished). unfold toApply at 1. by rewrite Hplan, fmap_app, Hleft.
  - rewrite Ho. intros Hrest%Hok. rewrite adopt_run by done. rewrite decide_True; [done|]. by rewrite Hleft.
Qed.
End adoption_facts.

(** ** Concrete databases *)

Definition emptyCatalog : Catalog :=
  {| cat_columns := ∅; cat_constraints := ∅; cat_enums := ∅; cat_indexes := ∅; cat_nullableColumns := ∅;
     cat_tables := ∅ |}.

(** The objects a fingerprint names are made. *)
Definition make (f : Fingerprint) (c : Catalog) : Catalog :=
  {| cat_columns := list_to_set (fp_columns f) ∪ cat_columns c;
     cat_constraints := list_to_set (fp_constraints f) ∪ cat_constraints c;
     cat_enums := list_to_set (fp_enums f) ∪ cat_enums c;
     cat_indexes := list_to_set (fp_indexes f) ∪ cat_indexes c;
     cat_nullableColumns := list_to_set (fp_nullableColumns f) ∪ cat_nullableColumns c;
     cat_tables := list_to_set (fp_tables f) ∪ cat_tables c |}.

Definition refusing : SqlEngine := {| execute := λ _ _, Throw (DatabaseError "refused") |}.

Definition migrationOf (i : nat) (tag : string) : Migration :=
  {| migration_createdAt := Z.of_nat i; migration_contents := tag; migration_hash := tag; migration_index := i;
     migration_tag := tag |}.
Definition journalled : list Migration := imap migrationOf (migrationFingerprints.*1 ++ ["0008_later"]).

(** The first and the third migration are there and nothing is recorded. *)
Definition unrecorded : MigrationStore :=
  {| catalog := foldr make emptyCatalog ((λ i : nat, default (Build_Fingerprint [] [] [] [] [] [])
       (snd <$> migrationFingerprints !! i)) <$> [0; 2]);
     journal := None |}.

(** An engine that refuses the second: the others are recorded. *)
Lemma adoptMigrationHistory_spec_witness :
  ∃ o s', @adoptMigrationHistory refusing migrationFingerprints journalled unrecorded = (o, s') ∧
    hashes s' = ["0000_elite_shape"; "0002_clever_miek"] ∧ is_ok o = false.
Proof.
  destruct (@adoptMigrationHistory refusing migrationFingerprints journalled unrecorded) as [o s'] eqn:E.
  exists o, s'. split; [reflexivity|].
  destruct (@adoptMigrationHistory_spec refusing _ _ _ _ _ E) as (_ & Hok & _).
  assert (is_ok (@adoptMigrationHistory refusing migrationFingerprints journalled unrecorded).1 = false) as Ho
    by (vm_compute; reflexivity). rewrite E in Ho. simpl in Ho.
  destruct Hok as ((finished & rest & Hplan & Hh & Hrest) & _).
  { decide_fact. }
  assert (finished = []) as ->.
  { assert (toApply migrationFingerprints journalled unrecorded = [migrationOf 1 "0001_fantastic_king_cobra"]) as Hone
      by (vm_compute; reflexivity).
    rewrite Hone in Hplan. destruct finished as [|m [|]]; [reflexivity| |discriminate Hplan].
    injection Hplan as _ <-. rewrite (proj2 Hrest eq_refl) in Ho. discriminate Ho. }
  split; [rewrite Hh; vm_compute; reflexivity|exact Ho].
Defined.

(** An engine whose statement is the tag of the fingerprint it makes. *)
Definition making (fingerprints : list (string * Fingerprint)) : SqlEngine := {|
  execute := λ statement c,
    match fingerprintOf fingerprints statement with
    | Some f => Ok (make f c)
    | None => Throw (DatabaseError "syntax error")
    end |}.

Definition twoTables : list (string * Fingerprint) :=
  (λ tag : string, (tag, Build_Fingerprint [] [] [] [] [] [tag])) <$> ["users"; "uploads"].
Definition twoMigrations : list Migration := imap migrationOf ["users"; "uploads"].

Lemma oneTable_state c tag :
  migrationState c (Build_Fingerprint [] [] [] [] [] [tag]) = if decide (tag ∈ cat_tables c) then present else absent.
Proof.
  unfold migrationState. cbn [fp_columns fp_constraints fp_enums fp_indexes fp_nullableColumns fp_tables].
  csimpl. rewrite filter_cons. destruct (decide (tag ∈ cat_tables c)); done.
Qed.

Lemma twoTables_faithful : @faithful (making twoTables) twoTables twoMigrations.
Proof.
  intros p t t' Hp Hrun. unfold here.
  assert (known twoTables twoMigrations = (λ m, (m, Build_Fingerprint [] [] [] [] [] [migration_tag m])) <$> twoMigrations)
    as Hknown by (vm_compute; reflexivity).
  rewrite Hknown in *.
  assert (catalog t' = make p.2 (catalog t)) as Hmake.
  { unfold applyHistoricalMigration in Hrun. rewrite transaction_ok, bind_ok in Hrun.
    destruct Hrun as (out & t1 & Hst & Hrec).
    assert (catalog t' = catalog t1) as -> by (unfold recordMigration in Hrec; destruct (journal t1); by simplify_eq).
    apply elem_of_cons in Hp as [->|[->|[]%elem_of_nil]%elem_of_cons]; cbn -[trim make] in Hst;
      rewrite decide_True, bind_run in Hst by (vm_compute; discriminate); by injection Hst as _ <-. }
  rewrite Hmake. apply list_elem_of_fmap in Hp as (m & -> & Hm). split.
  - cbn [fst snd]. rewrite oneTable_state, decide_True; [done|]. simpl. set_solver.
  - intros q (m' & -> & Hm')%list_elem_of_fmap Hne. cbn [fst snd]. rewrite !oneTable_state.
    assert (migration_tag m' ≠ migration_tag m) as Htag.
    { intros Heq. apply Hne. f_equal; [|by rewrite Heq].
      unfold twoMigrations in *. simpl in *. set_solver. }
    apply decide_ext. simpl. set_solver.
Qed.

(** Only the later table is there: the first run records its migration and
    applies the earlier one, the second does nothing. *)
Lemma adoptMigrationHistory_resumes_witness :
  ∃ s', @adoptMigrationHistory (making twoTables) twoTables twoMigrations
      {| catalog := make (Build_Fingerprint [] [] [] [] [] ["uploads"]) emptyCatalog; journal := None |} = (Ok (), s') ∧
    hashes s' = ["uploads"; "users"] ∧
    @adoptMigrationHistory (making twoTables) twoTables twoMigrations s' = (Ok (), s').
Proof.
  set (s := {| catalog := make (Build_Fingerprint [] [] [] [] [] ["uploads"]) emptyCatalog; journal := None |}).
  destruct (@adoptMigrationHistory (making twoTables) twoTables twoMigrations s) as [o s'] eqn:E.
  destruct (@adoptMigrationHistory_resumes (making twoTables) twoTables twoMigrations s o s' twoTables_faithful)
    as (_ & _ & _ & Hagain); [decide_fact|decide_fact|exact E|].
  assert (is_ok (@adoptMigrationHistory (making twoTables) twoTables twoMigrations s).1 = true) as Ho
    by (vm_compute; reflexivity).
  assert (hashes (@adoptMigrationHistory (making twoTables) twoTables twoMigrations s).2 = ["uploads"; "users"]) as Hh
    by (vm_compute; reflexivity).
  rewrite E in Ho, Hh. destruct o as [[]|e]; [|discriminate Ho].
  exists s'. split; [reflexivity|]. split; [exact Hh|exact (Hagain eq_refl)].
Defined.
