(* ===== verification/AccountProofs.v ===== *)
(** * Correctness of the accounts

    What writing a credential leaves in place, and the first-run setup case
    by case. *)

From S2P Require Import Prelude Js Contracts Schemas Paths Http Database Integrity Statements Accounts.

(** What the authentication library checks at sign-in, with its documented
    behaviour on the hashes it made. *)
Class PasswordVerification `{!PasswordHashing} := {
  verifyPassword : string → string → bool;
  verify_hash salt p q : verifyPassword (hashPassword salt p) q = true ↔ p = q }.

(** ** Statements *)

Lemma demand_ok P `{∀ s, Decision (P s)} c s u s' : demand P c s = (Ok u, s') ↔ P s ∧ s' = s.
Proof. unfold demand. destruct (decide (P s)), u; split; naive_solver. Qed.

Lemma demand_keeps P `{∀ s, Decision (P s)} c (I : Directory → Prop) : preserves I (demand P c).
Proof. intros s Hs. unfold demand. by destruct (decide (P s)). Qed.

Lemma updateIf_none {A} (P : A → Prop) `{∀ a, Decision (P a)} f (l : list A) :
  (∀ a, a ∈ l → ¬ P a) → updateIf P f <$> l = l.
Proof.
  induction l as [|a l IH]; intros Hl; csimpl; [done|].
  rewrite updateIf_False, IH; [done| |apply Hl; left]. intros b Hb. apply Hl. by right.
Qed.

Section statements.
Context `{!Uuids}.

(** The store after an identifier was drawn. *)
Definition drawn (s : Directory) : Directory := set_tables (set_nextId (S (nextId (tables s))) (tables s)) s.

Lemma insertAccount_ok accountId providerId userId password s u s' :
  insertAccount accountId providerId userId password s = (Ok u, s') ↔
  let id := uuid (nextId (tables s)) in
  id ∉ ac_id <$> accounts s ∧ hasUser userId s ∧
  s' = set_accounts (accounts s ++ [newAccount id accountId providerId userId password (clock (tables s))]) (drawn s).
Proof.
  unfold insertAccount. run_m. simpl. unfold demand. simpl. fold (drawn s).
  destruct (decide (_ ∉ _)) as [Hid|Hid]; [|naive_solver]. unfold hasUser at 2 3. simpl.
  destruct (decide _) as [Hu|Hu]; destruct u; naive_solver.
Qed.

(** What a new credential leaves in place. *)
Record credential_written (userId password : string) (s s' : Directory) : Prop := {
  cw_users : users (tables s') = users (tables s);
  cw_sessions : sessions s' = sessions s;
  cw_tokens : apiTokens s' = apiTokens s;
  cw_others : filter (λ a, ¬ credentialOf userId a) (accounts s') =
              filter (λ a, ¬ credentialOf userId a) (accounts s);
  cw_some : Exists (credentialOf userId) (accounts s');
  cw_password : ∀ a, a ∈ accounts s' → credentialOf userId a → ac_password a = Some password }.

Lemma writeCredential_ok userId password now s s' :
  writeCredential userId password now s = (Ok (), s') → credential_written userId password s s'.
Proof.
  unfold writeCredential, updateAccounts. run_m.
  assert (∀ a, credentialOf userId a → credentialOf userId (with_password password now a)) as Hkeep by done.
  assert (filter (λ a, ¬ credentialOf userId a)
      (updateIf (credentialOf userId) (with_password password now) <$> accounts s) =
    filter (λ a, ¬ credentialOf userId a) (accounts s)) as Hothers.
  { apply filter_updateIf_other. intros a _ Ha. split; intros Hn; by apply Hn. }
  assert (∀ a, a ∈ updateIf (credentialOf userId) (with_password password now) <$> accounts s →
    credentialOf userId a → ac_password a = Some password) as Hnew.
  { intros a (b & -> & _)%list_elem_of_fmap. unfold updateIf. by case_decide. }
  case_decide as Hlen.
  - apply nil_length_inv in Hlen. intros (_ & _ & ->)%insertAccount_ok.
    assert (∀ a, a ∈ accounts s → ¬ credentialOf userId a) as Hnone.
    { intros a Ha. intros Hc. by eapply (filter_nil_not_elem_of _ _ _ Hlen). }
    split; simpl; rewrite ?(updateIf_none _ _ _ Hnone); try done.
    + rewrite filter_app, filter_cons, decide_False, app_nil_r; [done|]. intros Hn. by apply Hn.
    + apply Exists_app. right. by constructor.
    + intros a [Ha| ->%list_elem_of_singleton]%elem_of_app Hc; [by destruct (Hnone a)|done].
  - intros [= <-]. split; simpl; try done.
    destruct (nonempty_elem (filter (credentialOf userId) (accounts s))) as [a [Ha Hin]%list_elem_of_filter].
    { intros Hf. by rewrite Hf in Hlen. }
    apply Exists_exists. exists (with_password password now a). split; [|by apply Hkeep].
    apply list_elem_of_fmap. exists a. split; [symmetry; by apply updateIf_True|done].
Qed.

(** A fresh identifier and an existing user are all it takes. *)
Lemma writeCredential_total userId password now s :
  hasUser userId s → uuid (nextId (tables s)) ∉ ac_id <$> accounts s →
  ∃ s', writeCredential userId password now s = (Ok (), s').
Proof.
  intros Hu Hid. unfold writeCredential, updateAccounts. run_m. case_decide as Hlen; [|by eexists].
  apply nil_length_inv in Hlen. eexists. apply insertAccount_ok. cbv zeta. simpl.
  rewrite updateIf_none; [by split_and!|]. intros a Ha Hc. by eapply (filter_nil_not_elem_of _ _ _ Hlen).
Qed.
End statements.

(** ** Who can sign in *)

Section accounts.
Context `{!Uuids, !PasswordHashing, !PasswordVerification}.

(** The password opens the account of the user. *)
Definition opens (s : Directory) (userId password : string) : Prop :=
  ∃ a, a ∈ accounts s ∧ credentialOf userId a ∧
  ∃ h, ac_password a = Some h ∧ verifyPassword h password = true.

Lemma written_opens userId salt password s s' q :
  credential_written userId (hashPassword salt password) s s' → opens s' userId q ↔ q = password.
Proof.
  intros [_ _ _ _ Hsome Hpw]. split.
  - intros (a & Ha & Hc & h & Hh & Hv). rewrite (Hpw a Ha Hc) in Hh. simplify_eq.
    symmetry. by eapply verify_hash.
  - intros ->. apply Exists_exists in Hsome as (a & Ha & Hc). exists a. split_and!; [done..|].
    exists (hashPassword salt password). split; [by apply Hpw|]. by apply verify_hash.
Qed.

Lemma opens_ext s s' userId q :
  filter (credentialOf userId) (accounts s') = filter (credentialOf userId) (accounts s) →
  opens s' userId q ↔ opens s userId q.
Proof.
  intros Hf. unfold opens.
  assert (∀ a, a ∈ accounts s' ∧ credentialOf userId a ↔ a ∈ accounts s ∧ credentialOf userId a) as Hin.
  { intros a. rewrite (comm and), <-list_elem_of_filter, Hf, list_elem_of_filter. apply (comm and). }
  split; intros (a & Ha & Hc & Hv); exists a; (destruct (Hin a); tauto).
Qed.

Lemma written_others userId password s s' other q :
  credential_written userId password s s' → other ≠ userId → opens s' other q ↔ opens s other q.
Proof.
  intros [_ _ _ Hf _ _] Hne. apply opens_ext.
  assert (∀ l : list AccountRow, filter (credentialOf other) l =
    filter (credentialOf other) (filter (λ a, ¬ credentialOf userId a) l)) as Hsplit.
  { intros l. rewrite list_filter_filter. apply list_filter_ext_in. intros a _. unfold credentialOf.
    split; [|by intros [? _]]. intros [Hu Hp]. split; [done|]. intros [? _]. congruence. }
  by rewrite Hsplit, Hf, <-Hsplit.
Qed.

(** The users are identified by their id, and by their address. *)
Record users_keyed (s : Directory) : Prop := {
  ids_unique : NoDup (u_id <$> users (tables s));
  emails_unique : NoDup (u_email <$> users (tables s)) }.

Lemma updated_emails userId email flag now (l : list UserRow) :
  NoDup (u_id <$> l) → NoDup (u_email <$> l) → (∀ u, u ∈ l → u_email u = email → u_id u = userId) →
  NoDup (u_email <$> (updateIf (λ u, u_id u = userId) (with_requirement (Some email) flag now) <$> l)).
Proof.
  induction l as [|u l IH]; csimpl; [done|]. rewrite !NoDup_cons.
  intros [Hui Hi] [Hue He] Hfree. split; [|apply IH; [done..|]; intros v Hv; apply Hfree; by right].
  intros (v & Hv & (w & -> & Hw)%list_elem_of_fmap)%list_elem_of_fmap. unfold updateIf in Hv.
  assert (u_id w ≠ u_id u) as Hne by (intros Heq; apply Hui; rewrite <-Heq; by apply list_elem_of_fmap_2).
  assert (u_email w ≠ u_email u) as Hne' by (intros Heq; apply Hue; rewrite <-Heq; by apply list_elem_of_fmap_2).
  repeat case_decide; simpl in Hv; try congruence.
  - apply Hne. rewrite (Hfree w); [done|by right|congruence].
  - apply Hne. rewrite (Hfree u); [done|left|done].
Qed.

Definition strong (password : string) : Prop :=
  password ≠ DEFAULT_ADMIN_PASSWORD ∧ MINIMUM_ADMIN_PASSWORD_LENGTH ≤ String.length password.

(** The address as it is stored. *)
Definition address (email : string) : string := toLowerCase (trim email).

Definition isPending (userId : string) (u : UserRow) : Prop := u_id u = userId ∧ u_requiresPasswordChange u = true.

(** What a completed setup leaves. *)
Record setup_completed (email password userId : string) (now : Z) (s s' : Directory) : Prop := {
  sc_users : users (tables s') =
    updateIf (λ u, u_id u = userId) (with_requirement (Some (address email)) false now) <$> users (tables s);
  sc_password : ∀ q, opens s' userId q ↔ q = password;
  sc_others : ∀ other q, other ≠ userId → opens s' other q ↔ opens s other q;
  sc_sessions : sessions s' = sessions s }.

Lemma setup_written email password userId salt now s s' :
  completeInitialAdminSetup email password userId salt now s = (Ok (), s') →
  isValidAdminEmail (address email) = true ∧ strong password ∧
  Exists (isPending userId) (users (tables s)) ∧
  ∃ s1, credential_written userId (hashPassword salt password) s s1 ∧
    s' = set_tables (set_users (updateIf (λ u, u_id u = userId)
      (with_requirement (Some (address email)) false now) <$> users (tables s)) (tables s1)) s1.
Proof.
  unfold completeInitialAdminSetup. cbv zeta. fold (address email).
  destruct (isValidAdminEmail _) eqn:Hv; simpl; [|done]. case_decide as Hdef; [done|].
  case_decide as Hlen; [done|]. rewrite transaction_ok. intros Hm.
  apply bind_ok in Hm as (pending & s1 & Hp & Hm). injection Hp as <- <-.
  destruct (head _) as [u|] eqn:Hu; [|done]. apply head_elem_of, list_elem_of_filter in Hu as [Hpend Hu].
  apply bind_ok in Hm as (conflicting & s1 & Hc & Hm). injection Hc as <- <-.
  apply bind_ok in Hm as ([] & s1 & Hc & Hm).
  assert (s1 = s) as ->.
  { revert Hc. case_match; [case_decide|]; by intros [=]. }
  clear Hc.
  apply bind_ok in Hm as ([] & s1 & Hw%writeCredential_ok & Hm).
  unfold updateUsers in Hm. apply bind_ok in Hm as ([] & s2 & [_ ->]%demand_ok & Hm). injection Hm as <-.
  split_and!; [done|split; [done|unfold MINIMUM_ADMIN_PASSWORD_LENGTH in *; lia]| |].
  - apply Exists_exists. by exists u.
  - exists s1. by rewrite <-(cw_users _ _ _ _ Hw).
Qed.

Lemma setup_ok_inv email password userId salt now s s' :
  completeInitialAdminSetup email password userId salt now s = (Ok (), s') →
  isValidAdminEmail (address email) = true ∧ strong password ∧
  Exists (isPending userId) (users (tables s)) ∧ setup_completed email password userId now s s'.
Proof.
  intros (? & ? & ? & s1 & Hw & ->)%setup_written. split_and!; try done. split; simpl.
  - done.
  - intros q. exact (written_opens userId salt password s s1 q Hw).
  - intros other q Hne. exact (written_others userId _ s s1 other q Hw Hne).
  - by apply Hw.
Qed.

Lemma setup_total email password userId salt now s :
  users_keyed s → uuid (nextId (tables s)) ∉ ac_id <$> accounts s →
  isValidAdminEmail (address email) = true → strong password →
  Exists (isPending userId) (users (tables s)) →
  (∀ u, u ∈ users (tables s) → u_email u = address email → u_id u = userId) →
  ∃ s', completeInitialAdminSetup email password userId salt now s = (Ok (), s').
Proof.
  intros [Hi He] Hid Hv [Hdef Hlen] Hp Hfree. unfold completeInitialAdminSetup. cbv zeta. fold (address email).
  rewrite Hv, decide_False by done. simpl. rewrite decide_False by (unfold MINIMUM_ADMIN_PASSWORD_LENGTH in *; lia).
  setoid_rewrite transaction_ok. rewrite bind_run. simpl.
  apply Exists_exists in Hp as (u & Hu & Hpu).
  destruct (head (filter _ (users (tables s)))) as [u'|] eqn:Hh; cycle 1.
  { rewrite head_filter_None in Hh. by destruct (Hh u Hu). }
  apply head_elem_of, list_elem_of_filter in Hh as [[Hu'id _] Hu'].
  rewrite bind_run. simpl. rewrite bind_run.
  destruct (writeCredential_total userId (hashPassword salt password) now s) as [s1 Hw]; [|done|].
  { unfold hasUser. rewrite <-Hu'id. by apply list_elem_of_fmap_2. }
  assert ((match head (filter (λ u, u_email u = address email) (users (tables s))) with
    | Some other => if decide (u_id other ≠ userId) then throw (AdminSetupError email_in_use) else mret ()
    | None => mret () end : DIR unit) s = (Ok (), s)) as ->.
  { destruct (head _) as [o|] eqn:Ho; [|done]. apply head_elem_of, list_elem_of_filter in Ho as [Ho Hin].
    rewrite decide_False; [done|]. intros Hne. apply Hne. by apply Hfree. }
  rewrite bind_run, Hw. unfold updateUsers. rewrite bind_run. unfold demand.
  pose proof (writeCredential_ok _ _ _ _ _ Hw) as [Hus _ _ _ _ _].
  destruct (decide (NoDup _)) as [_|Hn]; [by eexists|]. destruct Hn. rewrite Hus. by apply updated_emails.
Qed.

(** The refusals of the transaction. *)
Lemma setup_refusal email password userId salt now s :
  isValidAdminEmail (address email) = true → strong password →
  (¬ Exists (isPending userId) (users (tables s)) →
     completeInitialAdminSetup email password userId salt now s = (Throw (AdminSetupError already_completed), s)) ∧
  (Exists (isPending userId) (users (tables s)) → NoDup (u_email <$> users (tables s)) →
   Exists (λ u, u_email u = address email ∧ u_id u ≠ userId) (users (tables s)) →
     completeInitialAdminSetup email password userId salt now s = (Throw (AdminSetupError email_in_use), s)).
Proof.
  intros Hv [Hdef Hlen]. unfold completeInitialAdminSetup. cbv zeta. fold (address email).
  rewrite Hv, decide_False by done. simpl. rewrite decide_False by (unfold MINIMUM_ADMIN_PASSWORD_LENGTH in *; lia).
  unfold transaction. rewrite bind_run. simpl. split.
  - intros Hp. destruct (head (filter _ (users (tables s)))) as [u|] eqn:Hh; [|done].
    apply head_elem_of, list_elem_of_filter in Hh as [Hpu Hu]. destruct Hp. apply Exists_exists. by exists u.
  - intros Hp He Ht. apply Exists_exists in Hp as (u & Hu & Hpu).
    destruct (head (filter _ (users (tables s)))) as [u'|] eqn:Hh; cycle 1.
    { rewrite head_filter_None in Hh. by destruct (Hh u Hu). }
    rewrite bind_run. simpl. rewrite bind_run. apply Exists_exists in Ht as (o & Ho & Hoe & Hoid).
    rewrite <-Hoe, (filter_key_singleton u_email _ o He Ho). simpl. by rewrite decide_True.
Qed.

Lemma refused_answer session email password salt now s reason :
  session_requiresPasswordChange session = true →
  completeInitialAdminSetup email password (session_id session) salt now s = (Throw (AdminSetupError reason), s) →
  completeAdminSetup (Some session) email password salt now s = (Ok (setup_refused (Some reason)), s).
Proof.
  intros Hs Hrun. unfold completeAdminSetup. rewrite Hs. simpl. unfold try_catch.
  by rewrite bind_run, Hrun.
Qed.

(** The first-run setup, case by case. Without a session that still has
    to change its password, or with an address or a password that is not
    acceptable, with an account that is no longer pending or an address of
    somebody else, it is refused with that reason and nothing changes.
    Otherwise the user has the new address, the new password and no other,
    and need not change it again; nobody else's account is touched, and the
    setup of that user is over. *)
Theorem completeAdminSetup_spec session email password salt now s :
  users_keyed s → uuid (nextId (tables s)) ∉ ac_id <$> accounts s →
  let user := session_id session in
  let answer := completeAdminSetup (Some session) email password salt now s in
  let refused reason := (Ok (setup_refused (Some reason)), s) in
  let allowed := session_requiresPasswordChange session = true in
  let valid := isValidAdminEmail (address email) = true in
  let pending := Exists (isPending user) (users (tables s)) in
  let taken := Exists (λ u, u_email u = address email ∧ u_id u ≠ user) (users (tables s)) in
  completeAdminSetup None email password salt now s = (Ok (setup_refused None), s) ∧
  (¬ allowed → answer = (Ok (setup_refused None), s)) ∧
  (allowed → ¬ valid → answer = refused invalid_email) ∧
  (allowed → valid → password = DEFAULT_ADMIN_PASSWORD → answer = refused reused_default_password) ∧
  (allowed → valid → password ≠ DEFAULT_ADMIN_PASSWORD → ¬ strong password → answer = refused weak_password) ∧
  (allowed → valid → strong password → ¬ pending → answer = refused already_completed) ∧
  (allowed → valid → strong password → pending → taken → answer = refused email_in_use) ∧
  (allowed → valid → strong password → pending → ¬ taken →
     ∃ s', answer = (Ok setup_ok, s') ∧ setup_completed email password user now s s' ∧
       ¬ Exists (isPending user) (users (tables s'))).
Proof.
  intros Hk Hid user answer refused allowed valid pending taken.
  split; [done|]. split; [|split; [|split; [|split; [|split; [|split]]]]].
  - unfold allowed, answer, completeAdminSetup. by destruct (session_requiresPasswordChange session).
  - intros Ha Hv. apply refused_answer; [done|]. unfold completeInitialAdminSetup. cbv zeta. fold (address email).
    unfold valid in Hv. by destruct (isValidAdminEmail _).
  - intros Ha Hv Hp. apply refused_answer; [done|]. unfold completeInitialAdminSetup. cbv zeta. fold (address email).
    rewrite Hv. simpl. by rewrite decide_True.
  - intros Ha Hv Hp Hs. apply refused_answer; [done|]. unfold completeInitialAdminSetup. cbv zeta. fold (address email).
    rewrite Hv. simpl. rewrite decide_False by done. rewrite decide_True; [done|].
    apply Nat.nle_gt. intros Hlen. by apply Hs.
  - intros Ha Hv Hs Hp. apply refused_answer; [done|]. by apply setup_refusal.
  - intros Ha Hv Hs Hp Ht. apply refused_answer; [done|]. apply setup_refusal; try done. apply Hk.
  - intros Ha Hv Hs Hp Ht. destruct (setup_total email password user salt now s) as [s' Hrun]; try done.
    { intros u Hu He. destruct (decide (u_id u = user)); [done|]. destruct Ht. apply Exists_exists. by exists u. }
    exists s'. unfold answer, completeAdminSetup. rewrite Ha. simpl. unfold try_catch.
    rewrite bind_run. fold user. rewrite Hrun. split; [done|].
    apply setup_ok_inv in Hrun as (_ & _ & _ & Hdone). split; [done|].
    rewrite (sc_users _ _ _ _ _ _ Hdone), Exists_exists.
    intros (u & (v & -> & Hv')%list_elem_of_fmap & Hu & Hflag). unfold updateIf in *.
    case_decide; by simpl in *.
Qed.
End accounts.

(** ** Random text *)

Lemma get_all_chars p n s c : all_chars p s = true → String.get n s = Some c → p c = true.
Proof.
  revert n. induction s as [|d s IH]; intros [|n] Hs Hg; simpl in *; try done.
  - injection Hg as <-. by apply andb_true_iff in Hs as [? _].
  - apply andb_true_iff in Hs as [_ Hs]. by eapply IH.
Qed.

Lemma sextet_char n : is_token_char (sextet n) = true.
Proof.
  unfold sextet. destruct (String.get n BASE64URL) as [c|] eqn:E; [|done].
  eapply (get_all_chars is_token_char); [|exact E]. by vm_compute.
Qed.

(** Three bytes are four characters, and a rest of one or two is two or three. *)
Lemma base64url_shape bytes :
  all_chars is_token_char (base64url bytes) = true ∧
  String.length (base64url bytes) = (4 * length bytes + 2) / 3.
Proof.
  assert (∀ n bytes, length bytes ≤ n → all_chars is_token_char (base64url bytes) = true ∧
    String.length (base64url bytes) = (4 * length bytes + 2) / 3) as Hshape; [|by apply (Hshape (length bytes))].
  clear bytes. intros n. induction n as [|n IH]; intros [|a [|b [|c bytes]]] Hn; try (simpl in Hn; lia).
  all: cbn [base64url all_chars String.length]; rewrite ?sextet_char; try done.
  destruct (IH bytes) as [Hc Hl]; [simpl in Hn; lia|]. rewrite Hc, Hl. split; [done|]. simpl length.
  replace (4 * S (S (S (length bytes))) + 2) with (4 * length bytes + 2 + 4 * 3) by lia.
  rewrite Nat.div_add by done. lia.
Qed.

(** ** Resets *)

Lemma orDefault_some s d : s ≠ "" → orDefault (Some s) d = s.
Proof. by destruct s. Qed.

Section reset.
Context `{!Uuids, !PasswordHashing, !PasswordVerification}.

(** What a reset of the administrator [u] leaves. *)
Record password_reset (u : UserRow) (password : string) (now : Z) (s s' : Directory) : Prop := {
  pr_users : users (tables s') =
    updateIf (λ v, u_id v = u_id u) (with_requirement None true now) <$> users (tables s);
  pr_password : ∀ q, opens s' (u_id u) q ↔ q = password;
  pr_others : ∀ other q, other ≠ u_id u → opens s' other q ↔ opens s other q;
  pr_sessions : sessions s' = filter (λ r, ss_userId r ≠ u_id u) (sessions s) }.

Lemma parseAdminIdentity_address email username :
  trim email ≠ "" → isValidAdminEmail (address email) = true → 3 ≤ String.length (trim username) →
  parseAdminIdentity (Some email) (Some username) =
    Ok {| identity_email := address email; identity_username := trim username |}.
Proof.
  intros He Hv Hu. unfold parseAdminIdentity, address in *. cbn [option_fmap option_map fmap].
  rewrite !orDefault_some; [|by intros E; rewrite E in Hu; simpl in Hu; lia|done]. rewrite Hv. simpl. rewrite decide_False; [done|lia].
Qed.

(** A reset case by case. For an address that is not one it throws, and
    for an address that no administrator has it answers nothing; neither
    changes anything. Otherwise the administrator gets the returned password
    and no other, of 32 characters for 24 random bytes, has to change it,
    and is signed out everywhere; nobody else is affected. *)
Theorem resetAdminPassword_spec email bytes salt now s :
  users_keyed s → uuid (nextId (tables s)) ∉ ac_id <$> accounts s →
  let answer := resetAdminPassword email bytes salt now s in
  let password := generateTemporaryPassword bytes in
  let admin u := u ∈ users (tables s) ∧ u_email u = address email ∧ u_isAdmin u = true in
  trim email ≠ "" →
  (isValidAdminEmail (address email) = false →
     answer = (Throw (JsError "PANTAETL_ADMIN_EMAIL must be a valid email address."), s)) ∧
  (isValidAdminEmail (address email) = true → (∀ u, ¬ admin u) → answer = (Ok None, s)) ∧
  (isValidAdminEmail (address email) = true → ∀ u, admin u →
     ∃ s', answer = (Ok (Some password), s') ∧ password_reset u password now s s' ∧
       (length bytes = 24 → String.length password = 32)).
Proof.
  intros [Hi He] Hid answer password admin Htrim. split; [|split].
  - intros Hv. unfold answer, resetAdminPassword, parseAdminIdentity. rewrite bind_run. unfold lift.
    cbn [option_fmap option_map fmap].
    rewrite orDefault_some by done. fold (address email). by rewrite Hv.
  - intros Hv Hnone. unfold answer, resetAdminPassword. rewrite parseAdminIdentity_address by (done || simpl; lia).
    rewrite bind_run. unfold lift. rewrite bind_run. simpl.
    assert (head (filter (λ u, u_email u = address email ∧ u_isAdmin u = true) (users (tables s))) = None) as ->.
    { apply head_filter_None. intros u Hu Hp. by apply (Hnone u). }
    done.
  - intros Hv u (Hu & Hue & Hua). unfold answer, resetAdminPassword.
    rewrite parseAdminIdentity_address by (done || simpl; lia). rewrite bind_run. unfold lift. rewrite bind_run. simpl.
    assert (filter (λ u, u_email u = address email ∧ u_isAdmin u = true) (users (tables s)) = [u]) as ->.
    { rewrite <-(filter_key_singleton u_email (users (tables s)) u He Hu), Hue. apply list_filter_ext_in.
      intros v Hvin. split; [by intros []|]. intros Hve.
      by rewrite (NoDup_fmap_eq u_email (users (tables s)) v u He Hvin Hu) by congruence. }
    simpl. destruct (writeCredential_total (u_id u) (hashPassword salt password) now s) as [s1 Hw];
      [by apply list_elem_of_fmap_2|done|].
    apply writeCredential_ok in Hw as Hcw. eexists. split; [|split; [split; simpl|]].
    + unfold transaction. rewrite !bind_run. fold password. rewrite Hw. unfold updateUsers. rewrite !bind_run.
      unfold demand. rewrite decide_True; [done|]. rewrite (cw_users _ _ _ _ Hcw), <-list_fmap_compose.
      rewrite (list_fmap_ext _ u_email); [done|]. intros _ v _. simpl. unfold updateIf. by case_decide.
    + simpl. by rewrite (cw_users _ _ _ _ Hcw).
    + intros q. exact (written_opens (u_id u) salt password s s1 q Hcw).
    + intros other q Hne. exact (written_others (u_id u) _ s s1 other q Hcw Hne).
    + simpl. by rewrite (cw_sessions _ _ _ _ Hcw).
    + intros Hlen. unfold password, generateTemporaryPassword. destruct (base64url_shape bytes) as [_ ->].
      by rewrite Hlen.
Qed.
End reset.
