(* ===== verification/Uploads.v ===== *)
(** * Uploads

    [apps/web/src/uploads]: import-storage.ts (where an accepted file comes
    to rest), collection-route.ts (the upload route) and pipeline-claims.ts
    (what saving a pipeline does to the files it reads). *)

From S2P Require Import Prelude Js Contracts Schemas Http Database Statements RunLogs Paths Files Retention.

(** ** import-storage.ts *)

Record StoredImport := { sourcePath : string; stored_location : string }.

Definition IMPORT_DIRECTORY : string := "imports".
Definition UPLOAD_DIRECTORY : string := "uploads".

(** [/^\.[a-z0-9]{1,12}$/] *)
Definition matchesExtension (s : string) : bool :=
  match s with
  | String "." rest =>
      (1 <=? String.length rest)%nat && (String.length rest <=? 12)%nat && all_chars is_alnum_lower rest
  | _ => false
  end.

Definition safeExtension (fileName : string) : string :=
  let extension := toLowerCase (extname fileName) in
  if matchesExtension extension then extension else "".

(** [join(...pieces)] of pieces without slashes: relative and normalized. *)
Definition joinPiece (path : list string) (piece : string) : list string :=
  if decide (piece = "" ∨ piece = ".") then path
  else if decide (piece = "..") then
    match last path with
    | None => [".."]
    | Some segment => if decide (segment = "..") then path ++ [".."] else removelast path
    end
  else path ++ [piece].

Definition resolveWithinRoot (root : list string) (location : string) : result (list string) :=
  let destination := foldl push root (foldl joinPiece [] (split_on slash location)) in
  if escapes root destination
  then Throw (JsError "Import location escapes the configured storage root.")
  else Ok destination.

Section storage.
Context `{!Uuids, !FileSystem} (root : list string).

(** [LocalImportStorage.store] *)
Definition store (originalFileName : string) : M World exn StoredImport :=
  id ← on_database newId;
  let storedName := id +:+ safeExtension originalFileName in
  let path := UPLOAD_DIRECTORY +:+ "/" +:+ storedName in
  let location := IMPORT_DIRECTORY +:+ "/" +:+ path in
  destination ← lift (resolveWithinRoot root location);
  createFile destination;;
  mret {| sourcePath := path; stored_location := location |}.
End storage.

(** ** collection-route.ts *)

Definition MAXIMUM_UPLOAD_BYTES : Z := 100 * 1024 * 1024.
Definition UPLOAD_RETENTION_HOURS : Z := 24.
Definition PERMITTED_EXTENSIONS : list string := [".csv"; ".tsv"; ".json"; ".xlsx"; ".xls"].

(** A [File]: its name, the size it declares and the bytes it holds. *)
Record UploadedFile := { file_name : string; file_size : Z; file_byteLength : Z }.

Inductive FormEntry := textEntry (s : string) | fileEntry (file : UploadedFile).

(** The [file] field of the form; a body that is no form throws. *)
Definition readUploadedFile (form : result (option FormEntry)) : option UploadedFile :=
  match form with
  | Ok (Some (fileEntry file)) => if decide (0 < String.length (file_name file)) then Some file else None
  | _ => None
  end.

Definition hasPermittedExtension (fileName : string) : bool :=
  let lowercaseName := toLowerCase fileName in
  existsb (λ extension, endsWith extension lowercaseName) PERMITTED_EXTENSIONS.

(** What a client is told of an accepted file. *)
Record SourceUploadResponse := {
  uploaded_sourcePath : string;
  uploaded_fileName : string;
  uploaded_byteSize : Z;
  uploaded_expiresAt : Z }.

Definition sourceUploadResponseSchema (r : SourceUploadResponse) : bool :=
  nonEmpty (uploaded_sourcePath r) && nonEmpty (uploaded_fileName r) && (0 <=? uploaded_byteSize r)%Z.

Inductive UploadDocument := rejection (code : string) | accepted (r : SourceUploadResponse).

Definition uploadRejectedResponse (code : string) (s : Z) : Response UploadDocument :=
  jsonResponse s (rejection code).

Section route.
Context `{!Uuids, !FileSystem} (root : list string).

Definition uploadRoute (session : option string) (form : result (option FormEntry)) (now : Z) :
    M World exn (Response UploadDocument) :=
  match session with
  | None => mret (emptyResponse 401)
  | Some userId =>
      match readUploadedFile form with
      | None => mret (uploadRejectedResponse "invalid_upload_request" 400)
      | Some file =>
          if decide (MAXIMUM_UPLOAD_BYTES < file_size file)%Z
          then mret (uploadRejectedResponse "upload_too_large" 413)
          else if negb (hasPermittedExtension (file_name file))
          then mret (uploadRejectedResponse "unsupported_upload_type" 415)
          else if decide (MAXIMUM_UPLOAD_BYTES < file_byteLength file)%Z
          then mret (uploadRejectedResponse "upload_too_large" 413)
          else
            stored ← try_catch (s ← store root (file_name file); mret (Some s)) (λ _, mret None);
            match stored with
            | None => mret (uploadRejectedResponse "upload_storage_unavailable" 503)
            | Some stored =>
                expiresAt ← lift (persistDate (timeClip (now + UPLOAD_RETENTION_HOURS * 60 * 60 * 1000)));
                on_database (createStagedUpload userId StorageKind.local (stored_location stored) expiresAt);;
                response ← lift (parse sourceUploadResponseSchema
                  {| uploaded_sourcePath := sourcePath stored; uploaded_fileName := file_name file;
                     uploaded_byteSize := file_byteLength file; uploaded_expiresAt := expiresAt |});
                mret (jsonResponse 201 (accepted response))
            end
      end
  end.
End route.

(** ** pipeline-claims.ts *)

Definition UPLOAD_PATH_PREFIX : string := "uploads/".

(** The locations a step's values name. *)
Definition stepUploads (step : PipelineStep) : list string :=
  (configuration step).(values) ≫= λ f,
    match f.2 with
    | JString value => if startsWith UPLOAD_PATH_PREFIX value then [IMPORT_DIRECTORY +:+ "/" +:+ value] else []
    | _ => []
    end.

Definition uploadStorageLocations (pipeline : Pipeline) : list string :=
  foldl (λ locations location, set_add location locations) [] (steps pipeline ≫= stepUploads).

Definition claimPipelineUploads (ownerUserId : string) (pipeline : Pipeline) : DB unit :=
  let locations := uploadStorageLocations pipeline in
  if decide (length locations = 0) then mret ()
  else try_catch (claimStagedUploads ownerUserId locations;; mret ()) (λ _, mret ()).

(** ** Where a file is stored *)

(** Random identifiers are written with lower-case letters, digits and
    dashes. *)
Definition is_uuid_char (c : ascii) : bool := is_alnum_lower c || bool_decide (c = "-"%char).

Class UuidText `{!Uuids} := {
  uuid_text n : all_chars is_uuid_char (uuid n) = true;
  uuid_some n : uuid n ≠ "" }.

Lemma all_chars_has_char p c s : p c = false → all_chars p s = true → has_char c s = false.
Proof.
  intros Hc. induction s as [|d s IH]; simpl; [done|]. intros [Hd Hs]%andb_prop.
  rewrite IH by done. rewrite bool_decide_eq_false_2; [done|]. by intros ->; rewrite Hc in Hd.
Qed.

Lemma matchesExtension_spec s : matchesExtension s = true →
  ∃ rest, s = String "." rest ∧ all_chars is_alnum_lower rest = true ∧ String.length s ≤ 13.
Proof.
  destruct s as [|c rest]; [done|]. unfold matchesExtension.
  destruct (decide (c = "."%char)) as [->|Hne].
  - intros [[_ ?%Nat.leb_le]%andb_prop ?]%andb_prop. exists rest. simpl. split_and!; [done|done|lia].
  - intros Hm. exfalso. apply Hne. by repeat match type of Hm with context [match ?b with _ => _ end] => destruct b end.
Qed.

(** A stored name is a plain segment, whatever the client called its file. *)
Lemma stored_name_plain `{!Uuids, !UuidText} n fileName :
  let name := uuid n +:+ safeExtension fileName in
  plain_segment name ∧ has_char (Ascii.ascii_of_nat 92) name = false ∧
  String.length name ≤ String.length (uuid n) + 13.
Proof.
  intros name. pose proof (uuid_text n) as Htext. pose proof (uuid_some n) as Hsome.
  assert (∀ c, is_uuid_char c = false → c ≠ "."%char → has_char c name = false) as Hchar.
  { intros c Hc Hdot. unfold name. rewrite has_char_app, (all_chars_has_char is_uuid_char) by done. simpl.
    unfold safeExtension. destruct (matchesExtension _) eqn:Hm; [|done].
    apply matchesExtension_spec in Hm as (rest & -> & Hrest & _). simpl.
    rewrite bool_decide_eq_false_2 by done. simpl. apply (all_chars_has_char is_alnum_lower); [|done].
    unfold is_uuid_char in Hc. by apply orb_false_iff in Hc as [? _]. }
  split_and!; [|by apply Hchar|].
  - unfold name in *. destruct (uuid n) as [|c id]; [done|]. simpl in Htext.
    apply andb_prop in Htext as [Hc _]. split_and!; [done|..| |by apply Hchar];
      intros [= -> _]; done.
  - unfold name. rewrite string_length_app. unfold safeExtension.
    destruct (matchesExtension _) eqn:Hm; [|simpl; lia].
    apply matchesExtension_spec in Hm as (_ & _ & _ & Hl). lia.
Qed.
