(* ===== verification/UploadProofs.v ===== *)
(** * Correctness of uploads

    A stored file lies where the garbage collector looks for it, whatever
    its client called it; the upload route answers as it should; a file a
    saved pipeline reads is never collected, an unclaimed one is. *)

From S2P Require Import Prelude Js Contracts Schemas Http Database Integrity Statements RunLogs RunCreation.
From S2P Require Import Paths Files Retention Collector CollectorProofs Uploads.

(** ** Where a file is stored *)

Definition stored_name `{!Uuids} (n : nat) (fileName : string) : string := uuid n +:+ safeExtension fileName.
Definition upload_path (name : string) : string := UPLOAD_DIRECTORY +:+ "/" +:+ name.
Definition upload_location (name : string) : string := IMPORT_DIRECTORY +:+ "/" +:+ upload_path name.
Definition upload_destination (root : list string) (name : string) : list string :=
  root ++ [IMPORT_DIRECTORY; UPLOAD_DIRECTORY; name].

Lemma split_location name :
  has_char slash name = false →
  split_on slash (upload_location name) = [IMPORT_DIRECTORY; UPLOAD_DIRECTORY; name].
Proof.
  intros Hs. change (upload_location name) with (IMPORT_DIRECTORY +:+ String slash (UPLOAD_DIRECTORY +:+ String slash name)).
  rewrite split_on_app by done. rewrite split_on_app by done. by rewrite split_on_none.
Qed.

Lemma directories_plain : plain_segment IMPORT_DIRECTORY ∧ plain_segment UPLOAD_DIRECTORY.
Proof. done. Qed.

Lemma push_destination root name :
  plain_segment name →
  foldl push root [IMPORT_DIRECTORY; UPLOAD_DIRECTORY; name] = upload_destination root name.
Proof.
  intros Hn. destruct directories_plain as [Hi Hu]. cbn [foldl].
  rewrite !push_plain_segment by done. unfold upload_destination. rewrite <-!app_assoc. reflexivity.
Qed.

Lemma escapes_destination root name :
  Forall plain_segment root → plain_segment name → escapes root (upload_destination root name) = false.
Proof.
  intros Hr Hn. destruct directories_plain. apply escapes_false; [|by exists [IMPORT_DIRECTORY; UPLOAD_DIRECTORY; name]].
  apply Forall_app. split; [done|]. rewrite !Forall_cons. split_and!; done || apply Forall_nil.
Qed.

Lemma resolveWithinRoot_upload root name :
  Forall plain_segment root → plain_segment name →
  resolveWithinRoot root (upload_location name) = Ok (upload_destination root name).
Proof.
  intros Hr Hn. unfold resolveWithinRoot. rewrite split_location by apply Hn.
  assert (foldl joinPiece [] [IMPORT_DIRECTORY; UPLOAD_DIRECTORY; name] = [IMPORT_DIRECTORY; UPLOAD_DIRECTORY; name]) as ->.
  { destruct Hn as (Hne & Hd & Hdd & _). cbn -[decide IMPORT_DIRECTORY UPLOAD_DIRECTORY]. unfold joinPiece.
    rewrite (decide_False (P := name = "" ∨ name = ".")) by naive_solver.
    by rewrite (decide_False (P := name = "..")). }
  rewrite push_destination by done. by rewrite escapes_destination.
Qed.

Lemma pathForLocation_upload root name :
  Forall plain_segment root → plain_segment name → has_char backslash name = false →
  pathForLocation root (upload_location name) = Ok (upload_destination root name).
Proof.
  intros Hr Hn Hb. unfold pathForLocation. rewrite decide_False.
  2:{ intros [Hl|Hc]; [done|]. unfold upload_location, upload_path in Hc.
      by rewrite !has_char_app, Hb in Hc. }
  assert (resolve root (upload_location name) = upload_destination root name) as ->.
  { unfold resolve, segments. rewrite split_location by apply Hn.
    assert (isAbsolute (upload_location name) = false) as -> by done.
    rewrite filter_all; [by apply push_destination|].
    destruct directories_plain as [[? _] [? _]]. destruct Hn as [? _].
    intros x [->|[->|[->|[]%elem_of_nil]%elem_of_cons]%elem_of_cons]%elem_of_cons; done. }
  by rewrite escapes_destination.
Qed.

Section uploads.
Context `{!Uuids, !UuidText, !FileSystem} (root : list string).
Hypothesis root_plain : Forall plain_segment root.

Lemma store_run fileName w :
  let name := stored_name (nextId (database w)) fileName in
  let path := upload_destination root name in
  let w1 := set_database (set_nextId (S (nextId (database w))) (database w)) w in
  store root fileName w =
    match write_error path with
    | Some e => (Throw e, w1)
    | None =>
        if decide (path ∈ files w) then (Throw (JsError "EEXIST: file already exists"), w1)
        else (Ok {| sourcePath := upload_path name; stored_location := upload_location name |},
              set_files ({[path]} ∪ files w) w1)
    end.
Proof.
  intros name path w1. destruct (stored_name_plain (nextId (database w)) fileName) as (Hn & _ & _).
  unfold store. rewrite bind_run, (on_database_run newId w _ _ eq_refl). cbv beta iota.
  change (IMPORT_DIRECTORY +:+ _) with (upload_location name). fold name.
  rewrite resolveWithinRoot_upload by done. rewrite bind_run. unfold lift. rewrite bind_run.
  unfold createFile. fold path. destruct (write_error path); [done|].
  change (files (set_database _ w)) with (files w). by case_decide.
Qed.

(** Whatever the client called its file, the collector resolves the
    recorded location to the very path the upload is written to, beneath the
    import directory; the only failures of storing are those of the
    operating system and a file already there, and then no file is written. *)
Theorem stored_where_collected fileName w :
  let name := stored_name (nextId (database w)) fileName in
  let path := root ++ ["imports"; "uploads"; name] in
  pathForLocation root ("imports/uploads/" +:+ name) = Ok path ∧
  String.length name ≤ String.length (uuid (nextId (database w))) + 13 ∧
  match store root fileName w with
  | (Ok stored, w') =>
      stored = {| sourcePath := "uploads/" +:+ name; stored_location := "imports/uploads/" +:+ name |} ∧
      path ∉ files w ∧ files w' = {[path]} ∪ files w
  | (Throw e, w') =>
      (write_error path = Some e ∨ path ∈ files w) ∧ files w' = files w
  end.
Proof.
  intros name path. destruct (stored_name_plain (nextId (database w)) fileName) as (Hn & Hb & Hlen).
  split_and!; [by apply (pathForLocation_upload root name)|done|].
  rewrite store_run. fold name. change (upload_destination root name) with path.
  destruct (write_error path) as [e|]; [by split; [left|]|]. case_decide; [by split; [right|]|done].
Qed.

(** ** The route *)

(** A file the route stores: small enough, in the declared and in the real
    size, of a type a Source reads. *)
Definition acceptable (file : UploadedFile) : Prop :=
  (file_size file ≤ MAXIMUM_UPLOAD_BYTES)%Z ∧ hasPermittedExtension (file_name file) = true ∧
  (file_byteLength file ≤ MAXIMUM_UPLOAD_BYTES)%Z.
#[global] Instance acceptable_dec file : Decision (acceptable file).
Proof. unfold acceptable. apply _. Defined.

(** The row of a stored file: owned, and due a day later. *)
Definition uploadRow (n : nat) (owner location : string) (createdAt now : Z) : StagedUploadRow :=
  {| up_id := uuid n; up_ownerUserId := owner; up_storageKind := StorageKind.local;
     up_storageLocation := location; up_createdAt := createdAt; up_expiresAt := (now + 86400000)%Z |}.

(** What an accepted upload leaves behind: one file and one row. *)
Definition uploaded (owner : string) (file : UploadedFile) (now : Z) (w : World) : World :=
  let d := database w in
  let name := stored_name (nextId d) (file_name file) in
  {| database := set_stagedUploads (stagedUploads d ++
       [uploadRow (S (nextId d)) owner (upload_location name) (clock d) now]) (set_nextId (S (S (nextId d))) d);
     files := {[upload_destination root name]} ∪ files w |}.

Lemma createStagedUpload_total owner location expiresAt d :
  owner ∈ u_id <$> users d → uuid (nextId d) ∉ up_id <$> stagedUploads d →
  createStagedUpload owner StorageKind.local location expiresAt d =
    (Ok (uuid (nextId d)),
     set_stagedUploads (stagedUploads d ++
       [{| up_id := uuid (nextId d); up_ownerUserId := owner; up_storageKind := StorageKind.local;
           up_storageLocation := location; up_createdAt := clock d; up_expiresAt := expiresAt |}])
       (set_nextId (S (nextId d)) d)).
Proof.
  intros Ho Hid. unfold createStagedUpload, insertStagedUpload. rewrite !bind_run.
  unfold newId at 1. cbv beta iota. rewrite bind_run. unfold gets at 1. cbv beta iota.
  rewrite bind_run. unfold enforce at 1. rewrite decide_True by done.
  rewrite bind_run. unfold enforce at 1. rewrite decide_True by done. done.
Qed.

(** The upload route, case by case: no session, no file, a file too
    large or of another type are refused and change nothing; a storage
    failure is reported and leaves no row and no file; otherwise the file is
    there, with one row of its owner that expires a day later, and the
    answer says where a Source reads it. *)
Theorem uploadRoute_spec session form now w :
  let answer := uploadRoute root session form now w in
  (session = None → answer = (Ok (emptyResponse 401), w)) ∧
  (∀ owner, session = Some owner → readUploadedFile form = None →
     answer = (Ok (uploadRejectedResponse "invalid_upload_request" 400), w)) ∧
  (∀ owner file, session = Some owner → readUploadedFile form = Some file → ¬ acceptable file →
     answer = (Ok (uploadRejectedResponse "upload_too_large" 413), w) ∨
     answer = (Ok (uploadRejectedResponse "unsupported_upload_type" 415), w)) ∧
  (∀ owner file, session = Some owner → readUploadedFile form = Some file → acceptable file →
     let name := stored_name (nextId (database w)) (file_name file) in
     let path := upload_destination root name in
     (write_error path ≠ None ∨ path ∈ files w →
        ∃ w1, answer = (Ok (uploadRejectedResponse "upload_storage_unavailable" 503), w1) ∧
          files w1 = files w ∧ stagedUploads (database w1) = stagedUploads (database w)) ∧
     (write_error path = None → path ∉ files w → owner ∈ u_id <$> users (database w) →
      uuid (S (nextId (database w))) ∉ up_id <$> stagedUploads (database w) →
      (Z.abs (now + 86400000) ≤ maxTime)%Z → (0 ≤ file_byteLength file)%Z →
        answer = (Ok (jsonResponse 201 (accepted
          {| uploaded_sourcePath := upload_path name; uploaded_fileName := file_name file;
             uploaded_byteSize := file_byteLength file; uploaded_expiresAt := (now + 86400000)%Z |})),
          uploaded owner file now w))).
Proof.
  intros answer. unfold answer, uploadRoute. clear answer. split; [|split; [|split]].
  - by intros ->.
  - by intros owner -> ->.
  - intros owner file -> -> Hn. case_decide as Hs1; [by left|].
    destruct (hasPermittedExtension _) eqn:Hs2; simpl; [|by right]. case_decide as Hs3; [by left|].
    destruct Hn. split_and!; [lia|done|lia].
  - intros owner file -> Hfile (Hs1 & Hs2 & Hs3).
    set (name := stored_name (nextId (database w)) (file_name file)).
    set (path := upload_destination root name). rewrite Hfile.
    rewrite decide_False by lia. rewrite Hs2. cbn [negb]. rewrite decide_False by lia.
    pose proof (store_run (file_name file) w) as Hst. cbv zeta in Hst. fold name in Hst. fold path in Hst.
    split; rewrite bind_run; unfold try_catch at 1; rewrite bind_run, Hst; clear Hst.
    + intros Hfail. destruct (write_error path) as [e|]; [by eexists|].
      destruct (decide (path ∈ files w)) as [Hin|Hn]; [by eexists|]. by destruct Hfail.
    + intros -> Hnew Ho Hid Htime Hlen. rewrite decide_False by done.
      cbv beta iota. unfold mret at 1, M_ret at 1. cbv beta iota.
      change (UPLOAD_RETENTION_HOURS * 60 * 60 * 1000)%Z with 86400000%Z. unfold timeClip.
      rewrite decide_True by done. rewrite bind_run. unfold lift at 1, persistDate. cbv beta iota.
      rewrite bind_run. erewrite on_database_run; [|by apply createStagedUpload_total].
      cbv beta iota. rewrite bind_run. unfold lift, parse, sourceUploadResponseSchema.
      unfold readUploadedFile in Hfile. destruct form as [[[|f]|]|]; simplify_eq/=.
      case_decide as Hname; [|done]. injection Hfile as ->.
      assert (nonEmpty (file_name file) = true) as ->.
      { unfold nonEmpty. rewrite bool_decide_eq_false_2; [done|]. intros Hempty. rewrite Hempty in Hname. simpl in Hname. lia. }
      rewrite (proj2 (Z.leb_le _ _) Hlen). done.
Qed.
(** ** The life of an upload *)

Definition reads_upload (name : string) (p : Pipeline) : Prop :=
  ∃ step key, step ∈ steps p ∧ (key, JString (upload_path name)) ∈ values (configuration step).

Lemma elem_of_foldl_set_add {A} `{EqDecision A} (l acc : list A) x :
  x ∈ foldl (λ locations location, set_add location locations) acc l ↔ x ∈ acc ∨ x ∈ l.
Proof.
  revert acc. induction l as [|y l IH]; intros acc; simpl; [set_solver|].
  rewrite IH, elem_of_set_add, elem_of_cons. naive_solver.
Qed.

Lemma reads_upload_location name p :
  reads_upload name p → upload_location name ∈ uploadStorageLocations p.
Proof.
  intros (step & key & Hstep & Hvalue). unfold uploadStorageLocations. apply elem_of_foldl_set_add. right.
  apply list_elem_of_bind. exists step. split; [|done]. unfold stepUploads. apply list_elem_of_bind.
  eexists. split; [|exact Hvalue]. cbn [snd].
  assert (startsWith UPLOAD_PATH_PREFIX (upload_path name) = true) as ->.
  { apply startsWith_iff. by exists name. }
  by apply list_elem_of_singleton.
Qed.

Lemma claimPipelineUploads_run owner p d :
  let claimed := λ u, up_ownerUserId u = owner ∧ up_storageLocation u ∈ uploadStorageLocations p in
  claimPipelineUploads owner p d = (Ok (), set_stagedUploads (filter (λ u, ¬ claimed u) (stagedUploads d)) d).
Proof.
  intros claimed. unfold claimPipelineUploads. case_decide as Hl.
  - apply nil_length_inv in Hl. unfold claimed. rewrite filter_all; [by destruct d|].
    intros u _ [_ Hin]. rewrite Hl in Hin. by apply elem_of_nil in Hin.
  - unfold try_catch. by rewrite bind_run, claimStagedUploads_run.
Qed.

(** A file no listed record names survives a pass. *)
Lemma pass_keeps batchSize n later path w :
  validateBatchSize batchSize = Ok n → NoDup (tracked (database w)).*1 → path ∈ files w →
  (∀ x, x ∈ tracked (database w) → object_path root x.2 = Some path →
     ∃ u, x = uploadEntry u ∧ ∀ u', u' ∈ stagedUploads (database w) → up_id u' = up_id u → (later < up_expiresAt u')%Z) →
  ∃ summary w', retentionCleanup (RetentionStorage0 := LocalRetentionStorage root) databaseRepository batchSize later w =
    (Ok summary, w') ∧ path ∈ files w'.
Proof.
  intros Hn Hkeys Hin Hsafe. destruct (retentionCleanup_swept root batchSize n later w Hn Hkeys)
    as (as_ & ds & us & summary & w' & Ha & Hd & Hu & Hrun & Hswept & _).
  exists summary, w'. split; [done|]. apply dec_stable. intros Hout.
  destruct (swept_removed _ _ _ _ _ Hswept path Hin Hout) as (x & Hx & Hp).
  destruct (listed_due later batchSize n (database w) as_ ds us Hn Ha Hd Hu) as (Ht & Hdue & _).
  destruct (Hsafe x (Ht x Hx) Hp) as (u & -> & Hlate). unfold listed in Hx.
  rewrite !elem_of_app, !list_elem_of_fmap in Hx.
  destruct Hx as [(y & Hy & _)|[(y & Hy & _)|(y & Hy & Hyin)]]; [done..|].
  destruct (Hdue y Hyin) as [Hyd Hexp]. injection Hy as Hid _. specialize (Hlate y Hyd (eq_sym Hid)). lia.
Qed.

(** ** The life of an upload *)

Section lifecycle.
Context (owner : string) (file : UploadedFile) (now : Z) (w : World) (later : Z) (batchSize : jsnumber) (n : nat).

Let name := stored_name (nextId (database w)) (file_name file).
Let path := upload_destination root name.
Let w1 := uploaded owner file now w.
Let u0 := uploadRow (S (nextId (database w))) owner (upload_location name) (clock (database w)) now.
Abbreviation pass := (retentionCleanup (RetentionStorage0 := LocalRetentionStorage root) databaseRepository batchSize later).

Hypothesis Hn : validateBatchSize batchSize = Ok n.
Hypothesis Hkeys : NoDup (tracked (database w)).*1.
Hypothesis Hid : uuid (S (nextId (database w))) ∉ up_id <$> stagedUploads (database w).
Hypothesis Hfree : ∀ x, x ∈ tracked (database w) → object_path root x.2 ≠ Some path.

Lemma uploaded_tracked : tracked (database w1) = tracked (database w) ++ [uploadEntry u0].
Proof.
  unfold tracked. change (stagedUploads (database w1)) with (stagedUploads (database w) ++ [u0]).
  rewrite fmap_app. simpl. by rewrite !(assoc_L (++)).
Qed.

Lemma uploaded_keys : NoDup (tracked (database w1)).*1.
Proof.
  rewrite uploaded_tracked, fmap_app. apply NoDup_snoc. split; [|done].
  intros (x & Hx & Hin)%list_elem_of_fmap. apply elem_of_tracked in Hin.
  destruct Hin as [(a & -> & _)|[(a & -> & _)|(u & -> & Hu)]]; [done..|].
  injection Hx as Heq. apply Hid. rewrite Heq. by apply list_elem_of_fmap_2.
Qed.

Lemma uploaded_path : object_path root (uploadEntry u0).2 = Some path.
Proof.
  destruct (stored_name_plain (nextId (database w)) (file_name file)) as (Hplain & Hb & _).
  unfold object_path. simpl. fold name. by rewrite (pathForLocation_upload root name).
Qed.

Lemma uploaded_file : path ∈ files w1.
Proof. apply elem_of_union_l, elem_of_singleton_2. done. Qed.

Lemma upload_survives : (later < now + 86400000)%Z → ∃ summary w2, pass w1 = (Ok summary, w2) ∧ path ∈ files w2.
Proof.
  intros Hlater. apply (pass_keeps _ n); [done|exact uploaded_keys|exact uploaded_file|].
  intros x Hx Hxp. rewrite uploaded_tracked, elem_of_snoc in Hx.
  destruct Hx as [Hx| ->]; [by destruct (Hfree x Hx)|]. exists u0. split; [done|].
  intros u' [Hu'| ->]%elem_of_snoc Heq; [|done]. exfalso. apply Hid.
  change (up_id u0 ∈ up_id <$> stagedUploads (database w)). rewrite <-Heq. by apply list_elem_of_fmap_2.
Qed.

Lemma upload_expires : (now + 86400000 ≤ later)%Z → length (stagedUploads (database w1)) ≤ n → rm_error path = None →
  ∃ summary w2, pass w1 = (Ok summary, w2) ∧ path ∉ files w2 ∧
    uuid (S (nextId (database w))) ∉ up_id <$> stagedUploads (database w2).
Proof.
  intros Hlater Hlen Hrm. destruct (retentionCleanup_swept root batchSize n later w1 Hn uploaded_keys)
    as (as_ & ds & us & summary & w2 & Ha & Hd & Hu & Hrun & Hswept & Hgone).
  exists summary, w2. split; [done|].
  destruct (listed_due later batchSize n (database w1) as_ ds us Hn Ha Hd Hu) as (_ & _ & Hall).
  assert (u0 ∈ us) as Hus by (apply Hall; [done|apply elem_of_snoc; by right|done]).
  assert ((uploadEntry u0).1 ∉ (tracked (database w2)).*1) as Hforgot.
  { apply Hgone; [|exists path; split; [apply uploaded_path|done]].
    unfold listed. rewrite !elem_of_app. right; right. by apply list_elem_of_fmap_2. }
  split.
  - destruct (swept_orphan _ _ _ _ _ Hswept (uploadEntry u0)) as [Hin|(p & Hp & Hout)].
    { rewrite uploaded_tracked. apply elem_of_snoc. by right. }
    { destruct Hforgot. by apply list_elem_of_fmap_2. }
    rewrite uploaded_path in Hp. by replace path with p by congruence.
  - intros (u & Heq & Hin)%list_elem_of_fmap. apply Hforgot.
    change (uploadEntry u0).1 with (upload_of (uuid (S (nextId (database w))))). rewrite Heq.
    change (upload_of (up_id u)) with (uploadEntry u).1. apply list_elem_of_fmap_2, elem_of_tracked.
    right; right. by exists u.
Qed.

Lemma upload_claimed p : reads_upload name p →
  ∃ w2, on_database (claimPipelineUploads owner p) w1 = (Ok (), w2) ∧
  ∃ summary w3, pass w2 = (Ok summary, w3) ∧ path ∈ files w3.
Proof.
  intros Hreads. eexists. split; [apply on_database_run, claimPipelineUploads_run|].
  set (w2 := set_database _ w1). set (claimed := λ u, up_ownerUserId u = owner ∧ up_storageLocation u ∈ _) in *.
  assert (stagedUploads (database w2) = filter (λ u, ¬ claimed u) (stagedUploads (database w))) as Hrows2.
  { unfold w2. simpl. rewrite filter_app. fold u0. rewrite (filter_none _ [u0]); [by rewrite app_nil_r|].
    intros u ->%list_elem_of_singleton Hc. apply Hc. split; [done|]. by apply reads_upload_location. }
  assert (∀ x, x ∈ tracked (database w2) → x ∈ tracked (database w)) as Hsub.
  { apply tracked_sub; [done..|]. intros u. rewrite Hrows2. by intros [_ ?]%list_elem_of_filter. }
  apply (pass_keeps _ n); [done| |exact uploaded_file|].
  - eapply sublist_NoDup; [exact Hkeys|]. apply fmap_sublist. unfold tracked. rewrite Hrows2.
    change (artifacts (database w2)) with (artifacts (database w)).
    change (datasets (database w2)) with (datasets (database w)).
    repeat (apply sublist_app; [done|]). apply fmap_sublist, sublist_filter.
  - intros x Hx Hxp. by destruct (Hfree x (Hsub x Hx)).
Qed.
End lifecycle.

End uploads.
