(* ===== verification/SchedulerService.v ===== *)
(** * The scheduler service

    [apps/scheduler/src]: pipeline-state-reader.ts, pipeline-eligibility.ts,
    runtime.ts, internal-run-route.ts (the authenticated endpoint that
    enqueues a run) and the dispatch of main.ts. *)

From S2P Require Import Prelude Js Contracts StateMachine Schemas Http Database Statements RunQueue.
From S2P Require Import Documents Actions.

(** ** pipeline-state-reader.ts and pipeline-eligibility.ts *)

Definition findState (pipelineId : string) : DB (option PipelineState.t) :=
  pipeline ← selectFirst pipelines (λ p, p_id p = pipelineId);
  mret (p_state <$> pipeline).

Inductive PipelineSchedulingEligibility := eligible | ineligible | invalid.
#[export] Instance PipelineSchedulingEligibility_eq_dec : EqDecision PipelineSchedulingEligibility.
Proof. solve_decision. Defined.

Definition getPipelineSchedulingEligibility (state : Json) : PipelineSchedulingEligibility :=
  match decodeState state with
  | None => invalid
  | Some state =>
      let executionState := createPipelineExecutionState state in
      if decide (pipelineState executionState = PipelineState.enabled) then eligible else ineligible
  end.

(** ** runtime.ts *)

(** [None]: the pipeline is missing. *)
Record PipelineSchedulingStatus := {
  status_pipelineId : string;
  status_eligibility : option PipelineSchedulingEligibility }.

Definition getPipelineSchedulingStatus (pipelineId : string) : DB PipelineSchedulingStatus :=
  state ← findState pipelineId;
  match state with
  | None => mret {| status_pipelineId := pipelineId; status_eligibility := None |}
  | Some state =>
      mret {| status_pipelineId := pipelineId;
              status_eligibility := Some (getPipelineSchedulingEligibility (encodeState state)) |}
  end.

(** [getHealth], over the answer of the database. *)
Definition getHealth (ping : result unit) : bool := is_ok ping.

(** ** internal-run-route.ts *)

Definition bearerPrefix : string := "Bearer ".

Definition hasValidInternalToken (header : option string) (expectedToken : string) : bool :=
  match header with
  | None => false
  | Some header =>
      if negb (startsWith bearerPrefix header) then false
      else
        let received := slice (String.length bearerPrefix) header in
        (String.length received =? String.length expectedToken)%nat && String.eqb received expectedToken
  end.

Definition codeJson (s : Z) (code : string) : Response Json := jsonResponse s (codeDocument code).

Definition conflictAnswer (reason : PipelineActionConflictReason) : Response Json :=
  codeJson match reason with not_found => 404 | _ => 409 end
    match reason with
    | locked => "pipeline_locked"
    | not_enabled => "pipeline_not_enabled"
    | _ => "pipeline_not_found"
    end.

(** [actionErrorResponse]: other errors are thrown on. *)
Definition runErrorAnswer (error : exn) : option (Response Json) :=
  match error with
  | PipelineActionConflictError reason _ _ => Some (conflictAnswer reason)
  | _ => None
  end.

Section service.
Context `{!Uuids, !Formats}.

Definition parseActionInput (request : Request) : option (string * string) :=
  j ← requestJson request;
  input ← asObject j;
  if decide (length (remove_dups input.*1) ≠ 2) then None
  else
    ownerUserId ← required input "ownerUserId" asString;
    pipelineId ← required input "pipelineId" asString;
    if is_uuid ownerUserId && is_uuid pipelineId then Some (ownerUserId, pipelineId) else None.

Definition pipelineRunResponseSchema (run : CreatedPipelineRun) : bool :=
  bool_decide (Z.of_nat (initialJobCount run) ≤ MAX_SAFE_INTEGER)%Z &&
  is_uuid (created_pipelineId run) && is_uuid (created_runId run).

(** [createInternalPipelineRunRouteHandler] *)
Definition internalPipelineRunHandler (internalToken : string) (now : Z) (request : Request) :
    DB (Response Json) :=
  if decide (request_method request ≠ "POST") then mret (emptyResponse 405)
  else if negb (hasValidInternalToken (authorization request) internalToken) then mret (emptyResponse 401)
  else
    match parseActionInput request with
    | None => mret (codeJson 400 "invalid_pipeline_request")
    | Some (ownerUserId, pipelineId) =>
        answering
          (run ← enqueuePipelineRunForOwner ownerUserId pipelineId now;
           run ← lift (parse pipelineRunResponseSchema run);
           mret (jsonResponse 200 (encodeRunResponse run)))
          runErrorAnswer
    end.

(** ** main.ts: the dispatch of the server *)

Definition schedulerServer (serviceName internalToken url : string) (ping : result unit) (now : Z)
    (request : Request) : DB (Response Json) :=
  if decide (request_method request = "GET" ∧ url = "/health") then
    let health := getHealth ping in
    mret (jsonResponse (if health then 200 else 503)
      (JObject [("service", JString serviceName);
                ("status", JString (if health then "ok" else "unavailable"))]))
  else if decide (url = "/internal/pipeline-runs") then internalPipelineRunHandler internalToken now request
  else mret (jsonResponse 404 (JObject [("error", JString "not_found")])).
End service.
