(* ===== verification/ContractSchemas.v ===== *)
(** * The validators and the canonical schemas

    What a canonical schema accepts, worked out keyword by keyword with enough
    fuel for the depth of the document, and fragment by fragment: what the
    documents under [schemas/contracts] accept is what the decoders of
    [Documents] with the validators of [Schemas] accept. *)

From Stdlib Require Import Btauto.
From S2P Require Import Prelude Js Contracts Schemas RunQueue Documents SchedulerService CanonicalSchemas JsonSchema.

(** ** Fuel *)

Fixpoint depth (j : Json) : nat :=
  match j with
  | JArray l => S (list_max (map depth l))
  | JObject fields => S (list_max (map (λ f, depth f.2) fields))
  | _ => 0
  end.

Lemma depth_element l j : j ∈ l → depth j < depth (JArray l).
Proof.
  intros Hj. simpl. apply Nat.lt_succ_r. pose proof (proj1 (list_max_le (map depth l) _) (Nat.le_refl _)) as Hmax.
  rewrite Forall_forall in Hmax. apply Hmax. by apply (list_elem_of_fmap_2 depth).
Qed.

Lemma depth_field fields key j : (key, j) ∈ fields → depth j < depth (JObject fields).
Proof.
  intros Hj. simpl. apply Nat.lt_succ_r. pose proof (proj1 (list_max_le (map (λ f, depth f.2) fields) _) (Nat.le_refl _)) as Hmax.
  rewrite Forall_forall in Hmax. apply Hmax. change (depth j) with ((λ f : string * Json, depth f.2) (key, j)).
  by apply (list_elem_of_fmap_2 (λ f : string * Json, depth f.2)).
Qed.

Lemma get_field_elem fields key j : get_field fields key = Some j → (key, j) ∈ fields.
Proof.
  induction fields as [|[k v] fields IH]; simpl; [done|]. destruct (get_field fields key) as [w|].
  - intros [= ->]. right. by apply IH.
  - case_decide; [|done]. intros [= ->]. subst. left.
Qed.

Lemma allOf_Some {A} (f : A → option bool) (p : A → bool) l : (∀ a, a ∈ l → f a = Some (p a)) → allOf (map f l) = Some (forallb p l).
Proof.
  induction l as [|a l IH]; intros Hl; [done|]. cbn [map allOf foldr forallb]. rewrite Hl by left.
  fold (allOf (map f l)). rewrite IH; [done|]. intros b Hb. apply Hl. by right.
Qed.

Lemma get_field_None fields key : get_field fields key = None ↔ key ∉ fields.*1.
Proof.
  induction fields as [|[k v] fields IH]; simpl; [split; [intros _; apply not_elem_of_nil|done]|].
  rewrite not_elem_of_cons. destruct (get_field fields key) eqn:E; [naive_solver|]. case_decide; naive_solver.
Qed.

Section validation.
Context `{!Formats} (is_date_time : string → bool).
Context (registry : Registry).

Abbreviation validate := (validate is_date_time).

(** The schema accepts what the predicate does. *)
Definition accepts_as (base schema : Json) (p : Json → bool) : Prop :=
  ∃ c, ∀ fuel j, c + 3 * depth j ≤ fuel → validate fuel registry base schema j = Some (p j).

Lemma accepts_ext base schema p q : (∀ j, p j = q j) → accepts_as base schema p → accepts_as base schema q.
Proof. intros Hpq [c Hc]. exists c. intros fuel j Hfuel. rewrite <-Hpq. by apply Hc. Qed.

(** A schema without these keywords. *)
Definition absent (schema : list (string * Json)) (keywords : list string) : Prop :=
  Forall (λ keyword, get_field schema keyword = None) keywords.
Definition applicators : list string := ["$ref"; "anyOf"; "oneOf"].
Definition objectKeywords : list string :=
  ["properties"; "patternProperties"; "propertyNames"; "additionalProperties"; "required"].

Lemma absent_cons schema keyword keywords :
  absent schema (keyword :: keywords) ↔ get_field schema keyword = None ∧ absent schema keywords.
Proof. unfold absent. by rewrite Forall_cons. Qed.

Lemma absent_app schema l1 l2 : absent schema (l1 ++ l2) ↔ absent schema l1 ∧ absent schema l2.
Proof. unfold absent. by rewrite Forall_app. Qed.

Lemma both_true_r b : both (Some b) (Some true) = Some b.
Proof. simpl. by rewrite andb_true_r. Qed.

Lemma both_true_r' b : both b (Some true) = b.
Proof. destruct b; [apply both_true_r|done]. Qed.

Lemma both_true_l b : both (Some true) b = b.
Proof. by destruct b. Qed.

Lemma all_true {A} (l : list A) : forallb (λ _, true) l = true.
Proof. by induction l. Qed.

(** What is left to check of a document when no other schema is applied to
    it as a whole. *)
Definition contents (fuel : nat) (base : Json) (schema : list (string * Json)) (j : Json) : option bool :=
  let properties := spread (default JNull (get_field schema "properties")) in
  let patterns := spread (default JNull (get_field schema "patternProperties")) in
  match j with
  | JArray l =>
      match get_field schema "items" with
      | Some items => allOf (map (validate fuel registry base items) l)
      | None => Some true
      end
  | JObject fields =>
      both (requiredKeyword schema fields)
      (both (allOf (map (λ p : string * Json, match get_field fields p.1 with
                           | Some value => validate fuel registry base p.2 value | None => Some true end) properties))
      (both (match get_field schema "propertyNames" with
             | Some names => allOf (map (λ f : string * Json, validate fuel registry base names (JString f.1)) fields)
             | None => Some true
             end)
      (allOf (map (λ f : string * Json, match patternSchemas patterns f.1 with
                | None => None
                | Some [] =>
                    match get_field properties f.1, get_field schema "additionalProperties" with
                    | None, Some additional => validate fuel registry base additional f.2
                    | _, _ => Some true
                    end
                | Some schemas => allOf (map (λ s, validate fuel registry base s f.2) schemas)
                end) fields))))
  | _ => Some true
  end.

Lemma validate_plain fuel base schema j : absent schema applicators →
  validate (S fuel) registry base (JObject schema) j =
    both (scalarKeywords is_date_time schema j) (contents fuel base schema j).
Proof.
  unfold applicators. rewrite !absent_cons. intros (Href & Hany & Hone & _). cbn [JsonSchema.validate].
  unfold textKeyword. rewrite Href, Hany, Hone. fold (contents fuel base schema j).
  by destruct (scalarKeywords _ _ _), (contents _ _ _ _).
Qed.

Lemma contents_none fuel base schema fields : absent schema objectKeywords → contents fuel base schema (JObject fields) = Some true.
Proof.
  unfold objectKeywords. rewrite !absent_cons. intros (Hprops & Hpatterns & Hnames & Hadd & Hreq & _).
  unfold contents, requiredKeyword. rewrite Hprops, Hpatterns, Hnames, Hadd, Hreq. cbn [default spread map].
  rewrite (allOf_Some _ (λ _, true)) by done. by rewrite all_true.
Qed.

Lemma accepts_scalar base schema p : absent schema (applicators ++ "items" :: objectKeywords) →
  (∀ j, scalarKeywords is_date_time schema j = Some (p j)) → accepts_as base (JObject schema) p.
Proof.
  rewrite absent_app, absent_cons. intros (Hplain & Hitems & Hobject) Hscalar. exists 1. intros fuel j Hfuel.
  destruct fuel as [|fuel]; [lia|]. rewrite validate_plain, Hscalar by done.
  destruct j as [| | | | |fields]; [apply both_true_r..| |].
  - cbn [contents]. by rewrite Hitems, both_true_r.
  - by rewrite contents_none, both_true_r.
Qed.

(** Arrays, and what a reference stands for. *)
Lemma accepts_array base schema items p q : absent schema (applicators ++ objectKeywords) →
  get_field schema "items" = Some items → (∀ j, scalarKeywords is_date_time schema j = Some (q j)) →
  accepts_as base items p →
  accepts_as base (JObject schema) (λ j, q j && match j with JArray l => forallb p l | _ => true end).
Proof.
  rewrite absent_app. intros [Hplain Hobject] Hitems Hscalar [c Hc]. exists (S c). intros fuel j Hfuel.
  destruct fuel as [|fuel]; [lia|]. rewrite validate_plain, Hscalar by done.
  destruct j as [| | | |l|fields]; [reflexivity..| |].
  - cbn [contents]. rewrite Hitems, (allOf_Some _ p); [done|]. intros j Hj%depth_element. apply Hc. lia.
  - by rewrite contents_none.
Qed.

(** A schema that only applies others. *)
Definition scalars : list string :=
  ["type"; "const"; "enum"; "format"; "pattern"; "minLength"; "minItems"; "minProperties"; "minimum"; "exclusiveMinimum"; "maximum"].

Lemma scalars_none schema j : absent schema scalars → scalarKeywords is_date_time schema j = Some true.
Proof.
  unfold scalars. rewrite !absent_cons. intros (H1 & H2 & H3 & H4 & H5 & H6 & H7 & H8 & H9 & H10 & H11 & _).
  unfold scalarKeywords, textKeyword, numberKeyword. by rewrite H1, H2, H3, H4, H5, H6, H7, H8, H9, H10, H11.
Qed.

Lemma validate_applies fuel base schema j : absent schema (scalars ++ "items" :: objectKeywords) →
  validate (S fuel) registry base (JObject schema) j =
    both (textKeyword schema "$ref" (λ reference,
       match resolveReference registry base reference with
       | Some (document, target) => validate fuel registry document target j
       | None => None
       end))
    (both (match get_field schema "anyOf" with
           | Some (JArray l) => (λ n, negb (n =? 0)) <$> countValid (map (λ s, validate fuel registry base s j) l)
           | _ => Some true
           end)
    (match get_field schema "oneOf" with
     | Some (JArray l) => (λ n, n =? 1) <$> countValid (map (λ s, validate fuel registry base s j) l)
     | _ => Some true
     end)).
Proof.
  rewrite absent_app, absent_cons. intros (Hscalar & Hitems & Hobject). cbn [JsonSchema.validate].
  fold (contents fuel base schema j). rewrite scalars_none by done.
  assert (contents fuel base schema j = Some true) as ->.
  { destruct j; try done; [|by apply contents_none]. cbn [contents]. by rewrite Hitems. }
  by rewrite both_true_l, both_true_r'.
Qed.

Lemma accepts_ref base reference document target p :
  resolveReference registry base reference = Some (document, target) → accepts_as document target p →
  accepts_as base (JObject [("$ref", JString reference)]) p.
Proof.
  intros Href [c Hc]. exists (S c). intros fuel j Hfuel. destruct fuel as [|fuel]; [lia|].
  rewrite validate_applies by (repeat constructor).
  change (both (match resolveReference registry base reference with
                | Some (document, target) => validate fuel registry document target j | None => None end)
               (both (Some true) (Some true)) = Some (p j)).
  rewrite Href, Hc by lia. apply both_true_r.
Qed.

Lemma accepts_oneOf base s1 s2 p1 p2 : accepts_as base s1 p1 → accepts_as base s2 p2 →
  accepts_as base (JObject [("oneOf", JArray [s1; s2])]) (λ j, xorb (p1 j) (p2 j)).
Proof.
  intros [c1 H1] [c2 H2]. exists (S (c1 `max` c2)). intros fuel j Hfuel. destruct fuel as [|fuel]; [lia|].
  rewrite validate_applies by (repeat constructor).
  change (both (Some true) (both (Some true) ((λ n, n =? 1) <$>
    countValid [validate fuel registry base s1 j; validate fuel registry base s2 j])) = Some (xorb (p1 j) (p2 j))).
  rewrite H1, H2 by lia. by destruct (p1 j), (p2 j).
Qed.

(** What an object whose properties are all declared has to satisfy. *)
Definition hasField (fields : list (string * Json)) (key : string) : bool :=
  match get_field fields key with Some _ => true | None => false end.
Definition fieldSatisfies (fields : list (string * Json)) (p : string * (Json → bool)) : bool :=
  match get_field fields p.1 with Some j => p.2 j | None => true end.
Definition closedObject (q : Json → bool) (ps : list (string * (Json → bool))) (keys : list string) (j : Json) : bool :=
  q j && match j with
         | JObject fields => forallb (hasField fields) keys && forallb (fieldSatisfies fields) ps &&
                             forallb (λ f, bool_decide (f.1 ∈ ps.*1)) fields
         | _ => true
         end.

(** The declared properties, each with what it accepts. *)
Definition properties_accept (base : Json) (props : list (string * Json)) (ps : list (string * (Json → bool))) : Prop :=
  Forall2 (λ prop p, prop.1 = p.1 ∧ accepts_as base prop.2 p.2) props ps.

Lemma properties_fuel base props ps : properties_accept base props ps →
  ∃ c, ∀ fuel fields, c + 3 * depth (JObject fields) ≤ fuel + 3 →
    allOf (map (λ p : string * Json, match get_field fields p.1 with
                  | Some value => validate fuel registry base p.2 value | None => Some true end) props) =
      Some (forallb (fieldSatisfies fields) ps).
Proof.
  induction 1 as [|prop p props ps [Hkey [c Hc]] _ [c' IH]]; [by exists 0|].
  exists (c `max` c'). intros fuel fields Hfuel. cbn [map allOf foldr forallb]. unfold fieldSatisfies at 1. rewrite <-Hkey.
  fold (allOf (map (λ p : string * Json, match get_field fields p.1 with
    | Some value => validate fuel registry base p.2 value | None => Some true end) props)).
  rewrite IH by lia. destruct (get_field fields prop.1) as [j|] eqn:Hj; [|done].
  apply get_field_elem, depth_field in Hj. rewrite Hc by lia. done.
Qed.

Lemma properties_keys base props ps : properties_accept base props ps → props.*1 = ps.*1.
Proof. induction 1 as [|? ? ? ? [? _] _ IH]; csimpl; [done|]. by f_equal. Qed.

Lemma accepts_closed base schema props keys ps q : absent schema (applicators ++ ["patternProperties"; "items"; "propertyNames"]) →
  get_field schema "additionalProperties" = Some (JBool false) →
  spread (default JNull (get_field schema "properties")) = props →
  (∀ fields, requiredKeyword schema fields = Some (forallb (hasField fields) keys)) →
  (∀ j, scalarKeywords is_date_time schema j = Some (q j)) → properties_accept base props ps →
  accepts_as base (JObject schema) (closedObject q ps keys).
Proof.
  rewrite absent_app, !absent_cons. intros (Hplain & Hpatterns & Hitems & Hnames & _) Hadd Hprops Hreq Hscalar Hps.
  destruct (properties_fuel base props ps Hps) as [c Hc]. exists (S (S c)). intros fuel j Hfuel.
  destruct fuel as [|[|fuel]]; [lia|lia|]. rewrite validate_plain, Hscalar by done. unfold closedObject.
  destruct j as [| | | | |fields]; cbn [contents]; rewrite ?Hitems; [done..|].
  rewrite Hpatterns, Hnames, Hadd, Hprops, Hreq. cbn [default spread]. rewrite (Hc (S fuel)) by lia.
  rewrite (allOf_Some _ (λ f, bool_decide (f.1 ∈ ps.*1))).
  - simpl. by rewrite !andb_assoc.
  - intros [key value] _. cbn [patternSchemas foldr fst snd]. rewrite <-(properties_keys base props ps Hps).
    destruct (get_field props key) as [w|] eqn:E.
    + rewrite bool_decide_true; [done|]. apply get_field_elem in E. apply list_elem_of_fmap. by exists (key, w).
    + apply get_field_None in E. by rewrite bool_decide_false.
Qed.

(** Objects whose keys match a pattern. *)
Lemma validate_matching fuel base pattern test values q fields :
  (∀ s, testPattern pattern s = Some (test s)) →
  (∀ key j, (key, j) ∈ fields → validate fuel registry base values j = Some (q j)) → fuel ≠ 0 →
  validate (S fuel) registry base (JObject [("type", JString "object"); ("patternProperties", JObject [(pattern, values)]);
                                            ("additionalProperties", JBool false)]) (JObject fields) =
    Some (forallb (λ f, test f.1 && q f.2) fields).
Proof.
  intros Htest Hvalues Hfuel. rewrite validate_plain by (repeat constructor).
  change (both (Some true) (both (Some true) (both (Some true) (both (Some true)
    (allOf (map (λ f : string * Json, match patternSchemas [(pattern, values)] f.1 with
       | None => None
       | Some [] => validate fuel registry base (JBool false) f.2
       | Some schemas => allOf (map (λ s, validate fuel registry base s f.2) schemas)
       end) fields))))) = Some (forallb (λ f, test f.1 && q f.2) fields)).
  rewrite !both_true_l. apply allOf_Some. intros [key j] Hj. cbn [patternSchemas foldr fst snd]. rewrite Htest.
  destruct (test key); [|by destruct fuel]. cbn [map allOf foldr]. rewrite (Hvalues key j Hj). apply both_true_r.
Qed.

(** ** Values without secrets *)

Lemma testPattern_nonSecretKey s : testPattern nonSecretKeyPattern s = Some (matchesNonSecretKey s).
Proof. unfold testPattern. by rewrite !decide_False, decide_True by done. Qed.
Lemma testPattern_componentType s : testPattern componentTypePattern s = Some (matchesComponentType s).
Proof. unfold testPattern. by rewrite decide_True by done. Qed.
Lemma testPattern_version s : testPattern versionPattern s = Some (matchesVersion s).
Proof. unfold testPattern. by rewrite decide_False, decide_True by done. Qed.

Definition nonSecretReference : Json := JObject [("$ref", JString "#/$defs/nonSecretJsonValue")].
Definition nonSecretObject : Json :=
  JObject [("type", JString "object"); ("patternProperties", JObject [(nonSecretKeyPattern, nonSecretReference)]);
           ("additionalProperties", JBool false)].
Definition nonSecretArray : Json := JObject [("type", JString "array"); ("items", nonSecretReference)].
Definition typed (type : string) : Json := JObject [("type", JString type)].
Definition nonSecretDefinition : Json :=
  JObject [("anyOf", JArray [typed "string"; typed "number"; typed "boolean"; typed "null"; nonSecretArray; nonSecretObject])].

Lemma validate_typed fuel base type j : validate (S fuel) registry base (typed type) j = Some (hasType type j).
Proof.
  unfold typed. rewrite validate_plain by (repeat constructor).
  assert (scalarKeywords is_date_time [("type", JString type)] j = Some (hasType type j)) as -> by apply both_true_r.
  destruct j; try apply both_true_r. by rewrite contents_none, both_true_r by (repeat constructor).
Qed.

Section recursion.
Context (base : Json).
Hypothesis (Hbase : resolveReference registry base "#/$defs/nonSecretJsonValue" = Some (base, nonSecretDefinition)).

Lemma validate_nonSecretReference fuel j :
  validate (S fuel) registry base nonSecretReference j = validate fuel registry base nonSecretDefinition j.
Proof.
  unfold nonSecretReference. rewrite validate_applies by (repeat constructor).
  change (both (match resolveReference registry base "#/$defs/nonSecretJsonValue" with
                | Some (document, target) => validate fuel registry document target j | None => None end)
               (both (Some true) (Some true)) = validate fuel registry base nonSecretDefinition j).
  by rewrite Hbase, !both_true_r'.
Qed.

Lemma validate_nonSecretArray fuel j :
  validate (S fuel) registry base nonSecretArray j =
    match j with JArray l => allOf (map (validate fuel registry base nonSecretReference) l) | _ => Some false end.
Proof.
  unfold nonSecretArray. rewrite validate_plain by (repeat constructor). destruct j as [| |[]| |l|fields]; try reflexivity.
  - apply both_true_l.
  - by rewrite contents_none by (repeat constructor).
Qed.

Lemma validate_nonSecretObject_other fuel j : hasType "object" j = false →
  validate (S fuel) registry base nonSecretObject j = Some false.
Proof.
  intros Hj. unfold nonSecretObject. rewrite validate_plain by (repeat constructor). by destruct j as [| |[]| |l|fields].
Qed.

Lemma validate_nonSecretDefinition fuel j :
  validate (S (S fuel)) registry base nonSecretDefinition j =
    (λ n, negb (n =? 0)) <$> countValid [
      Some (hasType "string" j); Some (hasType "number" j); Some (hasType "boolean" j); Some (hasType "null" j);
      validate (S fuel) registry base nonSecretArray j; validate (S fuel) registry base nonSecretObject j].
Proof.
  unfold nonSecretDefinition. rewrite validate_applies by (repeat constructor).
  rewrite <-!(validate_typed fuel base). etrans; [apply both_true_l|]. apply both_true_r'.
Qed.

Lemma nonSecretDefinition_accepts j : ∀ fuel, 4 + 3 * depth j ≤ fuel →
  validate fuel registry base nonSecretDefinition j = Some (validJson j).
Proof.
  induction j as [|b|n|s|l IH|fields IH] using Json_ind_nested; intros [|[|fuel]] Hfuel; try lia;
    rewrite validate_nonSecretDefinition, validate_nonSecretArray, ?validate_nonSecretObject_other by done; try done.
  - by destruct n.
  - rewrite (allOf_Some _ validJson); [by cbn; destruct (forallb validJson l)|].
    intros j Hj. rewrite Forall_forall in IH. pose proof (depth_element l j Hj).
    destruct fuel as [|fuel]; [lia|]. rewrite validate_nonSecretReference. apply IH; [done|lia].
  - destruct fuel as [|fuel]; [cbn in Hfuel; lia|]. unfold nonSecretObject.
    rewrite (validate_matching _ _ _ matchesNonSecretKey _ validJson); [|apply testPattern_nonSecretKey| |lia].
    + cbn. by destruct (forallb _ fields).
    + intros key j Hj. rewrite Forall_forall in IH. pose proof (depth_field fields key j Hj).
      destruct fuel as [|fuel]; [lia|]. rewrite validate_nonSecretReference. apply (IH (key, j)); [done|cbn [snd]; lia].
Qed.

(** The non-secret values of a component. *)
Definition isValues (j : Json) : bool :=
  match j with JObject fields => forallb (λ f, matchesNonSecretKey f.1 && validJson f.2) fields | _ => false end.

Lemma values_accepted : accepts_as base nonSecretObject isValues.
Proof.
  exists 6. intros fuel j Hfuel. destruct fuel as [|fuel]; [lia|]. destruct j as [| |[]| | |fields];
    try (by apply validate_nonSecretObject_other). unfold nonSecretObject.
  apply validate_matching; [apply testPattern_nonSecretKey| |lia]. intros key j Hj.
  pose proof (depth_field fields key j Hj). destruct fuel as [|fuel]; [lia|].
  rewrite validate_nonSecretReference. apply nonSecretDefinition_accepts. lia.
Qed.
End recursion.
End validation.

(** ** Fragments against decoders *)

(** A document a decoder reads and a validator accepts. *)
Definition checks {A} (decode : Json → option A) (check : A → bool) (j : Json) : bool :=
  match decode j with Some a => check a | None => false end.

Lemma checks_safeParse {A} (decode : Json → option A) check j :
  bool_decide (is_Some (safeParse decode check j)) = checks decode check j.
Proof. unfold safeParse, checks. destruct (decode j) as [a|]; simpl; [|done]. by destruct (check a). Qed.

(** ** Definitions restrict nothing *)

Lemma get_field_assign fields key value k : k ≠ key → get_field (assign fields key value) k = get_field fields k.
Proof.
  intros Hk. induction fields as [|[k' v] fields IH]; [cbn; by rewrite decide_False|].
  cbn [assign]. destruct (decide (k' = key)) as [->|Hne]; cbn [get_field].
  - destruct (get_field fields k); [done|]. by rewrite !decide_False by done.
  - by rewrite IH.
Qed.

Lemma get_field_assigned fields key value : get_field fields key = None → get_field (assign fields key value) key = Some value.
Proof.
  rewrite get_field_None. induction fields as [|[k v] fields IH]; intros Hkey; [cbn; by rewrite decide_True|].
  cbn [assign]. csimpl in Hkey. apply not_elem_of_cons in Hkey as [Hne Hkey].
  rewrite decide_False by congruence. cbn [get_field]. by rewrite IH.
Qed.

Section schemas.
Context `{!Formats} (is_date_time : string → bool).

Abbreviation accepts_as := (accepts_as is_date_time canonical.registry).

Lemma validate_definitions fuel base schema definitions j :
  validate is_date_time fuel canonical.registry base (JObject (assign schema "$defs" definitions)) j =
    validate is_date_time fuel canonical.registry base (JObject schema) j.
Proof.
  destruct fuel as [|fuel]; [done|]. cbn [validate]. unfold scalarKeywords, textKeyword, numberKeyword, requiredKeyword.
  by rewrite !get_field_assign by done.
Qed.

Lemma accepts_definitions base schema definitions p :
  accepts_as base (JObject schema) p → accepts_as base (JObject (assign schema "$defs" definitions)) p.
Proof. intros [c Hc]. exists c. intros fuel j Hfuel. rewrite validate_definitions. by apply Hc. Qed.

(** ** Scalars *)

Lemma nonEmpty_length s : (1 <=? Z.of_nat (String.length s))%Z = nonEmpty s.
Proof. unfold nonEmpty. destruct s; [done|]. cbn [String.length]. rewrite bool_decide_false by done. apply Z.leb_le. lia. Qed.

Definition textSchema : Json := JObject [("type", JString "string"); ("minLength", JNumber (NInt 1))].
Definition uuidSchema : Json := JObject [("type", JString "string"); ("format", JString "uuid")].
Definition booleanSchema : Json := JObject [("type", JString "boolean")].

Ltac scalar := apply accepts_scalar; [repeat constructor|intros [| |[]| | |]; try reflexivity].

Lemma text_accepted base : accepts_as base textSchema (checks asString nonEmpty).
Proof.
  scalar. lazy -[andb Z.leb Z.of_nat String.length nonEmpty]. by rewrite nonEmpty_length, andb_true_r.
Qed.

Lemma uuid_accepted base : accepts_as base uuidSchema (checks asString is_uuid).
Proof. scalar. exact (f_equal Some (andb_true_r _)). Qed.

Lemma boolean_accepted base : accepts_as base booleanSchema (checks asBoolean (λ _, true)).
Proof. scalar. Qed.

Lemma const_accepted base value : accepts_as base (JObject [("type", JString "string"); ("const", JString value)])
  (checks asString (λ s, bool_decide (s = value))).
Proof.
  scalar. etrans; [exact (f_equal Some (andb_true_r _))|]. f_equal. unfold checks. cbn [asString sameScalar].
  destruct (String.eqb_spec value s) as [->|Hne]; [by rewrite bool_decide_true|]. rewrite bool_decide_false; congruence.
Qed.

Lemma componentType_accepted base :
  accepts_as base (JObject [("type", JString "string"); ("pattern", JString componentTypePattern)]) (checks asString matchesComponentType).
Proof.
  scalar. unfold checks. cbn [asString]. etrans; [|apply both_true_r]. rewrite <-testPattern_componentType. apply both_true_l.
Qed.

Lemma version_accepted base :
  accepts_as base (JObject [("type", JString "string"); ("pattern", JString versionPattern)]) (checks asString matchesVersion).
Proof.
  scalar. unfold checks. cbn [asString]. etrans; [|apply both_true_r]. rewrite <-testPattern_version. apply both_true_l.
Qed.

Lemma onlyConst_accepted base value : accepts_as base (JObject [("const", JString value)]) (checks asString (λ s, bool_decide (s = value))).
Proof.
  scalar. etrans; [exact (f_equal Some (andb_true_r _))|]. f_equal. unfold checks. cbn [asString sameScalar].
  destruct (String.eqb_spec value s) as [->|Hne]; [by rewrite bool_decide_true|]. rewrite bool_decide_false; congruence.
Qed.

(** The members of an enumeration, against the decoder of its values. *)
Lemma enum_accepted {A} base (decode : Json → option A) texts :
  (∀ j a, decode j = Some a → ∃ s, j = JString s ∧ s ∈ texts) → (∀ s, s ∈ texts → is_Some (decode (JString s))) →
  accepts_as base (JObject [("type", JString "string"); ("enum", JArray (JString <$> texts))]) (checks decode (λ _, true)).
Proof.
  intros Honly Hall. apply accepts_scalar; [repeat constructor|]. intros j. unfold checks.
  destruct j as [| |[]|s| |].
  7: { etrans; [exact (f_equal Some (andb_true_r _))|]. f_equal. 
       assert (existsb (λ value, sameScalar value (JString s)) (JString <$> texts) = bool_decide (s ∈ texts)) as ->.
       { apply eq_true_iff_eq. rewrite existsb_exists, bool_decide_eq_true. split.
         - intros (j & Hj%list_elem_of_In & Hs). apply list_elem_of_fmap in Hj as (t & -> & Ht). by apply String.eqb_eq in Hs as <-.
         - intros Hs. exists (JString s). split; [by apply list_elem_of_In, (list_elem_of_fmap_2 JString)|apply String.eqb_refl]. }
       destruct (decode (JString s)) as [a|] eqn:E.
       - apply Honly in E as (? & [= <-] & ?). by rewrite bool_decide_true.
       - rewrite bool_decide_false; [done|]. intros [a Ha]%Hall. congruence. }
  all: destruct (decode _) as [a|] eqn:E; [apply Honly in E as (? & [=] & _)|done].
Qed.

Lemma kind_accepted base :
  accepts_as base (JObject [("type", JString "string"); ("enum", JArray (JString <$> ["source"; "transform"; "export"]))])
    (checks decodeKind (λ _, true)).
Proof.
  apply enum_accepted; [|by repeat (apply Forall_forall; repeat constructor)].
  intros j a. unfold decodeKind. repeat case_match; intros [=]; subst; eexists; (split; [done|set_solver]).
Qed.

Lemma state_accepted base :
  accepts_as base (JObject [("type", JString "string"); ("enum", JArray (JString <$> ["draft"; "enabled"; "disabled"]))])
    (checks decodeState (λ _, true)).
Proof.
  apply enum_accepted; [|by repeat (apply Forall_forall; repeat constructor)].
  intros j a. unfold decodeState. repeat case_match; intros [=]; subst; eexists; (split; [done|set_solver]).
Qed.

Lemma count_accepted base :
  accepts_as base (JObject [("type", JString "integer"); ("minimum", JNumber (NInt 0)); ("maximum", JNumber (NInt 9007199254740991))])
    (checks decodeCount (λ n, bool_decide (Z.of_nat n ≤ MAX_SAFE_INTEGER)%Z)).
Proof.
  scalar. etrans; [exact (f_equal Some (f_equal (andb (z >=? 0)%Z) (andb_true_r (z <=? 9007199254740991)%Z)))|].
  f_equal. unfold checks, decodeCount. cbn [asNumber mbind option_bind isSafeInteger].
  change MAX_SAFE_INTEGER with 9007199254740991%Z.
  destruct (Z.geb_spec z 0), (Z.leb_spec z 9007199254740991); repeat case_decide; cbn; repeat case_decide; try done;
    try lia; case_bool_decide; done || lia.
Qed.

(** ** Arrays and objects *)

Lemma checks_array {A} (decode : Json → option A) check l :
  checks (asArray decode) (forallb check) (JArray l) = forallb (checks decode check) l.
Proof.
  unfold checks. cbn [asArray]. induction l as [|j l IH]; [done|]. cbn [mapM mbind option_bind forallb].
  destruct (decode j) as [a|]; [|done]. simpl. destruct (mapM decode l) as [l'|]; simpl; [by rewrite IH|].
  by rewrite <-IH, andb_false_r.
Qed.

Lemma array_accepted {A} base items (decode : Json → option A) check : accepts_as base items (checks decode check) →
  accepts_as base (JObject [("type", JString "array"); ("items", items)]) (checks (asArray decode) (forallb check)).
Proof.
  intros Hitems. eapply accepts_ext; [|eapply (accepts_array is_date_time canonical.registry base _ items _ (hasType "array"));
    [repeat constructor|done|intros j; apply both_true_r|exact Hitems]].
  intros [| |[]| |l|]; [done..| |done]. by rewrite checks_array.
Qed.

Lemma array1_accepted {A} base items (decode : Json → option A) check : accepts_as base items (checks decode check) →
  accepts_as base (JObject [("minItems", JNumber (NInt 1)); ("type", JString "array"); ("items", items)])
    (checks (asArray decode) (λ l, minOne l && forallb check l)).
Proof.
  intros Hitems. eapply accepts_ext; [|eapply (accepts_array is_date_time canonical.registry base _ items _
    (λ j, match j with JArray l => minOne l | _ => false end)); [repeat constructor|done| |exact Hitems]].
  - intros [| |[]| |l|]; [done..| |done]. rewrite <-checks_array. unfold checks. cbn [asArray].
    destruct (mapM decode l) as [l'|] eqn:E; [|by rewrite andb_false_r]. apply length_mapM in E. by destruct l, l'.
  - intros [| |[]| |l|]; try reflexivity. etrans; [exact (f_equal Some (andb_true_r _))|]. f_equal.
    destruct l; [done|]. apply Z.leb_le. cbn [length]. lia.
Qed.

Definition closedSchema (props : list (string * Json)) (keys : list string) : Json :=
  JObject [("type", JString "object"); ("properties", JObject props); ("required", JArray (JString <$> keys));
           ("additionalProperties", JBool false)].

Lemma closed_accepted base props keys ps : properties_accept is_date_time canonical.registry base props ps →
  accepts_as base (closedSchema props keys) (closedObject (hasType "object") ps keys).
Proof.
  intros Hps. apply (accepts_closed is_date_time canonical.registry base _ props); [repeat constructor|done..| | |exact Hps].
  - intros fields. apply (f_equal Some). induction keys as [|key keys IH]; [done|]. csimpl. by rewrite IH.
  - intros j. apply both_true_r.
Qed.

Lemma known_keys fields (l1 l2 : list string) : (∀ k, k ∈ l1 ↔ k ∈ l2) →
  forallb (λ f : string * Json, bool_decide (f.1 ∈ l1)) fields = forallb (λ f, bool_decide (f.1 ∈ l2)) fields.
Proof. intros Hl. induction fields as [|f fields IH]; [done|]. cbn. f_equal; [|done]. by apply bool_decide_ext. Qed.

(** What a declared property asks of an object. *)
Definition fieldAsked (keys : list string) (fields : list (string * Json)) (p : string * (Json → bool)) : bool :=
  if bool_decide (p.1 ∈ keys) then hasField fields p.1 && fieldSatisfies fields p else fieldSatisfies fields p.

Lemma fields_asked keys fields (props : list (string * (Json → bool))) : keys ⊆ props.*1 →
  forallb (hasField fields) keys && forallb (fieldSatisfies fields) props = forallb (fieldAsked keys fields) props.
Proof.
  intros Hkeys. apply eq_true_iff_eq. rewrite andb_true_iff, !forallb_Forall_true. unfold fieldAsked. split.
  - intros [Hhas Hsat] p Hp. case_bool_decide as Hk; [|by apply Hsat]. by rewrite Hhas, Hsat.
  - intros Hall. split.
    + intros k Hk. pose proof (Hkeys k Hk) as Hp. apply list_elem_of_fmap in Hp as (p & -> & Hp).
      specialize (Hall p Hp). rewrite bool_decide_true in Hall by done. by apply andb_prop in Hall as [? _].
    + intros p Hp. specialize (Hall p Hp). case_bool_decide; [|done]. by apply andb_prop in Hall as [_ ?].
Qed.

(** An object read key by key. *)
Lemma closed_object {A} props keys names (decode : Json → option A) check read :
  names ≡ₚ (props : list (string * (Json → bool))).*1 → keys ⊆ props.*1 →
  (∀ j, decode j = strictObject names j ≫= read) →
  (∀ fields, forallb (fieldAsked keys fields) props = match read fields with Some a => check a | None => false end) →
  ∀ j, closedObject (hasType "object") props keys j = checks decode check j.
Proof.
  intros Hnames Hkeys Hdecode Hread j. unfold checks. rewrite Hdecode. destruct j as [| |[]| | |fields]; try reflexivity.
  unfold closedObject, strictObject. cbn [hasType String.eqb asObject mbind option_bind]. rewrite fields_asked, Hread by done.
  rewrite (known_keys fields names props.*1) by (intros k; by rewrite Hnames). destruct (forallb _ fields).
  - rewrite andb_true_r. cbn. by destruct (read fields).
  - by rewrite !andb_false_r.
Qed.

Lemma field_required {A} fields key (decode : Json → option A) check :
  hasField fields key && fieldSatisfies fields (key, checks decode check) = 
    match required fields key decode with Some a => check a | None => false end.
Proof. unfold hasField, fieldSatisfies, required, checks. cbn. by destruct (get_field fields key) as [j|]. Qed.

Lemma field_optional {A} fields key (decode : Json → option A) check :
  fieldSatisfies fields (key, checks decode check) = 
    match optionalField fields key decode with Some o => optional check o | None => false end.
Proof.
  unfold fieldSatisfies, optionalField, checks. cbn. destruct (get_field fields key) as [j|]; [|done].
  by destruct (decode j).
Qed.

Lemma asked_required {A} keys fields key (decode : Json → option A) check : bool_decide (key ∈ keys) = true →
  fieldAsked keys fields (key, checks decode check) =
    match required fields key decode with Some a => check a | None => false end.
Proof. unfold fieldAsked. cbn [fst]. intros ->. apply field_required. Qed.

Lemma asked_optional {A} keys fields key (decode : Json → option A) check : bool_decide (key ∈ keys) = false →
  fieldAsked keys fields (key, checks decode check) =
    match optionalField fields key decode with Some o => optional check o | None => false end.
Proof. unfold fieldAsked. cbn [fst]. intros ->. apply field_optional. Qed.

Ltac decided := refine (bool_decide_unpack _ _); vm_compute; exact I.
Ltac read_fields :=
  let fields := fresh "fields" in
  eapply closed_object; [| |reflexivity|intros fields; cbn [forallb]];
    [decided|decided|rewrite ?asked_required, ?asked_optional by done;
     repeat match goal with
            | |- context [required fields ?k ?d] => destruct (required fields k d); cbn
            | |- context [optionalField fields ?k ?d] => destruct (optionalField fields k d); cbn
            end].

Lemma optional_any {A} (o : option A) : optional (λ _, true) o = true.
Proof. by destruct o. Qed.

Tactic Notation "closed" reference(check) := read_fields; unfold check; rewrite ?optional_any; cbn -[andb]; btauto.

Lemma closed_binding j :
  closedObject (hasType "object") [("key", checks asString nonEmpty); ("binding", checks asString nonEmpty)] ["key"; "binding"] j =
    checks decodeBinding validBinding j.
Proof. revert j. closed validBinding. Qed.

(** An option of a configuration field. *)
Definition decodeOption (j : Json) : option ConfigOption :=
  fields ← strictObject ["value"; "labelKey"] j;
  value ← required fields "value" asString;
  labelKey ← required fields "labelKey" asString;
  Some {| option_value := value; option_labelKey := labelKey |}.

Lemma closed_option j :
  closedObject (hasType "object") [("value", checks asString nonEmpty); ("labelKey", checks asString nonEmpty)] ["value"; "labelKey"] j =
    checks decodeOption configOptionSchema j.
Proof. revert j. closed configOptionSchema. Qed.

Abbreviation validValues := (forallb (λ f : string * Json, matchesNonSecretKey f.1 && validJson f.2)).

Lemma closed_configuration j :
  closedObject (hasType "object") [("values", checks asObject validValues);
    ("secretBindings", checks (asArray decodeBinding) (forallb validBinding))] ["values"; "secretBindings"] j =
    checks decodeConfiguration validConfiguration j.
Proof. revert j. closed validConfiguration. Qed.

Lemma closed_step j :
  closedObject (hasType "object") [("id", checks asString is_uuid); ("kind", checks decodeKind (λ _, true));
    ("componentType", checks asString matchesComponentType); ("componentVersion", checks asString matchesVersion);
    ("configuration", checks decodeConfiguration validConfiguration)]
    ["id"; "kind"; "componentType"; "componentVersion"; "configuration"] j = checks decodeStep pipelineStepSchema j.
Proof. revert j. closed pipelineStepSchema. Qed.

Lemma closed_edge j :
  closedObject (hasType "object") [("fromStepId", checks asString is_uuid); ("toStepId", checks asString is_uuid)]
    ["fromStepId"; "toStepId"] j = checks decodeEdge pipelineEdgeSchema j.
Proof. revert j. closed pipelineEdgeSchema. Qed.

Abbreviation edgesChecked := (checks (asArray decodeEdge) (forallb pipelineEdgeSchema)).
Abbreviation stepsChecked := (checks (asArray decodeStep) (λ l, minOne l && forallb pipelineStepSchema l)).
Abbreviation triggersChecked := (checks (asArray decodeWritableTrigger) (forallb writablePipelineTriggerSchema)).

Lemma closed_create j :
  closedObject (hasType "object") [("contractVersion", checks asString (λ s, bool_decide (s = "v1")));
    ("name", checks asString nonEmpty); ("steps", stepsChecked); ("edges", edgesChecked); ("triggers", triggersChecked)]
    ["contractVersion"; "name"; "steps"; "edges"; "triggers"] j = checks decodeCreateRequest pipelineCreateRequestSchema j.
Proof. revert j. closed pipelineCreateRequestSchema. Qed.

Lemma closed_duplicate j :
  closedObject (hasType "object") [("name", checks asString nonEmpty)] [] j = checks decodeDuplicateBody (optional nonEmpty) j.
Proof. revert j. closed optional. Qed.

Lemma closed_run j :
  closedObject (hasType "object") [("pipelineId", checks asString is_uuid); ("runId", checks asString is_uuid);
    ("initialJobCount", checks decodeCount (λ n, bool_decide (Z.of_nat n ≤ MAX_SAFE_INTEGER)%Z)); ("queuedBehindActiveRun", checks asBoolean (λ _, true))]
    ["pipelineId"; "runId"; "initialJobCount"; "queuedBehindActiveRun"] j = checks decodeRunResponse pipelineRunResponseSchema j.
Proof. revert j. closed pipelineRunResponseSchema. Qed.

(** The two forms of a trigger, told apart by [type]. *)
Definition decodeTyped {A} (keys : list string) (read : list (string * Json) → option A) (j : Json) : option (string * A) :=
  fields ← strictObject keys j;
  type ← required fields "type" asString;
  a ← read fields;
  Some (type, a).
Definition readManual (fields : list (string * Json)) : option WritablePipelineTrigger :=
  enabled ← required fields "enabled" asBoolean;
  Some (WritableManual enabled).
Definition readSchedule (fields : list (string * Json)) : option WritablePipelineTrigger :=
  cron ← required fields "cron" asString;
  enabled ← required fields "enabled" asBoolean;
  timezone ← required fields "timezone" asString;
  Some (WritableSchedule cron enabled timezone).
Definition typedAs (type : string) (t : string * WritablePipelineTrigger) : bool :=
  bool_decide (t.1 = type) && writablePipelineTriggerSchema t.2.

Lemma closed_manual j :
  closedObject (hasType "object") [("type", checks asString (λ s, bool_decide (s = "manual"))); ("enabled", checks asBoolean (λ _, true))]
    ["type"; "enabled"] j = checks (decodeTyped ["enabled"; "type"] readManual) (typedAs "manual") j.
Proof. revert j. unfold decodeTyped, readManual. closed typedAs. Qed.

Lemma closed_schedule j :
  closedObject (hasType "object") [("type", checks asString (λ s, bool_decide (s = "schedule"))); ("enabled", checks asBoolean (λ _, true));
      ("cron", checks asString nonEmpty); ("timezone", checks asString nonEmpty)]
    ["type"; "enabled"; "cron"; "timezone"] j =
    checks (decodeTyped ["cron"; "enabled"; "timezone"; "type"] readSchedule) (typedAs "schedule") j.
Proof. revert j. unfold decodeTyped, readSchedule. closed typedAs. Qed.

Lemma checks_typed keys read type fields :
  checks (decodeTyped keys read) (typedAs type) (JObject fields) =
    match required fields "type" asString with
    | Some t => bool_decide (t = type) && checks (λ j, strictObject keys j ≫= read) writablePipelineTriggerSchema (JObject fields)
    | None => false
    end.
Proof.
  unfold checks, decodeTyped, typedAs. destruct (strictObject keys (JObject fields)) as [fields'|] eqn:E; cbn [mbind option_bind].
  - unfold strictObject in E. cbn in E. destruct (forallb _ fields); [|done]. injection E as <-.
    destruct (required fields "type" asString); [|done]. cbn [mbind option_bind].
    destruct (read fields); cbn; [done|by rewrite andb_false_r].
  - destruct (required fields "type" asString); [by rewrite andb_false_r|done].
Qed.

Lemma trigger_forms j :
  xorb (checks (decodeTyped ["enabled"; "type"] readManual) (typedAs "manual") j)
       (checks (decodeTyped ["cron"; "enabled"; "timezone"; "type"] readSchedule) (typedAs "schedule") j) =
    checks decodeWritableTrigger writablePipelineTriggerSchema j.
Proof.
  destruct j as [| | | | |fields]; try done. rewrite !checks_typed. unfold checks at 3. unfold decodeWritableTrigger.
  cbn [asObject mbind option_bind]. destruct (required fields "type" asString) as [t|]; [|done]. cbn [mbind option_bind].
  destruct (decide (t = "manual")) as [->|Hm].
  - rewrite bool_decide_true, bool_decide_false, andb_true_l, xorb_false_r by done. done.
  - rewrite bool_decide_false by done. cbn [andb xorb]. case_decide as Hs; case_bool_decide; done.
Qed.

Lemma closed_trigger j :
  xorb (closedObject (hasType "object") [("type", checks asString (λ s, bool_decide (s = "manual")));
          ("enabled", checks asBoolean (λ _, true))] ["type"; "enabled"] j)
       (closedObject (hasType "object") [("type", checks asString (λ s, bool_decide (s = "schedule")));
          ("enabled", checks asBoolean (λ _, true)); ("cron", checks asString nonEmpty); ("timezone", checks asString nonEmpty)]
          ["type"; "enabled"; "cron"; "timezone"] j) =
    checks decodeWritableTrigger writablePipelineTriggerSchema j.
Proof. rewrite <-trigger_forms. by rewrite closed_manual, closed_schedule. Qed.

(** An update names something to change. *)
Definition changesSomething (j : Json) : bool := match j with JObject (_ :: _) => true | _ => false end.
Definition updateFieldsSchema (r : PipelineUpdateRequest) : bool :=
  optional (forallb pipelineEdgeSchema) (update_edges r) && optional nonEmpty (update_name r) &&
  optional (λ l, minOne l && forallb pipelineStepSchema l) (update_steps r) &&
  optional (forallb writablePipelineTriggerSchema) (update_triggers r).

Lemma closed_update j :
  closedObject (hasType "object") [("name", checks asString nonEmpty); ("state", checks decodeState (λ _, true));
    ("steps", stepsChecked); ("edges", edgesChecked); ("triggers", triggersChecked)] [] j =
    checks decodeUpdateRequest updateFieldsSchema j.
Proof. revert j. closed updateFieldsSchema. Qed.

Lemma optionalField_None {A} fields key (decode : Json → option A) :
  optionalField fields key decode = Some None → key ∉ fields.*1.
Proof.
  unfold optionalField. destruct (get_field fields key) as [j|] eqn:E; [by destruct (decode j)|]. intros _. by apply get_field_None.
Qed.

Lemma update_changes j : changesSomething j && checks decodeUpdateRequest updateFieldsSchema j =
  checks decodeUpdateRequest pipelineUpdateRequestSchema j.
Proof.
  destruct j as [| | | | |fields]; try done. unfold checks, decodeUpdateRequest.
  destruct (strictObject _ _) as [fields'|] eqn:E; [|by rewrite andb_false_r]. unfold strictObject in E. cbn in E.
  destruct (forallb _ fields) eqn:Hkeys; [|done]. injection E as <-. cbn [mbind option_bind].
  destruct fields as [|f fields]; [done|]. cbn [changesSomething andb]. cbn [forallb] in Hkeys.
  apply andb_prop, proj1, bool_decide_eq_true in Hkeys.
  repeat match goal with
         | |- context [optionalField (f :: fields) ?k ?d] =>
             destruct (optionalField (f :: fields) k d) as [?|] eqn:?; cbn [mbind option_bind]; [|done]
         end.
  unfold pipelineUpdateRequestSchema, updateFieldsSchema. cbn [update_edges update_name update_state update_steps update_triggers].
  rewrite <-(andb_true_r (_ && _ && _ && _)) at 1. f_equal. symmetry. apply negb_true_iff, not_true_iff_false.
  rewrite andb_true_iff, bool_decide_eq_true. intros [(-> & -> & ->) Hrest]. repeat case_match; try done.
  repeat match goal with H : optionalField _ _ _ = Some None |- _ => apply optionalField_None in H end. set_solver.
Qed.

(** ** Fragments of [pipeline.schema.json] *)

Definition fragment (schema : result Json) : Json := match schema with Ok j => j | _ => JNull end.

(** A reference to a definition that the fragment retains. *)
Lemma local_reference base name definitions target :
  field base "$defs" = Some definitions → segments "/" name = [name] → field definitions name = Some target →
  resolveReference canonical.registry base ("#/$defs/" +:+ name) = Some (base, target).
Proof.
  intros Hbase Hname Htarget. unfold resolveReference. cbn [breakAt String.append].
  change ((pointer base ("/$defs/" +:+ name) ≫= λ target, Some (base, target)) = Some (base, target)).
  assert (segments "/" ("/$defs/" +:+ name) = [""; "$defs"; name]) as Hsegments.
  { transitivity ("" :: "$defs" :: segments "/" name); [reflexivity|by rewrite Hname]. }
  unfold pointer. rewrite Hsegments. cbn [foldl mbind option_bind]. rewrite Hbase. cbn. by rewrite Htarget.
Qed.

Definition pipelineDefinitions : Json := default JNull (field canonicalSchemas.pipeline "$defs").
Definition bindingFragment : Json := closedSchema [("key", textSchema); ("binding", textSchema)] ["key"; "binding"].
Definition configurationFragment : Json :=
  closedSchema [("values", nonSecretObject); ("secretBindings", JObject [("type", JString "array"); ("items", bindingFragment)])]
    ["values"; "secretBindings"].
Definition enumSchema (texts : list string) : Json := JObject [("type", JString "string"); ("enum", JArray (JString <$> texts))].
Definition patternSchema (pattern : string) : Json := JObject [("type", JString "string"); ("pattern", JString pattern)].
Definition constSchema (value : string) : Json := JObject [("type", JString "string"); ("const", JString value)].
Definition stepFragment : Json :=
  closedSchema [("id", uuidSchema); ("kind", enumSchema ["source"; "transform"; "export"]);
    ("componentType", patternSchema componentTypePattern); ("componentVersion", patternSchema versionPattern);
    ("configuration", configurationFragment)] ["id"; "kind"; "componentType"; "componentVersion"; "configuration"].
Definition stepsFragment : Json := JObject [("minItems", JNumber (NInt 1)); ("type", JString "array"); ("items", stepFragment)].
Definition edgeFragment : Json := closedSchema [("fromStepId", uuidSchema); ("toStepId", uuidSchema)] ["fromStepId"; "toStepId"].
Definition edgesFragment : Json := JObject [("type", JString "array"); ("items", edgeFragment)].

Lemma binding_accepted base : accepts_as base bindingFragment (checks decodeBinding validBinding).
Proof.
  eapply accepts_ext; [intros j; apply closed_binding|]. apply closed_accepted.
  repeat constructor; apply text_accepted.
Qed.

Lemma option_accepted base :
  accepts_as base (closedSchema [("value", textSchema); ("labelKey", textSchema)] ["value"; "labelKey"]) (checks decodeOption configOptionSchema).
Proof.
  eapply accepts_ext; [intros j; apply closed_option|]. apply closed_accepted.
  repeat constructor; apply text_accepted.
Qed.

Section values.
Context (base : Json) (Hbase : field base "$defs" = Some pipelineDefinitions).

Lemma object_accepted : accepts_as base nonSecretObject (checks asObject validValues).
Proof.
  eapply accepts_ext; [|apply values_accepted; by apply (local_reference base "nonSecretJsonValue" pipelineDefinitions)].
  by intros [].
Qed.

Lemma configuration_accepted : accepts_as base configurationFragment (checks decodeConfiguration validConfiguration).
Proof.
  eapply accepts_ext; [intros j; apply closed_configuration|]. apply closed_accepted.
  repeat constructor; [apply object_accepted|apply array_accepted, binding_accepted].
Qed.

Lemma step_accepted : accepts_as base stepFragment (checks decodeStep pipelineStepSchema).
Proof.
  eapply accepts_ext; [intros j; apply closed_step|]. apply closed_accepted.
  repeat constructor; [apply uuid_accepted|apply kind_accepted|apply componentType_accepted|apply version_accepted|].
  apply configuration_accepted.
Qed.

Lemma steps_accepted : accepts_as base stepsFragment stepsChecked.
Proof. apply array1_accepted, step_accepted. Qed.
End values.

Lemma edge_accepted base : accepts_as base edgeFragment (checks decodeEdge pipelineEdgeSchema).
Proof.
  eapply accepts_ext; [intros j; apply closed_edge|]. apply closed_accepted. repeat constructor; apply uuid_accepted.
Qed.

Lemma edges_accepted base : accepts_as base edgesFragment edgesChecked.
Proof. apply array_accepted, edge_accepted. Qed.

(** ** Definitions of [pipeline-api.schema.json] *)

Definition apiDefinitions : Json := default JNull (field canonicalSchemas.pipelineApi "$defs").
Definition localReference (name : string) : Json := JObject [("$ref", JString ("#/$defs/" +:+ name))].

Lemma pipeline_reference base name target p :
  resolveReference canonical.registry base ("https://pantaetl.dev/schemas/pipeline.schema.json#/properties/" +:+ name) =
    Some (canonicalSchemas.pipeline, target) →
  accepts_as canonicalSchemas.pipeline target p →
  accepts_as base (JObject [("$ref", JString ("https://pantaetl.dev/schemas/pipeline.schema.json#/properties/" +:+ name))]) p.
Proof. apply accepts_ref. Qed.

Section api.
Context (base : Json) (Hbase : field base "$defs" = Some apiDefinitions).

Lemma local_accepted name target p :
  segments "/" name = [name] → field apiDefinitions name = Some target → accepts_as base target p →
  accepts_as base (localReference name) p.
Proof. intros Hname Htarget. apply accepts_ref. by apply (local_reference base name apiDefinitions). Qed.

Ltac external key := eapply local_accepted; [done|reflexivity|eapply (pipeline_reference _ key); [reflexivity|]].

Lemma name_accepted : accepts_as base (localReference "pipelineName") (checks asString nonEmpty).
Proof. external "name". apply text_accepted. Qed.

Lemma duplicateName_accepted : accepts_as base (localReference "pipelineDuplicateName") (checks asString nonEmpty).
Proof. external "name". apply text_accepted. Qed.

Lemma contractVersion_accepted :
  accepts_as base (localReference "contractVersion") (checks asString (λ s, bool_decide (s = "v1"))).
Proof. external "contractVersion". apply const_accepted. Qed.

Lemma apiState_accepted : accepts_as base (localReference "pipelineState") (checks decodeState (λ _, true)).
Proof. external "state". apply state_accepted. Qed.

Lemma apiSteps_accepted : accepts_as base (localReference "pipelineSteps") stepsChecked.
Proof. external "steps". by apply steps_accepted. Qed.

Lemma apiEdges_accepted : accepts_as base (localReference "pipelineEdges") edgesChecked.
Proof. external "edges". apply edges_accepted. Qed.

Lemma identifier_accepted : accepts_as base (localReference "pipelineIdentifier") (checks asString is_uuid).
Proof.
  eapply local_accepted; [done|done|]. eapply (accepts_ref _ _ _ _ canonicalSchemas.common); [done|apply uuid_accepted].
Qed.

Definition writableManual : Json :=
  closedSchema [("type", JObject [("const", JString "manual")]); ("enabled", booleanSchema)] ["type"; "enabled"].
Definition writableSchedule : Json :=
  closedSchema [("type", JObject [("const", JString "schedule")]); ("enabled", booleanSchema); ("cron", textSchema);
    ("timezone", textSchema)] ["type"; "enabled"; "cron"; "timezone"].

Lemma trigger_accepted :
  accepts_as base (localReference "writablePipelineTrigger") (checks decodeWritableTrigger writablePipelineTriggerSchema).
Proof.
  eapply accepts_ext; [intros j; apply closed_trigger|]. eapply local_accepted; [done|reflexivity|].
  apply (accepts_oneOf _ _ _ writableManual writableSchedule); apply closed_accepted;
    repeat constructor; first [apply onlyConst_accepted|apply boolean_accepted|apply text_accepted].
Qed.

Lemma triggers_accepted : accepts_as base (localReference "writablePipelineTriggers") triggersChecked.
Proof. eapply local_accepted; [done|reflexivity|]. apply array_accepted, trigger_accepted. Qed.

Definition createFragment : Json :=
  closedSchema [("contractVersion", localReference "contractVersion"); ("name", localReference "pipelineName");
    ("steps", localReference "pipelineSteps"); ("edges", localReference "pipelineEdges");
    ("triggers", localReference "writablePipelineTriggers")] ["contractVersion"; "name"; "steps"; "edges"; "triggers"].

Lemma create_accepted : accepts_as base createFragment (checks decodeCreateRequest pipelineCreateRequestSchema).
Proof.
  eapply accepts_ext; [intros j; apply closed_create|]. apply closed_accepted. repeat constructor.
  - apply contractVersion_accepted.
  - apply name_accepted.
  - apply apiSteps_accepted.
  - apply apiEdges_accepted.
  - apply triggers_accepted.
Qed.

Definition runFragment : Json :=
  closedSchema [("pipelineId", localReference "pipelineIdentifier"); ("runId", localReference "pipelineIdentifier");
    ("initialJobCount", JObject [("type", JString "integer"); ("minimum", JNumber (NInt 0)); ("maximum", JNumber (NInt 9007199254740991))]);
    ("queuedBehindActiveRun", booleanSchema)] ["pipelineId"; "runId"; "initialJobCount"; "queuedBehindActiveRun"].

Lemma run_accepted : accepts_as base runFragment (checks decodeRunResponse pipelineRunResponseSchema).
Proof.
  eapply accepts_ext; [intros j; apply closed_run|]. apply closed_accepted. repeat constructor;
    first [apply identifier_accepted|apply count_accepted|apply boolean_accepted].
Qed.

(** Objects none of whose properties is required. *)
Definition openFragment (props : list (string * Json)) (rest : list (string * Json)) : Json :=
  JObject (("type", JString "object") :: ("properties", JObject props) :: rest).

Lemma duplicate_accepted :
  accepts_as base (openFragment [("name", localReference "pipelineDuplicateName")] [("additionalProperties", JBool false)])
    (checks decodeDuplicateBody (optional nonEmpty)).
Proof.
  eapply accepts_ext; [intros j; apply closed_duplicate|].
  eapply accepts_closed; [repeat constructor|reflexivity|reflexivity|done|intros j; apply both_true_r|].
  repeat constructor. apply duplicateName_accepted.
Qed.

Lemma minProperties_changes props j :
  scalarKeywords is_date_time [("type", JString "object"); ("properties", JObject props); ("minProperties", JNumber (NInt 1));
    ("additionalProperties", JBool false)] j = Some (changesSomething j).
Proof.
  destruct j as [| |[]| | |[|f fields]]; try reflexivity. etrans; [exact (f_equal Some (andb_true_r _))|]. f_equal.
  assert (∃ k, k ∈ remove_dups (f :: fields).*1) as [k Hk].
  { exists f.1. rewrite elem_of_remove_dups. left. }
  apply Z.leb_le. destruct (remove_dups _); [by apply not_elem_of_nil in Hk|]. cbn [length]. lia.
Qed.

Lemma update_accepted :
  accepts_as base (openFragment [("name", localReference "pipelineName"); ("state", localReference "pipelineState");
      ("steps", localReference "pipelineSteps"); ("edges", localReference "pipelineEdges");
      ("triggers", localReference "writablePipelineTriggers")]
      [("minProperties", JNumber (NInt 1)); ("additionalProperties", JBool false)])
    (checks decodeUpdateRequest pipelineUpdateRequestSchema).
Proof.
  eapply accepts_ext; [|eapply (accepts_closed _ _ _ _ _ [] _ changesSomething)].
  2: { repeat constructor. }
  2: reflexivity.
  2: reflexivity.
  2: done.
  2: { exact (minProperties_changes _). }
  - intros j. rewrite <-update_changes, <-closed_update. by destruct j as [| |[]| | |[|f fields]].
  - repeat constructor; [apply name_accepted|apply apiState_accepted|apply apiSteps_accepted|apply apiEdges_accepted|].
    apply triggers_accepted.
Qed.
End api.

(** ** The fragments the packages read out of the documents *)

(** The canonical fragment exists, and validating a document against it takes
    fuel in proportion to the depth of the document and accepts what the
    predicate does. *)
Definition describes (schema : result Json) (p : Json → bool) : Prop :=
  ∃ fragment, schema = Ok fragment ∧ accepts_as fragment fragment p.

Lemma describes_plain schema body p : schema = Ok body → (∀ base, accepts_as base body p) → describes schema p.
Proof. intros -> Hp. by exists body. Qed.

Lemma describes_retained schema body definitions p :
  schema = Ok (JObject (assign body "$defs" definitions)) → get_field body "$defs" = None →
  (∀ base, field base "$defs" = Some definitions → accepts_as base (JObject body) p) → describes schema p.
Proof.
  intros -> Hbody Hp. eexists. split; [done|]. apply accepts_definitions, Hp. by apply get_field_assigned.
Qed.

Lemma describes_api name body p :
  canonical.pipelineApiSchema name = Ok (JObject (assign body "$defs" apiDefinitions)) → get_field body "$defs" = None →
  (∀ base, field base "$defs" = Some apiDefinitions → accepts_as base (JObject body) p) →
  describes (canonical.pipelineApiSchema name) p.
Proof. apply describes_retained. Qed.

Lemma describes_ext schema p q : (∀ j, p j = q j) → describes schema p → describes schema q.
Proof. intros Hpq (fragment & ? & Hp). exists fragment. split; [done|]. by eapply accepts_ext. Qed.

(** What [schema.safeParse] of a contract accepts. *)
Definition parses {A} (decode : Json → option A) (schema : A → bool) (j : Json) : bool :=
  bool_decide (is_Some (safeParse decode schema j)).

Lemma describes_parses {A} schema (decode : Json → option A) check :
  describes schema (checks decode check) → describes schema (parses decode check).
Proof. apply describes_ext. intros j. symmetry. apply checks_safeParse. Qed.

End schemas.
