(* ===== verification/PipelineRoutes.v ===== *)
(** * The pipeline routes of the control plane

    [apps/web/src/pipelines/collection-route.ts],
    [apps/web/src/pipeline-api/detail.ts], [actions.ts] and [scheduler.ts]:
    authentication, validation of the request, the repository operation, and
    the mapping of its outcome to a response. *)

From S2P Require Import Prelude Js Contracts StateMachine Schemas Http Database Statements RunQueue.
From S2P Require Import Documents Repository Actions SchedulerService Uploads.

Definition invalidRequestResponse : Response Document := codeResponse 400 "invalid_pipeline_request".
Definition notFoundResponse : Response Document := codeResponse 404 "pipeline_not_found".
Definition conflictResponse (code : string) : Response Document := codeResponse 409 code.

(** [readJsonObject] *)
Definition readJsonObject (request : Request) : option Json :=
  match requestJson request with Some (JObject fields) => Some (JObject fields) | _ => None end.

(** [readOptionalJsonObject]: a blank body is an empty document. *)
Definition readOptionalJsonObject (request : Request) : option Json :=
  match request_body request with
  | blank => Some (JObject [])
  | document (JObject fields) => Some (JObject fields)
  | _ => None
  end.

(** The error responses: which failures are answers. *)
Definition createErrorResponse (error : exn) : option (Response Document) :=
  match error with InvalidPipelineTopologyError _ => Some invalidRequestResponse | _ => None end.

Definition updateErrorResponse (error : exn) : option (Response Document) :=
  match error with
  | InvalidPipelineTopologyError _ => Some invalidRequestResponse
  | PipelineStateTransitionError _ => Some (conflictResponse "pipeline_locked")
  | _ => None
  end.

Definition deletionErrorResponse (error : exn) : option (Response Document) :=
  match error with
  | PipelineDeletionLockedError => Some (conflictResponse "pipeline_locked")
  | PipelineDeletionHasRunHistoryError => Some (conflictResponse "pipeline_has_run_history")
  | _ => None
  end.

Definition pipelineActionConflictResponse (reason : PipelineActionConflictReason)
    (violations : option (list PipelineExecutableViolation)) : Response Document :=
  match reason with
  | not_found => notFoundResponse
  | not_executable =>
      jsonResponse 409 (violationsDocument "pipeline_not_executable" (default [] violations))
  | locked => conflictResponse "pipeline_locked"
  | not_enabled => conflictResponse "pipeline_not_enabled"
  end.

Definition schedulerConflictResponse (code : SchedulerConflictCode) : Response Document :=
  match code with
  | scheduler_pipeline_not_found => notFoundResponse
  | scheduler_pipeline_locked => conflictResponse "pipeline_locked"
  | scheduler_pipeline_not_enabled => conflictResponse "pipeline_not_enabled"
  end.

Definition actionErrorResponse (error : exn) : option (Response Document) :=
  match error with
  | PipelineActionConflictError reason _ violations => Some (pipelineActionConflictResponse reason violations)
  | PipelineSchedulerConflictError code => Some (schedulerConflictResponse code)
  | _ => None
  end.

(** ** scheduler.ts *)

Definition readInternalToken (value : option string) : result string :=
  let internalToken := trim (default "" value) in
  if decide (internalToken = "" ∨ String.length internalToken < 32)
  then Throw (JsError "SCHEDULER_INTERNAL_TOKEN must contain at least 32 characters.")
  else Ok internalToken.

(** [response.json()], where the body is a document. *)
Definition responseJson (response : Response Json) : result Json :=
  match body response with
  | Some j => Ok j
  | None => Throw (JsError "Unexpected end of JSON input")
  end.

Definition readConflictCode (response : Response Json) : option SchedulerConflictCode :=
  if decide (status response ≠ 404%Z ∧ status response ≠ 409%Z) then None
  else
    match responseJson response with
    | Ok (JObject fields) =>
        match get_field fields "code" with
        | Some (JString "pipeline_locked") => Some scheduler_pipeline_locked
        | Some (JString "pipeline_not_enabled") => Some scheduler_pipeline_not_enabled
        | Some (JString "pipeline_not_found") => Some scheduler_pipeline_not_found
        | _ => None
        end
    | _ => None
    end.

Section routes.
Context `{!Uuids, !Formats}.

(** [pipelineRunResponseSchema.parse(value)] *)
Definition parseRunResponse (j : Json) : result CreatedPipelineRun :=
  match safeParse decodeRunResponse pipelineRunResponseSchema j with
  | Some run => Ok run
  | None => Throw ZodError
  end.

(** [enqueuePipelineRun], over [fetch]. *)
Definition enqueueRunRemotely (internalToken : string) (fetch : Request → DB (Response Json))
    (ownerUserId pipelineId : string) : DB CreatedPipelineRun :=
  response ← fetch {|
    request_method := "POST";
    authorization := Some (bearerPrefix +:+ internalToken);
    request_body := document (JObject [("ownerUserId", JString ownerUserId); ("pipelineId", JString pipelineId)]) |};
  if response_ok response then
    j ← lift (responseJson response);
    lift (parseRunResponse j)
  else
    match readConflictCode response with
    | Some code => throw (PipelineSchedulerConflictError code)
    | None => throw (JsError "The scheduler did not accept the pipeline run request.")
    end.

(** ** collection-route.ts *)

Definition listRoute (session : option string) : DB (Response Document) :=
  match session with
  | None => mret unauthenticatedResponse
  | Some userId =>
      pipelines ← listPipelinesByOwner userId;
      pipelines ← lift (parse (forallb pipelineSchema) pipelines);
      mret (jsonResponse 200 (pipelinesDocument pipelines))
  end.

Definition createRoute (session : option string) (request : Request) : DB (Response Document) :=
  match session with
  | None => mret unauthenticatedResponse
  | Some userId =>
      match readJsonObject request ≫= safeParse decodeCreateRequest pipelineCreateRequestSchema with
      | None => mret invalidRequestResponse
      | Some pipeline =>
          answering
            (created ← createPipeline userId pipeline;
             claimPipelineUploads userId created;;
             created ← lift (parse pipelineSchema created);
             mret (jsonResponse 201 (pipelineDocument created)))
            createErrorResponse
      end
  end.

(** ** detail.ts *)

(** [parseDetailRequest] *)
Definition parseDetailRequest (pipelineId : string) : option string :=
  if is_uuid pipelineId then Some pipelineId else None.

Definition parseUpdateRequest (request : Request) : option PipelineUpdateRequest :=
  requestJson request ≫= safeParse decodeUpdateRequest pipelineUpdateRequestSchema.

Definition deleteRoute (session : option string) (pipelineId : string) : DB (Response Document) :=
  match session with
  | None => mret unauthenticatedResponse
  | Some userId =>
      match parseDetailRequest pipelineId with
      | None => mret invalidRequestResponse
      | Some pipelineId =>
          answering
            (deleted ← deletePipeline userId pipelineId;
             mret (if (deleted : bool) then emptyResponse 204 else notFoundResponse))
            deletionErrorResponse
      end
  end.

Definition getRoute (session : option string) (pipelineId : string) : DB (Response Document) :=
  match session with
  | None => mret unauthenticatedResponse
  | Some userId =>
      match parseDetailRequest pipelineId with
      | None => mret invalidRequestResponse
      | Some pipelineId =>
          pipeline ← getPipeline userId pipelineId;
          match pipeline with
          | None => mret notFoundResponse
          | Some pipeline =>
              pipeline ← lift (parse pipelineSchema pipeline);
              mret (jsonResponse 200 (pipelineDocument pipeline))
          end
      end
  end.

Definition updateRoute (session : option string) (pipelineId : string) (request : Request) (now : Z) :
    DB (Response Document) :=
  match session with
  | None => mret unauthenticatedResponse
  | Some userId =>
      match parseDetailRequest pipelineId, parseUpdateRequest request with
      | Some pipelineId, Some update =>
          answering
            (pipeline ← updatePipeline userId pipelineId update now;
             match pipeline with
             | None => mret notFoundResponse
             | Some pipeline =>
                 claimPipelineUploads userId pipeline;;
                 pipeline ← lift (parse pipelineSchema pipeline);
                 mret (jsonResponse 200 (pipelineDocument pipeline))
             end)
            updateErrorResponse
      | _, _ => mret invalidRequestResponse
      end
  end.

(** ** actions.ts *)

(** [stateActionResponse] *)
Definition stateActionRoute (session : option string) (pipelineId : string)
    (action : string → string → DB (string * PipelineState.t)) : DB (Response Document) :=
  match session with
  | None => mret unauthenticatedResponse
  | Some userId =>
      match parseDetailRequest pipelineId with
      | None => mret invalidRequestResponse
      | Some pipelineId =>
          answering
            (action userId pipelineId;;
             pipeline ← getPipeline userId pipelineId;
             match pipeline with
             | None => mret notFoundResponse
             | Some pipeline =>
                 pipeline ← lift (parse pipelineSchema pipeline);
                 mret (jsonResponse 200 (pipelineDocument pipeline))
             end)
            actionErrorResponse
      end
  end.

Definition enableRoute (availableComponents : list ComponentMetadata) (session : option string)
    (pipelineId : string) (now : Z) : DB (Response Document) :=
  stateActionRoute session pipelineId (λ owner id, enablePipelineForOwner owner id availableComponents now).

Definition disableRoute (session : option string) (pipelineId : string) (now : Z) : DB (Response Document) :=
  stateActionRoute session pipelineId (λ owner id, disablePipelineForOwner owner id now).

Definition parseDuplicateRequest (pipelineId : string) (request : Request) : option (string * option string) :=
  j ← readOptionalJsonObject request;
  name ← safeParse decodeDuplicateBody (optional nonEmpty) j;
  if is_uuid pipelineId then Some (pipelineId, name) else None.

Definition duplicateRoute (session : option string) (pipelineId : string) (request : Request) :
    DB (Response Document) :=
  match session with
  | None => mret unauthenticatedResponse
  | Some userId =>
      match parseDuplicateRequest pipelineId request with
      | None => mret invalidRequestResponse
      | Some (pipelineId, name) =>
          pipeline ← duplicatePipeline userId pipelineId name newId;
          match pipeline with
          | None => mret notFoundResponse
          | Some pipeline =>
              pipeline ← lift (parse pipelineSchema pipeline);
              mret (jsonResponse 201 (pipelineDocument pipeline))
          end
      end
  end.

(** [{ activeRun }], which is left out when there is none. *)
Definition executionStateDocument (activeRun : option (string * ActivePhase)) : Json :=
  JObject (presentField "activeRun" ((λ run : string * ActivePhase,
    JObject [("id", JString run.1);
             ("state", JString match run.2 with active_queued => "queued" | active_running => "running" end)])
    <$> activeRun)).

Definition executionStateRoute (session : option string) (pipelineId : string) : DB (Response Document) :=
  match session with
  | None => mret unauthenticatedResponse
  | Some userId =>
      match parseDetailRequest pipelineId with
      | None => mret invalidRequestResponse
      | Some pipelineId =>
          pipeline ← getPipeline userId pipelineId;
          match pipeline with
          | None => mret notFoundResponse
          | Some pipeline =>
              activeRun ← getActiveRunForPipeline (pipeline_id pipeline);
              activeRun ← lift (parse (optional (λ run, is_uuid run.1)) activeRun);
              mret (jsonResponse 200 (plain (executionStateDocument activeRun)))
          end
      end
  end.

Definition runRoute (enqueue : string → string → DB CreatedPipelineRun) (session : option string)
    (pipelineId : string) : DB (Response Document) :=
  match session with
  | None => mret unauthenticatedResponse
  | Some userId =>
      match parseDetailRequest pipelineId with
      | None => mret invalidRequestResponse
      | Some pipelineId =>
          answering
            (run ← enqueue userId pipelineId;
             run ← lift (parse pipelineRunResponseSchema run);
             mret (jsonResponse 200 (plain (encodeRunResponse run))))
            actionErrorResponse
      end
  end.
End routes.
