(* ===== verification/PipelineRouteProofs.v ===== *)
(** * Correctness of the pipeline routes

    A run request crosses the control plane and the scheduler service and
    means what the action means; a created pipeline reads back through the
    routes; no route acts without a session or on the pipelines of others. *)

From S2P Require Import Prelude Js Contracts StateMachine Schemas Http Graph Database Integrity Statements RunQueue.
From S2P Require Import Documents Repository RepositoryProofs Actions SchedulerService Paths Retention Uploads.
From S2P Require Import PipelineRoutes UploadProofs.

Lemma slice_append p s : slice (String.length p) (p +:+ s) = s.
Proof. induction p as [|c p IH]; [done|]. exact IH. Qed.

Lemma token_valid token token' :
  hasValidInternalToken (Some (bearerPrefix +:+ token)) token' = bool_decide (token = token').
Proof.
  unfold hasValidInternalToken.
  assert (startsWith bearerPrefix (bearerPrefix +:+ token) = true) as -> by (apply startsWith_iff; by exists token).
  cbn [negb]. rewrite slice_append. case_bool_decide as Heq.
  - rewrite Heq, Nat.eqb_refl. apply String.eqb_refl.
  - by rewrite (proj2 (String.eqb_neq _ _) Heq), andb_false_r.
Qed.

Section routes.
Context `{!Uuids, !Formats}.

(** The request the control plane sends to the scheduler. *)
Definition runMessage (token owner id : string) : Request := {|
  request_method := "POST"; authorization := Some (bearerPrefix +:+ token);
  request_body := document (JObject [("ownerUserId", JString owner); ("pipelineId", JString id)]) |}.

Lemma parse_runMessage token owner id :
  is_uuid owner = true → is_uuid id = true → SchedulerService.parseActionInput (runMessage token owner id) = Some (owner, id).
Proof. intros Ho Hi. unfold SchedulerService.parseActionInput. simpl. by rewrite Ho, Hi. Qed.

Lemma decode_runResponse run :
  pipelineRunResponseSchema run = true → parseRunResponse (encodeRunResponse run) = Ok run.
Proof.
  intros Hrun. pose proof Hrun as [[Hc%bool_decide_eq_true _]%andb_prop _]%andb_prop.
  unfold parseRunResponse, safeParse.
  assert (decodeRunResponse (encodeRunResponse run) = Some run) as ->.
  { destruct run as [count id behind runId]. simpl in Hc. by apply decode_run. }
  simpl. by rewrite Hrun.
Qed.

(** What a run request means: the answer to the outcome of the action. *)
Definition runAnswer (outcome : result CreatedPipelineRun) : result (Response Document) :=
  match outcome with
  | Ok run => if pipelineRunResponseSchema run then Ok (jsonResponse 200 (plain (encodeRunResponse run)))
              else Throw ZodError
  | Throw (PipelineActionConflictError locked _ _) => Ok (conflictResponse "pipeline_locked")
  | Throw (PipelineActionConflictError not_enabled _ _) => Ok (conflictResponse "pipeline_not_enabled")
  | Throw (PipelineActionConflictError _ _ _) => Ok notFoundResponse
  | Throw (PipelineSchedulerConflictError code) => Ok (schedulerConflictResponse code)
  | Throw e => Throw e
  end.

(** A run requested through the control plane, carried to the scheduler
    service under the shared token and back, has exactly the effect of the
    scheduler's action for the signed-in owner, and is answered by its
    outcome: the run, or the conflict under its public code. With any other
    token the scheduler does nothing. *)
Theorem runRoute_through_scheduler token token' now owner id d :
  is_uuid owner = true → is_uuid id = true →
  runRoute (enqueueRunRemotely token (internalPipelineRunHandler token' now)) (Some owner) id d =
    if decide (token = token') then
      (runAnswer (enqueuePipelineRunForOwner owner id now d).1, (enqueuePipelineRunForOwner owner id now d).2)
    else (Throw (JsError "The scheduler did not accept the pipeline run request."), d).
Proof.
  intros Ho Hi. unfold runRoute, parseDetailRequest. rewrite Hi.
  unfold answering at 1, try_catch. rewrite bind_run. unfold enqueueRunRemotely. rewrite bind_run.
  fold (runMessage token owner id). unfold internalPipelineRunHandler. rewrite decide_False by (by intros ?).
  change (authorization (runMessage token owner id)) with (Some (bearerPrefix +:+ token)).
  rewrite token_valid. destruct (decide (token = token')) as [Heq|Hne]; cycle 1.
  { by rewrite bool_decide_eq_false_2. }
  rewrite bool_decide_eq_true_2 by done. cbn [negb]. rewrite parse_runMessage by done.
  unfold answering, try_catch. rewrite bind_run.
  destruct (enqueuePipelineRunForOwner owner id now d) as [[run|e] d'] eqn:E; cbn [fst snd runAnswer].
  - rewrite bind_run. unfold lift at 1, parse at 1.
    destruct (pipelineRunResponseSchema run) eqn:Hrun; [|done].
    unfold mret at 1, M_ret at 1. cbv beta iota. cbn [response_ok].
    change (response_ok (jsonResponse 200 (encodeRunResponse run))) with true. cbv iota.
    unfold responseJson. cbn [body jsonResponse]. rewrite bind_run. unfold lift at 1.
    unfold lift at 1. rewrite decode_runResponse by done. cbv beta iota.
    rewrite bind_run. unfold lift, parse. by rewrite Hrun.
  - destruct e as [| | | | | | | |[] ? ?| |[]| | |]; reflexivity.
Qed.
(** ** Creation *)

Definition createMessage (r : PipelineCreateRequest) : Request := {|
  request_method := "POST"; authorization := None; request_body := document (encodeCreateRequest r) |}.

Lemma getRoute_run owner id d p :
  is_uuid id = true → hydrateView owner id d = Ok p → (∀ q, p = Some q → pipelineSchema q = true) →
  getRoute (Some owner) id d =
    (Ok match p with Some q => jsonResponse 200 (pipelineDocument q) | None => notFoundResponse end, d).
Proof.
  intros Hid Hview Hschema. unfold getRoute, parseDetailRequest. rewrite Hid.
  rewrite bind_run, getPipeline_run, Hview. destruct p as [q|]; [|done].
  rewrite bind_run. unfold lift, parse. by rewrite (Hschema q eq_refl).
Qed.

Lemma createdPipeline_schema owner request d p d' :
  createPipelineGraph owner request d = (Ok p, d') → pipelineSchema p = true.
Proof.
  intros (trows & Hc)%createPipelineGraph_ok. cbv zeta in Hc. destruct Hc as (_ & _ & _ & Hh).
  by apply hydratePipeline_ok in Hh as (ts & _ & Hs & ->).
Qed.

(** A creation over HTTP. A document of a graph that is no pipeline is
    a bad request and changes nothing. When the repository creates the
    pipeline the answer is that pipeline: its owner reads it back through
    the detail route, anyone else is told it does not exist, and none of its
    owner's uploads it reads stays staged for collection. *)
Theorem createRoute_then_getRoute owner r d :
  integrity d → is_uuid owner = true → pipelineCreateRequestSchema r = true →
  (∀ message, validatePipelineGraph r = Throw (InvalidPipelineTopologyError message) →
     createRoute (Some owner) (createMessage r) d = (Ok invalidRequestResponse, d)) ∧
  (∀ p d1, createPipeline owner r d = (Ok p, d1) → ∃ d2,
     createRoute (Some owner) (createMessage r) d = (Ok (jsonResponse 201 (pipelineDocument p)), d2) ∧
     getRoute (Some owner) (pipeline_id p) d2 = (Ok (jsonResponse 200 (pipelineDocument p)), d2) ∧
     (∀ other, other ≠ owner → getRoute (Some other) (pipeline_id p) d2 = (Ok notFoundResponse, d2)) ∧
     (∀ u, u ∈ stagedUploads d2 → up_ownerUserId u = owner →
        up_storageLocation u ∉ uploadStorageLocations p)).
Proof.
  intros Hd Ho Hr.
  assert (readJsonObject (createMessage r) ≫= safeParse decodeCreateRequest pipelineCreateRequestSchema = Some r)
    as Hread.
  { change (safeParse decodeCreateRequest pipelineCreateRequestSchema (encodeCreateRequest r) = Some r).
    unfold safeParse. rewrite decode_create. simpl. by rewrite Hr. }
  split.
  - intros message Hg. unfold createRoute. rewrite Hread.
    erewrite (answering_throw _ _ _ (InvalidPipelineTopologyError message)); [done|].
    unfold createPipeline. rewrite !bind_run. unfold lift at 1, parse. rewrite Ho. cbv beta iota.
    rewrite bind_run. unfold lift at 1. rewrite Hr. cbv beta iota.
    rewrite bind_run. unfold lift at 1. by rewrite Hg.
  - intros p d1 Hc. pose proof Hc as (_ & _ & _ & Hg)%createPipeline_ok.
    pose proof (createdPipeline_schema _ _ _ _ _ Hg) as Hschema.
    destruct (created_views _ _ _ _ _ Hd Hg) as (Hown & _).
    eexists. split.
    { unfold createRoute. rewrite Hread. apply answering_ok. rewrite bind_run, Hc. cbv beta iota.
      rewrite bind_run, claimPipelineUploads_run. cbv beta iota.
      rewrite bind_run. unfold lift, parse. by rewrite Hschema. }
    assert (is_uuid (pipeline_id p) = true) as Hid.
    { unfold pipelineSchema in Hschema. by repeat (apply andb_prop in Hschema as [Hschema ?]). }
    assert (∀ other P `{∀ u, Decision (P u)}, hydrateView other (pipeline_id p) (set_stagedUploads (filter P (stagedUploads d1)) d1) =
      if decide (other = owner) then Ok (Some p) else Ok None) as Hview.
    { intros other P ?. by rewrite <-Hown. }
    split_and!.
    + erewrite getRoute_run; [|done|by rewrite Hview, decide_True|by intros q [= <-]]. done.
    + intros other Hne. erewrite getRoute_run; [|done|by rewrite Hview, decide_False|done]. done.
    + intros u [Hn _]%list_elem_of_filter Hu Hin. by apply Hn.
Qed.
End routes.
