(* ===== verification/ControlPlane.v ===== *)
(** * The control plane

    [apps/web/src/routes/api]: the pipeline routes with the repository, the
    catalog and the scheduler client the modules wire them to, as one
    function from a call to an answer, and what no sequence of calls can do:
    act without a session or touch the pipelines of another owner. *)

From S2P Require Import Prelude Js Contracts StateMachine Schemas Http Graph Database Integrity Statements.
From S2P Require Import RunLogs RunQueue RunQueueProofs Frames QueueClaims Documents Repository RepositoryProofs.
From S2P Require Import Actions SchedulerService Uploads UploadProofs PipelineRoutes.

(** A request to one of the pipeline resources. *)
Inductive RouteCall :=
  | ListPipelines
  | CreatePipeline (request : Request)
  | GetPipeline (pipelineId : string)
  | UpdatePipeline (pipelineId : string) (request : Request)
  | DeletePipeline (pipelineId : string)
  | EnablePipeline (pipelineId : string)
  | DisablePipeline (pipelineId : string)
  | DuplicatePipeline (pipelineId : string) (request : Request)
  | ExecutionState (pipelineId : string)
  | RunPipeline (pipelineId : string).

(** [getApiSession]: a session that must change its password is none. *)
Definition getApiSession (session : option (string * bool)) : option string :=
  match session with
  | Some (userId, requiresPasswordChange) => if (requiresPasswordChange : bool) then None else Some userId
  | None => None
  end.

Section routes.
Context `{!Uuids, !Formats}.
Context (builtInComponentCapabilities : list ComponentMetadata).
Context (enqueue : Z → string → string → DB CreatedPipelineRun).

Definition controlPlane (session : option (string * bool)) (now : Z) (call : RouteCall) : DB (Response Document) :=
  let session := getApiSession session in
  match call with
  | ListPipelines => listRoute session
  | CreatePipeline request => createRoute session request
  | GetPipeline pipelineId => getRoute session pipelineId
  | UpdatePipeline pipelineId request => updateRoute session pipelineId request now
  | DeletePipeline pipelineId => deleteRoute session pipelineId
  | EnablePipeline pipelineId => enableRoute builtInComponentCapabilities session pipelineId now
  | DisablePipeline pipelineId => disableRoute session pipelineId now
  | DuplicatePipeline pipelineId request => duplicateRoute session pipelineId request
  | ExecutionState pipelineId => executionStateRoute session pipelineId
  | RunPipeline pipelineId => runRoute (enqueue now) session pipelineId
  end.

(** The calls of a history, one after the other; an exception of one is the
    answer 500 of the server and ends nothing. *)
Fixpoint serve (history : list (option (string * bool) * Z * RouteCall)) (d : Database) : Database :=
  match history with
  | [] => d
  | (session, now, call) :: history => serve history (controlPlane session now call d).2
  end.
End routes.

(** ** Isolation *)

(** The store with the pipeline [id] as the view [v] shows it. *)
Definition showing (id : string)
    (v : list PipelineRow * list ComponentRow * list EdgeRow * list TriggerRow) (d : Database) : Prop :=
  integrity d ∧ pipelineView id d = v.

(** A view of one pipeline that is not the user's. *)
Definition foreign (user : string)
    (v : list PipelineRow * list ComponentRow * list EdgeRow * list TriggerRow) : Prop :=
  ∃ row, v.1.1.1 = [row] ∧ p_ownerUserId row ≠ user.

Lemma preserves_conj {S E A} (I J : S → Prop) (m : M S E A) :
  preserves I m → (∀ s, I s → J s → J (m s).2) → preserves (λ s, I s ∧ J s) m.
Proof. intros Hm Hj s [Hi Hs]. split; [by apply Hm|by apply Hj]. Qed.

Section isolation.
Context `{!Uuids, !Formats}.
Context (user id : string) (v : list PipelineRow * list ComponentRow * list EdgeRow * list TriggerRow).
Hypothesis other : foreign user v.

Lemma showing_row d : showing id v d → ∃ row, row ∈ pipelines d ∧ p_id row = id ∧
  p_ownerUserId row ≠ user ∧ ∀ r, r ∈ pipelines d → p_id r = id → r = row.
Proof.
  intros [Hd Hv]. destruct other as (row & Hrow & Hne). exists row. rewrite <-Hv in Hrow. simpl in Hrow.
  assert (row ∈ filter (λ p, p_id p = id) (pipelines d)) as [Hid Hin]%list_elem_of_filter by (rewrite Hrow; left).
  split_and!; try done. intros r Hr Hrid. by apply (NoDup_fmap_eq p_id (pipelines d) r row (pk_pipelines d Hd) Hr Hin); rewrite Hrid.
Qed.

(** The user owns no pipeline of this id. *)
Lemma showing_not_owned d : showing id v d →
  ∀ r, r ∈ pipelines d → p_id r = id → p_ownerUserId r ≠ user.
Proof. intros (row & _ & _ & ? & Huniq)%showing_row r Hr Hid. by rewrite (Huniq r Hr Hid). Qed.

Lemma createPipeline_showing request : preserves (showing id v) (createPipeline user request).
Proof.
  apply preserves_conj; [apply createPipeline_integrity|]. intros d Hd Hv.
  destruct (createPipeline user request d) as [[p|e] d'] eqn:E; simpl.
  - apply createPipeline_ok in E as (_ & _ & _ & Hg).
    destruct (created_views _ _ _ _ _ Hd Hg) as (_ & Hother & _). rewrite Hother; [done|].
    intros Heq. destruct (showing_row d) as (row & Hrow & Hid & _); [done|]. rewrite Heq in Hid.
    apply createPipelineGraph_ok in Hg as (trows & Hg). cbv zeta in Hg. destruct Hg as (_ & _ & Hfresh & Hh).
    apply hydratePipeline_ok in Hh as (ts & _ & _ & Hp). rewrite Hp in Hid. simpl in Hid.
    apply Hfresh. rewrite <-Hid. by apply list_elem_of_fmap_2.
  - unfold createPipeline in E. rewrite !bind_run in E. unfold lift in E. revert E.
    destruct (parse is_uuid user); [|by intros [= _ <-]]. rewrite bind_run.
    destruct (parse pipelineCreateRequestSchema request); [|by intros [= _ <-]]. rewrite bind_run.
    destruct (validatePipelineGraph _); [|by intros [= _ <-]].
    by intros (-> & _)%transaction_throw.
Qed.

Lemma updatePipeline_showing id' update now : preserves (showing id v) (updatePipeline user id' update now).
Proof.
  apply preserves_conj; [apply updatePipeline_integrity|]. intros d Hd Hv.
  destruct (updatePipeline user id' update now d) as [[[p|]|e] d'] eqn:E; simpl.
  - apply updatePipeline_ok in E as (_ & _ & _ & Hm).
    apply updatePipelineInTransaction_ok in Hm as (row & old & g & Hrow & Hid & Hown & _ & _ & Hm).
    cbv zeta in Hm. destruct Hm as (_ & Hhead & Hrep & _).
    assert (id' ≠ id) as Hne by (intros Heq; apply (showing_not_owned d) in Hrow; [done|done|congruence]).
    rewrite <-Hid in Hhead. rewrite (filter_key_singleton p_id _ row (pk_pipelines d Hd) Hrow) in Hhead.
    injection Hhead as Hg. assert (p_id (graph_pipeline g) = id') as Hgid by (by rewrite <-Hg).
    apply replaceGraphRecords_ok in Hrep; [|exact (updatePipelines_integrity (λ r, p_id r = id')
      (Some (create_name (mergeUpdate old update))) (default (p_state row) (update_state update)) now d Hd)].
    destruct Hrep as (_ & Hps & [_ HC] & [_ HE] & [_ HT] & _). rewrite Hgid in HC, HE, HT.
    rewrite <-Hv. unfold pipelineView. rewrite HC, HE, HT by done. rewrite Hps. simpl.
    rewrite filter_updateIf_other; [done|]. intros r _ Hr. split; simpl; congruence.
  - apply updatePipeline_ok in E as (_ & _ & _ & Hm). unfold updatePipelineInTransaction in Hm.
    apply bind_ok in Hm as (o & d1 & Hs & Hm). injection Hs as <- <-.
    destruct (head _) as [row|]; [|by apply ret_ok in Hm as [_ <-]].
    apply bind_ok in Hm as (? & ? & _ & Hm). cbv zeta in Hm. apply bind_ok in Hm as (? & ? & _ & Hm).
    apply bind_ok in Hm as (? & ? & _ & Hm). apply bind_ok in Hm as (? & ? & _ & Hm).
    apply bind_ok in Hm as (? & ? & _ & Hm). apply bind_ok in Hm as ([|? ?] & ? & _ & Hm); [done|].
    apply bind_ok in Hm as (? & ? & _ & Hm). by apply bind_ok in Hm as (? & ? & _ & [? _]%ret_ok).
  - unfold updatePipeline, parse in E. revert E. destruct (is_uuid user); [|by intros [= _ <-]].
    destruct (is_uuid id'); [|by intros [= _ <-]].
    destruct (pipelineUpdateRequestSchema update); [|by intros [= _ <-]]. run_m.
    by intros (-> & _)%transaction_throw.
Qed.

Lemma deletePipeline_showing id' : preserves (showing id v) (deletePipeline user id').
Proof.
  apply preserves_conj; [apply deletePipeline_integrity|]. intros d Hd Hv.
  unfold deletePipeline, transaction, selectFirst, select. run_m.
  destruct (head (filter _ (pipelines d))) as [row|] eqn:E; [|done].
  apply head_filter_Some in E as (Hrow & Hid & Hown).
  assert (id' ≠ id) as Hne by (intros Heq; apply (showing_not_owned d) in Hrow; [done|done|congruence]).
  destruct (executionState _ _) as [st|e]; [|done]. destruct (isPipelineEditable st); simpl; [|done].
  destruct (head (filter _ (runs d))); [done|]. rewrite Hid.
  pose proof (owned_unique user id' row d Hd Hrow Hid Hown) as Hone.
  match goal with |- context [@deletePipelines ?P ?i d] =>
    destruct (@deletePipelines P i d) as [[out|err] d'] eqn:Hdel end.
  - destruct (deletePipelines_view _ row d _ d' Hd Hrow Hone Hdel) as (-> & _ & Hothers). simpl.
    rewrite Hothers; [done|congruence].
  - unfold deletePipelines in Hdel. by apply transaction_throw in Hdel as [-> _].
Qed.

(** What reads or writes other tables shows the same pipeline. *)
Lemma frame_showing {A} (m : DB A) :
  preserves integrity m → (∀ d, pipelineView id (m d).2 = pipelineView id d) → preserves (showing id v) m.
Proof. intros Hi Hm. apply preserves_conj; [done|]. intros d _ Hv. by rewrite Hm. Qed.

Lemma getPipeline_showing owner id' : preserves (showing id v) (getPipeline owner id').
Proof. intros d Hd. by rewrite getPipeline_run. Qed.

Lemma newId_showing : preserves (showing id v) newId.
Proof. apply frame_showing; [|done]. auto with preserves. Qed.

Lemma claimPipelineUploads_showing owner p : preserves (showing id v) (claimPipelineUploads owner p).
Proof.
  apply frame_showing; [|intros d; by rewrite claimPipelineUploads_run].
  intros d Hd. rewrite claimPipelineUploads_run. exact (deleteStagedUploads_integrity _ d Hd).
Qed.

Lemma updatePipelines_showing id' name state now :
  preserves (showing id v) (updatePipelines (λ p, p_id p = id' ∧ p_ownerUserId p = user) name state now).
Proof.
  intros d Hd. split; [apply updatePipelines_integrity, Hd|].
  pose proof (showing_not_owned d Hd) as Hnot. destruct Hd as [Hd Hv].
  rewrite <-Hv. unfold pipelineView. simpl. rewrite filter_updateIf_other; [done|].
  intros r Hin [Hr Hru]. simpl. assert (p_id r ≠ id); [|done]. intros Hid. by apply (Hnot r).
Qed.

Lemma setPipelineStateForOwner_showing id' state now catalog :
  preserves (showing id v) (setPipelineStateForOwner user id' state now catalog).
Proof.
  unfold setPipelineStateForOwner. apply preserves_lift_bind. intros ids Hids.
  assert (ids = (user, id')) as ->.
  { unfold parseActionInput in Hids. apply outcome_bind_ok in Hids as (i & Hi & Hids).
    apply outcome_bind_ok in Hids as (o & Ho & [= <-]). apply parse_ok in Hi as [_ <-].
    by apply parse_ok in Ho as [_ <-]. }
  unfold readPipelineTopologyForExecutableCheck. pose proof updatePipelines_showing. solve_preserves.
Qed.

Lemma duplicatePipeline_showing id' name : preserves (showing id v) (duplicatePipeline user id' name newId).
Proof.
  unfold duplicatePipeline. apply preserves_lift_bind. intros o [_ <-]%parse_ok.
  unfold buildDuplicateCreateRequest. pose proof createPipeline_showing.
  pose proof getPipeline_showing. pose proof newId_showing. solve_preserves.
Qed.

(** The scheduler's action writes no table a pipeline is read from. *)
Lemma createPipelineRun_view request now :
  preserves (λ d, pipelineView id d = v) (createPipelineRun request now).
Proof.
  unfold createPipelineRun, createPipelineRunInTransaction, promoteOldestQueuedRun, createInitialSourceJobs,
    recordOperationalEvent, recordOperationalEvents, findActivePipelineRun, getRunLogRetentionDays.
  solve_preserves.
Qed.

Lemma enqueuePipelineRunForOwner_showing owner id' now :
  preserves (showing id v) (enqueuePipelineRunForOwner owner id' now).
Proof.
  assert (preserves integrity (enqueuePipelineRunForOwner owner id' now)) as Hint.
  { unfold enqueuePipelineRunForOwner, runPipelineForOwner, findOwnedPipeline.
    pose proof createPipelineRun_integrity. solve_preserves. }
  assert (preserves (λ d, pipelineView id d = v) (enqueuePipelineRunForOwner owner id' now)) as Hview.
  { unfold enqueuePipelineRunForOwner, runPipelineForOwner, findOwnedPipeline.
    pose proof createPipelineRun_view. solve_preserves. }
  intros d [Hd Hv]. split; [by apply Hint|by apply Hview].
Qed.

Lemma answering_showing {A} (m : DB A) respond : preserves (showing id v) m → preserves (showing id v) (answering m respond).
Proof. intros Hm. unfold answering. apply preserves_try_catch; [done|]. intros e.
  case_match; [apply preserves_ret|apply preserves_throw].
Qed.

Context (catalog : list ComponentMetadata) (enqueue : Z → string → string → DB CreatedPipelineRun).
Hypothesis enqueue_showing : ∀ now id', preserves (showing id v) (enqueue now user id').

Lemma controlPlane_showing session now call :
  getApiSession session = Some user → preserves (showing id v) (controlPlane catalog enqueue session now call).
Proof.
  intros Hs. unfold controlPlane. rewrite Hs.
  pose proof createPipeline_showing. pose proof updatePipeline_showing. pose proof deletePipeline_showing.
  pose proof duplicatePipeline_showing. pose proof setPipelineStateForOwner_showing. pose proof getPipeline_showing.
  pose proof claimPipelineUploads_showing. pose proof @answering_showing.
  destruct call; unfold listRoute, createRoute, getRoute, updateRoute, deleteRoute, enableRoute, disableRoute,
    stateActionRoute, duplicateRoute, executionStateRoute, runRoute, enablePipelineForOwner, disablePipelineForOwner,
    listPipelinesByOwner, getActiveRunForPipeline;
    repeat first [ progress cbv zeta | solve [eauto with preserves] | apply answering_showing
                 | apply preserves_transaction | apply preserves_bind; [|intros ?]
                 | apply preserves_for_each; intros ? | case_match ].
Qed.
End isolation.

Section histories.
Context `{!Uuids, !Formats} (catalog : list ComponentMetadata) (token token' : string).

(** The scheduler the run route reaches: its internal endpoint. *)
Definition throughScheduler (now : Z) : string → string → DB CreatedPipelineRun :=
  enqueueRunRemotely token (internalPipelineRunHandler token' now).

Lemma throughScheduler_showing id v now user id' : preserves (showing id v) (throughScheduler now user id').
Proof.
  unfold throughScheduler, enqueueRunRemotely, internalPipelineRunHandler.
  pose proof enqueuePipelineRunForOwner_showing. pose proof @answering_showing.
  repeat first [ progress cbv zeta | solve [eauto with preserves] | apply answering_showing
               | apply preserves_bind; [|intros ?] | case_match ].
Qed.

(** C7: a call without a usable session is answered 401 and changes
    nothing; and whatever sequence of calls is served to users other than
    its owner, runs through the scheduler service included, the owner reads
    exactly the pipeline it read before. *)
Theorem controlPlane_isolates_owners history d owner id p :
  integrity d → getPipeline owner id d = (Ok (Some p), d) →
  (∀ session now call, (session, now, call) ∈ history → getApiSession session ≠ Some owner) →
  let d' := serve catalog throughScheduler history d in
  getPipeline owner id d' = (Ok (Some p), d') ∧
  (∀ session now call, getApiSession session = None →
     controlPlane catalog throughScheduler session now call d' = (Ok unauthenticatedResponse, d')).
Proof.
  intros Hd Hget Hothers d'. split; cycle 1.
  { intros session now call Hs. unfold controlPlane. rewrite Hs. by destruct call. }
  assert (∀ session now call, getApiSession session = None → ∀ d,
    (controlPlane catalog throughScheduler session now call d).2 = d) as Hnone.
  { intros session now call Hs d1. unfold controlPlane. rewrite Hs. by destruct call. }
  rewrite getPipeline_run in Hget. injection Hget as Hview.
  assert (∃ row, filter (λ p, p_id p = id) (pipelines d) = [row] ∧ p_ownerUserId row = owner) as (row & Hrow & Hown).
  { unfold hydrateView in Hview. rewrite list_filter_filter in Hview.
    destruct (head _) as [row|] eqn:E; [|done]. apply head_filter_Some in E as (Hin & Hown & Hid).
    exists row. split; [|done]. by rewrite <-(filter_key_singleton p_id (pipelines d) row (pk_pipelines d Hd) Hin), Hid. }
  assert (showing id (pipelineView id d) d') as [_ Hsame].
  { unfold d'. remember (pipelineView id d) as v eqn:Hv.
    assert (∀ user, user ≠ owner → foreign user v) as Hforeign.
    { intros user Hne. exists row. rewrite Hv. simpl. split; [done|]. congruence. }
    assert (showing id v d) as Hshow by done. clear Hv Hrow Hview Hd d'. revert d Hshow.
    induction history as [|[[session now] call] history IH]; intros d Hshow; simpl; [done|].
    apply IH; [intros; eapply Hothers; by right|].
    specialize (Hothers session now call (list_elem_of_here _ _)).
    destruct (getApiSession session) as [user|] eqn:Hs; [|by rewrite Hnone].
    apply (controlPlane_showing user id v); [apply Hforeign; congruence| |done|done].
    intros; apply throughScheduler_showing. }
  rewrite getPipeline_run. f_equal. rewrite <-Hview. by apply hydrateView_ext.
Qed.
End histories.
