(* ===== verification/BrowserClient.v ===== *)
(** * The browser's clients

    [apps/web/src/data]: pipelines/api.ts and pipelines/actions.ts, the
    clients of the pipeline routes, uploads/api.ts, the client of the upload
    route, and what the interface says of a failure
    (components/pipeline/pipeline-mutation-feedback.ts).

    [fetch] is an argument: it takes a call (a method and a path, as the
    router reads them) and either fails or answers. A [Document] that is not
    a pipeline is never accepted as one. *)

From S2P Require Import Prelude Js Contracts StateMachine Schemas Http Database Documents Repository.
From S2P Require Import RunQueue Files Uploads PipelineRoutes ControlPlane.

Module PipelineApiErrorCode.
Inductive t :=
  | invalid_pipeline_request | invalid_response | network_error | pipeline_has_run_history
  | pipeline_locked | pipeline_not_enabled | pipeline_not_executable | pipeline_not_found
  | unauthenticated | unknown_error.
End PipelineApiErrorCode.

Record PipelineApiError := { error_code : PipelineApiErrorCode.t; error_status : option Z }.

(** [body.code] of a response, where it is a string. *)
Definition responseCode (response : Response Document) : option string :=
  match body response with
  | Some (plain (JObject fields)) =>
      match get_field fields "code" with Some (JString code) => Some code | _ => None end
  | Some (violationsDocument code _) => Some code
  | _ => None
  end.

(** [isPipelineApiErrorCode] of api.ts. *)
Definition apiErrorCode (code : string) : option PipelineApiErrorCode.t :=
  match code with
  | "invalid_pipeline_request" => Some PipelineApiErrorCode.invalid_pipeline_request
  | "pipeline_has_run_history" => Some PipelineApiErrorCode.pipeline_has_run_history
  | "pipeline_locked" => Some PipelineApiErrorCode.pipeline_locked
  | "pipeline_not_enabled" => Some PipelineApiErrorCode.pipeline_not_enabled
  | "pipeline_not_executable" => Some PipelineApiErrorCode.pipeline_not_executable
  | "pipeline_not_found" => Some PipelineApiErrorCode.pipeline_not_found
  | _ => None
  end.

(** The codes actions.ts knows. *)
Definition actionErrorCode (code : string) : option PipelineApiErrorCode.t :=
  match code with
  | "pipeline_locked" => Some PipelineApiErrorCode.pipeline_locked
  | "pipeline_not_enabled" => Some PipelineApiErrorCode.pipeline_not_enabled
  | "pipeline_not_found" => Some PipelineApiErrorCode.pipeline_not_found
  | _ => None
  end.

(** [parseErrorCode] *)
Definition parseErrorCode (known : string → option PipelineApiErrorCode.t) (response : Response Document) :
    PipelineApiErrorCode.t :=
  if decide (status response = 401%Z) then PipelineApiErrorCode.unauthenticated
  else default PipelineApiErrorCode.unknown_error (responseCode response ≫= known).

(** The response validators. *)
Section validators.
Context `{!Formats}.

Definition asPipeline (d : Document) : option Pipeline :=
  match d with pipelineDocument p => if pipelineSchema p then Some p else None | _ => None end.

Definition asPipelineList (d : Document) : option (list Pipeline) :=
  match d with pipelinesDocument l => if forallb pipelineSchema l then Some l else None | _ => None end.

Definition asRun (d : Document) : option CreatedPipelineRun :=
  match d with plain j => safeParse decodeRunResponse SchedulerService.pipelineRunResponseSchema j | _ => None end.

Definition decodePhase (j : Json) : option ActivePhase :=
  match j with JString "queued" => Some active_queued | JString "running" => Some active_running | _ => None end.

Definition decodeActiveRun (j : Json) : option (string * ActivePhase) :=
  fields ← strictObject ["id"; "state"] j;
  id ← required fields "id" asString;
  state ← required fields "state" decodePhase;
  Some (id, state).

Definition decodeExecutionState (j : Json) : option (option (string * ActivePhase)) :=
  fields ← strictObject ["activeRun"] j;
  optionalField fields "activeRun" decodeActiveRun.

Definition asExecutionState (d : Document) : option (option (string * ActivePhase)) :=
  match d with
  | plain j => safeParse decodeExecutionState (optional (λ run : string * ActivePhase, is_uuid run.1)) j
  | _ => None
  end.
End validators.

Section client.
Context `{!Formats} {S : Type}.
Context (requestFetch : RouteCall → M S unit (Response Document)).

Abbreviation CLIENT := (M S PipelineApiError).

(** [parseRequest]: the value, where the schema accepts it. *)
Definition parseRequest {A} (accepted : bool) (a : A) : CLIENT A :=
  if accepted then mret a
  else throw {| error_code := PipelineApiErrorCode.invalid_pipeline_request; error_status := None |}.

(** [request] *)
Definition request (known : string → option PipelineApiErrorCode.t) (call : RouteCall) : CLIENT (Response Document) :=
  λ s, match requestFetch call s with
       | (Throw _, s) => (Throw {| error_code := PipelineApiErrorCode.network_error; error_status := None |}, s)
       | (Ok response, s) =>
           if response_ok response then (Ok response, s)
           else (Throw {| error_code := parseErrorCode known response; error_status := Some (status response) |}, s)
       end.

Definition requestDocument {A} (known : string → option PipelineApiErrorCode.t) (call : RouteCall)
    (responseSchema : Document → option A) : CLIENT A :=
  response ← request known call;
  match body response ≫= responseSchema with
  | Some a => mret a
  | None => throw {| error_code := PipelineApiErrorCode.invalid_response; error_status := Some (status response) |}
  end.

Definition post (j : Json) : Request := {| request_method := "POST"; authorization := None; request_body := document j |}.

(** *** api.ts *)

Definition client_create (value : PipelineCreateRequest) : CLIENT Pipeline :=
  value ← parseRequest (pipelineCreateRequestSchema value) value;
  requestDocument apiErrorCode (CreatePipeline (post (encodeCreateRequest value))) asPipeline.

Definition client_delete (pipelineId : string) : CLIENT unit :=
  pipelineId ← parseRequest (is_uuid pipelineId) pipelineId;
  request apiErrorCode (DeletePipeline pipelineId);;
  mret ().

Definition client_get (pipelineId : string) : CLIENT Pipeline :=
  pipelineId ← parseRequest (is_uuid pipelineId) pipelineId;
  requestDocument apiErrorCode (GetPipeline pipelineId) asPipeline.

Definition client_list : CLIENT (list Pipeline) := requestDocument apiErrorCode ListPipelines asPipelineList.

Definition client_update (pipelineId : string) (update : PipelineUpdateRequest) : CLIENT Pipeline :=
  pipelineId ← parseRequest (is_uuid pipelineId) pipelineId;
  update ← parseRequest (pipelineUpdateRequestSchema update) update;
  requestDocument apiErrorCode (UpdatePipeline pipelineId
    {| request_method := "PATCH"; authorization := None; request_body := document (encodeUpdateRequest update) |})
    asPipeline.

(** *** actions.ts *)

Definition client_enable (pipelineId : string) : CLIENT Pipeline :=
  pipelineId ← parseRequest (is_uuid pipelineId) pipelineId;
  requestDocument actionErrorCode (EnablePipeline pipelineId) asPipeline.

Definition client_disable (pipelineId : string) : CLIENT Pipeline :=
  pipelineId ← parseRequest (is_uuid pipelineId) pipelineId;
  requestDocument actionErrorCode (DisablePipeline pipelineId) asPipeline.

Definition client_duplicate (pipelineId : string) (name : option string) : CLIENT Pipeline :=
  parseRequest (is_uuid pipelineId && optional nonEmpty name) ();;
  requestDocument actionErrorCode
    (DuplicatePipeline pipelineId (post (JObject (presentField "name" (JString <$> name))))) asPipeline.

Definition client_getExecutionState (pipelineId : string) : CLIENT (option (string * ActivePhase)) :=
  pipelineId ← parseRequest (is_uuid pipelineId) pipelineId;
  requestDocument actionErrorCode (ExecutionState pipelineId) asExecutionState.

Definition client_run (pipelineId : string) : CLIENT CreatedPipelineRun :=
  pipelineId ← parseRequest (is_uuid pipelineId) pipelineId;
  requestDocument actionErrorCode (RunPipeline pipelineId) asRun.
End client.

(** *** pipeline-mutation-feedback.ts: the key of the message *)

Definition getPipelineMutationErrorMessage (error : PipelineApiError) : string :=
  match error_code error with
  | PipelineApiErrorCode.pipeline_locked => "pipeline.mutation.locked"
  | PipelineApiErrorCode.pipeline_has_run_history => "pipeline.mutation.hasRunHistory"
  | PipelineApiErrorCode.pipeline_not_executable => "pipeline.mutation.notExecutable"
  | PipelineApiErrorCode.unauthenticated => "pipeline.mutation.unauthenticated"
  | PipelineApiErrorCode.network_error => "pipeline.mutation.network"
  | _ => "pipeline.mutation.failed"
  end.

(** *** uploads/api.ts *)

Module SourceUploadApiErrorCode.
Inductive t :=
  | invalid_response | network_error | unauthenticated | unknown_error
  | unsupported_upload_type | upload_storage_unavailable | upload_too_large.
End SourceUploadApiErrorCode.

Definition uploadErrorCode (status : Z) : SourceUploadApiErrorCode.t :=
  if decide (status = 401%Z) then SourceUploadApiErrorCode.unauthenticated
  else if decide (status = 413%Z) then SourceUploadApiErrorCode.upload_too_large
  else if decide (status = 415%Z) then SourceUploadApiErrorCode.unsupported_upload_type
  else if decide (status = 503%Z) then SourceUploadApiErrorCode.upload_storage_unavailable
  else SourceUploadApiErrorCode.unknown_error.

Record SourceUploadApiError := { upload_code : SourceUploadApiErrorCode.t; upload_status : option Z }.

(** The answer of the route read by the client. *)
Definition client_upload {S} (requestFetch : UploadedFile → M S unit (Response UploadDocument)) (file : UploadedFile) :
    M S SourceUploadApiError SourceUploadResponse := λ s,
  match requestFetch file s with
  | (Throw _, s) => (Throw {| upload_code := SourceUploadApiErrorCode.network_error; upload_status := None |}, s)
  | (Ok response, s) =>
      if negb (response_ok response)
      then (Throw {| upload_code := uploadErrorCode (status response); upload_status := Some (status response) |}, s)
      else match body response with
           | Some (accepted r) =>
               if sourceUploadResponseSchema r then (Ok r, s)
               else (Throw {| upload_code := SourceUploadApiErrorCode.invalid_response;
                              upload_status := Some (status response) |}, s)
           | _ => (Throw {| upload_code := SourceUploadApiErrorCode.invalid_response;
                            upload_status := Some (status response) |}, s)
           end
  end.
