(* ===== verification/BrowserProofs.v ===== *)
(** * Correctness of the browser's clients

    What a user of the interface gets when it creates, reads, enables and
    runs pipelines: the clients of [BrowserClient] over the control plane of
    [ControlPlane], the store, and the scheduler behind them. *)

From S2P Require Import Prelude Js Contracts StateMachine Schemas Http Graph Database Integrity Statements RunQueue.
From S2P Require Import Documents Repository RepositoryProofs Actions SchedulerService Uploads PipelineRoutes.
From S2P Require Import PipelineRouteProofs ControlPlane BrowserClient.

Section browser.
Context `{!Uuids, !Formats}.
Context (catalog : list ComponentMetadata) (token token' : string).

(** The web server: an exception of a handler is the answer 500. *)
Definition service (session : option (string * bool)) (now : Z) : RouteCall → M Database unit (Response Document) :=
  λ call d, match controlPlane catalog (throughScheduler token token') session now call d with
            | (Ok response, d) => (Ok response, d)
            | (Throw _, d) => (Ok (emptyResponse 500), d)
            end.

Definition signed_in (user : string) : option (string * bool) := Some (user, false).

(** What a client makes of an answer. *)
Definition readAnswer {A} (known : string → option PipelineApiErrorCode.t) (schema : Document → option A)
    (answer : result (Response Document)) : outcome PipelineApiError A :=
  let response := match answer with Ok response => response | Throw _ => emptyResponse 500 end in
  if response_ok response then
    match body response ≫= schema with
    | Some a => Ok a
    | None => Throw {| error_code := PipelineApiErrorCode.invalid_response; error_status := Some (status response) |}
    end
  else Throw {| error_code := parseErrorCode known response; error_status := Some (status response) |}.

Lemma requestDocument_answer {S A} (fetch : RouteCall → M S unit (Response Document)) known call
    (schema : Document → option A) s :
  requestDocument fetch known call schema s =
    match fetch call s with
    | (Ok response, s) => (readAnswer known schema (Ok response), s)
    | (Throw _, s) =>
        (Throw {| error_code := PipelineApiErrorCode.network_error; error_status := None |}, s)
    end.
Proof.
  unfold requestDocument, request, readAnswer. rewrite bind_run.
  destruct (fetch call s) as [[response|e] s']; simpl; [|done].
  destruct (response_ok response); [|done]. by destruct (body response ≫= schema).
Qed.

Lemma requestDocument_run {A} session now known call (schema : Document → option A) d :
  requestDocument (service session now) known call schema d =
    (readAnswer known schema (controlPlane catalog (throughScheduler token token') session now call d).1,
     (controlPlane catalog (throughScheduler token token') session now call d).2).
Proof.
  rewrite requestDocument_answer. unfold service.
  by destruct (controlPlane _ _ _ _ _ d) as [[response|e] d'].
Qed.

Lemma get_run session now id d :
  is_uuid id = true →
  client_get (service session now) id d =
    (readAnswer apiErrorCode asPipeline (getRoute (getApiSession session) id d).1,
     (getRoute (getApiSession session) id d).2).
Proof. intros Hid. unfold client_get, parseRequest. rewrite Hid. exact (requestDocument_run _ _ _ _ _ _). Qed.

(** What the browser saves is what it opens: creating a pipeline that the
    request schema refuses sends nothing and says so; a graph that is no
    pipeline is refused by the server with the same code; and what the
    repository creates is returned, is read back identically by its owner,
    does not exist for anybody else, and needs signing in for everyone
    else. *)
Theorem client_create_then_get owner r now d :
  integrity d → is_uuid owner = true →
  let create := client_create (service (signed_in owner) now) r d in
  let get session := client_get (service session now) in
  let refused status := Throw {| error_code := PipelineApiErrorCode.invalid_pipeline_request; error_status := status |} in
  (pipelineCreateRequestSchema r = false → create = (refused None, d)) ∧
  (pipelineCreateRequestSchema r = true →
   (∀ message, validatePipelineGraph r = Throw (InvalidPipelineTopologyError message) →
      create = (refused (Some 400%Z), d)) ∧
   (∀ p d1, createPipeline owner r d = (Ok p, d1) → ∃ d2,
      create = (Ok p, d2) ∧
      get (signed_in owner) (pipeline_id p) d2 = (Ok p, d2) ∧
      (∀ other, other ≠ owner → get (signed_in other) (pipeline_id p) d2 =
         (Throw {| error_code := PipelineApiErrorCode.pipeline_not_found; error_status := Some 404%Z |}, d2)) ∧
      (∀ session, getApiSession session = None → get session (pipeline_id p) d2 =
         (Throw {| error_code := PipelineApiErrorCode.unauthenticated; error_status := Some 401%Z |}, d2)))).
Proof.
  intros Hd Ho create get refused. unfold create, client_create, parseRequest.
  split; [by intros ->|]. intros Hr. rewrite Hr.
  destruct (createRoute_then_getRoute owner r d Hd Ho Hr) as [Hbad Hgood].
  assert (∀ s, (value ← mret r; requestDocument (service (signed_in owner) now) apiErrorCode
    (CreatePipeline (post (encodeCreateRequest value))) asPipeline : M Database PipelineApiError Pipeline) s =
    (readAnswer apiErrorCode asPipeline (createRoute (Some owner) (createMessage r) s).1,
     (createRoute (Some owner) (createMessage r) s).2)) as Hcreate
    by (intros s; exact (requestDocument_run _ _ _ _ _ _)).
  rewrite Hcreate. split.
  - intros message Hg. by rewrite (Hbad message Hg).
  - intros p d1 Hc. pose proof Hc as (_ & _ & _ & Hg)%createPipeline_ok.
    pose proof (createdPipeline_schema _ _ _ _ _ Hg) as Hschema.
    assert (is_uuid (pipeline_id p) = true) as Hid.
    { pose proof Hschema as Hs. unfold pipelineSchema in Hs. by repeat (apply andb_prop in Hs as [Hs ?]). }
    destruct (Hgood p d1 Hc) as (d2 & Hrun & Hown & Hother & _). exists d2.
    rewrite Hrun. unfold get. split_and!.
    + unfold readAnswer. simpl. by rewrite Hschema.
    + rewrite get_run by done. change (getApiSession (signed_in owner)) with (Some owner). rewrite Hown. unfold readAnswer. simpl. by rewrite Hschema.
    + intros other Hne. rewrite get_run by done. change (getApiSession (signed_in other)) with (Some other).
      by rewrite (Hother other Hne).
    + intros session Hs. rewrite get_run by done. by rewrite Hs.
Qed.

(** The code and the status a refused action is reported with. *)
Definition reported (reason : PipelineActionConflictReason) : PipelineApiError :=
  match reason with
  | not_found => {| error_code := PipelineApiErrorCode.pipeline_not_found; error_status := Some 404%Z |}
  | locked => {| error_code := PipelineApiErrorCode.pipeline_locked; error_status := Some 409%Z |}
  | not_enabled => {| error_code := PipelineApiErrorCode.pipeline_not_enabled; error_status := Some 409%Z |}
  | not_executable => {| error_code := PipelineApiErrorCode.unknown_error; error_status := Some 409%Z |}
  end.

Definition serverError : PipelineApiError :=
  {| error_code := PipelineApiErrorCode.unknown_error; error_status := Some 500%Z |}.

(** C29: a run requested in the browser is the scheduler's: through the
    client, the control plane and the scheduler service it has exactly the
    effect of the scheduler's action for the signed-in owner, and the
    browser is told its outcome: the run, or the conflict under its code;
    without a usable session, with an identifier that is none, or with
    different tokens, nothing happens. *)
Theorem client_run_end_to_end owner id now d :
  is_uuid owner = true → is_uuid id = true →
  let outcome := enqueuePipelineRunForOwner owner id now d in
  let run session := client_run (service session now) id d in
  (token = token' → run (signed_in owner) =
     (match outcome.1 with
      | Ok r => if pipelineRunResponseSchema r then Ok r else Throw serverError
      | Throw (PipelineActionConflictError not_executable _ _) => Throw (reported not_found)
      | Throw (PipelineActionConflictError reason _ _) => Throw (reported reason)
      | Throw (PipelineSchedulerConflictError code) =>
          Throw (reported match code with
                          | scheduler_pipeline_not_found => not_found
                          | scheduler_pipeline_locked => locked
                          | scheduler_pipeline_not_enabled => not_enabled
                          end)
      | Throw _ => Throw serverError
      end, outcome.2)) ∧
  (token ≠ token' → run (signed_in owner) = (Throw serverError, d)) ∧
  (∀ session, getApiSession session = None → run session =
     (Throw {| error_code := PipelineApiErrorCode.unauthenticated; error_status := Some 401%Z |}, d)).
Proof.
  intros Ho Hi outcome run.
  assert (∀ session, run session =
    (readAnswer actionErrorCode asRun (runRoute (throughScheduler token token' now) (getApiSession session) id d).1,
     (runRoute (throughScheduler token token' now) (getApiSession session) id d).2)) as Hrun.
  { intros session. unfold run, client_run, parseRequest. rewrite Hi. exact (requestDocument_run _ _ _ _ _ _). }
  rewrite !Hrun. change (getApiSession (signed_in owner)) with (Some owner).
  unfold throughScheduler. rewrite runRoute_through_scheduler by done.
  split_and!.
  - intros Heq. rewrite decide_True by done. simpl. f_equal. unfold runAnswer, outcome.
    destruct (enqueuePipelineRunForOwner owner id now d).1 as [r|e].
    + destruct (pipelineRunResponseSchema r) eqn:Hs; [|done].
      unfold readAnswer. cbn [response_ok]. simpl.
      pose proof (decode_runResponse r Hs) as Hdec. unfold parseRunResponse in Hdec.
      destruct (safeParse _ _ _); [by injection Hdec as ->|done].
    + destruct e as [| | | | | | | |[] ? ?| |[]| | |]; reflexivity.
  - intros Hne. by rewrite decide_False.
  - intros session Hs. by rewrite Hrun, Hs.
Qed.

Lemma hydrateView_schema owner id d p : hydrateView owner id d = Ok (Some p) → pipelineSchema p = true.
Proof.
  unfold hydrateView. destruct (head _); [|done]. intros (q & Hq & [= ->])%outcome_bind_ok.
  by apply hydratePipeline_ok in Hq as (ts & _ & ? & ->).
Qed.

(** What the browser is told of an enabling: its effect is that of the
    repository's action, the enabled pipeline is returned as it now reads,
    and a refusal under its code, save that a pipeline that is not
    executable is reported as an unknown error: no answer, from any server,
    makes the enabling show the message the interface has for it. *)
Theorem client_enable_outcomes owner id now d :
  is_uuid owner = true → is_uuid id = true →
  let enable := client_enable (service (signed_in owner) now) id d in
  (∀ enabled d', enablePipelineForOwner owner id catalog now d = (Ok enabled, d') →
     ∀ p, getPipeline owner id d' = (Ok (Some p), d') → enable = (Ok p, d')) ∧
  (∀ reason message violations d',
     enablePipelineForOwner owner id catalog now d = (Throw (PipelineActionConflictError reason message violations), d') →
     enable = (Throw (reported reason), d')) ∧
  (∀ S (fetch : RouteCall → M S unit (Response Document)) s e s',
     client_enable fetch id s = (Throw e, s') →
     getPipelineMutationErrorMessage e ≠ "pipeline.mutation.notExecutable").
Proof.
  intros Ho Hi enable.
  assert (enable = (readAnswer actionErrorCode asPipeline (enableRoute catalog (Some owner) id now d).1,
    (enableRoute catalog (Some owner) id now d).2)) as ->.
  { unfold enable, client_enable, parseRequest. rewrite Hi. exact (requestDocument_run _ _ _ _ _ _). }
  unfold enableRoute, stateActionRoute, parseDetailRequest. rewrite Hi. split_and!.
  - intros enabled d' Hen p Hget. erewrite answering_ok; cycle 1.
    { rewrite bind_run, Hen. cbv beta iota. rewrite bind_run, Hget. cbv beta iota. rewrite bind_run.
      unfold lift, parse. rewrite getPipeline_run in Hget. injection Hget as Hview.
      by rewrite (hydrateView_schema _ _ _ _ Hview). }
    rewrite getPipeline_run in Hget. injection Hget as Hview. unfold readAnswer. simpl.
    by rewrite (hydrateView_schema _ _ _ _ Hview).
  - intros reason message violations d' Hen. erewrite answering_throw; [|by rewrite bind_run, Hen].
    by destruct reason.
  - intros S fetch s e s'. unfold client_enable, parseRequest. rewrite Hi, bind_run. unfold mret, M_ret.
    cbv beta iota. rewrite requestDocument_answer. destruct (fetch (EnablePipeline id) s) as [[response|[]] s1];
      [|by intros [= <- _]].
    unfold readAnswer. destruct (response_ok response).
    + destruct (body response ≫= asPipeline); [done|]. by intros [= <- _].
    + intros [= <- _]. unfold getPipelineMutationErrorMessage, parseErrorCode. simpl.
      case_decide; [done|]. destruct (responseCode response) as [code|]; simpl; [|done].
      unfold actionErrorCode. repeat (case_match; try done).
Qed.
End browser.
