(* ===== verification/QueryCache.v ===== *)
(** * The browser's cache of server answers

    [apps/web/src/data]: the keys under which answers are cached
    (pipelines/keys.ts, components/keys.ts), the queries that fill the cache
    (pipelines/queries.ts) and what each mutation does to it
    (pipelines/mutations.ts, pipelines/action-mutations.ts).

    The query library is a parameter, [QueryClient], with the documented
    meaning of its operations as laws: a key names the entries it is a prefix
    of. The clients are the interfaces [PipelineApiClient] and
    [PipelineActionApiClient] of the source; what the cache relies on of a
    server is the class [PipelineServer] of [QueryCacheProofs]. *)

From S2P Require Import Prelude Js Contracts StateMachine Schemas RunQueue BrowserClient.

(** ** keys.ts *)

Abbreviation QueryKey := (list string).

Module pipelineQueryKeys.
Definition all : QueryKey := ["pipelines"].
Definition details : QueryKey := all ++ ["detail"].
Definition detail (pipelineId : string) : QueryKey := details ++ [pipelineId].
Definition executionState (pipelineId : string) : QueryKey := all ++ ["execution-state"; pipelineId].
Definition lists : QueryKey := all ++ ["list"].
Definition list_ : QueryKey := lists.
End pipelineQueryKeys.

Module componentCapabilityQueryKeys.
Definition all : QueryKey := ["component-capabilities"].
Definition lists : QueryKey := all ++ ["list"].
Definition list_ (kind : option string) : QueryKey := lists ++ [default "all" kind].
End componentCapabilityQueryKeys.

(** ** The query library *)

Inductive CachedData :=
  | CachedPipeline (pipeline : Pipeline)
  | CachedPipelines (pipelines : list Pipeline)
  | CachedExecutionState (activeRun : option (string * ActivePhase)).

Class QueryClient (C : Type) := {
  getQueryData : QueryKey → C → option CachedData;
  isInvalidated : QueryKey → C → bool;
  setQueryData : QueryKey → CachedData → C → C;
  removeQueries : QueryKey → C → C;
  invalidateQueries : QueryKey → C → C }.

Class QueryClientLaws (C : Type) `{!QueryClient C} : Prop := {
  get_set k v c : getQueryData k (setQueryData k v c) = Some v;
  valid_set k v c : isInvalidated k (setQueryData k v c) = false;
  get_set_ne k k' v c : k ≠ k' → getQueryData k' (setQueryData k v c) = getQueryData k' c;
  valid_set_ne k k' v c : k ≠ k' → isInvalidated k' (setQueryData k v c) = isInvalidated k' c;
  get_remove k k' c : k `prefix_of` k' → getQueryData k' (removeQueries k c) = None;
  get_remove_other k k' c : ¬ k `prefix_of` k' → getQueryData k' (removeQueries k c) = getQueryData k' c;
  valid_remove_other k k' c : ¬ k `prefix_of` k' → isInvalidated k' (removeQueries k c) = isInvalidated k' c;
  get_invalidate k k' c : getQueryData k' (invalidateQueries k c) = getQueryData k' c;
  valid_invalidate k k' c : k `prefix_of` k' → getQueryData k' c ≠ None →
    isInvalidated k' (invalidateQueries k c) = true;
  valid_invalidate_other k k' c : ¬ k `prefix_of` k' →
    isInvalidated k' (invalidateQueries k c) = isInvalidated k' c }.

(** [setQueryData(key, updater)]: an updater that returns [undefined] leaves
    the cache alone. *)
Definition updateQueryData `{!QueryClient C} (k : QueryKey) (updater : option CachedData → option CachedData) (c : C) : C :=
  match updater (getQueryData k c) with
  | Some v => setQueryData k v c
  | None => c
  end.

(** ** The clients *)

Abbreviation CLIENT S := (M S PipelineApiError).

Record PipelineApiClient (S : Type) := {
  create : PipelineCreateRequest → CLIENT S Pipeline;
  delete_ : string → CLIENT S unit;
  get : string → CLIENT S Pipeline;
  list_ : CLIENT S (list Pipeline);
  update : string → PipelineUpdateRequest → CLIENT S Pipeline }.
Arguments create {S} _ _. Arguments delete_ {S} _ _. Arguments get {S} _ _.
Arguments list_ {S} _. Arguments update {S} _ _ _.

Record PipelineActionApiClient (S : Type) := {
  disable : string → CLIENT S Pipeline;
  duplicate : string → option string → CLIENT S Pipeline;
  enable : string → CLIENT S Pipeline;
  getExecutionState : string → CLIENT S (option (string * ActivePhase));
  run : string → CLIENT S CreatedPipelineRun }.
Arguments disable {S} _ _. Arguments duplicate {S} _ _ _. Arguments enable {S} _ _.
Arguments getExecutionState {S} _ _. Arguments run {S} _ _.

(** ** Mutations *)

Record MutationOptions (S C V A : Type) := { mutationFn : V → CLIENT S A; onSuccess : A → V → C → C }.
Arguments mutationFn {S C V A} _ _. Arguments onSuccess {S C V A} _ _ _ _.

(** [mutate(variables)]: the cache is reconciled when the call succeeds. *)
Definition mutate {S C V A} (options : MutationOptions S C V A) (variables : V) : CLIENT (S * C) A := λ st,
  match mutationFn options variables st.1 with
  | (Ok a, s) => (Ok a, (s, onSuccess options a variables st.2))
  | (Throw e, s) => (Throw e, (s, st.2))
  end.

Section mutations.
Context {S C : Type} `{!QueryClient C}.
Context (client : PipelineApiClient S) (actionClient : PipelineActionApiClient S).

(** *** mutations.ts *)

Definition writePipeline (pipeline : Pipeline) (c : C) : C :=
  updateQueryData pipelineQueryKeys.list_ (λ current,
    match current with
    | Some (CachedPipelines l) => Some (CachedPipelines (
        match list_find (λ candidate, pipeline_id candidate = pipeline_id pipeline) l with
        | None => l ++ [pipeline]
        | Some _ => (λ candidate, if decide (pipeline_id candidate = pipeline_id pipeline) then pipeline else candidate) <$> l
        end))
    | other => other
    end)
    (setQueryData (pipelineQueryKeys.detail (pipeline_id pipeline)) (CachedPipeline pipeline) c).

Definition removePipelineFromList (pipelineId : string) (c : C) : C :=
  updateQueryData pipelineQueryKeys.list_ (λ current,
    match current with
    | Some (CachedPipelines l) => Some (CachedPipelines (filter (λ pipeline, pipeline_id pipeline ≠ pipelineId) l))
    | other => other
    end) c.

Definition createPipelineMutationOptions : MutationOptions S C PipelineCreateRequest Pipeline := {|
  mutationFn := create client;
  onSuccess := λ pipeline _ c, invalidateQueries pipelineQueryKeys.lists (writePipeline pipeline c) |}.

Definition updatePipelineMutationOptions : MutationOptions S C (string * PipelineUpdateRequest) Pipeline := {|
  mutationFn := λ variables, update client variables.1 variables.2;
  onSuccess := λ pipeline _ c, invalidateQueries pipelineQueryKeys.lists (writePipeline pipeline c) |}.

Definition deletePipelineMutationOptions : MutationOptions S C string unit := {|
  mutationFn := delete_ client;
  onSuccess := λ _ request c, invalidateQueries pipelineQueryKeys.lists
    (removePipelineFromList request (removeQueries (pipelineQueryKeys.detail request) c)) |}.

(** *** action-mutations.ts *)

(** Its own [writePipeline]. *)
Definition writeActionPipeline (pipeline : Pipeline) (c : C) : C :=
  setQueryData (pipelineQueryKeys.detail (pipeline_id pipeline)) (CachedPipeline pipeline) c.

Definition invalidatePipeline (pipelineId : string) (c : C) : C :=
  invalidateQueries pipelineQueryKeys.lists (invalidateQueries (pipelineQueryKeys.detail pipelineId) c).

Definition duplicatePipelineMutationOptions : MutationOptions S C (string * option string) Pipeline := {|
  mutationFn := λ request, duplicate actionClient request.1 request.2;
  onSuccess := λ pipeline _ c, invalidateQueries pipelineQueryKeys.lists (writeActionPipeline pipeline c) |}.

Definition runPipelineMutationOptions : MutationOptions S C string CreatedPipelineRun := {|
  mutationFn := run actionClient;
  onSuccess := λ _ request c, invalidatePipeline request c |}.

(** The action is [true] to enable. *)
Definition statePipelineMutationOptions (action : bool) : MutationOptions S C string Pipeline := {|
  mutationFn := if action then enable actionClient else disable actionClient;
  onSuccess := λ pipeline _ c, invalidateQueries pipelineQueryKeys.lists (writeActionPipeline pipeline c) |}.

(** *** queries.ts *)

Record QueryOptions := { queryKey : QueryKey; queryFn : CLIENT S CachedData }.

Definition pipelineListQueryOptions : QueryOptions := {|
  queryFn := l ← list_ client; mret (CachedPipelines l); queryKey := pipelineQueryKeys.list_ |}.

Definition pipelineDetailQueryOptions (pipelineId : string) : QueryOptions := {|
  queryFn := p ← get client pipelineId; mret (CachedPipeline p); queryKey := pipelineQueryKeys.detail pipelineId |}.

Definition pipelineExecutionStateQueryOptions (pipelineId : string) : QueryOptions := {|
  queryFn := r ← getExecutionState actionClient pipelineId; mret (CachedExecutionState r);
  queryKey := pipelineQueryKeys.executionState pipelineId |}.

(** A query that is fetched stores its answer; one that fails keeps what
    there was ([retry: false]). *)
Definition fetchQuery (options : QueryOptions) : CLIENT (S * C) CachedData := λ st,
  match queryFn options st.1 with
  | (Ok v, s) => (Ok v, (s, setQueryData (queryKey options) v st.2))
  | (Throw e, s) => (Throw e, (s, st.2))
  end.

(** ** What a user does *)

Inductive Interaction :=
  | Creates (request : PipelineCreateRequest)
  | Updates (pipelineId : string) (request : PipelineUpdateRequest)
  | Deletes (pipelineId : string)
  | Duplicates (pipelineId : string) (name : option string)
  | Runs (pipelineId : string)
  | Switches (action : bool) (pipelineId : string)
  | ViewsList
  | ViewsDetail (pipelineId : string)
  | ViewsExecutionState (pipelineId : string).

Definition interact (i : Interaction) (st : S * C) : S * C :=
  match i with
  | Creates request => (mutate createPipelineMutationOptions request st).2
  | Updates pipelineId request => (mutate updatePipelineMutationOptions (pipelineId, request) st).2
  | Deletes pipelineId => (mutate deletePipelineMutationOptions pipelineId st).2
  | Duplicates pipelineId name => (mutate duplicatePipelineMutationOptions (pipelineId, name) st).2
  | Runs pipelineId => (mutate runPipelineMutationOptions pipelineId st).2
  | Switches action pipelineId => (mutate (statePipelineMutationOptions action) pipelineId st).2
  | ViewsList => (fetchQuery pipelineListQueryOptions st).2
  | ViewsDetail pipelineId => (fetchQuery (pipelineDetailQueryOptions pipelineId) st).2
  | ViewsExecutionState pipelineId => (fetchQuery (pipelineExecutionStateQueryOptions pipelineId) st).2
  end.
End mutations.
Arguments QueryOptions : clear implicits.

(** ** lib/pipeline-boundary.ts *)

Section boundary.
Context `{!Formats}.

Definition parsePipeline (value : Pipeline) : result Pipeline := parse pipelineSchema value.

(** The lock the editor of a pipeline shows. Without an answer to the
    execution state query there is none. *)
Definition getPipelineExecutionState (value : Pipeline) (executionState : option (option (string * ActivePhase))) :
    result PipelineExecutionState :=
  pipeline ← parsePipeline value;
  let state := createPipelineExecutionState (pipeline_state pipeline) in
  Ok {| pipelineState := pipelineState state;
        activeRun := match executionState with
                     | Some (Some run) =>
                         Some {| active_id := run.1; active_state := run.2; cancellationRequested := false |}
                     | _ => None
                     end;
        queuedRunIds := queuedRunIds state |}.
End boundary.
