(* ===== verification/QueryCacheProofs.v ===== *)
(** * The cache agrees with the server

    What the cache relies on of a server ([PipelineServer]), and that
    whatever a user does, an answer the cache holds as valid is the one the
    server would give. Execution states are the exception: requesting a run
    changes them and the mutation does not invalidate them. *)

From S2P Require Import Prelude Js Contracts StateMachine Schemas RunQueue BrowserClient QueryCache.

(** ** What a server promises *)

(** [S] are the states of the server, [reads] and [listing] the pipelines of
    the user in one, [active] the run of a pipeline that is queued or
    running. *)
Class PipelineServer (S : Type) := {
  wf : S → Prop;
  reads : string → S → option Pipeline;
  listing : S → list Pipeline → Prop;
  active : string → S → option (string * ActivePhase) }.

Section promises.
Context {S : Type} `{!PipelineServer S} (client : PipelineApiClient S) (actionClient : PipelineActionApiClient S).

(** The pipelines of the user are the same in both states. *)
Definition same_pipelines (s s' : S) : Prop :=
  (∀ id, reads id s' = reads id s) ∧ (∀ l, listing s' l ↔ listing s l).

(** A call that returns a pipeline has written that one and no other. *)
Definition saves (m : CLIENT S Pipeline) : Prop := ∀ s, wf s → wf (m s).2 ∧
  (∀ id, active id (m s).2 = active id s) ∧
  match m s with
  | (Ok p, s') => reads (pipeline_id p) s' = Some p ∧ ∀ id, id ≠ pipeline_id p → reads id s' = reads id s
  | (Throw _, s') => same_pipelines s s'
  end.

(** A call that answers without writing. *)
Definition answers {A} (m : CLIENT S A) (right : S → A → Prop) : Prop := ∀ s, wf s →
  (m s).2 = s ∧ ∀ a, (m s).1 = Ok a → right s a.

Class PipelineServerLaws : Prop := {
  create_saves request : saves (create client request);
  update_saves id request : saves (update client id request);
  duplicate_saves id name : saves (duplicate actionClient id name);
  enable_saves id : saves (enable actionClient id);
  disable_saves id : saves (disable actionClient id);
  delete_removes id s : wf s → wf (delete_ client id s).2 ∧
    (∀ id', active id' (delete_ client id s).2 = active id' s) ∧
    match delete_ client id s with
    | (Ok _, s') => ∀ id', id' ≠ id → reads id' s' = reads id' s
    | (Throw _, s') => same_pipelines s s'
    end;
  run_only_runs id s : wf s → wf (run actionClient id s).2 ∧ same_pipelines s (run actionClient id s).2 ∧
    (is_ok (run actionClient id s).1 = true → active id (run actionClient id s).2 ≠ None);
  get_reads id : answers (get client id) (λ s p, reads id s = Some p);
  list_lists : answers (list_ client) listing;
  getExecutionState_active id : answers (getExecutionState actionClient id) (λ s r, active id s = r) }.
End promises.
Arguments create_saves {S _ client actionClient _} _.
Arguments update_saves {S _ client actionClient _} _ _.
Arguments duplicate_saves {S _ client actionClient _} _ _.
Arguments enable_saves {S _ client actionClient _} _.
Arguments disable_saves {S _ client actionClient _} _.
Arguments delete_removes {S _ client actionClient _} _ _.
Arguments run_only_runs {S _ client actionClient _} _ _.
Arguments get_reads {S _ client actionClient _} _.
Arguments list_lists {S _ client actionClient _}.
Arguments getExecutionState_active {S _ client actionClient _} _.

(** ** Coherence *)

Section coherence.
Context {S C : Type} `{!PipelineServer S, !QueryClient C, !QueryClientLaws C}.
Implicit Types (s : S) (c : C).

Definition holds (k : QueryKey) (v : CachedData) (c : C) : Prop :=
  getQueryData k c = Some v ∧ isInvalidated k c = false.

Record coherent (s : S) (c : C) : Prop := {
  coherent_detail id p : holds (pipelineQueryKeys.detail id) (CachedPipeline p) c →
    reads id s = Some p;
  coherent_list l : holds pipelineQueryKeys.list_ (CachedPipelines l) c → listing s l }.

Definition coherent_runs (s : S) (c : C) : Prop := ∀ id r,
  holds (pipelineQueryKeys.executionState id) (CachedExecutionState r) c → active id s = r.

Lemma detail_inj id id' : pipelineQueryKeys.detail id = pipelineQueryKeys.detail id' → id = id'.
Proof. by intros [= ->]. Qed.

(** Once the collection is invalidated no answer for it counts. *)
Lemma invalidated_list c l :
  ¬ holds pipelineQueryKeys.list_ (CachedPipelines l) (invalidateQueries pipelineQueryKeys.lists c).
Proof.
  intros [Hget Hvalid]. rewrite get_invalidate in Hget.
  rewrite valid_invalidate in Hvalid; [done|done|]. by rewrite Hget.
Qed.

Lemma holds_after_invalidating k k' v c :
  holds k' v (invalidateQueries k c) → ¬ k `prefix_of` k' → holds k' v c.
Proof. intros [Hget Hvalid] Hk. rewrite get_invalidate in Hget. by rewrite valid_invalidate_other in Hvalid. Qed.

Lemma holds_set_ne k k' v v' c : holds k' v' (setQueryData k v c) → k ≠ k' → holds k' v' c.
Proof. intros [Hget Hvalid] Hk. by rewrite get_set_ne, valid_set_ne in *. Qed.

Lemma holds_update_ne k k' f v c : holds k' v (updateQueryData k f c) → k ≠ k' → holds k' v c.
Proof. unfold updateQueryData. destruct (f _); [apply holds_set_ne|done]. Qed.

(** What a mutation that returned [p] leaves of the cache [c]. *)
Record reconciled (p : Pipeline) (c c' : C) : Prop := {
  reconciled_detail id v : holds (pipelineQueryKeys.detail id) v c' →
    (id = pipeline_id p ∧ v = CachedPipeline p) ∨ (id ≠ pipeline_id p ∧ holds (pipelineQueryKeys.detail id) v c);
  reconciled_list l : ¬ holds pipelineQueryKeys.list_ (CachedPipelines l) c';
  reconciled_execution id v : holds (pipelineQueryKeys.executionState id) v c' →
    holds (pipelineQueryKeys.executionState id) v c }.

Lemma lists_not_detail id : ¬ pipelineQueryKeys.lists `prefix_of` pipelineQueryKeys.detail id.
Proof. intros [l Hl]. discriminate Hl. Qed.
Lemma lists_not_execution id : ¬ pipelineQueryKeys.lists `prefix_of` pipelineQueryKeys.executionState id.
Proof. intros [l Hl]. discriminate Hl. Qed.

Lemma written_detail p id v c :
  holds (pipelineQueryKeys.detail id) v (setQueryData (pipelineQueryKeys.detail (pipeline_id p)) (CachedPipeline p) c) →
  (id = pipeline_id p ∧ v = CachedPipeline p) ∨ (id ≠ pipeline_id p ∧ holds (pipelineQueryKeys.detail id) v c).
Proof.
  intros Hv. destruct (decide (id = pipeline_id p)) as [->|Hne]; [left|right].
  - destruct Hv as [Hget _]. rewrite get_set in Hget. by injection Hget as <-.
  - split; [done|]. apply holds_set_ne in Hv; [done|]. intros Heq%detail_inj. done.
Qed.

Lemma writeActionPipeline_reconciles p c :
  reconciled p c (invalidateQueries pipelineQueryKeys.lists (writeActionPipeline p c)).
Proof.
  split.
  - intros id v Hv%holds_after_invalidating; [|apply lists_not_detail]. by apply written_detail.
  - intros l. apply invalidated_list.
  - intros id v Hv%holds_after_invalidating; [|apply lists_not_execution]. by apply holds_set_ne in Hv.
Qed.

Lemma writePipeline_reconciles p c :
  reconciled p c (invalidateQueries pipelineQueryKeys.lists (writePipeline p c)).
Proof.
  split.
  - intros id v Hv%holds_after_invalidating; [|apply lists_not_detail].
    unfold writePipeline in Hv; apply holds_update_ne in Hv; [|done]. by apply written_detail.
  - intros l. apply invalidated_list.
  - intros id v Hv%holds_after_invalidating; [|apply lists_not_execution].
    unfold writePipeline in Hv; apply holds_update_ne in Hv; [|done]. by apply holds_set_ne in Hv.
Qed.

Lemma deleted_cache id v id' c :
  holds (pipelineQueryKeys.detail id') v (invalidateQueries pipelineQueryKeys.lists
    (removePipelineFromList id (removeQueries (pipelineQueryKeys.detail id) c))) →
  id' ≠ id ∧ holds (pipelineQueryKeys.detail id') v c.
Proof.
  intros Hv%holds_after_invalidating; [|apply lists_not_detail]. unfold removePipelineFromList in Hv; apply holds_update_ne in Hv as [Hget Hvalid]; [|done].
  destruct (decide (id' = id)) as [->|Hne]; [by rewrite get_remove in Hget by done|]. split; [done|].
  assert (¬ pipelineQueryKeys.detail id `prefix_of` pipelineQueryKeys.detail id') as Hk.
  { intros [l Hl]. by injection Hl as ->. }
  split; [by rewrite get_remove_other in Hget|by rewrite valid_remove_other in Hvalid].
Qed.

Lemma deleted_execution id v id' c :
  holds (pipelineQueryKeys.executionState id') v (invalidateQueries pipelineQueryKeys.lists
    (removePipelineFromList id (removeQueries (pipelineQueryKeys.detail id) c))) →
  holds (pipelineQueryKeys.executionState id') v c.
Proof.
  intros Hv%holds_after_invalidating; [|apply lists_not_execution]. unfold removePipelineFromList in Hv; apply holds_update_ne in Hv as [Hget Hvalid]; [|done].
  assert (¬ pipelineQueryKeys.detail id `prefix_of` pipelineQueryKeys.executionState id') as Hk.
  { intros [l Hl]. discriminate Hl. }
  split; [by rewrite get_remove_other in Hget|by rewrite valid_remove_other in Hvalid].
Qed.

(** *** Every interaction keeps the cache coherent *)

(** The states of an interaction. *)
Definition sound (st : S * C) : Prop := wf st.1 ∧ coherent st.1 st.2.

Lemma coherent_same s s' c : same_pipelines s s' → coherent s c → coherent s' c.
Proof.
  intros [Hr Hl] [Hd Hli]. split; [intros id p Hp; rewrite Hr; by apply Hd|]. intros l Hh. by apply Hl, Hli.
Qed.

Lemma mutate_saves {V} (options : MutationOptions S C V Pipeline) variables st :
  saves (mutationFn options variables) →
  (∀ p c, reconciled p c (onSuccess options p variables c)) →
  sound st → sound (mutate options variables st).2 ∧
    (coherent_runs st.1 st.2 → coherent_runs (mutate options variables st).2.1 (mutate options variables st).2.2).
Proof.
  intros Hsaves Hrec [Hwf Hco]. destruct st as [s c]. simpl in *. unfold mutate.
  destruct (Hsaves s Hwf) as (Hwf' & Hact & Hout). simpl.
  destruct (mutationFn options variables s) as [[p|e] s']; simpl in *.
  - destruct Hout as [Hp Hothers]. destruct (Hrec p c) as [Hdet Hlist Hex]. split.
    + split; [done|]. simpl. split; [|by intros l ?%Hlist].
      intros id q [(-> & [= ->])|(Hne & Hv)]%Hdet; [done|]. rewrite Hothers by done. by apply Hco.
    + intros Hruns id r Hr. rewrite Hact. by apply Hruns, Hex.
  - split; [split; [done|by eapply coherent_same]|]. intros Hruns id r Hr. rewrite Hact. by apply Hruns.
Qed.

Lemma fetch_answers {A} (m : CLIENT S A) (f : A → CachedData) key right st :
  answers m right →
  (∀ s a c, right s a → coherent s c → coherent s (setQueryData key (f a) c)) →
  (∀ s a c, right s a → coherent_runs s c → coherent_runs s (setQueryData key (f a) c)) →
  let options := {| queryKey := key; queryFn := a ← m; mret (f a) |} in
  sound st → sound (fetchQuery options st).2 ∧
    (coherent_runs st.1 st.2 → coherent_runs (fetchQuery options st).2.1 (fetchQuery options st).2.2).
Proof.
  intros Hm Hset Hruns options [Hwf Hco]. destruct st as [s c]. simpl in *. unfold fetchQuery. simpl.
  rewrite bind_run. destruct (Hm s Hwf) as [Hs Ha]. destruct (m s) as [[a|e] s']; simpl in *; subst s'; [|done].
  split; [split; [done|]|]; simpl; eauto.
Qed.

Section interactions.
Context (client : PipelineApiClient S) (actionClient : PipelineActionApiClient S) `{!PipelineServerLaws client actionClient}.
Abbreviation step := (interact client actionClient).

Lemma runs_sound id st :
  sound st → sound (step (Runs id) st) ∧ same_pipelines st.1 (step (Runs id) st).1.
Proof.
  destruct st as [s c]. intros [Hwf Hco]. simpl in *. unfold mutate. simpl.
  destruct (run_only_runs id s Hwf) as (Hwf' & Hsame & _).
  destruct (run actionClient id s) as [[r|e] s']; simpl in *; (split; [|done]); split; simpl; try done;
    apply (coherent_same s s'); try done.
  destruct Hco as [Hdet _]. split; [|intros l Hl; by apply invalidated_list in Hl].
  intros id' p Hv%holds_after_invalidating; [|apply lists_not_detail]. apply Hdet.
  destruct Hv as [Hget Hvalid]. rewrite get_invalidate in Hget.
  destruct (decide (pipelineQueryKeys.detail id `prefix_of` pipelineQueryKeys.detail id')) as [Hk|Hk].
  - rewrite valid_invalidate in Hvalid; [done|done|by rewrite Hget].
  - rewrite valid_invalidate_other in Hvalid by done. done.
Qed.

Lemma deletes_sound id st :
  sound st → sound (step (Deletes id) st) ∧
    (coherent_runs st.1 st.2 → coherent_runs (step (Deletes id) st).1 (step (Deletes id) st).2).
Proof.
  destruct st as [s c]. intros [Hwf Hco]. simpl in *. unfold mutate. simpl.
  destruct (delete_removes id s Hwf) as (Hwf' & Hact & Hout).
  destruct (delete_ client id s) as [[[]|e] s']; simpl in *.
  - split; [split; [done|]|]; simpl.
    + destruct Hco as [Hdet _]. split; [|intros l Hl; by apply invalidated_list in Hl].
      intros id' p [Hne Hv]%deleted_cache. rewrite Hout by done. by apply Hdet.
    + intros Hruns id' r Hr%deleted_execution. rewrite Hact. by apply Hruns.
  - split; [split; [done|by apply (coherent_same s s')]|]. intros Hruns id' r Hr. rewrite Hact. by apply Hruns.
Qed.

Lemma interact_sound i st :
  sound st → sound (step i st) ∧
    ((∀ id, i ≠ Runs id) → coherent_runs st.1 st.2 → coherent_runs (step i st).1 (step i st).2).
Proof.
  intros Hst. destruct i as [request|id request|id|id name|id|action id| |id|id]; simpl.
  - destruct (mutate_saves (createPipelineMutationOptions client) request st) as [? ?]; [|..|done|by split];
      [apply create_saves|intros; apply writePipeline_reconciles].
  - destruct (mutate_saves (updatePipelineMutationOptions client) (id, request) st) as [? ?]; [|..|done|by split];
      [apply update_saves|intros; apply writePipeline_reconciles].
  - destruct (deletes_sound id st Hst). by split.
  - destruct (mutate_saves (duplicatePipelineMutationOptions actionClient) (id, name) st) as [? ?]; [|..|done|by split];
      [apply duplicate_saves|intros; apply writeActionPipeline_reconciles].
  - destruct (runs_sound id st Hst). split; [done|]. intros Hi. by destruct (Hi id).
  - destruct (mutate_saves (statePipelineMutationOptions actionClient action) id st) as [? ?]; [|..|done|by split];
      [destruct action; [apply enable_saves|apply disable_saves]|intros; apply writeActionPipeline_reconciles].
  - destruct (fetch_answers (list_ client) CachedPipelines pipelineQueryKeys.list_ _ st list_lists) as [? ?]; [..|done|by split].
    + intros s l c Hl [Hdet Hli]. split.
      * intros id p Hv%holds_set_ne; [by apply Hdet|done].
      * intros l' [Hget _]. rewrite get_set in Hget. by injection Hget as <-.
    + intros s l c Hl Hruns id r Hv%holds_set_ne; [by apply Hruns|done].
  - destruct (fetch_answers (get client id) CachedPipeline (pipelineQueryKeys.detail id) _ st (get_reads id)) as [? ?];
      [..|done|by split].
    + intros s p c Hp [Hdet Hli]. split.
      * intros id' q Hv. destruct (decide (id = id')) as [<-|Hne].
        -- destruct Hv as [Hget _]. rewrite get_set in Hget. by injection Hget as <-.
        -- apply holds_set_ne in Hv; [by apply Hdet|]. by intros ?%detail_inj.
      * intros l Hv%holds_set_ne; [by apply Hli|done].
    + intros s p c Hp Hruns id' r Hv%holds_set_ne; [by apply Hruns|done].
  - destruct (fetch_answers (getExecutionState actionClient id) CachedExecutionState (pipelineQueryKeys.executionState id)
      _ st (getExecutionState_active id)) as [? ?]; [..|done|by split].
    + intros s r c Hr [Hdet Hli]. split; [intros id' p Hv%holds_set_ne; [by apply Hdet|done]|].
      intros l Hv%holds_set_ne; [by apply Hli|done].
    + intros s r c Hr Hruns id' r' Hv. destruct (decide (id = id')) as [<-|Hne].
      * destruct Hv as [Hget _]. rewrite get_set in Hget. by injection Hget as <-.
      * apply holds_set_ne in Hv; [by apply Hruns|]. by intros [= ->].
Qed.

(** A requested run leaves the cached execution state of its pipeline as
    valid as it was. *)
Lemma run_leaves_execution_state id r v s c :
  wf s → (run actionClient id s).1 = Ok r →
  holds (pipelineQueryKeys.executionState id) v c →
  holds (pipelineQueryKeys.executionState id) v (step (Runs id) (s, c)).2 ∧ active id (step (Runs id) (s, c)).1 ≠ None.
Proof.
  intros Hwf Hr [Hget Hvalid]. simpl. unfold mutate. simpl. destruct (run_only_runs id s Hwf) as (_ & _ & Hact).
  destruct (run actionClient id s) as [[r'|e] s']; simpl in *; [|done]. split; [|by apply Hact].
  unfold invalidatePipeline. assert (¬ pipelineQueryKeys.detail id `prefix_of` pipelineQueryKeys.executionState id) as Hk
    by (intros [l Hl]; discriminate Hl).
  split; [by rewrite !get_invalidate|].
  rewrite valid_invalidate_other by apply lists_not_execution. by rewrite valid_invalidate_other.
Qed.
End interactions.
End coherence.
