(* ===== verification/CachedControlPlane.v ===== *)
(** * The cache over the control plane

    The composed program keeps the promises the browser's cache relies on:
    the clients of [BrowserClient], over the routes, the repository and the
    scheduler, are a [PipelineServer]. Whatever a signed-in user does, what
    its browser shows as valid is what the server holds. *)

From S2P Require Import Prelude Js Contracts StateMachine Schemas Http Graph Database Integrity Statements Frames.
From S2P Require Import Executable RunLogs RunQueue RunQueueProofs Documents Repository RepositoryProofs Actions.
From S2P Require Import SchedulerService Uploads UploadProofs PipelineRoutes PipelineRouteProofs ControlPlane.
From S2P Require Import BrowserClient BrowserProofs QueryCache QueryCacheProofs.

(** ** Operations that throw change nothing *)

Section rejects.
Context {S E : Type}.

Definition rejects {A} (I : S → Prop) (m : M S E A) : Prop := ∀ s e s', I s → m s = (Throw e, s') → I s'.

Lemma rejects_bind {A B} I (m : M S E A) (k : A → M S E B) :
  rejects I m → preserves I m → (∀ a, rejects I (k a)) → rejects I (m ≫= k).
Proof.
  intros Hr Hm Hk s e s' Hs. rewrite bind_run. pose proof (Hm s Hs) as Hs1.
  destruct (m s) as [[a|e1] s1] eqn:Hrun; [by apply Hk|]. intros [= _ <-]. exact (Hr _ _ _ Hs Hrun).
Qed.

Lemma rejects_preserves {A} I (m : M S E A) : preserves I m → rejects I m.
Proof. intros Hm s e s' Hs Hrun. specialize (Hm s Hs). by rewrite Hrun in Hm. Qed.

Lemma rejects_transaction {A} I (m : M S E A) : rejects I (transaction m).
Proof. intros s e s' Hs. rewrite transaction_throw. naive_solver. Qed.

Lemma rejects_lift_bind {A B} I (o : outcome E A) (k : A → M S E B) : (∀ a, rejects I (k a)) → rejects I (lift o ≫= k).
Proof. intros Hk. apply rejects_bind; [|apply preserves_lift|done]. apply rejects_preserves, preserves_lift. Qed.
End rejects.

(** ** What of the store the user's browser shows *)

Definition activity (d : Database) : list (string * string * RunState.t) :=
  (λ r, (r_id r, r_pipelineId r, r_state r)) <$> runs d.

Definition shown (d : Database) :=
  (pipelines d, pipelineComponents d, pipelineEdges d, pipelineTriggers d, activity d).

Section service.
Context `{!Uuids, !Formats}.

Definition activeRunOf (id : string) (d : Database) : option (string * ActivePhase) :=
  (λ a : string * string * RunState.t,
    (a.1.1, if decide (a.2 = RunState.running) then active_running else active_queued)) <$>
  head (filter (λ a : string * string * RunState.t, a.1.2 = id ∧ a.2 ∈ activeRunStates) (activity d)).

Lemma head_filter_fmap {A B} (f : A → B) (P : B → Prop) `{∀ b, Decision (P b)} (l : list A) :
  head (filter P (f <$> l)) = f <$> head (filter (λ a, P (f a)) l).
Proof.
  induction l as [|a l IH]; [done|]. csimpl. rewrite !filter_cons. by destruct (decide (P (f a))).
Qed.

Lemma getActiveRun_run id d : getActiveRunForPipeline id d = (Ok (activeRunOf id d), d).
Proof.
  unfold getActiveRunForPipeline, selectFirst, select, activeRunOf, activity. run_m. rewrite head_filter_fmap. simpl.
  by destruct (head _).
Qed.

Lemma shown_hydrated owner id d d' : shown d' = shown d → hydrateView owner id d' = hydrateView owner id d.
Proof. intros [= Hp Hc He Ht _]. apply hydrateView_ext. unfold pipelineView. by rewrite Hp, Hc, He, Ht. Qed.

Lemma for_each_lift_run {A B} (f : A → result B) (l : list A) (d d' : Database) :
  for_each (λ a, lift (f a)) l d = ((for_each (λ a, lift (f a)) l d').1, d).
Proof.
  induction l as [|a l IH]; [done|]. csimpl. rewrite !bind_run. unfold lift at 1 3.
  destruct (f a) as [b|e]; [|done]. rewrite !bind_run, IH.
  rewrite (surjective_pairing (for_each _ l d')). by destruct (for_each _ l d').1.
Qed.

Lemma shown_listed owner d d' : shown d' = shown d →
  listPipelinesByOwner owner d' = ((listPipelinesByOwner owner d).1, d').
Proof.
  intros [= Hp Hc He Ht _]. unfold listPipelinesByOwner, select, gets.
  repeat (rewrite bind_run; cbv beta iota). rewrite Hp, Hc, He, Ht.
  apply for_each_lift_run.
Qed.

(** *** Which operations leave the runs alone *)

Definition sameActivity (a : list (string * string * RunState.t)) (d : Database) : Prop := activity d = a.

Lemma deleteTriggers_activity a P `{∀ t, Decision (P t)} : preserves (sameActivity a) (deleteTriggers P).
Proof.
  intros d Hd. unfold sameActivity, activity in *. rewrite <-Hd. simpl. rewrite <-list_fmap_compose.
  by apply list_fmap_ext.
Qed.

#[local] Hint Resolve deleteTriggers_activity : preserves.

Lemma deletePipelines_activity a P `{∀ r, Decision (P r)} : preserves (sameActivity a) (deletePipelines P).
Proof.
  unfold deletePipelines. solve_preserves; intros d Hd; [unfold enforce; by case_decide..|done].
Qed.
#[local] Hint Resolve deletePipelines_activity : preserves.

Lemma createPipeline_activity a owner request : preserves (sameActivity a) (createPipeline owner request).
Proof. unfold createPipeline, createPipelineGraph. solve_preserves. Qed.

Lemma updatePipeline_activity a owner id update now : preserves (sameActivity a) (updatePipeline owner id update now).
Proof.
  unfold updatePipeline, updatePipelineInTransaction, findActiveRun, readPipelineGraph, replaceGraphRecords,
    replaceComponents, insertReplacementEdges, replaceTriggers. solve_preserves.
Qed.

Lemma deletePipeline_activity a owner id : preserves (sameActivity a) (deletePipeline owner id).
Proof. unfold deletePipeline. solve_preserves. Qed.

Lemma duplicatePipeline_activity a owner id name : preserves (sameActivity a) (duplicatePipeline owner id name newId).
Proof.
  pose proof createPipeline_activity. unfold duplicatePipeline, buildDuplicateCreateRequest, getPipeline, readPipelineGraph.
  solve_preserves.
Qed.

Lemma setPipelineState_activity a owner id state now catalog :
  preserves (sameActivity a) (setPipelineStateForOwner owner id state now catalog).
Proof. unfold setPipelineStateForOwner, readPipelineTopologyForExecutableCheck. solve_preserves. Qed.

(** *** What an operation that does not return a pipeline leaves *)

Abbreviation unshown v := (λ d, shown d = v).

Lemma getPipeline_kept v owner id : preserves (unshown v) (getPipeline owner id).
Proof. intros d Hd. by rewrite getPipeline_run. Qed.

Lemma updatePipeline_rejects v owner id update now : rejects (unshown v) (updatePipeline owner id update now).
Proof. unfold updatePipeline. repeat (apply rejects_lift_bind; intros ?). apply rejects_transaction. Qed.

Lemma updatePipeline_none owner id update now d d' :
  updatePipeline owner id update now d = (Ok None, d') → d' = d.
Proof.
  intros (_ & _ & _ & Hm)%updatePipeline_ok. unfold updatePipelineInTransaction in Hm.
  apply bind_ok in Hm as (o & d1 & Hs & Hm). injection Hs as <- <-.
  destruct (head _) as [row|]; [|by apply ret_ok in Hm as [_ <-]].
  apply bind_ok in Hm as (? & ? & _ & Hm). cbv zeta in Hm. apply bind_ok in Hm as (? & ? & _ & Hm).
  apply bind_ok in Hm as (? & ? & _ & Hm). apply bind_ok in Hm as (? & ? & _ & Hm).
  apply bind_ok in Hm as (? & ? & _ & Hm). apply bind_ok in Hm as ([|? ?] & ? & _ & Hm); [done|].
  apply bind_ok in Hm as (? & ? & _ & Hm). by apply bind_ok in Hm as (? & ? & _ & [? _]%ret_ok).
Qed.

Lemma createPipeline_rejects v owner request : rejects (unshown v) (createPipeline owner request).
Proof. intros d e d' Hd Hrun. by rewrite (createPipeline_atomic _ _ _ _ _ Hrun). Qed.

Lemma buildDuplicate_kept v source definition : preserves (unshown v) (buildDuplicateCreateRequest source definition newId).
Proof. unfold buildDuplicateCreateRequest. solve_preserves. Qed.

Lemma duplicatePipeline_rejects v owner id name : rejects (unshown v) (duplicatePipeline owner id name newId).
Proof.
  unfold duplicatePipeline. repeat (apply rejects_lift_bind; intros ?).
  apply rejects_bind; [apply rejects_preserves|..|intros [source|]]; [apply getPipeline_kept..| |];
    [|apply rejects_preserves, preserves_ret].
  apply rejects_lift_bind. intros duplicate.
  apply rejects_bind; [apply rejects_preserves|..|intros request]; [apply buildDuplicate_kept..|].
  intros d e d' Hd. rewrite bind_run. destruct (createPipeline _ request d) as [[p|e'] d1] eqn:Hrun; [done|].
  intros [= _ <-]. by eapply createPipeline_rejects.
Qed.

Lemma duplicatePipeline_none owner id name d d' : duplicatePipeline owner id name newId d = (Ok None, d') → d' = d.
Proof.
  intros Hrun. unfold duplicatePipeline in Hrun.
  apply bind_ok in Hrun as (o & d1 & [_ <-]%lift_ok & Hrun). apply bind_ok in Hrun as (i & d1 & [_ <-]%lift_ok & Hrun).
  apply bind_ok in Hrun as (n & d1 & [_ <-]%lift_ok & Hrun). apply bind_ok in Hrun as (src & d1 & Hget & Hrun).
  rewrite getPipeline_run in Hget. injection Hget as _ <-. destruct src as [source|]; [|by apply ret_ok in Hrun as [_ <-]].
  apply bind_ok in Hrun as (? & ? & _ & Hrun). apply bind_ok in Hrun as (? & ? & _ & Hrun).
  by apply bind_ok in Hrun as (? & ? & _ & [? _]%ret_ok).
Qed.

Lemma setPipelineState_rejects v owner id state now catalog :
  rejects (unshown v) (setPipelineStateForOwner owner id state now catalog).
Proof. unfold setPipelineStateForOwner. apply rejects_lift_bind. intros [o i]. apply rejects_transaction. Qed.

Definition switched (owner id : string) (state : ActionState) (now : Z) (d : Database) : Database :=
  set_pipelines (updateIf (ownedRow owner id) (withState (action_state state) now) <$> pipelines d) d.

Lemma setPipelineState_effect owner id state now catalog d out d' :
  setPipelineStateForOwner owner id state now catalog d = (Ok out, d') →
  d' = switched owner id state now d ∧ ∃ row, row ∈ pipelines d ∧ ownedRow owner id row.
Proof.
  unfold setPipelineStateForOwner. intros ([o i] & d1 & [Hids <-]%lift_ok & Hrun)%bind_ok.
  assert (o = owner ∧ i = id) as [-> ->].
  { unfold parseActionInput in Hids. apply outcome_bind_ok in Hids as (i' & Hi & Hids).
    apply outcome_bind_ok in Hids as (o' & Ho & [= -> ->]). apply parse_ok in Hi as [_ <-].
    by apply parse_ok in Ho as [_ <-]. }
  cbv beta iota in Hrun. rewrite transaction_ok in Hrun. apply bind_ok in Hrun as (row & d1 & Hsel & Hrun).
  injection Hsel as <- <-. destruct (head _) as [row|] eqn:Hrow; [|by apply throw_ok in Hrun].
  apply head_filter_Some in Hrow as (Hin & Hid & Hown).
  apply bind_ok in Hrun as (run & d1 & Hsel & Hrun). injection Hsel as _ <-.
  apply bind_ok in Hrun as ([] & d1 & [_ <-]%lift_ok & Hrun).
  apply bind_ok in Hrun as ([] & d1 & Hcheck & Hrun).
  assert (d1 = d) as ->.
  { destruct state; [|by apply ret_ok in Hcheck as [_ <-]].
    apply bind_ok in Hcheck as (t & d2 & Ht & [_ <-]%lift_ok).
    unfold readPipelineTopologyForExecutableCheck, select, gets in Ht.
    apply bind_ok in Ht as (? & ? & [= _ <-] & Ht). apply bind_ok in Ht as (? & ? & [= _ <-] & Ht).
    by apply ret_ok in Ht as [_ <-]. }
  apply bind_ok in Hrun as (rows & d2 & Hup & [_ <-]%ret_ok). injection Hup as _ <-.
  split; [done|]. by exists row.
Qed.

Lemma switched_view owner id id' state now d : id' ≠ id → pipelineView id' (switched owner id state now d) = pipelineView id' d.
Proof.
  intros Hne. unfold pipelineView, switched. simpl. rewrite filter_updateIf_other; [done|].
  intros r _ [Hr _]. split; simpl; congruence.
Qed.

(** A switched pipeline is readable when it was. *)
Lemma switched_reads owner id state now d row o :
  row ∈ pipelines d → ownedRow owner id row → hydrateView owner id d = Ok o →
  ∃ p, hydrateView owner id (switched owner id state now d) = Ok (Some p).
Proof.
  intros Hin Hrow. unfold hydrateView, switched. simpl. rewrite !list_filter_filter.
  assert (∀ l : list PipelineRow, filter (λ p, p_ownerUserId p = owner ∧ p_id p = id) l = filter (ownedRow owner id) l) as Heq.
  { intros l. apply list_filter_iff. unfold ownedRow. naive_solver. }
  rewrite !Heq, filter_updateIf by (intros ? [? ?]; by split).
  destruct (filter (ownedRow owner id) (pipelines d)) as [|r rows] eqn:Hrows.
  { exfalso. assert (row ∈ filter (ownedRow owner id) (pipelines d)) as H' by by apply list_elem_of_filter.
    rewrite Hrows in H'. by apply elem_of_nil in H'. }
  assert (ownedRow owner id r) as [Hid _].
  { assert (r ∈ filter (ownedRow owner id) (pipelines d)) as [? _]%list_elem_of_filter; [rewrite Hrows; left|done]. }
  csimpl. intros (p & Hp & _)%outcome_bind_ok. apply hydratePipeline_ok in Hp as (ts & Hts & Hschema & _).
  match goal with |- context [hydratePipeline ?g] => assert (∃ q, hydratePipeline g = Ok q) as [q ->] end.
  { eexists. apply hydratePipeline_ok. exists ts. by split_and!. }
  by exists q.
Qed.

(** *** The routes *)

Context (owner : string).

(** Every pipeline of the user can be read. *)
Definition readable (d : Database) : Prop := ∀ id, ∃ o, hydrateView owner id d = Ok o.
Definition serviceable (d : Database) : Prop := integrity d ∧ readable d.

(** What a route that answers with a pipeline has done. *)
Definition route_saves (m : DB (Response Document)) : Prop := ∀ d, serviceable d →
  integrity (m d).2 ∧ activity (m d).2 = activity d ∧
  ((∃ response p, (m d).1 = Ok response ∧ response_ok response = true ∧
      body response = Some (pipelineDocument p) ∧ pipelineSchema p = true ∧
      hydrateView owner (pipeline_id p) (m d).2 = Ok (Some p) ∧
      ∀ id, id ≠ pipeline_id p → hydrateView owner id (m d).2 = hydrateView owner id d) ∨
   (shown (m d).2 = shown d ∧ ∀ response, (m d).1 = Ok response → response_ok response = false)).

Lemma refused_saves d (o : result (Response Document)) d' :
  integrity d' → shown d' = shown d → (∀ response, o = Ok response → response_ok response = false) →
  integrity d' ∧ activity d' = activity d ∧
  ((∃ response p, o = Ok response ∧ response_ok response = true ∧
      body response = Some (pipelineDocument p) ∧ pipelineSchema p = true ∧
      hydrateView owner (pipeline_id p) d' = Ok (Some p) ∧
      ∀ id, id ≠ pipeline_id p → hydrateView owner id d' = hydrateView owner id d) ∨
   (shown d' = shown d ∧ ∀ response, o = Ok response → response_ok response = false)).
Proof. intros Hd' Hs Ho. split_and!; [done|by injection Hs|by right]. Qed.

Lemma claim_shown p d : shown (set_stagedUploads p d) = shown d.
Proof. done. Qed.

Lemma hydrated_id id d p : hydrateView owner id d = Ok (Some p) → pipeline_id p = id ∧ pipelineSchema p = true.
Proof.
  intros Hview. pose proof (hydrateView_schema _ _ _ _ Hview) as Hs. split; [|done]. revert Hview.
  unfold hydrateView. destruct (head _) as [row|] eqn:Hrow; [|done].
  apply head_elem_of in Hrow. rewrite list_filter_filter in Hrow. apply list_elem_of_filter in Hrow as [[_ <-] _].
  intros (q & Hq & [= ->])%outcome_bind_ok. by apply hydratePipeline_ok in Hq as (ts & _ & _ & ->).
Qed.

Lemma create_saves_route request : route_saves (createRoute (Some owner) request).
Proof.
  intros d [Hd Hread]. unfold createRoute.
  destruct (readJsonObject request ≫= _) as [r|]; [|by apply refused_saves; [..|intros ? [= <-]]].
  pose proof (createPipeline_integrity owner r d Hd) as Hint. pose proof (createPipeline_activity (activity d) owner r d eq_refl) as Hact.
  destruct (createPipeline owner r d) as [[p|e] d1] eqn:Hc; simpl in Hint, Hact.
  - pose proof Hc as (_ & _ & _ & Hg)%createPipeline_ok. pose proof (createdPipeline_schema _ _ _ _ _ Hg) as Hschema.
    erewrite answering_ok; cycle 1.
    { rewrite bind_run, Hc. cbv beta iota. rewrite bind_run, claimPipelineUploads_run. cbv beta iota zeta.
      rewrite bind_run. unfold lift, parse. by rewrite Hschema. }
    destruct (created_views _ _ _ _ _ Hd Hg) as (Hown & Hother & _).
    split; [exact (deleteStagedUploads_integrity _ d1 Hint)|]. split; [exact Hact|]. left. eexists _, p. split; [done|].
    split_and!; try done.
    + simpl. rewrite (shown_hydrated owner _ _ _ (claim_shown _ _)), Hown. by rewrite decide_True.
    + intros id Hne. simpl. rewrite (shown_hydrated owner _ _ _ (claim_shown _ _)). by apply hydrateView_ext, Hother.
  - pose proof (createPipeline_atomic _ _ _ _ _ Hc) as ->.
    erewrite answering_throw by (by rewrite bind_run, Hc). apply refused_saves; [done|done|].
    intros response. destruct e; simpl; by intros [= <-].
Qed.

Lemma update_saves_route id request now : route_saves (updateRoute (Some owner) id request now).
Proof.
  intros d [Hd Hread]. unfold updateRoute.
  destruct (parseDetailRequest id) as [id'|] eqn:Hid; [|by apply refused_saves; [..|intros ? [= <-]]].
  assert (id' = id) as -> by (unfold parseDetailRequest in Hid; destruct (is_uuid id); by simplify_eq).
  destruct (parseUpdateRequest request) as [u|]; [|by apply refused_saves; [..|intros ? [= <-]]].
  pose proof (updatePipeline_integrity owner id u now d Hd) as Hint.
  pose proof (updatePipeline_activity (activity d) owner id u now d eq_refl) as Hact.
  destruct (updatePipeline owner id u now d) as [[[p|]|e] d1] eqn:Hu; simpl in Hint, Hact.
  - destruct (updatePipeline_effect _ _ _ _ _ _ _ Hd Hu) as (_ & old & _ & Hget & Hothers & _).
    rewrite getPipeline_run in Hget. injection Hget as Hget. pose proof (hydrated_id _ _ _ Hget) as [Hpid Hschema].
    erewrite answering_ok; cycle 1.
    { rewrite bind_run, Hu. cbv beta iota. rewrite bind_run, claimPipelineUploads_run. cbv beta iota zeta.
      rewrite bind_run. unfold lift, parse. by rewrite Hschema. }
    split; [exact (deleteStagedUploads_integrity _ d1 Hint)|]. split; [exact Hact|]. left. eexists _, p. split; [done|].
    split_and!; try done; rewrite ?Hpid; simpl.
    + by rewrite (shown_hydrated owner _ _ _ (claim_shown _ _)).
    + intros id' Hne. rewrite (shown_hydrated owner _ _ _ (claim_shown _ _)).
      specialize (Hothers owner id' Hne). by rewrite !getPipeline_run in Hothers.
  - pose proof (updatePipeline_none _ _ _ _ _ _ Hu) as ->.
    erewrite answering_ok by (by rewrite bind_run, Hu). by apply refused_saves; [..|intros ? [= <-]].
  - pose proof (updatePipeline_rejects (shown d) _ _ _ _ d e d1 eq_refl Hu) as Hs.
    erewrite answering_throw by (by rewrite bind_run, Hu). apply refused_saves; [done|done|].
    intros response. destruct e; simpl; by intros [= <-].
Qed.

Lemma duplicate_saves_route id request : route_saves (duplicateRoute (Some owner) id request).
Proof.
  intros d [Hd Hread]. unfold duplicateRoute.
  destruct (parseDuplicateRequest id request) as [[id' name]|]; [|by apply refused_saves; [..|intros ? [= <-]]].
  pose proof (duplicatePipeline_integrity owner id' name d Hd) as Hint.
  pose proof (duplicatePipeline_activity (activity d) owner id' name d eq_refl) as Hact. rewrite bind_run.
  destruct (duplicatePipeline owner id' name newId d) as [[[p|]|e] d1] eqn:Hu; simpl in Hint, Hact.
  - destruct (duplicatePipeline_effect _ _ _ _ _ _ Hd Hu) as (source & rename & _ & Hget & Hothers & _).
    rewrite getPipeline_run in Hget. injection Hget as Hget. pose proof (hydrated_id _ _ _ Hget) as [Hpid Hschema].
    rewrite bind_run. unfold lift, parse. rewrite Hschema. split; [done|]. split; [done|]. left. eexists _, p. split; [done|].
    split_and!; try done. intros id1 Hne. specialize (Hothers owner id1 Hne). by rewrite !getPipeline_run in Hothers.
  - pose proof (duplicatePipeline_none _ _ _ _ _ Hu) as ->. by apply refused_saves; [..|intros ? [= <-]].
  - pose proof (duplicatePipeline_rejects (shown d) _ _ _ d e d1 eq_refl Hu) as Hs. by apply refused_saves.
Qed.

Lemma setPipelineState_integrity id state now catalog :
  preserves integrity (setPipelineStateForOwner owner id state now catalog).
Proof. unfold setPipelineStateForOwner, readPipelineTopologyForExecutableCheck. solve_preserves. Qed.

Lemma switch_saves_route id state now catalog :
  route_saves (stateActionRoute (Some owner) id (λ o i, setPipelineStateForOwner o i state now catalog)).
Proof.
  intros d [Hd Hread]. unfold stateActionRoute.
  destruct (parseDetailRequest id) as [id'|] eqn:Hid; [|by apply refused_saves; [..|intros ? [= <-]]].
  assert (id' = id) as -> by (unfold parseDetailRequest in Hid; destruct (is_uuid id); by simplify_eq).
  pose proof (setPipelineState_integrity id state now catalog d Hd) as Hint.
  pose proof (setPipelineState_activity (activity d) owner id state now catalog d eq_refl) as Hact.
  destruct (setPipelineStateForOwner owner id state now catalog d) as [[out|e] d1] eqn:Hu; simpl in Hint, Hact.
  - apply setPipelineState_effect in Hu as Hok. destruct Hok as (-> & row & Hin & Hrow). destruct (Hread id) as [o Ho].
    destruct (switched_reads owner id state now d row o Hin Hrow Ho) as (p & Hp).
    destruct (hydrated_id _ _ _ Hp) as [Hpid Hschema].
    erewrite answering_ok; cycle 1.
    { rewrite bind_run, Hu. cbv beta iota. rewrite bind_run, getPipeline_run, Hp. cbv beta iota. rewrite bind_run.
      unfold lift, parse. by rewrite Hschema. }
    split; [done|]. split; [done|]. left. eexists _, p. split; [done|]. split_and!; try done; rewrite Hpid; [done|].
    intros id' Hne. apply hydrateView_ext. by apply switched_view.
  - pose proof (setPipelineState_rejects (shown d) _ _ _ _ _ d e d1 eq_refl Hu) as Hs.
    erewrite answering_throw by (by rewrite bind_run, Hu). apply refused_saves; [done|done|].
    intros response. destruct e as [| | | | | | | |[]| |[]| | |]; simpl; by intros [= <-].
Qed.

Lemma deletePipeline_cases id d b d' :
  integrity d → deletePipeline owner id d = (Ok b, d') →
  if b then pipelineView id d' = ([], [], [], []) ∧ ∀ id', id' ≠ id → pipelineView id' d' = pipelineView id' d
  else d' = d.
Proof.
  intros Hd. unfold deletePipeline. rewrite transaction_ok. unfold selectFirst, select. run_m.
  destruct (head (filter _ (pipelines d))) as [row|] eqn:Hrow; [|by intros [= <- <-]].
  apply head_filter_Some in Hrow as (Hin & Hid & Hown).
  destruct (executionState _ _) as [st|e]; [|done]. destruct (isPipelineEditable st); simpl; [|done].
  destruct (head (filter _ (runs d))); [done|]. rewrite Hid.
  pose proof (owned_unique owner id row d Hd Hin Hid Hown) as Hone.
  match goal with |- context [@deletePipelines ?P ?i d] => destruct (@deletePipelines P i d) as [[out|err] d1] eqn:Hdel end;
    [|done].
  destruct (deletePipelines_view _ row d _ d1 Hd Hin Hone Hdel) as (-> & Hgone & Hothers). rewrite Hid in *.
  intros [= <- <-]. simpl. split; [done|]. by intros id' ?; apply Hothers.
Qed.

Lemma deleteRoute_removes id d : serviceable d →
  let m := deleteRoute (Some owner) id in
  integrity (m d).2 ∧ activity (m d).2 = activity d ∧
  ((∃ response, (m d).1 = Ok response ∧ response_ok response = true ∧ hydrateView owner id (m d).2 = Ok None ∧
      ∀ id', id' ≠ id → hydrateView owner id' (m d).2 = hydrateView owner id' d) ∨
   (shown (m d).2 = shown d ∧ ∀ response, (m d).1 = Ok response → response_ok response = false)).
Proof.
  intros [Hd Hread] m. unfold m, deleteRoute.
  destruct (parseDetailRequest id) as [id'|] eqn:Hid; [|split_and!; [done|done|right; split; [done|by intros ? [= <-]]]].
  assert (id' = id) as -> by (unfold parseDetailRequest in Hid; destruct (is_uuid id); by simplify_eq).
  pose proof (deletePipeline_integrity owner id d Hd) as Hint.
  pose proof (deletePipeline_activity (activity d) owner id d eq_refl) as Hact.
  destruct (deletePipeline owner id d) as [[b|e] d1] eqn:Hdel; simpl in Hint, Hact.
  - erewrite answering_ok by (by rewrite bind_run, Hdel). pose proof (deletePipeline_cases id d b d1 Hd Hdel) as Hcase.
    destruct b; split_and!; try done; [left|right].
    + destruct Hcase as [Hgone Hothers]. eexists. split_and!; [done|done| |intros id' Hne; apply hydrateView_ext; by apply Hothers].
      unfold hydrateView. unfold pipelineView in Hgone. injection Hgone as Hp _ _ _. simpl. by rewrite Hp.
    + rewrite Hcase. split; [done|]. by intros ? [= <-].
  - assert (shown d1 = shown d) as Hs.
    { refine (rejects_transaction (unshown (shown d)) _ d e d1 eq_refl _). exact Hdel. }
    erewrite answering_throw by (by rewrite bind_run, Hdel). split_and!; [done|done|right]. split; [done|].
    intros response. destruct e; simpl; by intros [= <-].
Qed.

(** *** Runs *)

Definition pipelineTables (d : Database) := (pipelines d, pipelineComponents d, pipelineEdges d, pipelineTriggers d).

Lemma enqueue_tables v id now : preserves (λ d, pipelineTables d = v) (enqueuePipelineRunForOwner owner id now).
Proof.
  unfold enqueuePipelineRunForOwner, runPipelineForOwner, findOwnedPipeline, createPipelineRun,
    createPipelineRunInTransaction, promoteOldestQueuedRun, createInitialSourceJobs,
    recordOperationalEvent, recordOperationalEvents, findActivePipelineRun, getRunLogRetentionDays.
  solve_preserves.
Qed.

Lemma enqueue_integrity id now : preserves integrity (enqueuePipelineRunForOwner owner id now).
Proof.
  unfold enqueuePipelineRunForOwner, runPipelineForOwner, findOwnedPipeline.
  pose proof createPipelineRun_integrity. solve_preserves.
Qed.

(** Some run of the pipeline is queued or running. *)
Definition hasActiveRun (id : string) (d : Database) : Prop :=
  ∃ r, r ∈ runs d ∧ r_pipelineId r = id ∧ r_state r ∈ activeRunStates.

Lemma hasActiveRun_active id d : hasActiveRun id d → activeRunOf id d ≠ None.
Proof.
  intros (r & Hr & Hid & Hst). unfold activeRunOf, activity. rewrite head_filter_fmap.
  destruct (head _) as [r'|] eqn:Hhead; [done|]. rewrite head_filter_None in Hhead. intros _. by apply (Hhead r Hr).
Qed.

Lemma createInitialSourceJobs_hasActiveRun id p run now : preserves (hasActiveRun id) (createInitialSourceJobs p run now).
Proof. unfold createInitialSourceJobs. solve_preserves. Qed.

Lemma recordOperationalEvent_hasActiveRun id e : preserves (hasActiveRun id) (recordOperationalEvent e).
Proof. unfold recordOperationalEvent, recordOperationalEvents. solve_preserves. Qed.

Lemma insertRun_hasActiveRun p t b created expires scheduled d row d' :
  insertRun p t b created expires scheduled d = (Ok row, d') → hasActiveRun p d'.
Proof.
  unfold insertRun. intros (rid & d1 & _ & Hrun)%bind_ok. cbv zeta in Hrun.
  do 4 apply bind_ok in Hrun as (? & ? & _ & Hrun).
  apply bind_ok in Hrun as (? & d2 & Hput & [_ <-]%ret_ok). injection Hput as _ <-.
  eexists (newRun rid p t b created expires scheduled). simpl. split; [apply elem_of_snoc; by right|].
  split; [done|]. left.
Qed.

Lemma createPipelineRun_hasActiveRun request now d r d' :
  createPipelineRun request now d = (Ok r, d') → hasActiveRun (request_pipelineId request) d'.
Proof.
  unfold createPipelineRun. intros (id & d1 & [Hid <-]%lift_ok & Hrun)%bind_ok.
  apply parse_ok in Hid as [_ <-]. rewrite transaction_ok in Hrun. unfold createPipelineRunInTransaction in Hrun.
  apply bind_ok in Hrun as (id & d1 & [Hid <-]%lift_ok & Hrun). apply parse_ok in Hid as [_ <-]. simpl in Hrun.
  apply bind_ok in Hrun as (row & d1 & _ & Hrun). destruct row as [row|]; [|by apply throw_ok in Hrun].
  do 6 apply bind_ok in Hrun as (? & ? & _ & Hrun). apply bind_ok in Hrun as (expires & d2 & _ & Hrun).
  apply bind_ok in Hrun as (run & d3 & Hins & Hrun). apply insertRun_hasActiveRun in Hins as Hactive1.
  apply bind_ok in Hrun as (? & d4 & Hev & Hrun).
  match type of Hev with recordOperationalEvent ?e _ = _ =>
    pose proof (recordOperationalEvent_hasActiveRun _ e d3 Hactive1) as H4 end.
  rewrite Hev in H4. apply bind_ok in Hrun as (? & d5 & Hjobs & [_ <-]%ret_ok).
  match type of Hjobs with ?m d4 = _ => assert (preserves (hasActiveRun (request_pipelineId request)) m) as Hp end.
  { case_match; [apply preserves_ret|apply createInitialSourceJobs_hasActiveRun]. }
  specialize (Hp d4 H4). by rewrite Hjobs in Hp.
Qed.

Lemma enqueue_hasActiveRun id now d r d' : enqueuePipelineRunForOwner owner id now d = (Ok r, d') → hasActiveRun id d'.
Proof.
  unfold enqueuePipelineRunForOwner, runPipelineForOwner. intros ([o i] & d1 & [Hids <-]%lift_ok & Hrun)%bind_ok.
  assert (i = id) as ->.
  { unfold parseActionInput in Hids. apply outcome_bind_ok in Hids as (i' & Hi & Hids).
    apply outcome_bind_ok in Hids as (o' & Ho & [= -> ->]). by apply parse_ok in Hi as [_ <-]. }
  cbv beta iota in Hrun. apply bind_ok in Hrun as (st & d1 & _ & Hrun). destruct st as [st|]; [|by apply throw_ok in Hrun].
  apply bind_ok in Hrun as (? & d2 & _ & Hrun). unfold try_catch in Hrun.
  destruct (createPipelineRun _ now d2) as [[r'|e] d3] eqn:Hc.
  - injection Hrun as <- <-. by apply createPipelineRun_hasActiveRun in Hc.
  - repeat case_match; by apply throw_ok in Hrun.
Qed.
End service.

(** ** The composed program is a server the cache can rely on *)

Section server.
Context `{!Uuids, !Formats}.
Context (catalog : list ComponentMetadata) (token token' : string) (owner : string).
Hypothesis (Howner : is_uuid owner = true).

#[local] Abbreviation fetch := (service catalog token token' (signed_in owner)).

(** The default clients of the browser of the signed-in owner. *)
Definition pipelineApiClient (now : Z) : PipelineApiClient Database := {|
  create := client_create (fetch now); delete_ := client_delete (fetch now); get := client_get (fetch now);
  list_ := client_list (fetch now); update := client_update (fetch now) |}.

Definition pipelineActionApiClient (now : Z) : PipelineActionApiClient Database := {|
  disable := client_disable (fetch now); duplicate := client_duplicate (fetch now);
  enable := client_enable (fetch now); getExecutionState := client_getExecutionState (fetch now);
  run := client_run (fetch now) |}.

#[local] Instance controlPlaneServer : PipelineServer Database := {
  wf := serviceable owner;
  reads := λ id d, match hydrateView owner id d with Ok (Some p) => Some p | _ => None end;
  listing := λ d l, (listPipelinesByOwner owner d).1 = Ok l;
  active := activeRunOf }.

Lemma shown_same d d' : shown d' = shown d → same_pipelines d d'.
Proof.
  intros Hs. split; simpl.
  - intros id. by rewrite (shown_hydrated owner id d d' Hs).
  - intros l. by rewrite (shown_listed owner d d' Hs).
Qed.

Lemma shown_serviceable d d' : integrity d' → shown d' = shown d → serviceable owner d → serviceable owner d'.
Proof. intros Hd' Hs [_ Hread]. split; [done|]. intros id. by rewrite (shown_hydrated owner id d d' Hs). Qed.

Lemma activity_active d d' id : activity d' = activity d → activeRunOf id d' = activeRunOf id d.
Proof. unfold activeRunOf. by intros ->. Qed.

Lemma route_client_saves known (m : DB (Response Document)) (op : CLIENT Database Pipeline) :
  route_saves owner m → (∀ d, op d = (readAnswer known asPipeline (m d).1, (m d).2)) → saves op.
Proof.
  intros Hm Hop d Hwf. rewrite Hop. destruct (Hm d Hwf) as (Hint & Hact & Hcase). simpl.
  split; [|split; [intros id; by apply activity_active|]].
  - destruct Hcase as [(response & p & _ & _ & _ & _ & Hp & Hothers)|[Hs _]]; [|by apply (shown_serviceable d)].
    split; [done|]. intros id. destruct (decide (id = pipeline_id p)) as [->|Hne]; [by eexists|].
    rewrite Hothers by done. apply Hwf.
  - destruct Hcase as [(response & p & -> & Hok & Hbody & Hschema & Hp & Hothers)|[Hs Hbad]].
    + unfold readAnswer. rewrite Hok, Hbody. simpl. rewrite Hschema. split; [by rewrite Hp|].
      intros id Hne. by rewrite Hothers.
    + assert (∀ o, readAnswer known asPipeline (m d).1 ≠ Ok o) as Hno.
      { intros o. unfold readAnswer. destruct (m d).1 as [response|e]; [by rewrite (Hbad response)|done]. }
      destruct (readAnswer known asPipeline (m d).1) as [o|e]; [by destruct (Hno o)|]. by apply shown_same.
Qed.

Lemma parsed_saves {A} (b : bool) (a : A) (op : A → CLIENT Database Pipeline) :
  (b = true → saves (op a)) → saves (parseRequest b a ≫= op).
Proof.
  intros Hop. destruct b; [exact (Hop eq_refl)|]. intros d Hwf. simpl. split; [done|]. split; [done|]. by apply shown_same.
Qed.

(** The answer of a route to the signed-in owner. *)
Lemma fetch_run {A} now known call (schema : Document → option A) d :
  requestDocument (fetch now) known call schema d =
    (readAnswer known schema (controlPlane catalog (throughScheduler token token') (signed_in owner) now call d).1,
     (controlPlane catalog (throughScheduler token token') (signed_in owner) now call d).2).
Proof. apply requestDocument_run. Qed.

Lemma call_saves now known call :
  route_saves owner (controlPlane catalog (throughScheduler token token') (signed_in owner) now call) →
  saves (requestDocument (fetch now) known call asPipeline).
Proof. intros Hm. eapply route_client_saves; [exact Hm|]. intros d. apply fetch_run. Qed.

Lemma create_promise now request : saves (create (pipelineApiClient now) request).
Proof.
  apply parsed_saves. intros _. apply call_saves. exact (create_saves_route owner _).
Qed.

Lemma update_promise now id request : saves (update (pipelineApiClient now) id request).
Proof.
  apply parsed_saves. intros _. apply parsed_saves. intros _.
  apply call_saves. exact (update_saves_route owner _ _ _).
Qed.

Lemma duplicate_promise now id name : saves (duplicate (pipelineActionApiClient now) id name).
Proof.
  apply (parsed_saves _ ()). intros _. apply call_saves. exact (duplicate_saves_route owner _ _).
Qed.

Lemma enable_promise now id : saves (enable (pipelineActionApiClient now) id).
Proof.
  apply parsed_saves. intros _.
  apply call_saves. exact (switch_saves_route owner id action_enabled now (Some catalog)).
Qed.

Lemma disable_promise now id : saves (disable (pipelineActionApiClient now) id).
Proof.
  apply parsed_saves. intros _.
  apply call_saves. exact (switch_saves_route owner id action_disabled now None).
Qed.

Lemma parsed_run {A B} (b : bool) (a : A) (k : A → CLIENT Database B) d : b = true → (parseRequest b a ≫= k) d = k a d.
Proof. by intros ->. Qed.

Lemma delete_promise now id d : wf d →
  wf (delete_ (pipelineApiClient now) id d).2 ∧
  (∀ id', active id' (delete_ (pipelineApiClient now) id d).2 = active id' d) ∧
  match delete_ (pipelineApiClient now) id d with
  | (Ok _, d') => ∀ id', id' ≠ id → reads id' d' = reads id' d
  | (Throw _, d') => same_pipelines d d'
  end.
Proof.
  intros Hwf. simpl. unfold client_delete.
  destruct (is_uuid id) eqn:Hid; [|split_and!; [done|done|by apply shown_same]].
  rewrite parsed_run by done. rewrite bind_run. unfold request, service. cbn [controlPlane].
  change (getApiSession (signed_in owner)) with (Some owner).
  destruct (deleteRoute_removes owner id d Hwf) as (Hint & Hact & Hcase).
  destruct (deleteRoute (Some owner) id d) as [o d'] eqn:Hrun. simpl in Hint, Hact, Hcase.
  assert (∀ response, (if response_ok response then (Ok response, d')
    else (Throw {| error_code := parseErrorCode apiErrorCode response; error_status := Some (status response) |}, d')) =
    (if response_ok response then Ok response
     else Throw {| error_code := parseErrorCode apiErrorCode response; error_status := Some (status response) |}, d')) as Hpair
    by (intros response; by destruct (response_ok response)).
  destruct Hcase as [(response & -> & Hok & Hgone & Hothers)|[Hs Hbad]].
  - rewrite Hpair, Hok. simpl. split_and!; [split; [done|]|intros id'; by apply activity_active|].
    + intros id'. destruct (decide (id' = id)) as [->|Hne]; [by exists None|]. rewrite Hothers by done. apply Hwf.
    + intros id' Hne. by rewrite Hothers.
  - assert (wf d') as Hwf' by by apply (shown_serviceable d).
    assert (∀ id', active id' d' = active id' d) as Hact' by (intros id'; by apply activity_active).
    destruct o as [response|e].
    + rewrite Hpair, (Hbad response eq_refl). simpl. split_and!; [done|done|by apply shown_same].
    + simpl. split_and!; [done|done|by apply shown_same].
Qed.

Lemma run_promise now id d : wf d →
  let ran := run (pipelineActionApiClient now) id d in
  wf ran.2 ∧ same_pipelines d ran.2 ∧ (is_ok ran.1 = true → active id ran.2 ≠ None).
Proof.
  intros Hwf ran. unfold ran. simpl. unfold client_run.
  destruct (is_uuid id) eqn:Hid; [|split_and!; [done|by apply shown_same|done]].
  rewrite parsed_run by done. rewrite fetch_run. cbn [controlPlane].
  change (getApiSession (signed_in owner)) with (Some owner). unfold throughScheduler.
  rewrite runRoute_through_scheduler by done. case_decide; [|split_and!; [done|by apply shown_same|done]].
  cbn [fst snd]. pose proof (enqueue_integrity owner id now d (proj1 Hwf)) as Hint.
  pose proof (enqueue_tables owner _ id now d eq_refl) as Htables.
  assert (∀ id', pipelineView id' (enqueuePipelineRunForOwner owner id now d).2 = pipelineView id' d) as Hview.
  { intros id'. injection Htables as Hp Hc He Ht. unfold pipelineView. by rewrite Hp, Hc, He, Ht. }
  split; [|split].
  - split; [done|]. intros id'. rewrite (hydrateView_ext owner id' _ d (Hview id')). apply Hwf.
  - split; simpl.
    + intros id'. by rewrite (hydrateView_ext owner id' _ d (Hview id')).
    + intros l. injection Htables as Hp Hc He Ht. unfold listPipelinesByOwner, select, gets.
      repeat (rewrite bind_run; cbv beta iota). rewrite Hp, Hc, He, Ht. by erewrite for_each_lift_run.
  - intros Hok. apply hasActiveRun_active. destruct (enqueuePipelineRunForOwner owner id now d) as [[r|e] d'] eqn:Henq;
      [by apply (enqueue_hasActiveRun owner) in Henq|]. exfalso. revert Hok. simpl. unfold readAnswer, runAnswer.
    destruct e as [| | | | | | | |[] ? ?| |[]| | |]; done.
Qed.

Lemma get_promise now id : answers (get (pipelineApiClient now) id) (λ d p, reads id d = Some p).
Proof.
  intros d Hwf. simpl. unfold client_get. destruct (is_uuid id) eqn:Hid; [|done].
  rewrite parsed_run by done. rewrite fetch_run. cbn [controlPlane].
  change (getApiSession (signed_in owner)) with (Some owner).
  destruct (proj2 Hwf id) as [o Ho]. rewrite Ho.
  rewrite (getRoute_run owner id d o Hid Ho) by (intros q ->; by apply hydrateView_schema in Ho).
  split; [done|]. intros p. unfold readAnswer. destruct o as [q|]; simpl; [|done].
  rewrite (hydrateView_schema _ _ _ _ Ho). simpl. by intros [= ->].
Qed.

Lemma list_promise now : answers (list_ (pipelineApiClient now)) listing.
Proof.
  intros d Hwf. simpl. unfold client_list. rewrite fetch_run. cbn [controlPlane].
  change (getApiSession (signed_in owner)) with (Some owner). unfold listRoute. rewrite bind_run.
  rewrite (shown_listed owner d d eq_refl). destruct (listPipelinesByOwner owner d).1 as [l|e] eqn:Hl; [|done].
  rewrite bind_run. unfold lift, parse. destruct (forallb pipelineSchema l) eqn:Hs; [|done].
  split; [done|]. intros l'. unfold readAnswer. simpl. rewrite Hs. by intros [= ->].
Qed.

Lemma executionState_document r :
  optional (λ run : string * ActivePhase, is_uuid run.1) r = true → asExecutionState (plain (executionStateDocument r)) = Some r.
Proof. destruct r as [[id []]|]; simpl; intros Hr; unfold safeParse; simpl; by rewrite ?Hr. Qed.

Lemma execution_promise now id : answers (getExecutionState (pipelineActionApiClient now) id) (λ d r, active id d = r).
Proof.
  intros d Hwf. simpl. unfold client_getExecutionState. destruct (is_uuid id) eqn:Hid; [|done].
  rewrite parsed_run by done. rewrite fetch_run. cbn [controlPlane].
  change (getApiSession (signed_in owner)) with (Some owner). unfold executionStateRoute, parseDetailRequest. rewrite Hid.
  rewrite bind_run, getPipeline_run. destruct (proj2 Hwf id) as [o Ho]. rewrite Ho. destruct o as [p|]; [|done].
  destruct (hydrated_id owner id d p Ho) as [-> _]. rewrite bind_run, getActiveRun_run. cbv beta iota. rewrite bind_run.
  unfold lift, parse. destruct (optional _ _) eqn:Hopt; [|done]. split; [done|]. intros r. unfold readAnswer.
  cbn -[asExecutionState executionStateDocument]. rewrite executionState_document by done. by intros [= <-].
Qed.

#[local] Instance controlPlaneServer_laws now :
  PipelineServerLaws (pipelineApiClient now) (pipelineActionApiClient now).
Proof.
  split.
  - apply create_promise.
  - apply update_promise.
  - apply duplicate_promise.
  - apply enable_promise.
  - apply disable_promise.
  - apply delete_promise.
  - apply run_promise.
  - apply get_promise.
  - apply list_promise.
  - apply execution_promise.
Qed.

Lemma active_hasActiveRun id d : active id d ≠ None → hasActiveRun id d.
Proof.
  simpl. unfold activeRunOf, activity. rewrite head_filter_fmap.
  destruct (head _) as [r|] eqn:Hhead; [|done]. apply head_filter_Some in Hhead as (Hr & Hid & Hst). intros _. by exists r.
Qed.

(** An edit of a pipeline that has a queued or running run. *)
Lemma locked_update id p now update d :
  is_uuid id = true → hasActiveRun id d → hydrateView owner id d = Ok (Some p) → pipelineUpdateRequestSchema update = true →
  QueryCache.update (pipelineApiClient now) id update d =
    (Throw {| error_code := PipelineApiErrorCode.pipeline_locked; error_status := Some 409%Z |}, d).
Proof.
  intros Hid (r & Hr & Hpid & Hst) Hview Hu. simpl. unfold client_update. rewrite !parsed_run by done.
  rewrite fetch_run. cbn [controlPlane]. change (getApiSession (signed_in owner)) with (Some owner).
  assert (∃ row, row ∈ pipelines d ∧ p_id row = id ∧ p_ownerUserId row = owner) as Hrow.
  { unfold hydrateView in Hview. destruct (head _) as [row|] eqn:Hhead; [|done]. apply head_elem_of in Hhead.
    rewrite list_filter_filter in Hhead. apply list_elem_of_filter in Hhead as [[Ho Hi] Hin]. by exists row. }
  pose proof (updatePipeline_locked owner id update now d r Howner Hid Hu Hrow Hr Hpid Hst) as Hlocked.
  unfold updateRoute, parseDetailRequest, parseUpdateRequest. rewrite Hid. cbn [request_body requestJson].
  unfold safeParse. simpl. rewrite decode_update. simpl. rewrite Hu.
  erewrite answering_throw by (by rewrite bind_run, Hlocked). done.
Qed.

(** *** What the browser of the owner shows *)

Section browsing.
Context {C : Type} `{!QueryClient C, !QueryClientLaws C}.

(** A session: interactions and when they happen. *)
Definition browse (history : list (Z * Interaction)) (st : Database * C) : Database * C :=
  foldl (λ st entry, interact (pipelineApiClient entry.1) (pipelineActionApiClient entry.1) entry.2 st) st history.

Lemma browse_sound history st :
  sound st → sound (browse history st) ∧
    ((∀ now id, (now, Runs id) ∉ history) → coherent_runs st.1 st.2 →
     coherent_runs (browse history st).1 (browse history st).2).
Proof.
  revert st. induction history as [|[now i] history IH]; intros st Hst; [done|].
  destruct (interact_sound (pipelineApiClient now) (pipelineActionApiClient now) i st Hst) as [Hst' Hruns].
  destruct (IH _ Hst') as [Hend Hruns']. split; [done|]. intros Hno Hr.
  apply Hruns'; [intros now' id Hin; apply (Hno now' id); by right|].
  apply Hruns; [|done]. intros id ->. apply (Hno now id). by left.
Qed.

Lemma reads_get id p now d : reads id d = Some p → get (pipelineApiClient now) id d = (Ok p, d).
Proof.
  simpl. destruct (hydrateView owner id d) as [[q|]|e] eqn:Ho; [|done..]. intros [= ->].
  destruct (hydrated_id owner id d p Ho) as [Hid Hschema].
  assert (is_uuid id = true) as Huuid.
  { rewrite <-Hid. unfold pipelineSchema in Hschema. by repeat (apply andb_prop in Hschema as [Hschema ?]). }
  unfold client_get. rewrite parsed_run by done. rewrite fetch_run. cbn [controlPlane].
  change (getApiSession (signed_in owner)) with (Some owner).
  rewrite (getRoute_run owner id d (Some p) Huuid Ho) by by intros ? [= <-].
  unfold readAnswer. simpl. by rewrite Hschema.
Qed.

Lemma listed_schema d l : (listPipelinesByOwner owner d).1 = Ok l → forallb pipelineSchema l = true.
Proof.
  intros Hl. destruct (listPipelinesByOwner owner d) as [o d'] eqn:Hrun. simpl in Hl. subst o.
  unfold listPipelinesByOwner in Hrun. apply bind_ok in Hrun as (rows & d1 & _ & Hrun). cbv zeta in Hrun.
  do 3 apply bind_ok in Hrun as (? & ? & _ & Hrun). apply for_each_lift_ok in Hrun as [_ Hall].
  apply forallb_forall. intros p Hp%list_elem_of_In. apply list_elem_of_lookup in Hp as [i Hp].
  eapply Forall2_lookup_r in Hall as (row & _ & Hh); [|done]. by apply hydratePipeline_ok in Hh as (ts & _ & ? & ->).
Qed.

Lemma listing_list l now d : listing d l → list_ (pipelineApiClient now) d = (Ok l, d).
Proof.
  simpl. intros Hl. unfold client_list. rewrite fetch_run. cbn [controlPlane].
  change (getApiSession (signed_in owner)) with (Some owner). unfold listRoute. rewrite bind_run.
  rewrite (shown_listed owner d d eq_refl), Hl, bind_run. unfold lift, parse. rewrite (listed_schema d l Hl).
  unfold readAnswer. simpl. by rewrite (listed_schema d l Hl).
Qed.

(** C9: what the browser shows is what the server holds: whatever a
    signed-in owner does (creating, editing, deleting, duplicating,
    switching, running, and opening pages, in any order and with any
    outcome), every pipeline and every collection its cache holds as valid
    is the one the control plane would answer with; and so is every cached
    execution state as long as it requests no run. *)
Theorem browser_shows_the_server history d c :
  integrity d → readable owner d → coherent d c →
  let st := browse history (d, c) in
  (∀ id p now, holds (pipelineQueryKeys.detail id) (CachedPipeline p) st.2 →
     get (pipelineApiClient now) id st.1 = (Ok p, st.1)) ∧
  (∀ l now, holds pipelineQueryKeys.list_ (CachedPipelines l) st.2 →
     list_ (pipelineApiClient now) st.1 = (Ok l, st.1)) ∧
  ((∀ now id, (now, Runs id) ∉ history) → coherent_runs d c →
     ∀ id r, holds (pipelineQueryKeys.executionState id) (CachedExecutionState r) st.2 →
       getActiveRunForPipeline id st.1 = (Ok r, st.1)).
Proof.
  intros Hd Hread Hco st. destruct (browse_sound history (d, c)) as [[_ Hend] Hruns]; [done|]. split_and!.
  - intros id p now Hp. by apply reads_get, Hend.
  - intros l now Hl. by apply listing_list, Hend.
  - intros Hno Hr id r Hh. rewrite getActiveRun_run.
    pose proof (Hruns Hno Hr id r Hh) as Ha. simpl in Ha. unfold st. by rewrite Ha.
Qed.

(** C10: a run requested in the browser leaves the editor open: the pipeline
    was read as idle; after the run is accepted that answer is still held as
    valid, and the editor still shows the pipeline as editable, while every
    edit it sends is refused as locked. *)
Theorem run_leaves_editor_open id p r now later update d c :
  integrity d → readable owner d → getPipeline owner id d = (Ok (Some p), d) →
  holds (pipelineQueryKeys.executionState id) (CachedExecutionState None) c →
  (run (pipelineActionApiClient now) id d).1 = Ok r → pipelineUpdateRequestSchema update = true →
  let st := interact (pipelineApiClient now) (pipelineActionApiClient now) (Runs id) (d, c) in
  holds (pipelineQueryKeys.executionState id) (CachedExecutionState None) st.2 ∧
  (∃ shownState, getPipelineExecutionState p (Some None) = Ok shownState ∧ isPipelineEditable shownState = true) ∧
  QueryCache.update (pipelineApiClient later) id update st.1 =
    (Throw {| error_code := PipelineApiErrorCode.pipeline_locked; error_status := Some 409%Z |}, st.1).
Proof.
  intros Hd Hread Hget Hidle Hrun Hupdate st.
  assert (wf d) as Hwf by done.
  destruct (run_leaves_execution_state (pipelineApiClient now) (pipelineActionApiClient now) id r _ d c Hwf Hrun Hidle)
    as [Hheld Hactive].
  rewrite getPipeline_run in Hget. injection Hget as Hview. destruct (hydrated_id owner id d p Hview) as [Hid Hschema].
  assert (is_uuid id = true) as Huuid.
  { rewrite <-Hid. unfold pipelineSchema in Hschema. by repeat (apply andb_prop in Hschema as [Hschema ?]). }
  split; [exact Hheld|].
  split; [unfold getPipelineExecutionState, parsePipeline, parse; rewrite Hschema; by eexists|].
  assert (st.1 = (run (pipelineActionApiClient now) id d).2) as Hst.
  { unfold st. simpl. unfold mutate. simpl. by destruct (client_run _ id d) as [[?|?] ?]. }
  destruct (run_promise now id d Hwf) as (_ & [Hsame _] & _). rewrite <-Hst in Hsame. fold st in Hactive.
  apply (locked_update id p); [done|by apply active_hasActiveRun| |done].
  specialize (Hsame id). simpl in Hsame. rewrite Hview in Hsame.
  by destruct (hydrateView owner id st.1) as [[q|]|e]; simplify_eq.
Qed.
End browsing.
End server.
