(* ===== verification/Wizard.v ===== *)
(** * The pages of the wizard

    [apps/web/src/components]: pipeline/pipeline-builder-wizard.tsx (the
    draft being edited, the step shown and the guarded save) and
    pipeline-builder-page.tsx (saving through the API, and resuming the
    pipeline this browser saved last, whose identifier is in its local
    storage).

    A page is a state machine: what the user does, the answers to the
    requests and the reloads come as events in any order, and each handler
    runs to its next [await]. The clients are arguments over any world [W]. A
    request that is in flight when its page is left still stores what it
    creates; one that is in flight when the browser reloads is forgotten,
    whether it reaches the server or not. *)

From S2P Require Import Prelude Js Contracts BuilderDraft BrowserClient QueryCache.

(** ** pipeline-builder-wizard.tsx *)

Record WizardState := {
  draft : PipelineBuilderDraft;
  wizard_step : PipelineBuilderStep;
  wizard_pipelineId : option string;
  saveInFlight : bool }.

Definition mountWizard (initialDraft : option PipelineBuilderDraft) (initialPipelineId : option string) : WizardState :=
  {| draft := default createEmptyPipelineBuilderDraft initialDraft; wizard_step := step_source;
     wizard_pipelineId := initialPipelineId; saveInFlight := false |}.

(** What the handlers of the wizard do to its draft; the identifiers that
    [createId()] returns are arguments. *)
Inductive WizardEvent :=
  | ChangesName (name : string)
  | ChangesSource (m : ComponentMetadata) (newId : string)
  | ChangesSourceValues (v : list (string * Json))
  | AddsTransform (m : ComponentMetadata) (newId : string)
  | ChangesTransformValues (id : string) (v : list (string * Json))
  | RemovesTransform (id : string)
  | MovesTransform (id : string) (direction : Direction)
  | ChangesExport (m : ComponentMetadata) (newId : string)
  | ChangesExportValues (v : list (string * Json))
  | GoesNext
  | GoesBack.

Definition changeDraft (e : WizardEvent) (current : PipelineBuilderDraft) : PipelineBuilderDraft :=
  match e with
  | ChangesName name => updatePipelineBuilderDraft current (changing_name name)
  | ChangesSource m newId => setPipelineBuilderSource current m newId
  | ChangesSourceValues v => setPipelineBuilderSourceValues current v
  | AddsTransform m newId => addPipelineBuilderTransform current m newId
  | ChangesTransformValues id v => setPipelineBuilderTransformValues current id v
  | RemovesTransform id => removePipelineBuilderTransform current id
  | MovesTransform id direction => movePipelineBuilderTransform current id direction
  | ChangesExport m newId => setPipelineBuilderExport current m newId
  | ChangesExportValues v => setPipelineBuilderExportValues current v
  | GoesNext | GoesBack => current
  end.

Definition changeStep (e : WizardEvent) (step : PipelineBuilderStep) : PipelineBuilderStep :=
  match e with
  | GoesNext => default step (nextPipelineBuilderStep step)
  | GoesBack => default step (previousPipelineBuilderStep step)
  | _ => step
  end.

Definition changeWizard (e : WizardEvent) (w : WizardState) : WizardState :=
  {| draft := changeDraft e (draft w); wizard_step := changeStep e (wizard_step w);
     wizard_pipelineId := wizard_pipelineId w; saveInFlight := saveInFlight w |}.

(** A request of the wizard: the first creates, the later ones update. *)
Inductive SaveCall := CallCreate (request : PipelineCreateRequest) | CallUpdate (pipelineId : string) (request : PipelineUpdateRequest).

(** The page passes both [onCreate] and [onUpdate]. *)
Definition canSave (w : WizardState) : bool := isPipelineBuilderDraftPersistable (draft w).

Definition saveRequest (w : WizardState) : SaveCall :=
  match wizard_pipelineId w with
  | None => CallCreate (createPipelineCreateRequestFromDraft (draft w))
  | Some id => CallUpdate id (createPipelineUpdateRequestFromDraft (draft w))
  end.

Definition with_inFlight (b : bool) (w : WizardState) : WizardState :=
  {| draft := draft w; wizard_step := wizard_step w; wizard_pipelineId := wizard_pipelineId w; saveInFlight := b |}.

(** [save()] up to its [await]. *)
Definition save (isSaving : bool) (w : WizardState) : WizardState * option SaveCall :=
  if negb (canSave w) || isSaving || saveInFlight w then (w, None)
  else (with_inFlight true w, Some (saveRequest w)).

(** What follows: the answer arrives, or the failure is shown. *)
Definition saved (pipeline : Pipeline) (w : WizardState) : WizardState :=
  {| draft := markPipelineBuilderDraftSaved (draft w); wizard_step := wizard_step w;
     wizard_pipelineId := Some (pipeline_id pipeline); saveInFlight := false |}.

Definition saveFailed : WizardState → WizardState := with_inFlight false.

(** ** pipeline-builder-page.tsx *)

(** [resumeFailed], on a page that was opened to resume: its queries have
    nothing to resume. *)
Inductive View := Elsewhere | Resuming (resumeId : string) | Editing (wizard : WizardState) (resumeFailed : option bool).

(** The requests of the page shown, and those of pages that were left. *)
Record Browser := {
  storedId : option string;
  view : View;
  inFlight : list SaveCall;
  leftInFlight : list SaveCall }.

Definition with_stored (id : option string) (b : Browser) : Browser :=
  {| storedId := id; view := view b; inFlight := inFlight b; leftInFlight := leftInFlight b |}.
Definition with_view (v : View) (b : Browser) : Browser :=
  {| storedId := storedId b; view := v; inFlight := inFlight b; leftInFlight := leftInFlight b |}.

(** Every rendering of the page whose resuming failed forgets the stored
    identifier; it is rendered when a save starts, when it ends and when a
    query was fetched again. *)
Definition render (b : Browser) : Browser :=
  match view b with Editing _ (Some true) => with_stored None b | _ => b end.

Record SaveResult := { result_call : SaveCall; result_answer : outcome PipelineApiError Pipeline }.

Inductive BrowserEvent :=
  | Opens
  | Resumes (capabilitiesByKind : ComponentKind.t → option (list ComponentMetadata))
  | Refetches (resumeFailed : bool)
  | Changes (e : WizardEvent)
  | Saves
  | Settles (index : nat)
  | SettlesLeft (index : nat)
  | Leaves
  | Reloads (reached : nat).

Section page.
Context {W : Type}.
Context (onCreate : PipelineCreateRequest → CLIENT W Pipeline) (onUpdate : string → PipelineUpdateRequest → CLIENT W Pipeline).
Context (readDetail : string → CLIENT W Pipeline).

Definition perform (call : SaveCall) : CLIENT W Pipeline :=
  match call with
  | CallCreate request => onCreate request
  | CallUpdate id request => onUpdate id request
  end.

(** [createPipeline] of the page remembers what it created. *)
Definition remember (call : SaveCall) (pipeline : Pipeline) (b : Browser) : Browser :=
  match call with
  | CallCreate _ => with_stored (Some (pipeline_id pipeline)) b
  | CallUpdate _ _ => b
  end.

(** The draft to resume, [None] when a query failed or a component is gone. *)
Definition resumedDraft (detail : outcome PipelineApiError Pipeline)
    (capabilitiesByKind : ComponentKind.t → option (list ComponentMetadata)) : option PipelineBuilderDraft :=
  match detail with
  | Throw _ => None
  | Ok pipeline =>
      if existsb (λ kind, bool_decide (capabilitiesByKind kind = None)) [ComponentKind.source; ComponentKind.transform; ComponentKind.export]
      then None
      else mjoin (createPipelineBuilderDraftFromPipeline pipeline (createPipelineBuilderMetadataResolver capabilitiesByKind))
  end.

(** One event: the browser and the world after it, and what was answered. *)
Definition browserStep (e : BrowserEvent) (st : Browser * W) : (Browser * W) * list SaveResult :=
  let '(b, w) := st in
  match e, view b with
  | Opens, Elsewhere =>
      (with_view (match storedId b with Some id => Resuming id | None => Editing (mountWizard None None) None end) b, w, [])
  | Resumes capabilitiesByKind, Resuming id =>
      let '(detail, w) := readDetail id w in
      match resumedDraft detail capabilitiesByKind with
      | Some d => (with_view (Editing (mountWizard (Some d) (Some id)) (Some false)) b, w, [])
      | None => (render (with_view (Editing (mountWizard None None) (Some true)) b), w, [])
      end
  | Refetches resumeFailed, Editing wizard (Some _) => (render (with_view (Editing wizard (Some resumeFailed)) b), w, [])
  | Changes e, Editing wizard failed => (with_view (Editing (changeWizard e wizard) failed) b, w, [])
  | Saves, Editing wizard failed =>
      match save (bool_decide (inFlight b ≠ [])) wizard with
      | (wizard, Some call) =>
          (render {| storedId := storedId b; view := Editing wizard failed; inFlight := inFlight b ++ [call];
                     leftInFlight := leftInFlight b |}, w, [])
      | (_, None) => (b, w, [])
      end
  | Settles index, Editing wizard failed =>
      match inFlight b !! index with
      | Some call =>
          let '(answer, w) := perform call w in
          let b := {| storedId := storedId b;
                      view := Editing (match answer with Ok pipeline => saved pipeline wizard | Throw _ => saveFailed wizard end) failed;
                      inFlight := delete index (inFlight b); leftInFlight := leftInFlight b |} in
          (render (match answer with Ok pipeline => remember call pipeline b | Throw _ => b end), w,
           [{| result_call := call; result_answer := answer |}])
      | None => (b, w, [])
      end
  | SettlesLeft index, _ =>
      match leftInFlight b !! index with
      | Some call =>
          let '(answer, w) := perform call w in
          let b := {| storedId := storedId b; view := view b; inFlight := inFlight b; leftInFlight := delete index (leftInFlight b) |} in
          (match answer with Ok pipeline => remember call pipeline b | Throw _ => b end, w,
           [{| result_call := call; result_answer := answer |}])
      | None => (b, w, [])
      end
  | Leaves, _ =>
      ({| storedId := storedId b; view := Elsewhere; inFlight := []; leftInFlight := leftInFlight b ++ inFlight b |}, w, [])
  | Reloads reached, _ =>
      let '(w, results) := foldl (λ '(w, results) call,
        let '(answer, w) := perform call w in (w, results ++ [{| result_call := call; result_answer := answer |}]))
        (w, []) (take reached (inFlight b ++ leftInFlight b)) in
      ({| storedId := storedId b; view := Elsewhere; inFlight := []; leftInFlight := [] |}, w, results)
  | _, _ => (b, w, [])
  end.

End page.

(** A history: each event with its time, and the answers in order. *)
Fixpoint browserRun {W} (onCreate : Z → PipelineCreateRequest → CLIENT W Pipeline)
    (onUpdate : Z → string → PipelineUpdateRequest → CLIENT W Pipeline) (readDetail : Z → string → CLIENT W Pipeline)
    (events : list (Z * BrowserEvent)) (st : Browser * W) : (Browser * W) * list SaveResult :=
  match events with
  | [] => (st, [])
  | (now, e) :: events =>
      let '(st, results) := browserStep (onCreate now) (onUpdate now) (readDetail now) e st in
      let '(st, results') := browserRun onCreate onUpdate readDetail events st in
      (st, results ++ results')
  end.

Definition newBrowser : Browser := {| storedId := None; view := Elsewhere; inFlight := []; leftInFlight := [] |}.

(** ** The hooks of the page *)

Section hooks.
Context {S C : Type} `{!QueryClient C} (client : Z → PipelineApiClient S).

Definition createPipeline (now : Z) (request : PipelineCreateRequest) : CLIENT (S * C) Pipeline :=
  mutate (createPipelineMutationOptions (client now)) request.

Definition updatePipeline (now : Z) (pipelineId : string) (update : PipelineUpdateRequest) : CLIENT (S * C) Pipeline :=
  mutate (updatePipelineMutationOptions (client now)) (pipelineId, update).

(** [useQuery] of [pipelineDetailQueryOptions], where it fetches. *)
Definition detailQuery (now : Z) (pipelineId : string) : CLIENT (S * C) Pipeline := λ st,
  match get (client now) pipelineId st.1 with
  | (Ok pipeline, s) => (Ok pipeline, (s, setQueryData (pipelineQueryKeys.detail pipelineId) (CachedPipeline pipeline) st.2))
  | (Throw e, s) => (Throw e, (s, st.2))
  end.

Definition pageRun : list (Z * BrowserEvent) → Browser * (S * C) → (Browser * (S * C)) * list SaveResult :=
  browserRun createPipeline updatePipeline detailQuery.
End hooks.
