(* ===== verification/WizardProofs.v ===== *)
(** * One pipeline per browser

    What the guards and the memory of the wizard's pages amount to, for any
    order of user actions, answers and navigation. *)

From S2P Require Import Prelude Js Contracts Schemas Http Graph Database Documents Repository RepositoryProofs.
From S2P Require Import SchedulerService Uploads UploadProofs PipelineRoutes PipelineRouteProofs ControlPlane.
From S2P Require Import BuilderDraft BrowserClient BrowserProofs QueryCache CachedControlPlane Wizard.

(** The calls that succeeded, with the pipeline each answered with. *)
Definition successes (results : list SaveResult) : list (SaveCall * Pipeline) :=
  omap (λ r, match result_answer r with Ok p => Some (result_call r, p) | Throw _ => None end) results.

Lemma successes_app l k : successes (l ++ k) = successes l ++ successes k.
Proof. apply omap_app. Qed.

(** Nothing was saved, or one pipeline was created and everything else
    updated it. *)
Definition one_pipeline (results : list SaveResult) : Prop :=
  successes results = [] ∨
  ∃ request p rest, successes results = (CallCreate request, p) :: rest ∧
    ∀ call q, (call, q) ∈ rest → ∃ r, call = CallUpdate (pipeline_id p) r.

Section steps.
Context {W : Type}.
Context (onCreate : PipelineCreateRequest → CLIENT W Pipeline) (onUpdate : string → PipelineUpdateRequest → CLIENT W Pipeline).
Context (readDetail : string → CLIENT W Pipeline).
Hypothesis update_keeps_id : ∀ id r w p w', onUpdate id r w = (Ok p, w') → pipeline_id p = id.

Abbreviation step := (browserStep onCreate onUpdate readDetail).

(** No reload, no page left while it saves, and no resuming that fails. *)
Definition calm (e : BrowserEvent) (st : Browser * W) : Prop :=
  match e with
  | Reloads _ => False
  | Leaves => inFlight st.1 = []
  | Resumes capabilities => ∀ id, view st.1 = Resuming id → resumedDraft (readDetail id st.2).1 capabilities ≠ None
  | Refetches failed => failed = false
  | _ => True
  end.

(** The page works on the pipeline [known], if there is one yet. *)
Definition view_on (known : option string) (v : View) : Prop :=
  match v with
  | Elsewhere => True
  | Resuming id => known = Some id
  | Editing wizard failed => failed ≠ Some true ∧ wizard_pipelineId wizard = known
  end.

Definition call_on (known : option string) (call : SaveCall) : Prop :=
  match call with CallCreate _ => known = None | CallUpdate id _ => known = Some id end.

Record steady (known : option string) (b : Browser) : Prop := {
  steady_stored : storedId b = known;
  steady_view : view_on known (view b);
  steady_calls : Forall (call_on known) (inFlight b);
  steady_one : length (inFlight b) ≤ 1;
  steady_left : leftInFlight b = [] }.

Lemma render_steady known b : view_on known (view b) → render b = b.
Proof. unfold render. destruct (view b) as [| |wizard [[]|]]; by intros []. Qed.

(** The pipeline known after what was answered. *)
Definition knownAfter (known : option string) (results : list SaveResult) : option string :=
  match known, successes results with
  | None, (_, p) :: _ => Some (pipeline_id p)
  | _, _ => known
  end.

Definition step_shape (known : option string) (results : list SaveResult) : Prop :=
  length results ≤ 1 ∧ ∀ call p, (call, p) ∈ successes results → call_on known call ∧ ∀ id, known = Some id → pipeline_id p = id.

Lemma perform_keeps_id call w p w' known : call_on known call → perform onCreate onUpdate call w = (Ok p, w') →
  ∀ id, known = Some id → pipeline_id p = id.
Proof.
  destruct call as [r|id' r]; simpl; intros -> Hp id; [done|]. intros [= <-]. by eapply update_keeps_id.
Qed.

Definition steadily (known : option string) (x : (Browser * W) * list SaveResult) : Prop :=
  steady (knownAfter known x.2) x.1.1 ∧ step_shape known x.2.

Lemma steadily_quiet known b w : steady known b → steadily known (b, w, []).
Proof.
  intros Hb. split; [by destruct known|]. split; [simpl; lia|]. intros ? ? Hin. by apply elem_of_nil in Hin.
Qed.

(** The answer to the one request of the page. *)
Lemma settles_steady known b w index wizard failed call : steady known b → view b = Editing wizard failed →
  inFlight b !! index = Some call →
  steadily known (step (Settles index) (b, w)).
Proof.
  intros [Hs Hv Hc H1 Hl] Hview Hcall. cbn [browserStep]. rewrite Hview, Hcall. rewrite Hview in Hv. destruct Hv as [Hfailed Hid].
  destruct (inFlight b) as [|c [|]] eqn:Hflight; [done| |simpl in H1; lia].
  destruct index as [|index]; [|done]. injection Hcall as ->.
  assert (call_on known call) as Hon by (by inversion Hc).
  destruct (perform onCreate onUpdate call w) as [[p|e] w'] eqn:Hp; simpl.
  - pose proof (perform_keeps_id call w p w' known Hon Hp) as Hkeep. split.
    + destruct call as [r|id r]; simpl in Hon; rewrite Hon.
      * rewrite render_steady with (known := Some (pipeline_id p)) by done. split; simpl; try done; lia.
      * rewrite render_steady with (known := Some id) by (split; [done|simpl; by rewrite (Hkeep id Hon)]).
        split; simpl; try done; [by rewrite Hs|by rewrite (Hkeep id Hon)|lia].
    + split; [simpl; lia|]. intros call' p' Hin. apply list_elem_of_singleton in Hin. by injection Hin as -> ->.
  - split; [|split; [simpl; lia|intros ? ? Hin; by apply elem_of_nil in Hin]].
    cbn [fst snd]. assert (knownAfter known [{| result_call := call; result_answer := Throw e |}] = known) as -> by (by destruct known).
    rewrite render_steady with (known := known) by done. split; simpl; try done; lia.
Qed.

Lemma saves_steady known b w wizard failed : steady known b → view b = Editing wizard failed →
  steadily known (step Saves (b, w)).
Proof.
  intros Hb Hview. cbn [browserStep]. rewrite Hview. unfold save.
  destruct (negb (canSave wizard) || bool_decide (inFlight b ≠ []) || saveInFlight wizard) eqn:Hguard;
    [by apply steadily_quiet|].
  destruct Hb as [Hs Hv Hc H1 Hl]. rewrite Hview in Hv.
  apply orb_false_iff in Hguard as [[_ Hfree]%orb_false_iff _]. apply bool_decide_eq_false in Hfree.
  assert (inFlight b = []) as Hempty by (by destruct (inFlight b); [|destruct Hfree]).
  rewrite render_steady with (known := known) by done. apply steadily_quiet. destruct Hv as [Hf Hid]. rewrite Hempty.
  split; simpl; try done; try lia. constructor; [|done]. unfold saveRequest. rewrite Hid. by destruct known.
Qed.

Lemma step_steady known e b w : steady known b → calm e (b, w) → steadily known (step e (b, w)).
Proof.
  intros Hb Hcalm. destruct e as [|capabilities|refailed|e| |index|index| |reached]; [cbn [browserStep]..|].
  - destruct (view b) eqn:Hview; apply steadily_quiet; try done. destruct Hb as [Hs Hv Hc H1 Hl].
    rewrite Hs. destruct known; by split.
  - destruct (view b) as [|id|] eqn:Hview; try by apply steadily_quiet.
    simpl in Hcalm. specialize (Hcalm id Hview). destruct (readDetail id w) as [detail w'].
    simpl in Hcalm. destruct (resumedDraft detail capabilities) as [d|]; [|done]. apply steadily_quiet.
    destruct Hb as [Hs Hv Hc H1 Hl]. rewrite Hview in Hv. by split.
  - simpl in Hcalm. subst refailed. destruct (view b) as [| |wizard [old|]] eqn:Hview; apply steadily_quiet; try done.
    destruct Hb as [Hs Hv Hc H1 Hl]. rewrite Hview in Hv. destruct Hv as [_ Hid]. by split.
  - destruct (view b) as [| |wizard failed] eqn:Hview; apply steadily_quiet; try done.
    destruct Hb as [Hs Hv Hc H1 Hl]. rewrite Hview in Hv. by split.
  - destruct (view b) as [| |wizard failed] eqn:Hview; try by apply steadily_quiet.
    pose proof (saves_steady known b w wizard failed Hb Hview) as Hs. cbn [browserStep] in Hs. by rewrite Hview in Hs.
  - destruct (view b) as [| |wizard failed] eqn:Hview; try by apply steadily_quiet.
    destruct (inFlight b !! index) as [call|] eqn:Hcall; [|by apply steadily_quiet].
    pose proof (settles_steady known b w index wizard failed call Hb Hview Hcall) as Hs. cbn [browserStep] in Hs.
    by rewrite Hview, Hcall in Hs.
  - pose proof (steady_left known b Hb) as Hl. rewrite Hl, lookup_nil. destruct (view b); by apply steadily_quiet.
  - simpl in Hcalm. destruct Hb as [Hs Hv Hc H1 Hl].
    destruct (view b); apply steadily_quiet; split; simpl; try done; try lia; by rewrite Hl, Hcalm.
  - done.
Qed.
End steps.

(** ** Histories *)

Section runs.
Context {W : Type}.
Context (onCreate : Z → PipelineCreateRequest → CLIENT W Pipeline) (onUpdate : Z → string → PipelineUpdateRequest → CLIENT W Pipeline).
Context (readDetail : Z → string → CLIENT W Pipeline).
Hypothesis update_keeps_id : ∀ now id r w p w', onUpdate now id r w = (Ok p, w') → pipeline_id p = id.

Fixpoint calmly (events : list (Z * BrowserEvent)) (st : Browser * W) : Prop :=
  match events with
  | [] => True
  | (now, e) :: events => calm (readDetail now) e st ∧
      calmly events (browserStep (onCreate now) (onUpdate now) (readDetail now) e st).1
  end.

(** What a history saved, when the pipeline [known] was known before. *)
Definition saved_on (known : option string) (results : list SaveResult) : Prop :=
  match known with
  | None => one_pipeline results
  | Some id => ∀ call q, (call, q) ∈ successes results → (∃ r, call = CallUpdate id r) ∧ pipeline_id q = id
  end.

Lemma saved_on_app known results results' : step_shape known results → saved_on (knownAfter known results) results' →
  saved_on known (results ++ results').
Proof.
  intros [Hlen Hcalls] Hrest. destruct known as [id|]; simpl in *.
  - intros call q. rewrite successes_app, elem_of_app. intros [Hin|Hin]; [|by apply Hrest].
    destruct (Hcalls call q Hin) as [Hon Hid]. split; [|by apply Hid].
    destruct call as [r|id' r]; [done|]. injection Hon as ->. by exists r.
  - unfold knownAfter in Hrest. unfold one_pipeline. rewrite successes_app.
    destruct results as [|[call [p|e]] [|? ?]]; simpl in *; [done| |lia|done|lia].
    destruct (Hcalls call p) as [Hon _]; [by left|]. destruct call as [r|id r]; [|done].
    right. exists r, p, (successes results'). split; [done|]. intros call q Hin. apply Hrest in Hin as [? _]. done.
Qed.

Lemma knownAfter_app known results results' :
  knownAfter known (results ++ results') = knownAfter (knownAfter known results) results'.
Proof.
  unfold knownAfter. rewrite successes_app. destruct known; [done|]. by destruct (successes results) as [|[]].
Qed.

Lemma run_steady events known b w : steady known b → calmly events (b, w) →
  let out := browserRun onCreate onUpdate readDetail events (b, w) in
  steady (knownAfter known out.2) out.1.1 ∧ saved_on known out.2.
Proof.
  revert known b w. induction events as [|[now e] events IH]; intros known b w Hb Hcalm; cbn [browserRun calmly] in *.
  - split; [by destruct known|]. destruct known; simpl; [intros ? ? Hin; by apply elem_of_nil in Hin|by left].
  - destruct Hcalm as [He Hcalm].
    destruct (step_steady (onCreate now) (onUpdate now) (readDetail now) (update_keeps_id now) known e b w Hb He) as [Hb' Hshape].
    destruct (browserStep _ _ _ e (b, w)) as [[b' w'] results]. cbn [fst snd] in *.
    specialize (IH _ b' w' Hb' Hcalm). destruct (browserRun _ _ _ events (b', w')) as [st results']. simpl in *.
    destruct IH as [Hsteady Hsaved]. rewrite knownAfter_app. split; [done|]. by apply saved_on_app.
Qed.
End runs.

(** ** Over the control plane *)

Section composed.
Context `{!Uuids, !Formats}.
Context (catalog : list ComponentMetadata) (token token' : string) (owner : string).

Lemma updatePipeline_id user id update now d p d' :
  Repository.updatePipeline user id update now d = (Ok (Some p), d') → pipeline_id p = id.
Proof.
  intros (_ & _ & _ & Hm)%updatePipeline_ok.
  apply updatePipelineInTransaction_ok in Hm as (row & old & g & _ & _ & _ & _ & _ & Hm). cbv zeta in Hm.
  destruct Hm as (_ & Hhead & _ & (ts & _ & _ & ->)%hydratePipeline_ok). simpl.
  apply head_elem_of, list_elem_of_fmap in Hhead as (r & -> & [<- _]%list_elem_of_filter). done.
Qed.

Lemma updateRoute_id id request now d response p d' : updateRoute (Some owner) id request now d = (Ok response, d') →
  response_ok response = true → body response ≫= asPipeline = Some p → pipeline_id p = id.
Proof.
  unfold updateRoute. destruct (parseDetailRequest id) as [id'|] eqn:Hid; [|by intros [= <- <-]].
  assert (id' = id) as -> by (unfold parseDetailRequest in Hid; destruct (is_uuid id); by simplify_eq).
  destruct (parseUpdateRequest request) as [u|]; [|by intros [= <- <-]].
  destruct (Repository.updatePipeline owner id u now d) as [[[q|]|e] d1] eqn:Hu.
  - pose proof (updatePipeline_id _ _ _ _ _ _ _ Hu) as Hq.
    destruct (pipelineSchema q) eqn:Hschema.
    + erewrite answering_ok; cycle 1.
      { rewrite bind_run, Hu. cbv beta iota. rewrite bind_run, claimPipelineUploads_run. cbv beta iota zeta.
        rewrite bind_run. unfold lift, parse. by rewrite Hschema. }
      intros [= <- <-] _. simpl. rewrite Hschema. by intros [= <-].
    + erewrite answering_throw; cycle 1.
      { rewrite bind_run, Hu. cbv beta iota. rewrite bind_run, claimPipelineUploads_run. cbv beta iota zeta.
        rewrite bind_run. unfold lift, parse. by rewrite Hschema. }
      by intros [= <- <-].
  - erewrite answering_ok by (by rewrite bind_run, Hu). by intros [= <- <-].
  - erewrite answering_throw by (by rewrite bind_run, Hu). destruct e; simpl; by intros [= <- <-].
Qed.

Lemma client_update_id now id update d p d' :
  QueryCache.update (pipelineApiClient catalog token token' owner now) id update d = (Ok p, d') → pipeline_id p = id.
Proof.
  simpl. unfold client_update. destruct (is_uuid id); [|done]. rewrite parsed_run by done.
  destruct (pipelineUpdateRequestSchema update); [|done]. rewrite parsed_run by done. rewrite fetch_run. cbn [controlPlane].
  change (getApiSession (signed_in owner)) with (Some owner).
  destruct (updateRoute _ _ _ _ d) as [[response|e] d1] eqn:Hroute; [|done].
  unfold readAnswer. simpl. destruct (response_ok response) eqn:Hok; [|done].
  destruct (body response ≫= asPipeline) as [q|] eqn:Hbody; [|done]. intros [= <- <-]. by eapply updateRoute_id.
Qed.

#[local] Abbreviation clients := (pipelineApiClient catalog token token' owner).

(** C12: while a browser is used without reloading it, without leaving a page
    that saves and without a failure to resume, its wizard has at most one
    request in flight, creates one pipeline and directs everything it saves
    later, also on the pages opened after that, to that pipeline, whose
    identifier it remembers. *)
Theorem one_pipeline_per_browser {C} `{!QueryClient C} (events : list (Z * BrowserEvent)) (d : Database) (c : C) :
  calmly (createPipeline clients) (updatePipeline clients) (detailQuery clients) events (newBrowser, (d, c)) →
  let '((b, _), results) := pageRun clients events (newBrowser, (d, c)) in
  one_pipeline results ∧ length (inFlight b) ≤ 1 ∧ storedId b = (pipeline_id ∘ snd <$> head (successes results)).
Proof.
  intros Hcalm. assert (steady None newBrowser) as Hnew by (split; simpl; try done; lia).
  assert (∀ now id r (w : Database * C) p w', updatePipeline clients now id r w = (Ok p, w') → pipeline_id p = id) as Hkeep.
  { intros now id r [d' c'] p w'. unfold updatePipeline, mutate. cbn [mutationFn updatePipelineMutationOptions fst snd].
    destruct (QueryCache.update _ id r d') as [[q|e] d1] eqn:Hu; [|done]. intros [= <- _]. by eapply client_update_id. }
  pose proof (run_steady _ _ _ Hkeep events None newBrowser (d, c) Hnew Hcalm) as [Hsteady Hsaved].
  unfold pageRun. destruct (browserRun _ _ _ events _) as [[b w] results]. simpl in *.
  split; [done|]. split; [apply Hsteady|]. rewrite (steady_stored _ _ Hsteady). unfold knownAfter.
  by destruct (successes results) as [|[]].
Qed.
End composed.
