(* ===== verification/AccountHistory.v ===== *)
(** * Histories of the accounts

    Sequences of first-run seeding, resets, setup, token requests and calls
    of the control plane: the published first-run password never operates a
    deployment, and an API token authenticates its owner until the owner
    revokes it. *)

From S2P Require Import Prelude Js Contracts Schemas Paths Http Graph Database Integrity Statements Frames.
From S2P Require Import Repository RepositoryProofs RunLogs RunQueue RunQueueProofs QueueClaims Documents Actions.
From S2P Require Import SchedulerService Uploads UploadProofs PipelineRoutes ControlPlane Accounts AccountProofs.

(** ** The published password *)

Section published.
Context `{!Uuids, !Formats, !PasswordHashing, !PasswordVerification, !Sha256}.
Context (catalog : list ComponentMetadata) (token token' : string).

(** Accounts belong to users, and whoever the published password admits must
    change it. *)
Record guarded (s : Directory) : Prop := {
  account_owners : ∀ a, a ∈ accounts s → hasUser (ac_userId a) s;
  default_pending : ∀ u, u ∈ users (tables s) → opens s (u_id u) DEFAULT_ADMIN_PASSWORD →
    u_requiresPasswordChange u = true }.

(** What happens to the accounts and the tokens, calls of the control plane
    included. A caller of [ensureFirstAdmin] may have seen an empty table
    before another seeded it: [SeedRace]. *)
Inductive AccountEvent :=
  | FirstAdmin (identity : AdminIdentity) (password : string) (salt : nat)
  | SeedRace (identity : AdminIdentity) (password : string) (salt : nat)
  | ResetPassword (email : string) (bytes : list nat) (salt : nat) (now : Z)
  | CompleteSetup (session : option SessionIdentity) (email password : string) (salt : nat) (now : Z)
  | CreateToken (session : option string) (request : Request) (bytes : list nat)
  | RevokeToken (session : option string) (tokenId : string) (now : Z)
  | ServeCall (session : option (string * bool)) (now : Z) (call : RouteCall).

Definition perform (event : AccountEvent) (s : Directory) : Directory :=
  match event with
  | FirstAdmin identity password salt => (ensureFirstAdmin identity password salt s).2
  | SeedRace identity password salt => (seedFirstAdmin identity password (hashPassword salt password) s).2
  | ResetPassword email bytes salt now => (resetAdminPassword email bytes salt now s).2
  | CompleteSetup session email password salt now => (completeAdminSetup session email password salt now s).2
  | CreateToken session request bytes => (createTokenRoute session request bytes s).2
  | RevokeToken session tokenId now => (revokeTokenRoute session tokenId now s).2
  | ServeCall session now call =>
      (on_tables (controlPlane catalog (throughScheduler token token') session now call) s).2
  end.

Fixpoint performAll (history : list AccountEvent) (s : Directory) : Directory :=
  match history with
  | [] => s
  | event :: history => performAll history (perform event s)
  end.

Lemma performAll_app before after s : performAll (before ++ after) s = performAll after (performAll before s).
Proof. revert s. induction before as [|e before IH]; intros s; simpl; [done|]. apply IH. Qed.

(** An invariant of the events is one of their histories. *)
Lemma performAll_keeps (I : Directory → Prop) history s :
  (∀ e s, e ∈ history → I s → I (perform e s)) → I s → I (performAll history s).
Proof.
  revert s. induction history as [|e history IH]; intros s He Hs; simpl; [done|].
  apply IH; [intros e' s' He'; apply He; by right|]. apply He; [left|done].
Qed.

Lemma guarded_same s s' :
  users (tables s') = users (tables s) → accounts s' = accounts s → guarded s → guarded s'.
Proof.
  intros Hu Ha [Ho Hd]. split.
  - intros a. unfold hasUser. rewrite Ha, Hu. apply Ho.
  - intros u. rewrite Hu. intros Hin Hop. apply Hd; [done|]. unfold opens in *. by rewrite Ha in Hop.
Qed.

Lemma guarded_written userId salt password f s s1 s' :
  guarded s → hasUser userId s → credential_written userId (hashPassword salt password) s s1 →
  users (tables s') = updateIf (λ u, u_id u = userId) f <$> users (tables s) → accounts s' = accounts s1 →
  (∀ u, u_id (f u) = u_id u) →
  (password ≠ DEFAULT_ADMIN_PASSWORD ∨ ∀ u, u_requiresPasswordChange (f u) = true) →
  guarded s'.
Proof.
  intros [Ho Hd] Hus Hw Hu Ha Hfid Hsafe.
  assert (u_id <$> users (tables s') = u_id <$> users (tables s)) as Hids.
  { rewrite Hu, <-list_fmap_compose. apply list_fmap_ext. intros _ u _. simpl. unfold updateIf. by case_decide. }
  assert (∀ id, hasUser id s' ↔ hasUser id s) as Hhas by (intros id; unfold hasUser; by rewrite Hids).
  split.
  - intros a. rewrite Ha, Hhas. intros Hin. destruct (decide (credentialOf userId a)) as [[-> _]|Hc]; [done|].
    apply Ho. assert (a ∈ filter (λ a, ¬ credentialOf userId a) (accounts s1)) as Hin'
      by (by apply list_elem_of_filter).
    rewrite (cw_others _ _ _ _ Hw) in Hin'. by apply list_elem_of_filter in Hin' as [_ ?].
  - intros u'. rewrite Hu. intros (u & -> & Hin)%list_elem_of_fmap Hop. unfold updateIf in *.
    assert (∀ id, opens s' id DEFAULT_ADMIN_PASSWORD ↔ opens s1 id DEFAULT_ADMIN_PASSWORD) as Hops
      by (intros id; unfold opens; by rewrite Ha).
    case_decide as Hid.
    + destruct Hsafe as [Hne|Hf]; [|done]. rewrite Hfid, Hid, Hops in Hop.
      by apply (written_opens userId salt password s s1) in Hop.
    + apply Hd; [done|]. rewrite Hops in Hop. by apply (written_others userId (hashPassword salt password) s s1).
Qed.

Lemma seed_guarded identity password hash s : guarded s → guarded (seedFirstAdmin identity password hash s).2.
Proof.
  intros Hg. unfold seedFirstAdmin, try_catch.
  destruct (transaction _ s) as [[r|e] s1] eqn:E; simpl; cycle 1.
  { apply transaction_throw in E as (-> & _). by destruct (isUniqueViolation e). }
  rewrite transaction_ok in E. apply bind_ok in E as (u & s2 & Hu & E).
  apply bind_ok in E as (v & s3 & (Hid & Huser & ->)%insertAccount_ok & E). injection E as _ <-.
  unfold insertUser in Hu. apply bind_ok in Hu as (id & s3 & Hn & Hu). injection Hn as <- <-.
  apply bind_ok in Hu as (now & s3 & Hn & Hu). injection Hn as <- <-. cbv zeta in Hu.
  apply bind_ok in Hu as (v1 & s3 & [Hfresh ->]%demand_ok & Hu).
  apply bind_ok in Hu as (v2 & s3 & [_ ->]%demand_ok & Hu).
  apply bind_ok in Hu as (v3 & s3 & [_ ->]%demand_ok & Hu).
  apply bind_ok in Hu as (v4 & s3 & Hp & Hu). injection Hp as _ <-. injection Hu as <- <-.
  unfold hasUser in Hfresh. simpl in *. destruct Hg as [Ho Hd]. split; simpl.
  - intros a Ha. unfold hasUser. simpl. rewrite fmap_app. simpl.
    apply elem_of_app in Ha as [Ha| ->%list_elem_of_singleton]; apply elem_of_app; [left; by apply Ho|right; left].
  - intros w Hw (a & Ha & [Hc Hcr] & h & Hh & Hver). simpl in *.
    apply elem_of_app in Hw as [Hw| ->%list_elem_of_singleton]; [|done].
    apply elem_of_app in Ha as [Ha| ->%list_elem_of_singleton].
    + apply Hd; [done|]. exists a. split_and!; [done|done|]. by exists h.
    + simpl in Hc. destruct Hfresh. rewrite Hc. by apply list_elem_of_fmap_2.
Qed.

Lemma reset_guarded email bytes salt now s : guarded s → guarded (resetAdminPassword email bytes salt now s).2.
Proof.
  intros Hg. unfold resetAdminPassword. rewrite bind_run. unfold lift.
  destruct (parseAdminIdentity _ _) as [identity|e]; [|done]. rewrite bind_run. simpl.
  destruct (head _) as [u|] eqn:Hu; [|done]. apply head_elem_of, list_elem_of_filter in Hu as [_ Hu].
  rewrite bind_run. destruct (transaction _ s) as [[[]|e] s1] eqn:E; simpl; cycle 1.
  { by apply transaction_throw in E as (-> & _). }
  rewrite transaction_ok in E. apply bind_ok in E as ([] & s2 & Hw%writeCredential_ok & E).
  apply bind_ok in E as ([] & s3 & Hup & E). injection E as <-.
  unfold updateUsers in Hup. apply bind_ok in Hup as ([] & s4 & [_ ->]%demand_ok & Hup). injection Hup as <-.
  eapply (guarded_written (u_id u) salt _ (with_requirement None true now) s s2); simpl;
    [done| |exact Hw|by rewrite (cw_users _ _ _ _ Hw)|done|done|by right].
  by apply list_elem_of_fmap_2.
Qed.

Lemma setup_guarded session email password salt now s :
  guarded s → guarded (completeAdminSetup session email password salt now s).2.
Proof.
  intros Hg. unfold completeAdminSetup. destruct session as [session|]; [|done].
  case_match; [done|]. unfold try_catch. rewrite bind_run.
  destruct (completeInitialAdminSetup _ _ _ _ _ s) as [[[]|e] s1] eqn:E; simpl; cycle 1.
  { assert (s1 = s) as ->; [|by destruct e].
    unfold completeInitialAdminSetup in E. cbv zeta in E. repeat (case_match; [by injection E|]).
    by apply transaction_throw in E as (-> & _). }
  apply setup_written in E as (_ & [Hdef _] & Hp & s2 & Hw & ->).
  apply Exists_exists in Hp as (u & Hu & Hid & _).
  eapply (guarded_written (session_id session) salt password _ s s2); simpl;
    [done| |exact Hw|done|done|done|by left].
  unfold hasUser. rewrite <-Hid. by apply list_elem_of_fmap_2.
Qed.

(** The control plane writes no user. *)
Section users.
Context (l : list UserRow).

Abbreviation same_users := (λ d, users d = l).

#[local] Hint Extern 1 (preserves _ (recordOperationalEvents _)) => unfold recordOperationalEvents : preserves.

Lemma createPipeline_users owner request : preserves same_users (createPipeline owner request).
Proof. unfold createPipeline, createPipelineGraph. solve_preserves. Qed.

Lemma updatePipeline_users owner id update now : preserves same_users (updatePipeline owner id update now).
Proof.
  unfold updatePipeline, updatePipelineInTransaction, replaceGraphRecords, replaceComponents,
    replaceTriggers, insertReplacementEdges, readPipelineGraph, findActiveRun. solve_preserves.
Qed.

Lemma deletePipeline_users owner id : preserves same_users (deletePipeline owner id).
Proof. unfold deletePipeline. solve_preserves. Qed.

Lemma getPipeline_users owner id : preserves same_users (getPipeline owner id).
Proof. intros d Hd. by rewrite getPipeline_run. Qed.

Lemma claimPipelineUploads_users owner p : preserves same_users (claimPipelineUploads owner p).
Proof. intros d Hd. by rewrite claimPipelineUploads_run. Qed.

Lemma setPipelineStateForOwner_users owner id state now available :
  preserves same_users (setPipelineStateForOwner owner id state now available).
Proof. unfold setPipelineStateForOwner, readPipelineTopologyForExecutableCheck. solve_preserves. Qed.

Lemma duplicatePipeline_users owner id name : preserves same_users (duplicatePipeline owner id name newId).
Proof.
  unfold duplicatePipeline, buildDuplicateCreateRequest. pose proof createPipeline_users.
  pose proof getPipeline_users. solve_preserves.
Qed.

Lemma createPipelineRun_users request now : preserves same_users (createPipelineRun request now).
Proof.
  unfold createPipelineRun, createPipelineRunInTransaction, promoteOldestQueuedRun, createInitialSourceJobs,
    recordOperationalEvent, recordOperationalEvents, findActivePipelineRun, getRunLogRetentionDays.
  solve_preserves.
Qed.

Lemma throughScheduler_users now owner id : preserves same_users (throughScheduler token token' now owner id).
Proof.
  unfold throughScheduler, enqueueRunRemotely, internalPipelineRunHandler, enqueuePipelineRunForOwner,
    runPipelineForOwner, findOwnedPipeline, answering.
  pose proof createPipelineRun_users. solve_preserves.
Qed.

Lemma controlPlane_users session now call :
  preserves same_users (controlPlane catalog (throughScheduler token token') session now call).
Proof.
  pose proof createPipeline_users. pose proof updatePipeline_users. pose proof deletePipeline_users.
  pose proof duplicatePipeline_users. pose proof setPipelineStateForOwner_users. pose proof getPipeline_users.
  pose proof claimPipelineUploads_users. pose proof throughScheduler_users.
  unfold controlPlane. destruct call; unfold listRoute, createRoute, getRoute, updateRoute, deleteRoute,
    enableRoute, disableRoute, stateActionRoute, duplicateRoute, executionStateRoute, runRoute,
    enablePipelineForOwner, disablePipelineForOwner, listPipelinesByOwner, getActiveRunForPipeline, answering;
    solve_preserves.
Qed.
End users.

Lemma on_tables_users {A} (m : DB A) s :
  (∀ l, preserves (λ d, users d = l) m) → users (tables (on_tables m s).2) = users (tables s).
Proof.
  intros Hm. unfold on_tables. specialize (Hm (users (tables s)) (tables s) eq_refl).
  by destruct (m (tables s)) as [r d].
Qed.

(** The token routes leave the accounts alone. *)
Lemma createToken_same session request bytes s :
  users (tables (createTokenRoute session request bytes s).2) = users (tables s) ∧
  accounts (createTokenRoute session request bytes s).2 = accounts s.
Proof.
  unfold createTokenRoute, createApiToken, insertApiToken. destruct session as [owner|]; [|done].
  destruct (parseApiTokenName _) as [name|]; [|done].
  apply (λ Hm : preserves (λ s', users (tables s') = users (tables s) ∧ accounts s' = accounts s) _, Hm s (conj eq_refl eq_refl)).
  repeat first [apply preserves_bind; [|intros ?] | apply preserves_ret | apply preserves_gets | apply demand_keeps
               | progress cbv zeta | apply preserves_puts; intros ? ? | done ].
  by intros s'.
Qed.

Lemma revokeToken_same session tokenId now s :
  users (tables (revokeTokenRoute session tokenId now s).2) = users (tables s) ∧
  accounts (revokeTokenRoute session tokenId now s).2 = accounts s.
Proof. unfold revokeTokenRoute, revokeApiToken. destruct session; [|done]. by case_match. Qed.

Lemma perform_guarded event s : guarded s → guarded (perform event s).
Proof.
  intros Hs. destruct event; simpl.
  - unfold ensureFirstAdmin. rewrite bind_run. simpl. destruct (head _); [done|]. by apply seed_guarded.
  - by apply seed_guarded.
  - by apply reset_guarded.
  - by apply setup_guarded.
  - apply (guarded_same s); [apply createToken_same..|done].
  - apply (guarded_same s); [apply revokeToken_same..|done].
  - apply (guarded_same s); [|by unfold on_tables; case_match|done].
    apply on_tables_users. intros l. apply controlPlane_users.
Qed.

End published.
