(* ===== verification/TokenProofs.v ===== *)
(** * API tokens

    The text of a token and the header that carries it, and what histories of
    the accounts do to a token: it authenticates its owner until the owner
    revokes it, and never again. *)

From S2P Require Import Prelude Js Contracts Schemas Paths Http Database Integrity Statements.
From S2P Require Import Documents PipelineRoutes ControlPlane Accounts AccountProofs AccountHistory.

(** ** The text of a token *)

Lemma substring_all s : String.substring 0 (String.length s) s = s.
Proof. induction s as [|c s IH]; simpl; [done|]. by rewrite IH. Qed.

(** The header a client sends a token in. *)
Definition bearer (token : string) : option string := Some ("Bearer " +:+ token).

Lemma extract_generated bytes :
  length bytes = 32 → extractBearerToken (bearer (generateApiToken bytes)) = Some (generateApiToken bytes).
Proof.
  intros Hlen. destruct (base64url_shape bytes) as [Hc Hl]. rewrite Hlen in Hl.
  change ((4 * 32 + 2) / 3) with 43 in Hl. unfold extractBearerToken, bearer. cbv zeta.
  set (t := generateApiToken bytes).
  assert (String.substring 0 7 ("Bearer " +:+ t) = "Bearer ") as -> by (cbn; by destruct t).
  rewrite decide_True by done. rewrite string_length_app. change (String.length "Bearer ") with 7.
  rewrite Nat.add_comm, Nat.add_sub. change (String.substring 7 (String.length t) ("Bearer " +:+ t))
    with (String.substring 0 (String.length t) t). rewrite substring_all.
  assert (all_chars is_token_char t = true) as -> by (unfold t, generateApiToken, API_TOKEN_PREFIX; exact Hc).
  assert (startsWith API_TOKEN_PREFIX t = true) as -> by (apply startsWith_iff; by eexists).
  rewrite !bool_decide_eq_true_2; [done| |done].
  unfold t, generateApiToken. by rewrite string_length_app, Hl.
Qed.

(** ** Tokens through the events *)

Section histories.
Context `{!Uuids, !Formats, !PasswordHashing, !Sha256}.
Context (catalog : list ComponentMetadata) (token token' : string).

Lemma demand_bind P `{∀ s, Decision (P s)} c {A} (k : unit → DIR A) (I : Directory → Prop) :
  (∀ s, P s → I s → I (k () s).2) → preserves I (demand P c ≫= k).
Proof. intros Hk s Hs. rewrite bind_run. unfold demand. case_decide; [by apply Hk|done]. Qed.

Ltac next_demand H := rewrite bind_run; unfold demand at 1; case_decide as H; simpl; [|done].

(** The goal is one of [preserves]. *)
Ltac by_preservation Hs :=
  match goal with |- ?I ((?m ?s).2) => apply (λ Hm : preserves I m, Hm s Hs) end.

(** The users are told apart, the owner is one, and the tokens are these. *)
Record holding (owner : string) (tokens : list ApiTokenRow) (s : Directory) : Prop := {
  held_ids : NoDup (u_id <$> users (tables s));
  held_owner : hasUser owner s;
  held_tokens : apiTokens s = tokens }.

Lemma holding_same owner tokens s s' :
  users (tables s') = users (tables s) → apiTokens s' = apiTokens s → holding owner tokens s → holding owner tokens s'.
Proof. intros Hu Ht [? ? ?]. split; unfold hasUser; rewrite ?Hu, ?Ht; done. Qed.

Lemma holding_updated owner tokens P `{∀ u, Decision (P u)} f s :
  (∀ u, u_id (f u) = u_id u) → holding owner tokens s →
  holding owner tokens (set_tables (set_users (updateIf P f <$> users (tables s)) (tables s)) s).
Proof.
  intros Hf [Hi Ho Ht].
  assert (u_id <$> (updateIf P f <$> users (tables s)) = u_id <$> users (tables s)) as Hids.
  { rewrite <-list_fmap_compose. apply list_fmap_ext. intros _ u _. simpl. unfold updateIf. by case_decide. }
  split; unfold hasUser; simpl; rewrite ?Hids; done.
Qed.

Section statements.
Context (owner : string) (tokens : list ApiTokenRow).

Lemma newId_holding : preserves (holding owner tokens) (on_tables newId).
Proof. intros s Hs. by apply (holding_same _ _ s). Qed.

Lemma insertUser_holding email name v a r : preserves (holding owner tokens) (insertUser email name v a r).
Proof.
  unfold insertUser. apply preserves_bind; [apply newId_holding|intros id].
  apply preserves_bind; [apply preserves_gets|intros now]. cbv zeta.
  apply demand_bind. intros s Hid Hs. next_demand Hemail. next_demand Hname.
  destruct Hs as [Hi Ho Ht]. unfold hasUser in *. split; unfold hasUser; simpl; [| |done]; rewrite fmap_app.
  - simpl. apply NoDup_app. split_and!; [done| |apply NoDup_singleton]. by intros x Hx ->%list_elem_of_singleton.
  - apply elem_of_app. by left.
Qed.

Lemma insertAccount_holding a p u w : preserves (holding owner tokens) (insertAccount a p u w).
Proof.
  unfold insertAccount. apply preserves_bind; [apply newId_holding|intros id].
  apply preserves_bind; [apply preserves_gets|intros now].
  repeat (apply preserves_bind; [apply demand_keeps|intros _]).
  apply preserves_puts. intros s Hs. by apply (holding_same _ _ s).
Qed.

Lemma updateUsers_holding P `{∀ u, Decision (P u)} f :
  (∀ u, u_id (f u) = u_id u) → preserves (holding owner tokens) (updateUsers P f).
Proof.
  intros Hf. unfold updateUsers. apply preserves_bind; [apply demand_keeps|intros _].
  apply preserves_puts. intros s. by apply holding_updated.
Qed.

Lemma writeCredential_holding u w now : preserves (holding owner tokens) (writeCredential u w now).
Proof.
  unfold writeCredential, updateAccounts. apply preserves_bind.
  - apply preserves_bind; [apply preserves_gets|intros n]. apply preserves_bind; [|intros; apply preserves_ret].
    apply preserves_puts. intros s Hs. by apply (holding_same _ _ s).
  - intros n. case_decide; [apply insertAccount_holding|apply preserves_ret].
Qed.

Lemma deleteSessions_holding P `{∀ r, Decision (P r)} : preserves (holding owner tokens) (deleteSessions P).
Proof. apply preserves_puts. intros s Hs. by apply (holding_same _ _ s). Qed.

Lemma seed_holding identity password hash : preserves (holding owner tokens) (seedFirstAdmin identity password hash).
Proof.
  unfold seedFirstAdmin. apply preserves_try_catch.
  - apply preserves_transaction, preserves_bind; [apply insertUser_holding|intros u].
    apply preserves_bind; [apply insertAccount_holding|intros; apply preserves_ret].
  - intros e. case_match; [apply preserves_ret|apply preserves_throw].
Qed.

Lemma first_holding identity password salt : preserves (holding owner tokens) (ensureFirstAdmin identity password salt).
Proof.
  unfold ensureFirstAdmin. apply preserves_bind; [apply preserves_gets|intros [u|]]; [apply preserves_ret|].
  apply seed_holding.
Qed.

Lemma reset_holding email bytes salt now : preserves (holding owner tokens) (resetAdminPassword email bytes salt now).
Proof.
  unfold resetAdminPassword. apply preserves_bind; [apply preserves_lift|intros i].
  apply preserves_bind; [apply preserves_gets|intros [u|]]; [|apply preserves_ret]. cbv zeta.
  apply preserves_bind; [apply preserves_transaction|intros; apply preserves_ret].
  apply preserves_bind; [apply writeCredential_holding|intros _].
  apply preserves_bind; [by apply updateUsers_holding|intros _]. apply deleteSessions_holding.
Qed.

Lemma setup_holding session email password salt now :
  preserves (holding owner tokens) (completeAdminSetup session email password salt now).
Proof.
  unfold completeAdminSetup. destruct session as [session|]; [|apply preserves_ret].
  case_match; [apply preserves_ret|]. apply preserves_try_catch.
  - apply preserves_bind; [|intros; apply preserves_ret]. unfold completeInitialAdminSetup. cbv zeta.
    repeat (case_match; [apply preserves_throw|]). apply preserves_transaction.
    apply preserves_bind; [apply preserves_gets|intros [u|]]; [|apply preserves_throw].
    apply preserves_bind; [apply preserves_gets|intros o].
    apply preserves_bind; [destruct o as [o|]; [destruct (decide (u_id o ≠ session_id session))|];
      [apply preserves_throw|apply preserves_ret..]|intros _].
    apply preserves_bind; [apply writeCredential_holding|intros _]. by apply updateUsers_holding.
  - intros e. destruct e; first [apply preserves_ret|apply preserves_throw].
Qed.

Lemma call_holding session now call :
  preserves (holding owner tokens) (on_tables (controlPlane catalog (throughScheduler token token') session now call)).
Proof.
  intros s Hs. apply (holding_same _ _ s); [|by unfold on_tables; case_match|done].
  apply on_tables_users. intros l. apply controlPlane_users.
Qed.
End statements.

(** The token of this digest was issued to its owner, and is live or not. *)
Record issued (hash owner id : string) (live : bool) (s : Directory) : Prop := {
  issued_users : NoDup (u_id <$> users (tables s));
  issued_owner : hasUser owner s;
  issued_hashes : NoDup (tk_tokenHash <$> apiTokens s);
  issued_row : ∃ t, t ∈ apiTokens s ∧ tk_id t = id ∧ tk_ownerUserId t = owner ∧ tk_tokenHash t = hash ∧
    bool_decide (tk_revokedAt t = None) = live }.

Lemma issued_holding hash owner id live s s' :
  holding owner (apiTokens s) s' → issued hash owner id live s → issued hash owner id live s'.
Proof. intros [Hi Ho Ht] [_ _ Hh Hr]. split; rewrite ?Ht; done. Qed.

(** The identity a live token shows is that of its owner, as it is now. *)
Lemma identities_live hash owner id s :
  issued hash owner id true s →
  ∃ u, u ∈ users (tables s) ∧ u_id u = owner ∧
    identitiesOf hash s = [{| token_email := u_email u; token_userId := owner; token_isAdmin := u_isAdmin u;
      token_tokenId := id; token_username := u_username u |}].
Proof.
  intros [Hi Ho Hh (t & Ht & Hid & Hown & Hhash & Hlive%bool_decide_eq_true_1)].
  apply list_elem_of_fmap in Ho as (u & Hu & Hin). exists u. split_and!; [done..|].
  unfold identitiesOf.
  assert (filter (λ t, tk_tokenHash t = hash ∧ tk_revokedAt t = None) (apiTokens s) = [t]) as ->.
  { rewrite <-(filter_key_singleton tk_tokenHash (apiTokens s) t Hh Ht), Hhash. apply list_filter_ext_in.
    intros t' Ht'. split; [by intros []|]. intros Heq.
    by rewrite (NoDup_fmap_eq tk_tokenHash (apiTokens s) t' t Hh Ht' Ht) by congruence. }
  simpl. rewrite Hown, Hu, (filter_key_singleton u_id _ u Hi Hin). simpl. by rewrite Hid.
Qed.

Lemma identities_dead hash owner id s : issued hash owner id false s → identitiesOf hash s = [].
Proof.
  intros [_ _ Hh (t & Ht & _ & _ & Hhash & Hdead%bool_decide_eq_false_1)]. unfold identitiesOf.
  rewrite (filter_none _ (apiTokens s)); [done|]. intros t' Ht' [Heq Hnone].
  by rewrite (NoDup_fmap_eq tk_tokenHash (apiTokens s) t' t Hh Ht' Ht) in Hnone by congruence.
Qed.

Lemma createApiToken_ok name owner bytes s t s' :
  createApiToken name owner bytes s = (Ok t, s') →
  hashApiToken (generateApiToken bytes) ∉ tk_tokenHash <$> apiTokens s ∧ hasUser owner s ∧
  createdToken_id t ∉ tk_id <$> apiTokens s ∧ createdToken_token t = generateApiToken bytes ∧
  users (tables s') = users (tables s) ∧ accounts s' = accounts s ∧
  apiTokens s' = apiTokens s ++ [{| tk_id := createdToken_id t; tk_ownerUserId := owner; tk_name := name;
    tk_tokenHash := hashApiToken (generateApiToken bytes); tk_createdAt := createdToken_createdAt t;
    tk_revokedAt := None |}].
Proof.
  unfold createApiToken, insertApiToken. intros (row & s1 & Hins & [<- <-]%ret_ok)%bind_ok.
  apply bind_ok in Hins as (id & s2 & Hn & Hins). injection Hn as <- <-.
  apply bind_ok in Hins as (now & s2 & Hn & Hins). injection Hn as <- <-. cbv zeta in Hins.
  apply bind_ok in Hins as ([] & s2 & [Hid ->]%demand_ok & Hins).
  apply bind_ok in Hins as ([] & s2 & [Hh ->]%demand_ok & Hins).
  apply bind_ok in Hins as ([] & s2 & [Ho ->]%demand_ok & Hins).
  apply bind_ok in Hins as ([] & s2 & Hp & [<- <-]%ret_ok). injection Hp as <-. by split_and!.
Qed.

Lemma insertApiToken_issued hash owner id live name owner' hash' :
  preserves (issued hash owner id live) (insertApiToken name owner' hash').
Proof.
  unfold insertApiToken. apply preserves_bind; [intros s Hs; apply (issued_holding _ _ _ _ s); [apply newId_holding; by destruct Hs|done]|intros id'].
  apply preserves_bind; [apply preserves_gets|intros now]. cbv zeta.
  apply preserves_bind; [apply demand_keeps|intros _]. apply demand_bind. intros s Hfresh Hs.
  next_demand Ho. destruct Hs as [Hi Hown Hh (t & Ht & Hrow)]. split; simpl; [done..| |].
  - apply (NoDup_insert tk_tokenHash); [done|]. by simpl.
  - exists t. split; [|done]. apply elem_of_app. by left.
Qed.

Lemma revokeApiToken_issued hash owner id live owner' id' now :
  (live = true → (owner', id') ≠ (owner, id)) →
  preserves (issued hash owner id live) (revokeApiToken owner' id' now).
Proof.
  intros Hother. unfold revokeApiToken. apply preserves_bind; [apply preserves_lift|intros _].
  apply preserves_bind; [apply preserves_gets|intros n]. apply preserves_bind; [|intros; apply preserves_ret].
  apply preserves_puts. intros s [Hi Hown Hh (t & Ht & Hid & Ho & Hhash & Hl)]. split; simpl; [done..| |].
  - rewrite <-list_fmap_compose, (list_fmap_ext _ tk_tokenHash); [done|].
    intros _ t' _. simpl. unfold updateIf. by case_decide.
  - exists (updateIf (revocable owner' id') (with_revocation now) t).
    split; [by apply list_elem_of_fmap_2|]. unfold updateIf. case_decide as Hr; [|done].
    destruct Hr as (Hid' & Ho' & Hnone). split_and!; [done..|]. simpl.
    destruct live; [|done]. destruct Hother; [done|congruence].
Qed.

Lemma revoked_dead hash owner id now s :
  is_uuid id = true → issued hash owner id true s →
  issued hash owner id false (perform catalog token token' (RevokeToken (Some owner) id now) s).
Proof.
  intros Huuid [Hi Ho Hh (t & Ht & Hid & Hown & Hhash & Hl%bool_decide_eq_true_1)]. simpl.
  unfold revokeApiToken. rewrite Huuid. split; simpl; [done..| |].
  - rewrite <-list_fmap_compose, (list_fmap_ext _ tk_tokenHash); [done|].
    intros _ t' _. simpl. unfold updateIf. by case_decide.
  - exists (with_revocation now t). split_and!; try done. apply list_elem_of_fmap.
    exists t. split; [symmetry; by apply updateIf_True|done].
Qed.

Lemma perform_issued hash owner id live event s :
  (live = true → ∀ now, event ≠ RevokeToken (Some owner) id now) →
  issued hash owner id live s → issued hash owner id live (perform catalog token token' event s).
Proof.
  intros Hother Hs.
  assert (holding owner (apiTokens s) s) as Hh by (by destruct Hs).
  destruct event as [i w n|i w n|e b n now|o e w n now|o r b|o id' now|o now c]; simpl.
  1-4, 7: apply (issued_holding _ _ _ _ s); [|done].
  - by apply first_holding.
  - by apply seed_holding.
  - by apply reset_holding.
  - by apply setup_holding.
  - by apply call_holding.
  - unfold createTokenRoute. destruct o as [user|]; [|done]. destruct (parseApiTokenName _); [|done].
    by_preservation Hs. unfold createApiToken.
    apply preserves_bind; [|intros; apply preserves_ret]. apply preserves_bind; [|intros; apply preserves_ret].
    apply insertApiToken_issued.
  - unfold revokeTokenRoute. destruct o as [user|]; [|done]. by_preservation Hs.
    apply preserves_bind; [|intros; apply preserves_ret]. apply revokeApiToken_issued.
    intros -> [= -> ->]. by apply (Hother eq_refl now).
Qed.

(** C31: a token is good until it is revoked: after its owner created it, and
    whatever is seeded, reset, set up, issued, revoked and served since by
    anybody, as long as its owner has not revoked it, it authenticates its
    owner, with the address, the name and the rights the owner has now; once
    the owner revokes it, it is answered 401 for ever. *)
Theorem token_authenticates_until_revoked name owner bytes t s s1 before :
  NoDup (u_id <$> users (tables s)) → NoDup (tk_tokenHash <$> apiTokens s) → length bytes = 32 →
  createApiToken name owner bytes s = (Ok t, s1) →
  (∀ now, RevokeToken (Some owner) (createdToken_id t) now ∉ before) →
  let authorization := bearer (createdToken_token t) in
  let s2 := performAll catalog token token' before s1 in
  (∃ u, u ∈ users (tables s2) ∧ u_id u = owner ∧ authenticationRoute authorization s2 =
     (Ok (jsonResponse 200 (identityDocument (u_email u) owner (u_isAdmin u) (u_username u))), s2)) ∧
  (∀ now after, is_uuid (createdToken_id t) = true →
     let s3 := performAll catalog token token' (RevokeToken (Some owner) (createdToken_id t) now :: after) s2 in
     authenticationRoute authorization s3 = (Ok (emptyResponse 401), s3)).
Proof.
  intros Hi Hh Hlen (Hfresh & Ho & _ & Htok & Hu & _ & Hts)%createApiToken_ok Hnot authorization s2.
  set (hash := hashApiToken (generateApiToken bytes)) in *. set (id := createdToken_id t) in *.
  assert (∀ s, authenticateApiToken authorization s = (Ok (head (identitiesOf hash s)), s)) as Hauth.
  { intros s'. unfold authenticateApiToken, authorization. by rewrite Htok, extract_generated. }
  assert (issued hash owner id true s2) as Hlive.
  { apply performAll_keeps.
    - intros e s' He. apply perform_issued. intros _ now ->. by apply (Hnot now).
    - split; unfold hasUser; rewrite ?Hu, ?Hts; [done..| |].
      + by apply (NoDup_insert tk_tokenHash).
      + eexists. split; [apply elem_of_app; right; left|done]. }
  split.
  - destruct (identities_live _ _ _ _ Hlive) as (u & Hin & Huid & Hident). exists u. split_and!; [done..|].
    unfold authenticationRoute. by rewrite bind_run, Hauth, Hident.
  - intros now after Huuid s3. assert (issued hash owner id false s3) as Hdead.
    { unfold s3. cbn [performAll]. apply performAll_keeps; [intros e s' _; by apply perform_issued|].
      by apply revoked_dead. }
    unfold authenticationRoute. by rewrite bind_run, Hauth, (identities_dead _ _ _ _ Hdead).
Qed.
End histories.
