(* ===== verification/SystemStatus.v ===== *)
(** * Settings, health and configuration

    [packages/config/src/storage.ts] (where the services keep their files)
    and [apps/web/src]: system/settings.ts (the retention setting), system
    health.ts with its route, and capabilities/collection-route.ts with
    packages/contracts/src/api/components.ts.

    The URL parser and the file system's [existsSync] are parameters; the
    answers of probes are arguments. *)

From S2P Require Import Prelude Js Contracts Schemas Http Paths Database Statements RunLogs.
From S2P Require Import ControlPlane Accounts.

(** ** packages/config/src/storage.ts *)

Definition Environment : Type := string → option string.

Definition PRODUCTION_STORAGE_ROOT : string := "/var/lib/pantaetl/storage".
Definition DEVELOPMENT_STORAGE_DIRECTORY : string := "storage".
Definition WORKSPACE_MARKER : string := "pnpm-workspace.yaml".

Inductive RuntimeEnvironment := development | production.
#[export] Instance RuntimeEnvironment_eq_dec : EqDecision RuntimeEnvironment.
Proof. solve_decision. Defined.

Definition resolveRuntimeEnvironment (environment : Environment) : RuntimeEnvironment :=
  if decide (toLowerCase ∘ trim <$> environment "PANTAETL_ENV" = Some "development")
  then development else production.

(** What a process sees besides its environment: its working directory, the
    directory of the module, and which files exist. *)
Record Surroundings := {
  cwd : list string;
  moduleDirectory : list string;
  existsSync : list string → bool }.

(** The loop of [workspaceRoot]; the root is its own [dirname]. *)
Fixpoint climb (fuel : nat) (around : Surroundings) (directory : list string) : option (list string) :=
  match fuel with
  | 0 => None
  | S fuel =>
      if existsSync around (directory ++ [WORKSPACE_MARKER]) then Some directory
      else
        let parent := removelast directory in
        if decide (parent = directory) then Some (cwd around) else climb fuel around parent
  end.

Definition workspaceRoot (around : Surroundings) : option (list string) :=
  climb (S (length (moduleDirectory around))) around (moduleDirectory around).

Definition resolveStorageRoot (environment : Environment) (around : Surroundings) : option (list string) :=
  let configured := default "" (trim <$> environment "STORAGE_ROOT") in
  if decide (configured ≠ "") then Some (resolve (cwd around) configured)
  else match resolveRuntimeEnvironment environment with
       | development => (λ root, root ++ [DEVELOPMENT_STORAGE_DIRECTORY]) <$> workspaceRoot around
       | production => Some (resolve [] PRODUCTION_STORAGE_ROOT)
       end.

(** ** system/settings.ts *)

Record GlobalSettingsView := { canManageGlobalSettings : bool; runLogRetentionDays : jsnumber }.

Definition getGlobalSettings (session : option SessionIdentity) : DB GlobalSettingsView :=
  match session with
  | None => throw (JsError "An authenticated session is required to read global settings.")
  | Some session =>
      days ← getRunLogRetentionDays;
      mret {| canManageGlobalSettings := session_isAdmin session; runLogRetentionDays := NInt days |}
  end.

Definition parseRunLogRetentionUpdate (value : Json) : result jsnumber :=
  match value with
  | JObject fields =>
      match get_field fields "runLogRetentionDays" with
      | Some (JNumber days) =>
          match isInteger days with
          | Some n =>
              if decide (n < 1)%Z
              then Throw (JsError "Run and log retention days must be a positive integer.")
              else Ok days
          | None => Throw (JsError "Run and log retention days must be a positive integer.")
          end
      | _ => Throw (JsError "Run and log retention days must be a positive integer.")
      end
  | _ => Throw (JsError "Run and log retention must be provided as an object.")
  end.

(** The validator runs before the handler. *)
Definition updateRunLogRetention (session : option SessionIdentity) (value : Json) (now : Z) :
    DB GlobalSettingsView :=
  days ← lift (parseRunLogRetentionUpdate value);
  if negb (match session with Some session => session_isAdmin session | None => false end)
  then throw (JsError "Administrator privileges are required to change global settings.")
  else
    setRunLogRetentionDays days now;;
    mret {| canManageGlobalSettings := true; runLogRetentionDays := days |}.

(** ** system/types.ts and system/health.ts *)

Inductive HealthStatus := healthy | unavailable.
#[export] Instance HealthStatus_eq_dec : EqDecision HealthStatus.
Proof. solve_decision. Defined.

Record QueueHealth := {
  queue_status : HealthStatus; queuedJobs : option nat; runningJobs : option nat }.

Record SystemHealth := {
  checkedAt : Z;
  health_database : HealthStatus;
  health_garbageCollector : HealthStatus;
  health_queue : QueueHealth;
  health_scheduler : HealthStatus;
  health_healthy : bool;
  health_storage : HealthStatus;
  health_workers : HealthStatus }.

(** [new URL(text)], with the parts the code reads. *)
Record Url := {
  url_href : string; url_protocol : string; url_username : string; url_password : string;
  url_pathname : string; url_search : string; url_hash : string }.
Class UrlParser := { parseUrl : string → result Url }.

Definition readHealthUrl `{!UrlParser} (value : option string) (variableName fallback : string) : result string :=
  match parseUrl (orDefault (trim <$> value) fallback) with
  | Throw _ => Throw (JsError (variableName +:+ " must be a valid HTTP health URL."))
  | Ok url =>
      if decide ((url_protocol url ≠ "http:" ∧ url_protocol url ≠ "https:") ∨
                 url_username url ≠ "" ∨ url_password url ≠ "" ∨ url_pathname url ≠ "/health" ∨
                 url_search url ≠ "" ∨ url_hash url ≠ "")
      then Throw (JsError (variableName +:+ " must be a credential-free HTTP health URL ending in /health."))
      else Ok (url_href url)
  end.

Record SystemHealthConfig := {
  garbageCollectorHealthUrl : string; schedulerHealthUrl : string;
  storageRoot : list string; workerHealthUrl : string }.

Definition loadSystemHealthConfig `{!UrlParser} (environment : Environment) (root : list string) :
    result SystemHealthConfig :=
  gc ← readHealthUrl (environment "GARBAGE_COLLECTOR_HEALTH_URL") "GARBAGE_COLLECTOR_HEALTH_URL"
         "http://127.0.0.1:3011/health";
  scheduler ← readHealthUrl (environment "SCHEDULER_HEALTH_URL") "SCHEDULER_HEALTH_URL"
         "http://127.0.0.1:3010/health";
  worker ← readHealthUrl (environment "WORKER_HEALTH_URL") "WORKER_HEALTH_URL"
         "http://127.0.0.1:3020/health";
  Ok {| garbageCollectorHealthUrl := gc; schedulerHealthUrl := scheduler; storageRoot := root;
        workerHealthUrl := worker |}.

Definition ofOutcome {A} (o : result A) : HealthStatus := if is_ok o then healthy else unavailable.

Definition isHealthyService (value : Json) (expectedService : string) : bool :=
  match value with
  | JObject payload =>
      match get_field payload "service", get_field payload "status" with
      | Some (JString service), Some (JString status) => String.eqb service expectedService && String.eqb status "ok"
      | _, _ => false
      end
  | _ => false
  end.

(** An unreachable service, a late answer and an answer that is not JSON are
    exceptions, and all of them are caught. *)
Definition checkService (fetchHealth : string → result (Response Json)) (url expectedService : string) :
    HealthStatus :=
  match fetchHealth url with
  | Ok response =>
      match body response with
      | Some payload => if response_ok response && isHealthyService payload expectedService then healthy else unavailable
      | None => unavailable
      end
  | Throw _ => unavailable
  end.

Definition getQueueHealth (counts : result unit) (d : Database) : QueueHealth :=
  match counts with
  | Ok _ => {| queue_status := healthy;
               queuedJobs := Some (length (filter (λ j, j_state j = JobState.queued) (jobs d)));
               runningJobs := Some (length (filter (λ j, j_state j = JobState.running) (jobs d))) |}
  | Throw _ => {| queue_status := unavailable; queuedJobs := None; runningJobs := None |}
  end.

(** What the outside answers to the probes. *)
Record Probes := {
  selectOne : result unit;
  countQueries : result unit;
  fetchHealth : string → result (Response Json);
  storageAccess : list string → result unit }.

Definition getSystemHealth (config : SystemHealthConfig) (probes : Probes) (now : Z) (d : Database) : SystemHealth :=
  let databaseHealth := ofOutcome (selectOne probes) in
  let queue := getQueueHealth (countQueries probes) d in
  let scheduler := checkService (fetchHealth probes) (schedulerHealthUrl config) "scheduler" in
  let workers := checkService (fetchHealth probes) (workerHealthUrl config) "worker" in
  let garbageCollector := checkService (fetchHealth probes) (garbageCollectorHealthUrl config) "garbage-collector" in
  let storage := ofOutcome (storageAccess probes (storageRoot config)) in
  let components := [databaseHealth; queue_status queue; scheduler; workers; garbageCollector; storage] in
  {| checkedAt := now; health_database := databaseHealth; health_garbageCollector := garbageCollector;
     health_queue := queue; health_scheduler := scheduler;
     health_healthy := forallb (λ s, bool_decide (s = healthy)) components;
     health_storage := storage; health_workers := workers |}.

(** The route of [/api/system/health]. *)
Definition systemHealthRoute (session : option string) (config : SystemHealthConfig) (probes : Probes)
    (now : Z) (d : Database) : Response SystemHealth :=
  match session with
  | None => emptyResponse 401
  | Some _ => jsonResponse 200 (getSystemHealth config probes now d)
  end.

(** ** The capability catalog *)

Definition filterComponentCapabilities (components : list ComponentMetadata) (kind : option ComponentKind.t) :
    list ComponentMetadata :=
  match kind with
  | None => components
  | Some kind => filter (λ c, meta_kind c = kind) components
  end.

(** The query of the request, as the pairs of its [searchParams]; the schema
    accepts a kind or nothing. *)
Definition readCapabilityRequest (search : list (string * string)) : option (option ComponentKind.t) :=
  if negb (forallb (λ p : string * string, bool_decide (p.1 = "kind")) search) || (1 <? length search)%nat then None
  else match search with
       | [] => Some None
       | (_, kind) :: _ =>
           match kind with
           | "source" => Some (Some ComponentKind.source)
           | "transform" => Some (Some ComponentKind.transform)
           | "export" => Some (Some ComponentKind.export)
           | _ => None
           end
       end.

Inductive CapabilityDocument :=
  | capabilities (components : list ComponentMetadata)
  | capabilityRefused (code : string).

Definition componentCapabilityRoute (builtInComponentCapabilities : list ComponentMetadata)
    (session : option string) (search : list (string * string)) : Response CapabilityDocument :=
  match session with
  | None => emptyResponse 401
  | Some _ =>
      match readCapabilityRequest search with
      | None => jsonResponse 400 (capabilityRefused "invalid_component_capability_request")
      | Some kind => jsonResponse 200 (capabilities (filterComponentCapabilities builtInComponentCapabilities kind))
      end
  end.
