(* ===== verification/ApiConformance.v ===== *)
(** * The answers of the control plane and its API description

    The document of [OpenApi] describes the routes of [PipelineRoutes],
    [Uploads], [SystemStatus] and [Accounts]: where its references lead, and
    that every answer of a route has a status that is documented. *)

From S2P Require Import Prelude Js Numbers Contracts StateMachine Schemas CanonicalSchemas JsonSchema Http Graph Database.
From S2P Require Import Statements RunQueue Files Documents ContractSchemas Repository Actions.
From S2P Require Import Accounts Uploads PipelineRoutes ControlPlane SystemStatus OpenApi.

(** [routes/api/openapi\[.\]json.ts] *)
Definition openApiRoute : result (Response Json) :=
  description ← openApi.createOpenApiDocument;
  Ok (jsonResponse 200 description).

(** ** Reading the description *)

(** The path and the method of a call. *)
Definition routeOf (call : RouteCall) : string * string :=
  match call with
  | ListPipelines => ("/api/pipelines", "get")
  | CreatePipeline _ => ("/api/pipelines", "post")
  | GetPipeline _ => ("/api/pipelines/{pipelineId}", "get")
  | UpdatePipeline _ _ => ("/api/pipelines/{pipelineId}", "patch")
  | DeletePipeline _ => ("/api/pipelines/{pipelineId}", "delete")
  | EnablePipeline _ => ("/api/pipelines/{pipelineId}/enable", "post")
  | DisablePipeline _ => ("/api/pipelines/{pipelineId}/disable", "post")
  | DuplicatePipeline _ _ => ("/api/pipelines/{pipelineId}/duplicate", "post")
  | ExecutionState _ => ("/api/pipelines/{pipelineId}/execution-state", "get")
  | RunPipeline _ => ("/api/pipelines/{pipelineId}/run", "post")
  end.

Definition documentedResponse (description : Json) (route : string * string) (status : Z) : option Json :=
  paths ← field description "paths";
  path ← field paths route.1;
  operation ← field path route.2;
  responses ← field operation "responses";
  field responses (numberToString (NInt status)).

(** The response is described, and where it succeeds it carries a document
    exactly when the description says so. *)
Definition documents {B} (description : Json) (route : string * string) (r : Response B) : Prop :=
  ∃ response, documentedResponse description route (status r) = Some response ∧
    (response_ok r = true → is_Some (field response "content") ↔ is_Some (body r)).

Definition apiDescription : Json := Eval vm_compute in
  match openApi.createOpenApiDocument with Ok description => description | Throw _ => JNull end.

Lemma apiDescription_created : openApi.createOpenApiDocument = Ok apiDescription.
Proof. vm_compute. reflexivity. Qed.

(** ** What a route can answer *)

Definition answers {S B} (P : Response B → Prop) (m : M S exn (Response B)) : Prop :=
  ∀ s, match (m s).1 with Ok r => P r | Throw _ => True end.

Section answers.
Context {S B : Type} (P : Response B → Prop).

Lemma answers_ret r : P r → answers P (mret r : M S exn (Response B)).
Proof. by intros Hr s. Qed.

Lemma answers_bind {A} (m : M S exn A) (k : A → M S exn (Response B)) : (∀ a, answers P (k a)) → answers P (m ≫= k).
Proof. intros Hk s. rewrite bind_run. destruct (m s) as [[a|e] s']; [apply Hk|done]. Qed.

Lemma answers_answering (m : M S exn (Response B)) respond : answers P m → (∀ e r, respond e = Some r → P r) →
  answers P (answering m respond).
Proof.
  intros Hm Hrespond s. specialize (Hm s). destruct (m s) as [[r|e] s'] eqn:E.
  - by rewrite (answering_ok _ _ _ _ _ E).
  - rewrite (answering_throw _ _ _ _ _ E). cbn. destruct (respond e) as [r|] eqn:Er; [by eapply Hrespond|done].
Qed.
End answers.



(** Whether the description has the status, with or without a document where
    the status is a success. *)
Definition describedWith (content : bool) (route : string * string) (s : Z) : bool :=
  match documentedResponse apiDescription route s with
  | Some response =>
      if bool_decide (200 ≤ s < 300)%Z then bool_decide (is_Some (field response "content") ↔ content = true) else true
  | None => false
  end.

Lemma documents_response {B} route (r : Response B) :
  describedWith (match body r with Some _ => true | None => false end) route (status r) = true → documents apiDescription route r.
Proof.
  unfold describedWith, documents, response_ok. destruct (documentedResponse _ _ _) as [response|]; [|done].
  intros Hr. exists response. split; [done|]. intros Hok. rewrite Hok in Hr. apply bool_decide_eq_true in Hr.
  rewrite Hr. destruct (body r); naive_solver.
Qed.

Lemma action_errors (P : Response Document → Prop) : P notFoundResponse → (∀ b, P (jsonResponse 409 b)) →
  ∀ e r, actionErrorResponse e = Some r → P r.
Proof.
  intros H404 H409 e r. unfold actionErrorResponse, pipelineActionConflictResponse, schedulerConflictResponse.
  repeat case_match; intros [= <-]; done || apply H409.
Qed.

Ltac answered :=
  repeat match goal with
  | |- answers _ (match ?x with _ => _ end) => destruct x
  | |- answers _ (if ?x then _ else _) => destruct x
  | |- answers _ (mret (if ?x then _ else _)) => destruct x
  | |- answers _ (mret _) => apply answers_ret, documents_response; vm_compute; reflexivity
  | |- answers _ (_ ≫= _) => apply answers_bind; intros ?
  | |- answers _ (answering _ actionErrorResponse) => apply answers_answering; [|apply action_errors; [|intros ?]]
  | |- answers _ (answering _ _) => apply answers_answering; [|intros [] ? [= <-]]
  | |- documents _ _ _ => apply documents_response; vm_compute; reflexivity
  end.

Section conformance.
Context `{!Uuids, !Formats} (builtIn : list ComponentMetadata) (enqueue : Z → string → string → DB CreatedPipelineRun).

Abbreviation documented call := (documents apiDescription (routeOf call)).

Lemma listRoute_documented session : answers (documented ListPipelines) (listRoute session).
Proof. unfold listRoute. answered. Qed.
Lemma createRoute_documented session request : answers (documented (CreatePipeline request)) (createRoute session request).
Proof. unfold createRoute. answered. Qed.
Lemma getRoute_documented session id : answers (documented (GetPipeline id)) (getRoute session id).
Proof. unfold getRoute. answered. Qed.
Lemma updateRoute_documented session id request now :
  answers (documented (UpdatePipeline id request)) (updateRoute session id request now).
Proof. unfold updateRoute. answered. Qed.
Lemma deleteRoute_documented session id : answers (documented (DeletePipeline id)) (deleteRoute session id).
Proof. unfold deleteRoute. answered. Qed.
Lemma duplicateRoute_documented session id request : answers (documented (DuplicatePipeline id request)) (duplicateRoute session id request).
Proof. unfold duplicateRoute. answered. Qed.
Lemma executionStateRoute_documented session id : answers (documented (ExecutionState id)) (executionStateRoute session id).
Proof. unfold executionStateRoute. answered. Qed.
Lemma runRoute_documented session id enqueueRun : answers (documented (RunPipeline id)) (runRoute enqueueRun session id).
Proof. unfold runRoute. answered. Qed.

Lemma enableRoute_documented session id now : answers (documented (EnablePipeline id)) (enableRoute builtIn session id now).
Proof. unfold enableRoute, stateActionRoute. answered. Qed.
Lemma disableRoute_documented session id now : answers (documented (DisablePipeline id)) (disableRoute session id now).
Proof. unfold disableRoute, stateActionRoute. answered. Qed.

Lemma controlPlane_documented session now call :
  answers (documented call) (controlPlane builtIn enqueue session now call).
Proof.
  destruct call; [apply listRoute_documented|apply createRoute_documented|apply getRoute_documented|apply updateRoute_documented|
    apply deleteRoute_documented|apply enableRoute_documented|apply disableRoute_documented|apply duplicateRoute_documented|
    apply executionStateRoute_documented|apply runRoute_documented].
Qed.

(** Calls without a session. *)
Lemma controlPlane_unauthenticated session now call : getApiSession session = None →
  controlPlane builtIn enqueue session now call = mret (emptyResponse 401).
Proof. intros Hs. unfold controlPlane. rewrite Hs. by destruct call. Qed.
End conformance.

Lemma uploadRoute_documented `{!Uuids, !FileSystem} root session form now :
  answers (λ r, documents apiDescription ("/api/uploads", "post") r ∨ status r = 503%Z) (uploadRoute root session form now).
Proof.
  unfold uploadRoute. repeat match goal with
  | |- answers _ (match ?x with _ => _ end) => destruct x
  | |- answers _ (if ?x then _ else _) => destruct x
  | |- answers _ (_ ≫= _) => apply answers_bind; intros ?
  | |- answers _ (mret _) => apply answers_ret; first [right; reflexivity|left; apply documents_response; vm_compute; reflexivity]
  end.
Qed.

Lemma componentRoute_documented builtIn session search :
  documents apiDescription ("/api/components", "get") (componentCapabilityRoute builtIn session search).
Proof.
  unfold componentCapabilityRoute. destruct session; [destruct (readCapabilityRequest search)|];
    apply documents_response; vm_compute; reflexivity.
Qed.

Lemma authenticationRoute_documented `{!Sha256} authorization :
  answers (λ r, is_Some (documentedResponse apiDescription ("/api/authentication", "get") (status r))) (authenticationRoute authorization).
Proof.
  unfold authenticationRoute. apply answers_bind. intros [i|]; apply answers_ret; eexists; vm_compute; reflexivity.
Qed.

Lemma openApiRoute_documented : ∃ r, openApiRoute = Ok r ∧
  is_Some (documentedResponse apiDescription ("/api/openapi.json", "get") (status r)) ∧ body r = Some apiDescription.
Proof.
  unfold openApiRoute. rewrite apiDescription_created. eexists. split; [reflexivity|]. split; [|done].
  eexists. vm_compute. reflexivity.
Qed.

(** What the description asks of the caller of an operation. *)
Definition securityOf (description : Json) (route : string * string) : option Json :=
  paths ← field description "paths";
  path ← field paths route.1;
  operation ← field path route.2;
  field operation "security".

(** C5: The API answers as its OpenAPI description says. The description is
    built without an error and is what [/api/openapi.json] serves; whatever
    the caller, the request and the store, every answer of a pipeline route
    has a status its operation documents, and a successful one carries a
    document exactly when the description promises content; each of these
    operations asks for a session and a call without one is answered 401. The
    component catalog and token authentication keep to their descriptions;
    an upload does too except for one status, 503 when the storage fails,
    which the description leaves out. *)
Theorem answers_are_documented `{!Uuids, !Formats, !FileSystem, !Sha256} builtIn enqueue root :
  openApi.createOpenApiDocument = Ok apiDescription ∧
  (∃ r, openApiRoute = Ok r ∧
     is_Some (documentedResponse apiDescription ("/api/openapi.json", "get") (status r)) ∧ body r = Some apiDescription) ∧
  (∀ session now call, answers (documents apiDescription (routeOf call)) (controlPlane builtIn enqueue session now call)) ∧
  (∀ session now call, getApiSession session = None →
     controlPlane builtIn enqueue session now call = mret (emptyResponse 401)) ∧
  (∀ call, securityOf apiDescription (routeOf call) = Some (JArray [JObject [("sessionAuth", JArray [])]])) ∧
  (∀ session search, documents apiDescription ("/api/components", "get") (componentCapabilityRoute builtIn session search)) ∧
  (∀ authorization, answers (λ r, is_Some (documentedResponse apiDescription ("/api/authentication", "get") (status r)))
     (authenticationRoute authorization)) ∧
  (∀ session form now, answers (λ r, documents apiDescription ("/api/uploads", "post") r ∨ status r = 503%Z)
     (uploadRoute root session form now)) ∧
  documentedResponse apiDescription ("/api/uploads", "post") 503 = None.
Proof.
  split_and!.
  - apply apiDescription_created.
  - apply openApiRoute_documented.
  - intros. apply controlPlane_documented.
  - apply controlPlane_unauthenticated.
  - intros call. destruct call; vm_compute; reflexivity.
  - intros. apply componentRoute_documented.
  - intros. apply authenticationRoute_documented.
  - intros. apply uploadRoute_documented.
  - vm_compute. reflexivity.
Qed.

(** ** Where the references lead *)

Fixpoint referencesOf (j : Json) : list string :=
  match j with
  | JArray l => concat (map referencesOf l)
  | JObject fields => concat (map (λ f : string * Json,
      match f.2 with
      | JString reference => if decide (f.1 = "$ref") then [reference] else []
      | _ => referencesOf f.2
      end) fields)
  | _ => []
  end.

(** The pointer of a reference into the document it is in. *)
Definition pointerOf (reference : string) : string := slice 1 reference.

Definition describedSchemas : list (string * Json) :=
  spread (default JNull (pointer apiDescription "/components/schemas")).

(** The references to definitions of the document a schema is read from. *)
Definition localReferences (schema : Json) : list string := filter (λ r, String.prefix "#/$defs/" r = true) (referencesOf schema).

Definition leadsAsDescribed (reference : string) : Prop :=
  if String.prefix "#/components/" reference then is_Some (pointer apiDescription (pointerOf reference))
  else String.prefix "#/$defs/" reference = true ∧ pointer apiDescription (pointerOf reference) = None.

Definition leadsAsDescribed_check (reference : string) : bool :=
  match pointer apiDescription (pointerOf reference) with
  | Some _ => String.prefix "#/components/" reference
  | None => negb (String.prefix "#/components/" reference) && String.prefix "#/$defs/" reference
  end.

Lemma leadsAsDescribed_checked reference : leadsAsDescribed_check reference = true → leadsAsDescribed reference.
Proof.
  unfold leadsAsDescribed_check, leadsAsDescribed. destruct (pointer _ _); destruct (String.prefix "#/components/" reference); naive_solver.
Qed.

(** C6: The references of the OpenAPI description. Each canonical reference
    the description rewrites becomes a reference to a component that is the
    canonical fragment it stood for, with the definitions of its document;
    every reference to a component of the description leads to one; no
    reference to another document is left. The other references lead into the
    definitions a component retains, where they all exist, and not into the
    description: as references of the description they lead nowhere unless
    the component has an identifier of its own. Eleven components have one or
    have no such reference; every request and response of the pipeline routes
    is among the others. *)
Theorem openapi_references_lead_to_components :
  Forall (λ '(from, to), match resolveReference canonical.registry JNull from with
     | Some (source, target) => pointer apiDescription (pointerOf to) = Some (retainDefinitions source target)
     | None => False
     end) openApi.openApiReferences ∧
  Forall leadsAsDescribed (referencesOf apiDescription) ∧
  Forall (λ '(_, schema), Forall (λ reference, is_Some (pointer schema (pointerOf reference))) (localReferences schema))
    describedSchemas ∧
  filter (λ '(_, schema), localReferences schema = [] ∨ is_Some (field schema "$id")) describedSchemas =
    filter (λ '(name, _), name ∈ ["ArtifactDescriptor"; "CommonPrimitives"; "ComponentMetadata"; "ComponentKind";
      "DatasetDescriptor"; "Job"; "Pipeline"; "PipelineIdentifier"; "Run"; "SourceExecutionRequest"; "SourceUploadResponse"])
      describedSchemas.
Proof.
  split_and!.
  - repeat constructor; vm_compute; reflexivity.
  - assert (forallb leadsAsDescribed_check (referencesOf apiDescription) = true) as Hall by (vm_compute; reflexivity).
    apply Forall_forall. intros reference Hr. apply leadsAsDescribed_checked. by apply (proj1 (forallb_Forall_true _ _) Hall).
  - apply (bool_decide_unpack _). vm_compute. exact I.
  - vm_compute. reflexivity.
Qed.
