(* ===== verification/ServiceConfig.v ===== *)
(** * The environment of the services

    apps/scheduler/src/config.ts and apps/garbage-collector/src/config.ts:
    what a service reads from its environment before it starts, and the
    period of the collector's timer (runtime.ts).

    An [Error] of these readers is a [JsError] with its message. *)

From stdpp Require Import pretty.
From S2P Require Import Prelude Js Contracts Numbers Paths SystemStatus.

Open Scope Z_scope.

(** [Number(value ?? fallback)] *)
Definition number_or (value : option string) (fallback : Z) : jsnumber :=
  match value with
  | Some text => Number text
  | None => NInt fallback
  end.

(** The same function in both services. *)
Definition readPort (value : option string) (fallback : Z) : result Z :=
  match isInteger (number_or value fallback) with
  | Some port => if decide (port < 1 ∨ 65535 < port)
                 then Throw (JsError "PORT must be an integer between 1 and 65535.")
                 else Ok port
  | None => Throw (JsError "PORT must be an integer between 1 and 65535.")
  end.

(** ** The scheduler *)

Module Scheduler.
Record ServiceConfig := {
  databaseUrl : string;
  host : string;
  internalToken : string;
  port : Z;
  serviceName : string }.

Definition readDatabaseUrl (value : option string) : result string :=
  let databaseUrl := default "" (trim <$> value) in
  if decide (databaseUrl = "") then Throw (JsError "DATABASE_URL is required.") else Ok databaseUrl.

Definition readInternalToken (value : option string) : result string :=
  let token := default "" (trim <$> value) in
  if decide (token = "" ∨ (String.length token < 32)%nat)
  then Throw (JsError "SCHEDULER_INTERNAL_TOKEN must contain at least 32 characters.")
  else Ok token.

Definition loadConfig (environment : Environment) (name : string) (defaultPort : Z) : result ServiceConfig :=
  url ← readDatabaseUrl (environment "DATABASE_URL");
  token ← readInternalToken (environment "SCHEDULER_INTERNAL_TOKEN");
  p ← readPort (environment "PORT") defaultPort;
  Ok {| databaseUrl := url; host := default "127.0.0.1" (environment "HOST"); internalToken := token;
        port := p; serviceName := name |}.
End Scheduler.

(** ** The garbage collector *)

Module GarbageCollector.
Record ServiceConfig := {
  cleanupBatchSize : Z;
  cleanupIntervalMilliseconds : jsnumber;
  databaseUrl : string;
  host : string;
  port : Z;
  serviceName : string;
  storageRoot : list string }.

Definition readPositiveInteger (value : option string) (fallback : Z) (name : string) : result Z :=
  match isInteger (number_or value fallback) with
  | Some parsed => if decide (parsed < 1) then Throw (JsError (name +:+ " must be a positive integer.")) else Ok parsed
  | None => Throw (JsError (name +:+ " must be a positive integer."))
  end.

Definition readDatabaseUrl (value : option string) : result string :=
  match value with
  | None => Throw (JsError "DATABASE_URL is required.")
  | Some url => if decide (trim url = "") then Throw (JsError "DATABASE_URL is required.") else Ok url
  end.

(** A storage root that is not found is a search that does not end, which
    [SystemStatusProofs] excludes; [None] stands for it. *)
Definition loadConfig (environment : Environment) (around : Surroundings) (name : string) (defaultPort : Z) :
    option (result ServiceConfig) :=
  root ← resolveStorageRoot environment around;
  Some (seconds ← readPositiveInteger (environment "GC_INTERVAL_SECONDS") 60 "GC_INTERVAL_SECONDS";
        batch ← readPositiveInteger (environment "GC_BATCH_SIZE") 100 "GC_BATCH_SIZE";
        url ← readDatabaseUrl (environment "DATABASE_URL");
        p ← readPort (environment "PORT") defaultPort;
        Ok {| cleanupBatchSize := batch; cleanupIntervalMilliseconds := positive_double (seconds * 1000) 1;
              databaseUrl := url; host := default "127.0.0.1" (environment "HOST"); port := p;
              serviceName := name; storageRoot := root |}).

(** The period [setInterval] keeps: a delay its timers cannot hold becomes
    one millisecond. *)
Definition timerPeriod (delay : jsnumber) : Z :=
  match delay with
  | NInt milliseconds => if decide (1 <= milliseconds <= 2147483647) then milliseconds else 1
  | NFrac num den => if decide (1 <= num / Zpos den < 2147483647) then num / Zpos den else 1
  | _ => 1
  end.
End GarbageCollector.

(** ** What a service starts with *)

Lemma readPort_ok value fallback p : readPort value fallback = Ok p → 1 <= p <= 65535.
Proof. unfold readPort. destruct (isInteger _); [|done]. case_decide; [done|]. intros [= <-]. lia. Qed.

(** Every port is accepted in decimal. *)
Lemma readPort_decimal (n : N) fallback : (1 <= n <= 65535)%N → readPort (Some (pretty n)) fallback = Ok (Z.of_N n).
Proof.
  intros Hn. unfold readPort, number_or. rewrite Number_pretty by lia. simpl. by rewrite decide_False by lia.
Qed.

Lemma readPositiveInteger_ok value fallback name z :
  GarbageCollector.readPositiveInteger value fallback name = Ok z →
  isInteger (number_or value fallback) = Some z ∧ 1 <= z.
Proof.
  unfold GarbageCollector.readPositiveInteger. destruct (isInteger _); [|done].
  case_decide; [done|]. intros [= <-]. by split; [|lia].
Qed.

(** A collector that starts has a port between 1 and 65535, a positive
    batch and a positive period. A period given in decimal seconds is kept
    when it is at most 2147483 seconds; a longer one is beyond the timer's
    range, and the cleanup then runs every millisecond. *)
Theorem collector_period environment around name defaultPort c :
  GarbageCollector.loadConfig environment around name defaultPort = Some (Ok c) →
  1 <= GarbageCollector.port c <= 65535 ∧ 1 <= GarbageCollector.cleanupBatchSize c ∧
  ∀ n : N, environment "GC_INTERVAL_SECONDS" = Some (pretty n) → (n <= 2 ^ 43)%N →
    (0 < n)%N ∧
    GarbageCollector.timerPeriod (GarbageCollector.cleanupIntervalMilliseconds c) =
      (if decide (n <= 2147483)%N then 1000 * Z.of_N n else 1).
Proof.
  unfold GarbageCollector.loadConfig. intros (root & _ & Hload)%bind_Some. injection Hload as Hload.
  apply outcome_bind_ok in Hload as (seconds & Hseconds & Hload).
  apply outcome_bind_ok in Hload as (batch & Hbatch & Hload).
  apply outcome_bind_ok in Hload as (url & _ & Hload).
  apply outcome_bind_ok in Hload as (p & Hp & [= <-]). simpl.
  apply readPositiveInteger_ok in Hseconds as [Hseconds Hpos]. apply readPositiveInteger_ok in Hbatch as [_ Hbatch].
  split; [by eapply readPort_ok|]. split; [done|]. intros n Hn Hle.
  rewrite Hn in Hseconds. simpl in Hseconds. rewrite Number_pretty in Hseconds by lia. injection Hseconds as <-.
  split; [lia|]. rewrite double_integer by lia. unfold GarbageCollector.timerPeriod.
  destruct (decide (n <= 2147483)%N); [rewrite decide_True by lia; lia|by rewrite decide_False by lia].
Qed.

(** A month, in a deployment that is otherwise the default. *)
Definition monthly : Environment := λ name,
  if decide (name = "GC_INTERVAL_SECONDS") then Some (pretty 2592000%N)
  else if decide (name = "DATABASE_URL") then Some "postgres://localhost/pantaetl"
  else None.

Definition packaged : Surroundings := {| cwd := ["srv"]; moduleDirectory := ["srv"; "dist"]; existsSync := λ _, false |}.

Lemma collector_period_witness :
  ∃ c, GarbageCollector.loadConfig monthly packaged "garbage-collector" 3011 = Some (Ok c) ∧
    GarbageCollector.timerPeriod (GarbageCollector.cleanupIntervalMilliseconds c) = 1.
Proof.
  destruct (GarbageCollector.loadConfig monthly packaged "garbage-collector" 3011) as [[c|e]|] eqn:Hc;
    [|vm_compute in Hc; discriminate Hc|vm_compute in Hc; discriminate Hc].
  exists c. split; [reflexivity|].
  destruct (collector_period monthly packaged "garbage-collector" 3011 c Hc) as (_ & _ & Hperiod).
  destruct (Hperiod 2592000%N) as [_ Hp]; [reflexivity|vm_compute; discriminate|].
  rewrite Hp. reflexivity.
Defined.
