(* ===== verification/CapabilityClient.v ===== *)
(** * The browser's client of the component catalog

    [apps/web/src/data/components]: api.ts (the client of the capability
    route) and queries.ts. [fetch] takes the pairs of the query and either
    fails or answers. *)

From S2P Require Import Prelude Js Contracts Schemas Http SystemStatus QueryCache.

Module ComponentCapabilityApiErrorCode.
Inductive t :=
  | invalid_component_capability_request | invalid_response | network_error | unauthenticated | unknown_error.
End ComponentCapabilityApiErrorCode.

Record ComponentCapabilityApiError := {
  capability_code : ComponentCapabilityApiErrorCode.t;
  capability_status : option Z }.

(** [parseErrorCode] *)
Definition capabilityErrorCode (response : Response CapabilityDocument) : ComponentCapabilityApiErrorCode.t :=
  if decide (status response = 401%Z) then ComponentCapabilityApiErrorCode.unauthenticated
  else match body response with
       | Some (capabilityRefused code) =>
           if decide (code = "invalid_component_capability_request")
           then ComponentCapabilityApiErrorCode.invalid_component_capability_request
           else ComponentCapabilityApiErrorCode.unknown_error
       | _ => ComponentCapabilityApiErrorCode.unknown_error
       end.

Definition kindText (kind : ComponentKind.t) : string :=
  match kind with
  | ComponentKind.source => "source"
  | ComponentKind.transform => "transform"
  | ComponentKind.export => "export"
  end.

(** [componentCapabilityListResponseSchema] *)
Definition asCapabilities (d : CapabilityDocument) : option (list ComponentMetadata) :=
  match d with
  | capabilities l => if forallb componentMetadataSchema l then Some l else None
  | capabilityRefused _ => None
  end.

Section client.
Context {S : Type} (requestFetch : list (string * string) → M S unit (Response CapabilityDocument)).

(** [request] and [requestJson]; a [kind] is valid by its type. *)
Definition client_listCapabilities (kind : option ComponentKind.t) : M S ComponentCapabilityApiError (list ComponentMetadata) :=
  let query := match kind with Some kind => [("kind", kindText kind)] | None => [] end in
  λ s, match requestFetch query s with
       | (Throw _, s) => (Throw {| capability_code := ComponentCapabilityApiErrorCode.network_error; capability_status := None |}, s)
       | (Ok response, s) =>
           if response_ok response then
             match body response ≫= asCapabilities with
             | Some l => (Ok l, s)
             | None => (Throw {| capability_code := ComponentCapabilityApiErrorCode.invalid_response;
                                 capability_status := Some (status response) |}, s)
             end
           else (Throw {| capability_code := capabilityErrorCode response; capability_status := Some (status response) |}, s)
       end.

Definition componentCapabilityListQueryOptions (kind : option ComponentKind.t) :
    QueryKey * M S ComponentCapabilityApiError (list ComponentMetadata) :=
  (componentCapabilityQueryKeys.list_ (kindText <$> kind), client_listCapabilities kind).
End client.

(** The client behind the route: a signed-in user gets the built-in
    components of the kind it asks for, everyone else is told so. *)
Definition routeFetch {S} (builtIn : list ComponentMetadata) (session : option string) (search : list (string * string)) :
    M S unit (Response CapabilityDocument) :=
  mret (componentCapabilityRoute builtIn session search).

Lemma readCapabilityRequest_kind kind :
  readCapabilityRequest (match kind with Some kind => [("kind", kindText kind)] | None => [] end) = Some kind.
Proof. by destruct kind as [[]|]. Qed.

Lemma filter_valid builtIn kind : forallb componentMetadataSchema builtIn = true →
  forallb componentMetadataSchema (filterComponentCapabilities builtIn kind) = true.
Proof.
  intros Hb. destruct kind as [kind|]; [|done]. rewrite forallb_Forall_true in *. simpl.
  intros x [_ Hx]%list_elem_of_filter. by apply Hb.
Qed.

Lemma client_listCapabilities_route {S} builtIn session kind (s : S) : forallb componentMetadataSchema builtIn = true →
  client_listCapabilities (routeFetch builtIn session) kind s =
    (match session with
     | Some _ => Ok (filterComponentCapabilities builtIn kind)
     | None => Throw {| capability_code := ComponentCapabilityApiErrorCode.unauthenticated; capability_status := Some 401%Z |}
     end, s).
Proof.
  intros Hb. unfold client_listCapabilities, routeFetch, componentCapabilityRoute. simpl.
  destruct session; [|done]. rewrite readCapabilityRequest_kind. simpl. by rewrite filter_valid.
Qed.
