(* ===== verification/SystemStatusProofs.v ===== *)
(** * Correctness of settings, health and configuration

    Where services keep their files, what the retention setting changes, and
    what a health report means of the services it probes. *)

From S2P Require Import Prelude Js Contracts Schemas Http Paths Database Integrity Frames Statements RunLogs RunQueue.
From S2P Require Import RunQueueProofs SchedulerService Collector ControlPlane Accounts SystemStatus.

(** ** The storage root *)

Definition marked (around : Surroundings) (directory : list string) : Prop :=
  existsSync around (directory ++ [WORKSPACE_MARKER]) = true.

Lemma removelast_take {A} (l : list A) : removelast l = take (length l - 1) l.
Proof. induction l as [|x [|y l] IH]; [done..|]. simpl in *. by rewrite IH, Nat.sub_0_r. Qed.

(** The search stops at the nearest directory with the marker. *)
Lemma climb_spec around fuel directory :
  length directory < fuel → ∃ r, climb fuel around directory = Some r ∧
  ((∃ n, n ≤ length directory ∧ r = take n directory ∧ marked around r ∧
     ∀ m, n < m ≤ length directory → ¬ marked around (take m directory)) ∨
   (r = cwd around ∧ ∀ m, ¬ marked around (take m directory))).
Proof.
  revert directory. induction fuel as [|fuel IH]; intros directory Hf; [lia|]. simpl.
  destruct (existsSync around (directory ++ [WORKSPACE_MARKER])) eqn:Hm.
  - exists directory. split; [done|]. left. exists (length directory). rewrite firstn_all.
    split_and!; [lia|done|done|lia].
  - assert (∀ m, length directory ≤ m → ¬ marked around (take m directory)) as Hself.
    { intros m Hle. rewrite take_ge by done. unfold marked. by rewrite Hm. }
    case_decide as Hp.
    + exists (cwd around). split; [done|]. right. split; [done|]. intros m. apply Hself.
      destruct directory as [|x l]; simpl; [lia|]. apply (f_equal length) in Hp.
      rewrite removelast_take, length_take in Hp. simpl in Hp. lia.
    + assert (0 < length directory) as Hpos by (destruct directory; [done|simpl; lia]).
      assert (length (removelast directory) = length directory - 1) as Hlen
        by (rewrite removelast_take, length_take; lia).
      destruct (IH (removelast directory)) as (r & -> & Hr); [lia|]. exists r. split; [done|].
      assert (∀ m, m < length directory → take m (removelast directory) = take m directory) as Htake.
      { intros m Hlt. rewrite removelast_take, take_take. by rewrite Nat.min_l by lia. }
      destruct Hr as [(n & Hn & -> & Hmark & Hnone)|[-> Hnone]].
      * left. exists n. rewrite Htake in Hmark |- * by lia. split_and!; [lia|done|done|]. intros m Hm'.
        destruct (decide (m = length directory)) as [->|]; [by apply Hself|].
        rewrite <-Htake by lia. apply Hnone. lia.
      * right. split; [done|]. intros m. destruct (decide (m < length directory)); [|apply Hself; lia].
        rewrite <-Htake by lia. apply Hnone.
Qed.

Lemma climb_ext around1 around2 fuel directory :
  existsSync around1 = existsSync around2 → (∃ m, marked around1 (take m directory)) → length directory < fuel →
  climb fuel around1 directory = climb fuel around2 directory.
Proof.
  intros He [m Hm] Hf. destruct (climb_spec around1 fuel directory Hf) as (r1 & -> & H1).
  destruct (climb_spec around2 fuel directory Hf) as (r2 & -> & H2). f_equal.
  assert (∀ l, marked around2 l ↔ marked around1 l) as Hmark by (intros l; unfold marked; by rewrite He).
  destruct H1 as [(n1 & Hn1 & -> & Hm1 & Hno1)|[_ Hno]]; [|by destruct (Hno m)].
  destruct H2 as [(n2 & Hn2 & -> & Hm2 & Hno2)|[_ Hno]]; [|destruct (Hno m); by apply Hmark].
  destruct (lt_eq_lt_dec n1 n2) as [[Hlt| ->]|Hlt]; [|done|].
  - destruct (Hno1 n2); [lia|]. by apply Hmark.
  - destruct (Hno2 n1); [lia|]. by apply Hmark.
Qed.

Lemma resolve_segment base s : plain_segment s → resolve base s = base ++ [s].
Proof.
  intros (Hne & Hdot & Hdots & Hslash). unfold resolve.
  assert (isAbsolute s = false) as ->.
  { apply not_true_is_false. intros (t & ->)%startsWith_iff. done. }
  assert (split_on slash s = [s]) as Hsplit.
  { clear -Hslash. induction s as [|c s IH]; [done|]. simpl in *.
    apply orb_false_iff in Hslash as [Hc%bool_decide_eq_false_1 Hs]. rewrite decide_False by congruence.
    by rewrite IH. }
  unfold segments. rewrite Hsplit, filter_cons, decide_True by done. simpl. unfold push.
  by rewrite !decide_False by done.
Qed.

Definition configuredRoot (environment : Environment) : string :=
  default "" (trim <$> environment "STORAGE_ROOT").

(** Every service finds one storage root: the search for the workspace
    ends, and two processes with the same environment, whose module lies in
    a workspace, use the same directory wherever they were started, when
    the configured root is absolute or absent. A relative one is resolved in
    the working directory: with it they agree exactly when they were
    started in the same directory. *)
Theorem services_agree_on_storage environment a b :
  moduleDirectory a = moduleDirectory b → existsSync a = existsSync b →
  (∃ n, marked a (take n (moduleDirectory a))) →
  let configured := configuredRoot environment in
  (∃ root, resolveStorageRoot environment a = Some root) ∧
  (configured = "" ∨ isAbsolute configured = true →
     resolveStorageRoot environment a = resolveStorageRoot environment b) ∧
  (plain_segment configured →
     resolveStorageRoot environment a = resolveStorageRoot environment b ↔ cwd a = cwd b).
Proof.
  intros Hmod He Hmark configured. unfold resolveStorageRoot. cbv zeta.
  change (default "" (trim <$> environment "STORAGE_ROOT")) with configured.
  assert (∀ w, ∃ r, workspaceRoot w = Some r) as Hroot.
  { intros w. destruct (climb_spec w (S (length (moduleDirectory w))) (moduleDirectory w)) as (r & Hr & _);
      [lia|]. by exists r. }
  split_and!.
  - case_decide; [by eexists|]. case_match; [|by eexists]. destruct (Hroot a) as [r ->]. by eexists.
  - intros Hc. case_decide as Hne.
    + destruct Hc as [Hc|Hc]; [done|]. unfold resolve. by rewrite Hc.
    + case_match; [|done]. f_equal. unfold workspaceRoot. rewrite <-Hmod.
      apply climb_ext; [done|done|lia].
  - intros Hp. rewrite !decide_True by apply Hp. rewrite !resolve_segment by done. split.
    + intros [= Heq]. by apply app_inj_tail in Heq as [? _].
    + by intros ->.
Qed.

(** ** The retention setting *)

Section retention.
Context `{!Uuids, !Formats}.

Lemma getRetention_ext d d' :
  settings d' = settings d → getRunLogRetentionDays d' = ((getRunLogRetentionDays d).1, d').
Proof.
  intros Hs. unfold getRunLogRetentionDays, selectFirst, select. run_m. by rewrite Hs.
Qed.

Lemma setRetention_run n now d :
  (1 ≤ n)%Z → ∃ l, setRunLogRetentionDays (NInt n) now d = (Ok (), set_settings l d) ∧
    ∀ d', settings d' = l → getRunLogRetentionDays d' = (Ok n, d').
Proof.
  intros Hn. pose proof (retention_days_roundtrip (NInt n) now d) as Hround. simpl in Hround.
  rewrite decide_True in Hround by done. apply bind_ok in Hround as ([] & d1 & Hset & Hget).
  rewrite Hset in Hget. unfold setRunLogRetentionDays in Hset. rewrite bind_run in Hset. unfold lift in Hset.
  simpl in Hset. rewrite decide_False in Hset by lia. injection Hset as Hset.
  exists (settings d1). split.
  - unfold setRunLogRetentionDays. rewrite bind_run. unfold lift. simpl. rewrite decide_False by lia.
    rewrite <-Hset. reflexivity.
  - intros d' Hd'. by rewrite (getRetention_ext d1), Hget.
Qed.

(** The expiry a run is created with. *)
Lemma createPipelineRun_expiry request now d c d' :
  createPipelineRun request now d = (Ok c, d') →
  ∃ days expires r, getRunLogRetentionDays d = (Ok days, d) ∧ calculateRunLogExpiry now days = Ok (Some expires) ∧
    r ∈ runs d' ∧ r_id r = created_runId c ∧ r_expiresAt r = expires.
Proof.
  unfold createPipelineRun. intros (pid & d0 & Hp & Hm)%bind_ok. injection Hp as _ <-.
  rewrite transaction_ok in Hm. unfold createPipelineRunInTransaction in Hm.
  apply bind_ok in Hm as (i & d1 & Hi & Hm). injection Hi as _ <-.
  apply bind_ok in Hm as (o & d1 & Ho & Hm). injection Ho as <- <-.
  destruct (head _) as [pipeline|]; [|done].
  apply bind_ok in Hm as ([] & d1 & Ha & Hm). injection Ha as _ <-.
  apply bind_ok in Hm as (days & d1 & Hdays & Hm).
  assert (d1 = d) as ->.
  { rewrite (getRetention_ext d) in Hdays by done. by injection Hdays. }
  apply bind_ok in Hm as (? & d1 & _ & Hm). apply bind_ok in Hm as (? & d2 & _ & Hm).
  apply bind_ok in Hm as (active & d3 & _ & Hm). apply bind_ok in Hm as (expiry & d4 & He & Hm).
  injection He as He <-. apply bind_ok in Hm as (expires & d4 & Hx & Hm).
  unfold persistDate, lift in Hx. destruct expiry as [t|]; [|done]. injection Hx as <- <-.
  apply bind_ok in Hm as (run & d4 & Hrun & Hm).
  apply insertRun_ok in Hrun as [Hrow ->].
  apply bind_ok in Hm as (ids & d4 & Hev & Hm). apply bind_ok in Hm as (n & d5 & Hjobs & [<- <-]%ret_ok).
  exists days, t, run. split_and!; [done|done| |done|by rewrite Hrow].
  match type of Hev with ?m ?s = _ => assert (preserves (λ d, run ∈ runs d) m) as Hp1; [|specialize (Hp1 s)] end.
  { unfold recordOperationalEvent, recordOperationalEvents. solve_preserves. }
  match type of Hjobs with ?m _ = _ => assert (preserves (λ d, run ∈ runs d) m) as Hp2; [|specialize (Hp2 d4)] end.
  { unfold createInitialSourceJobs. solve_preserves. }
  rewrite Hev in Hp1. rewrite Hjobs in Hp2. apply Hp2, Hp1. simpl. apply elem_of_app. right. left.
Qed.

Definition is_admin (session : option SessionIdentity) : bool :=
  match session with Some session => session_isAdmin session | None => false end.

(** A document that asks for [n] days. *)
Definition asks (value : Json) (n : Z) : Prop :=
  ∃ fields, value = JObject fields ∧ get_field fields "runLogRetentionDays" = Some (JNumber (NInt n)) ∧ (1 ≤ n)%Z.

Lemma parseUpdate_ok value days :
  parseRunLogRetentionUpdate value = Ok days ↔ ∃ n, days = NInt n ∧ asks value n.
Proof.
  split.
  - destruct value as [| |x|s|l|fields]; try done. simpl. intros Hp.
    destruct (get_field fields "runLogRetentionDays") as [[| |[z| | |]|?|?|?]|] eqn:E; try done. simpl in Hp.
    case_decide; [done|]. injection Hp as <-. exists z. split; [done|]. exists fields. split_and!; [done..|lia].
  - intros (n & -> & fields & -> & Hf & Hn). simpl. rewrite Hf. simpl. by rewrite decide_False by lia.
Qed.

(** What the server does with an update. *)
Lemma retention_refused session value now d :
  ¬ (is_admin session ∧ ∃ n, asks value n) → ∃ e, updateRunLogRetention session value now d = (Throw e, d).
Proof.
  intros Hno. unfold updateRunLogRetention. fold (is_admin session). rewrite bind_run. unfold lift.
  destruct (parseRunLogRetentionUpdate value) as [days|e] eqn:Hp; [|by eexists].
  apply parseUpdate_ok in Hp as (n & -> & Ha). destruct (is_admin session); [|by eexists].
  destruct Hno. split; [done|]. by exists n.
Qed.

Lemma retention_accepted session value now d n : is_admin session → asks value n →
  ∃ l, updateRunLogRetention session value now d =
         (Ok {| canManageGlobalSettings := true; runLogRetentionDays := NInt n |}, set_settings l d) ∧
    ∀ d', settings d' = l → getRunLogRetentionDays d' = (Ok n, d').
Proof.
  intros Hadmin Ha. assert (parseRunLogRetentionUpdate value = Ok (NInt n)) as Hp by (apply parseUpdate_ok; eauto).
  destruct Ha as (_ & _ & _ & Hn). destruct (setRetention_run n now d Hn) as (l & Hset & Hget). exists l. split; [|done].
  unfold updateRunLogRetention. fold (is_admin session). rewrite bind_run, Hp. unfold lift.
  destruct (is_admin session); [|done]. simpl. by rewrite bind_run, Hset.
Qed.

(** C35: the retention setting governs the runs to come: only an
    administrator changes it, only to a positive whole number of days, and a
    refusal changes nothing. A change touches no other table; everybody
    signed in reads it back; and from then on every run that is created
    expires that many days after its creation, while with a period that
    reaches beyond the last date there is, no run can be created at all. *)
Theorem updateRunLogRetention_spec session value now d :
  ((¬ is_admin session ∨ ∀ n, ¬ asks value n) → ∃ e, updateRunLogRetention session value now d = (Throw e, d)) ∧
  (is_admin session → ∀ n, asks value n → ∃ l,
     let d' := set_settings l d in
     updateRunLogRetention session value now d =
       (Ok {| canManageGlobalSettings := true; runLogRetentionDays := NInt n |}, d') ∧
     (∀ reader, getGlobalSettings (Some reader) d' =
       (Ok {| canManageGlobalSettings := session_isAdmin reader; runLogRetentionDays := NInt n |}, d')) ∧
     ∀ d'' request created, settings d'' = l → (Z.abs created ≤ maxTime)%Z →
       (∀ c d3, createPipelineRun request created d'' = (Ok c, d3) →
          ∃ r, r ∈ runs d3 ∧ r_id r = created_runId c ∧ r_expiresAt r = (created + n * msPerDay)%Z) ∧
       ((maxTime < created + n * msPerDay)%Z → ∃ e, createPipelineRun request created d'' = (Throw e, d''))).
Proof.
  split.
  - intros Hno. apply retention_refused. intros [Hadmin [n Ha]]. by destruct Hno as [Hno|Hno]; [|apply (Hno n)].
  - intros Hadmin n Ha. assert (1 ≤ n)%Z as Hn by (by destruct Ha as (_ & _ & _ & ?)).
    destruct (retention_accepted session value now d n Hadmin Ha) as (l & Hupdate & Hget). exists l. split_and!; [done| |].
    + intros reader. unfold getGlobalSettings. by rewrite bind_run, Hget.
    + intros d'' request created Hl Hc.
      assert (∀ c d3, createPipelineRun request created d'' = (Ok c, d3) → ∃ t r,
        addUTCDays created n = Some t ∧ r ∈ runs d3 ∧ r_id r = created_runId c ∧ r_expiresAt r = t) as Hexp.
      { intros c d3 (days & t & r & Hdays & Hexp & Hr)%createPipelineRun_expiry. rewrite Hget in Hdays by done.
        injection Hdays as <-. unfold calculateRunLogExpiry in Hexp. rewrite resolve_positive in Hexp by done.
        injection Hexp as Hexp. by exists t, r. }
      unfold addUTCDays, timeClip in Hexp. split.
      * intros c d3 Hrun. destruct (Hexp c d3 Hrun) as (t & r & Ht & Hr & Hid & Hx). exists r.
        split_and!; [done..|]. case_decide; [|done]. injection Ht as <-. exact Hx.
      * intros Hmax. destruct (createPipelineRun request created d'') as [[c|e] d3] eqn:Hrun.
        -- destruct (Hexp c d3 eq_refl) as (t & r & Ht & _). case_decide; [lia|done].
        -- exists e. f_equal. unfold createPipelineRun in Hrun. rewrite bind_run in Hrun. unfold lift in Hrun.
           destruct (parse _ _); [|by injection Hrun]. by apply transaction_throw in Hrun as [-> _].
Qed.
End retention.

(** ** Health *)

Section health.
Context `{!Uuids, !Formats}.

(** The answer of the scheduler to a probe of its health URL. *)
Definition schedulerProbe (token : string) (ping : result unit) (now : Z) (d : Database) : result (Response Json) :=
  (schedulerServer "scheduler" token "/health" ping now
     {| request_method := "GET"; authorization := None; request_body := blank |} d).1.

(** And that of the garbage collector. *)
Definition collectorProbe (ping : result unit) : result (Response Json) :=
  Ok (garbageCollectorServer "garbage-collector" "GET" "/health" ping).

Lemma probe_scheduler fetch url token ping now d :
  fetch url = schedulerProbe token ping now d → checkService fetch url "scheduler" = ofOutcome ping.
Proof. unfold checkService. intros ->. by destruct ping. Qed.

Lemma probe_collector fetch url ping :
  fetch url = collectorProbe ping → checkService fetch url "garbage-collector" = ofOutcome ping.
Proof. unfold checkService. intros ->. by destruct ping. Qed.

(** A probe of one service never passes for another. *)
Lemma probe_other fetch url service other now ping :
  fetch url = Ok (garbageCollectorServer service "GET" now ping) → service ≠ other →
  checkService fetch url other = unavailable.
Proof.
  unfold checkService. intros -> Hne. unfold garbageCollectorServer. case_decide; [|done].
  destruct ping; simpl; [|done]. by apply String.eqb_neq in Hne as ->.
Qed.

(** A health report means what it says: when the probes reach the
    scheduler and the garbage collector, each is reported healthy exactly
    when it can reach its own database, the system is healthy exactly when
    every part is, and the queue totals are those of the jobs table; a
    service that cannot be reached, or that answers for another one, is
    reported unavailable; and nothing is reported without a session. *)
Theorem getSystemHealth_spec config probes now d token ping1 now1 d1 ping2 :
  fetchHealth probes (schedulerHealthUrl config) = schedulerProbe token ping1 now1 d1 →
  fetchHealth probes (garbageCollectorHealthUrl config) = collectorProbe ping2 →
  let report := getSystemHealth config probes now d in
  (health_scheduler report = healthy ↔ is_ok ping1) ∧
  (health_garbageCollector report = healthy ↔ is_ok ping2) ∧
  (health_healthy report = true ↔
     is_ok (selectOne probes) ∧ is_ok (countQueries probes) ∧ is_ok ping1 ∧ is_ok ping2 ∧
     health_workers report = healthy ∧ is_ok (storageAccess probes (storageRoot config))) ∧
  (is_ok (countQueries probes) →
     queuedJobs (health_queue report) = Some (length (filter (λ j, j_state j = JobState.queued) (jobs d))) ∧
     runningJobs (health_queue report) = Some (length (filter (λ j, j_state j = JobState.running) (jobs d)))) ∧
  (∀ e, fetchHealth probes (workerHealthUrl config) = Throw e → health_workers report = unavailable) ∧
  (∀ ping, fetchHealth probes (workerHealthUrl config) = collectorProbe ping → health_workers report = unavailable) ∧
  systemHealthRoute None config probes now d = emptyResponse 401.
Proof.
  intros Hs Hc report. unfold report, getSystemHealth. simpl.
  rewrite (probe_scheduler _ _ _ _ _ _ Hs), (probe_collector _ _ _ Hc).
  assert (∀ o : result unit, ofOutcome o = healthy ↔ is_ok o) as Ho by (by intros []).
  split_and!; [apply Ho|apply Ho| | | | |done].
  - rewrite !andb_true_iff, !bool_decide_eq_true, !Ho. unfold getQueueHealth.
    destruct (countQueries probes); simpl; naive_solver.
  - unfold getQueueHealth. by destruct (countQueries probes).
  - unfold checkService. by intros e ->.
  - intros ping. unfold collectorProbe. intros Hw. by eapply probe_other.
Qed.
End health.
