(* ===== verification/ServerProcess.v ===== *)
(** * The processes of the services

    [apps/scheduler/src/main.ts] and [apps/garbage-collector/src/main.ts]: a
    server whose handler is an asynchronous function. What a handler throws
    is handled by nobody, and ends the process. The callbacks of the runtime
    come one after the other; a request is served in one step. *)

From S2P Require Import Prelude Js Contracts StateMachine Schemas Http Graph Database Statements RunLogs RunQueue.
From S2P Require Import Documents Actions Collector SchedulerService SystemStatus SystemStatusProofs.

(** ** Requests as the HTTP parser of the runtime delivers them *)

(** [message_body] is [None] where the connection ends before the body
    does. *)
Record IncomingMessage := {
  message_method : option string;
  message_url : string;
  message_authorization : option string;
  message_body : option RequestBody }.

Definition messageMethod (m : IncomingMessage) : string := default "GET" (message_method m).

(** The methods the [Request] constructor refuses. *)
Definition forbiddenMethods : list string := ["CONNECT"; "TRACE"; "TRACK"].

(** [readRequestBody]: [None] throws. *)
Definition readRequestBody (m : IncomingMessage) : result RequestBody :=
  match message_body m with Some body => Ok body | None => Throw (JsError "aborted") end.

Definition toWebRequest (m : IncomingMessage) : result Request :=
  let method := messageMethod m in
  body ← (if decide (method = "GET" ∨ method = "HEAD") then Ok blank else readRequestBody m);
  if decide (method ∈ forbiddenMethods) then Throw (JsError "'method' HTTP method is unsupported.")
  else Ok {| request_method := method; authorization := message_authorization m; request_body := body |}.

(** ** The process of a service *)

Inductive ShutdownSignal := SIGINT | SIGTERM.
#[export] Instance ShutdownSignal_eq_dec : EqDecision ShutdownSignal.
Proof. solve_decision. Defined.

Inductive Phase := Open | Closing | Ended (code : Z).

(** [handled]: the signals whose handler, attached with [once], was used. *)
Record Process := { phase : Phase; handled : list ShutdownSignal; exitCode : Z }.

Definition startedProcess : Process := {| phase := Open; handled := []; exitCode := 0 |}.

Definition ended (code : Z) (p : Process) : Process := {| phase := Ended code; handled := handled p; exitCode := exitCode p |}.

(** What the runtime reports. [Closes]: the connections of a closing server
    are gone, and the database connection is closed, or fails to. *)
Inductive ProcessEvent :=
  | Arrives (now : Z) (ping : result unit) (m : IncomingMessage)
  | Signals (s : ShutdownSignal)
  | Closes (database : result unit).

Section process.
Context {S : Type} (serve : Z → result unit → IncomingMessage → M S exn (Response Json)).

(** [stop]; a signal whose handler was used ends the process. *)
Definition stop (s : ShutdownSignal) (p : Process) : Process :=
  if decide (s ∈ handled p) then ended (match s with SIGINT => 130 | SIGTERM => 143 end) p
  else {| phase := match phase p with Open => Closing | other => other end; handled := s :: handled p;
          exitCode := match phase p with Closing => 1 | _ => exitCode p end |}.

(** One event, with the answer a request gets. *)
Definition processStep (e : ProcessEvent) (st : Process * S) : (Process * S) * option (Response Json) :=
  let '(p, s) := st in
  match phase p, e with
  | Ended _, _ => (st, None)
  | Open, Arrives now ping m =>
      match serve now ping m s with
      | (Ok response, s) => ((p, s), Some response)
      | (Throw _, s) => ((ended 1 p, s), None)
      end
  | Closing, Arrives _ _ _ => (st, None)
  | _, Signals sig => ((stop sig p, s), None)
  | Closing, Closes (Ok _) => ((ended (exitCode p) p, s), None)
  | Closing, Closes (Throw _) => ((ended 1 p, s), None)
  | Open, Closes _ => (st, None)
  end.

Fixpoint processRun (events : list ProcessEvent) (st : Process * S) : Process * S :=
  match events with
  | [] => st
  | e :: events => processRun events (processStep e st).1
  end.
End process.

Section scheduler.
Context `{!Uuids, !Formats}.
Context (serviceName token : string).

(** The listener of [createServer]. *)
Definition onRequest (now : Z) (ping : result unit) (m : IncomingMessage) : DB (Response Json) :=
  if decide (messageMethod m = "GET" ∧ message_url m = "/health") then
    schedulerServer serviceName token (message_url m) ping now
      {| request_method := messageMethod m; authorization := message_authorization m; request_body := blank |}
  else if decide (message_url m = "/internal/pipeline-runs") then
    request ← lift (toWebRequest m);
    internalPipelineRunHandler token now request
  else
    schedulerServer serviceName token (message_url m) ping now
      {| request_method := messageMethod m; authorization := message_authorization m; request_body := blank |}.

Definition schedulerProcess := processStep onRequest.

(** The collector's listener, which catches what the database throws. *)
Definition onCollectorRequest (now : Z) (ping : result unit) (m : IncomingMessage) : DB (Response Json) :=
  mret (garbageCollectorServer serviceName (messageMethod m) (message_url m) ping).

Definition collectorProcess := processStep onCollectorRequest.

(** *** What ends the scheduler *)

(** The run a message asks for, when it carries the token. *)
Definition asksRun (m : IncomingMessage) : option (string * string) :=
  match toWebRequest m with
  | Ok request =>
      if decide (request_method request ≠ "POST") then None
      else if negb (hasValidInternalToken (authorization request) token) then None
      else SchedulerService.parseActionInput request
  | Throw _ => None
  end.

(** A run that is created and can be answered, or refused by a conflict. *)
Definition run_answered (now : Z) (owner id : string) (d : Database) : Prop :=
  match (enqueuePipelineRunForOwner owner id now d).1 with
  | Ok run => pipelineRunResponseSchema run = true
  | Throw e => is_Some (runErrorAnswer e)
  end.

(** The connection delivers the body of a request for a run, in a method a
    [Request] can have. *)
Definition well_delivered (m : IncomingMessage) : Prop :=
  message_url m = "/internal/pipeline-runs" →
  messageMethod m ∉ forbiddenMethods ∧ (messageMethod m = "GET" ∨ messageMethod m = "HEAD" ∨ message_body m ≠ None).

Definition survives (now : Z) (d : Database) (m : IncomingMessage) : Prop :=
  well_delivered m ∧
  (message_url m = "/internal/pipeline-runs" → ∀ owner id, asksRun m = Some (owner, id) → run_answered now owner id d).

Lemma toWebRequest_delivered m : message_url m = "/internal/pipeline-runs" →
  well_delivered m ↔ is_ok (toWebRequest m) = true.
Proof.
  intros Hurl. unfold well_delivered, toWebRequest, readRequestBody. generalize (messageMethod m). intros method.
  destruct (decide (method = "GET" ∨ method = "HEAD")) as [Hget|Hget], (decide (method ∈ forbiddenMethods)), (message_body m);
    simpl; naive_solver.
Qed.

Lemma handler_answers now request d :
  is_ok (internalPipelineRunHandler token now request d).1 = true ↔
  (request_method request = "POST" → hasValidInternalToken (authorization request) token = true →
     ∀ owner id, SchedulerService.parseActionInput request = Some (owner, id) → run_answered now owner id d).
Proof.
  unfold internalPipelineRunHandler. case_decide as Hpost; [by split; [intros _ ?|]|].
  destruct (hasValidInternalToken _ _); simpl; [|by split; [intros _ _ ?|]].
  destruct (SchedulerService.parseActionInput request) as [[owner id]|]; simpl; [|by split; [intros _ _ _ ? ?|]].
  assert (is_ok ((answering
          (run ← enqueuePipelineRunForOwner owner id now;
           run ← lift (parse pipelineRunResponseSchema run);
           mret (jsonResponse 200 (encodeRunResponse run))) runErrorAnswer) d).1 = true ↔ run_answered now owner id d) as ->.
  { unfold answering, try_catch, run_answered. rewrite bind_run.
    destruct (enqueuePipelineRunForOwner owner id now d) as [[run|e] d1]; simpl.
    - rewrite bind_run. unfold lift, parse. by destruct (pipelineRunResponseSchema run).
    - destruct (runErrorAnswer e) as [r|]; simpl; [by split; [exists r|]|]. split; [done|]. by intros [? ?]. }
  split; [intros Hr _ _ ? ? [= <- <-]; exact Hr|]. intros Hr. apply Hr; [|done..]. by destruct (decide (request_method request = "POST")).
Qed.

Lemma onRequest_survives now ping m d : is_ok (onRequest now ping m d).1 = true ↔ survives now d m.
Proof.
  unfold onRequest, survives, well_delivered. destruct (decide (messageMethod m = "GET" ∧ message_url m = "/health")) as [[Hget Hurl]|Hhealth].
  { rewrite Hget, Hurl. unfold schedulerServer. rewrite decide_True by done. naive_solver. }
  destruct (decide (message_url m = "/internal/pipeline-runs")) as [Hurl|Hurl].
  - pose proof (toWebRequest_delivered m Hurl) as Hd. unfold well_delivered in Hd. rewrite Hd, bind_run. unfold asksRun, lift.
    destruct (toWebRequest m) as [request|e]; simpl; [|naive_solver].
    rewrite handler_answers. destruct (decide (request_method request ≠ "POST")) as [Hpost|Hpost]; [naive_solver|].
    destruct (hasValidInternalToken _ _); simpl; [|naive_solver].
    destruct (decide (request_method request = "POST")); [naive_solver|done].
  - unfold schedulerServer. rewrite !decide_False by done. naive_solver.
Qed.

(** *** Facts about the processes *)

Lemma processRun_ended {S} (serve : Z → result unit → IncomingMessage → M S exn (Response Json)) events code p s :
  phase p = Ended code → processRun serve events (p, s) = (p, s).
Proof.
  intros Hp. induction events as [|e events IH]; [done|]. simpl. rewrite Hp. simpl. apply IH.
Qed.

Lemma processStep_arrives {S} (serve : Z → result unit → IncomingMessage → M S exn (Response Json)) now ping m p s :
  phase p = Open →
  processStep serve (Arrives now ping m) (p, s) =
    match serve now ping m s with
    | (Ok response, s) => ((p, s), Some response)
    | (Throw _, s) => ((ended 1 p, s), None)
    end.
Proof. intros Hp. simpl. by rewrite Hp. Qed.

Lemma undelivered_unchanged now ping m d :
  message_url m = "/internal/pipeline-runs" → ¬ well_delivered m → ∃ e, onRequest now ping m d = (Throw e, d).
Proof.
  intros Hurl Hm. unfold onRequest. rewrite Hurl, decide_False by (by intros []). rewrite decide_True by done.
  rewrite toWebRequest_delivered in Hm by done. rewrite bind_run. unfold lift.
  destruct (toWebRequest m) as [r|e]; [done|]. by exists e.
Qed.

(** Requests alone leave the collector as it is. *)
Lemma collector_stays events p d :
  phase p = Open → Forall (λ e, ∃ now ping m, e = Arrives now ping m) events →
  processRun onCollectorRequest events (p, d) = (p, d).
Proof.
  intros Hp. induction 1 as [|e events (now & ping & m & ->) _ IH]; [done|]. simpl. by rewrite Hp.
Qed.

Lemma signal_closes now ping m p d signal : phase p = Open → signal ∉ handled p →
  let st := (schedulerProcess (Signals signal) (p, d)).1 in
  phase st.1 = Closing ∧ (schedulerProcess (Arrives now ping m) st).2 = None ∧
  phase (schedulerProcess (Closes (Ok ())) st).1.1 = Ended (exitCode p) ∧
  phase (schedulerProcess (Signals signal) st).1.1 = Ended (match signal with SIGINT => 130 | SIGTERM => 143 end).
Proof.
  intros Hp Hn. unfold schedulerProcess. simpl. unfold stop. rewrite Hp, decide_False by done. simpl.
  unfold stop. simpl. rewrite decide_True by (by left). by destruct signal.
Qed.

Lemma failing_run_ends now d m owner id e :
  message_url m = "/internal/pipeline-runs" → asksRun m = Some (owner, id) →
  (enqueuePipelineRunForOwner owner id now d).1 = Throw e → runErrorAnswer e = None → ¬ survives now d m.
Proof.
  intros Hurl Hask Hrun Hnone [_ Hr]. specialize (Hr Hurl owner id Hask). unfold run_answered in Hr.
  rewrite Hrun, Hnone in Hr. by destruct Hr.
Qed.

(** C15: the scheduler's process after a request: it stays up, and answers
    with what its handler returns, exactly when the request [survives]; any
    other request ends it with status 1, without an answer, and nothing that
    follows is served. A request to the internal route whose body breaks off,
    or in a method a [Request] cannot have, ends it whatever the token, so
    one without the token does; the rows are unchanged. With the token, a
    request for a run ends it when the run fails otherwise than by a
    conflict. The collector is ended by no sequence of requests. A signal
    closes the server of either, and a second one of the same kind ends it at
    once. *)
Theorem scheduler_process_spec (now : Z) (ping : result unit) (m : IncomingMessage) (p : Process) (d : Database) :
  phase p = Open →
  let '((p', d'), answer) := schedulerProcess (Arrives now ping m) (p, d) in
  (survives now d m → p' = p ∧ ∃ response, answer = Some response ∧ onRequest now ping m d = (Ok response, d')) ∧
  (¬ survives now d m → answer = None ∧ ∀ events,
     processRun onRequest events (p', d') = (ended 1 p, d')) ∧
  (message_url m = "/internal/pipeline-runs" → ¬ well_delivered m → p' = ended 1 p ∧ d' = d) ∧
  (∀ owner id e, message_url m = "/internal/pipeline-runs" → asksRun m = Some (owner, id) →
     (enqueuePipelineRunForOwner owner id now d).1 = Throw e → runErrorAnswer e = None → p' = ended 1 p) ∧
  (∀ events, Forall (λ e, ∃ now ping m, e = Arrives now ping m) events →
     processRun onCollectorRequest events (p, d) = (p, d)) ∧
  (∀ signal, signal ∉ handled p →
     let st := (schedulerProcess (Signals signal) (p, d)).1 in
     phase st.1 = Closing ∧ (schedulerProcess (Arrives now ping m) st).2 = None ∧
     phase (schedulerProcess (Closes (Ok ())) st).1.1 = Ended (exitCode p) ∧
     phase (schedulerProcess (Signals signal) st).1.1 = Ended (match signal with SIGINT => 130 | SIGTERM => 143 end)).
Proof.
  intros Hp. unfold schedulerProcess. rewrite processStep_arrives by done.
  pose proof (onRequest_survives now ping m d) as Hs. pose proof (undelivered_unchanged now ping m d) as Hu.
  pose proof (λ events, collector_stays events p d Hp) as Hc. pose proof (failing_run_ends now d m) as Hfail.
  pose proof (λ signal, signal_closes now ping m p d signal Hp) as Hsig.
  destruct (onRequest now ping m d) as [[response|e] d'] eqn:E; simpl in Hs.
  - apply proj1 in Hs. specialize (Hs eq_refl). split_and!; try done.
    + intros _. split; [done|]. by exists response.
    + intros Hurl Hm. by destruct (Hu Hurl Hm).
    + intros owner id e Hurl Hask Hrun Hnone. by destruct (Hfail owner id e Hurl Hask Hrun Hnone).
  - assert (¬ survives now d m) as Hn by (intros Hn; by apply Hs in Hn). split_and!; try done.
    + intros _. split; [done|]. intros events. by apply (processRun_ended _ _ 1).
    + intros Hurl Hm. destruct (Hu Hurl Hm) as [e' [= _ ->]]. done.
Qed.
End scheduler.
