(* ===== verification/Workspaces.v ===== *)
(** * The pages of the control plane

    [apps/web/src]: the system page (components/system-workspace.tsx), the
    settings page (components/settings-workspace.tsx), the sign-in and the
    first-run pages (routes/login.tsx, routes/welcome.tsx) and the
    preferences a browser keeps (locales/index.ts, locale-provider.tsx,
    theme-provider.tsx). A page is a state, the events are what its user does
    and the answers that arrive; a handler keeps what it read when it ran. *)

From S2P Require Import Prelude Js Numbers Contracts Schemas Http Database RunLogs Dates Accounts SystemStatus.

#[local] Open Scope Z_scope.

Inductive LoadStatus := load_error | load_loading | load_ready.
#[export] Instance LoadStatus_eq_dec : EqDecision LoadStatus.
Proof. solve_decision. Defined.

(** ** system-workspace.tsx *)

(** What the page makes of a report. *)
Record HealthView := {
  view_checkedAt : string; view_database : HealthStatus; view_garbageCollector : HealthStatus;
  view_queue : HealthStatus; view_queuedJobs : option jsnumber; view_runningJobs : option jsnumber;
  view_scheduler : HealthStatus; view_healthy : bool; view_storage : HealthStatus; view_workers : HealthStatus }.

Definition parseHealthStatus (value : option Json) : result HealthStatus :=
  match value with
  | Some (JString "healthy") => Ok healthy
  | Some (JString "unavailable") => Ok unavailable
  | _ => Throw (JsError "System health response contains an invalid availability state.")
  end.

Definition parseOverallStatus (value : option Json) : result bool :=
  match value with
  | Some (JString "healthy") => Ok true
  | Some (JString "degraded") => Ok false
  | _ => Throw (JsError "System health response contains an invalid overall state.")
  end.

Definition parseComponent (value : option Json) : result HealthStatus :=
  match value with
  | Some (JObject fields) => parseHealthStatus (get_field fields "status")
  | _ => Throw (JsError "System health response contains an invalid component.")
  end.

Definition isSafeCount (value : option Json) : option jsnumber :=
  match value with
  | Some (JNumber n) => match isInteger n with
                        | Some k => if decide (0 <= k) then Some n else None
                        | None => None
                        end
  | _ => None
  end.

Definition parseQueue (value : option Json) : result (HealthStatus * option jsnumber * option jsnumber) :=
  component ← parseComponent value;
  let source := match value with Some (JObject fields) => fields | _ => [] end in
  Ok (component, isSafeCount (get_field source "queuedJobs"), isSafeCount (get_field source "runningJobs")).

Section system.
(** How [new Date] reads a text that is not an instant in ISO 8601. *)
Context (readOtherDate : string → option Z).

Definition readDate (text : string) : option Z :=
  match parseInstant text with Some t => Some t | None => readOtherDate text end.

Definition parseSystemHealth (value : Json) : result HealthView :=
  match value with
  | JObject source =>
      status ← parseOverallStatus (get_field source "status");
      checkedAt ← match get_field source "checkedAt" with
                  | Some (JString text) => match readDate text with
                                           | Some _ => Ok text
                                           | None => Throw (JsError "System health response must include a valid check time.")
                                           end
                  | _ => Throw (JsError "System health response must include a valid check time.")
                  end;
      database ← parseComponent (get_field source "database");
      garbageCollector ← parseComponent (get_field source "garbageCollector");
      '(queue, queuedJobs, runningJobs) ← parseQueue (get_field source "queue");
      scheduler ← parseComponent (get_field source "scheduler");
      storage ← parseComponent (get_field source "storage");
      workers ← parseComponent (get_field source "workers");
      Ok {| view_checkedAt := checkedAt; view_database := database; view_garbageCollector := garbageCollector;
            view_queue := queue; view_queuedJobs := queuedJobs; view_runningJobs := runningJobs;
            view_scheduler := scheduler; view_healthy := status; view_storage := storage; view_workers := workers |}
  | _ => Throw (JsError "System health response must be an object.")
  end.

(** [health_requests]: the loads that were not answered. *)
Record SystemPage := { shownHealth : option HealthView; health_load : LoadStatus; health_requests : nat }.

(** The page after its first effect. *)
Definition openedSystemPage : SystemPage := {| shownHealth := None; health_load := load_loading; health_requests := 1 |}.

Definition setHealth (r : result HealthView) (requests : nat) : SystemPage :=
  match r with
  | Ok health => {| shownHealth := Some health; health_load := load_ready; health_requests := requests |}
  | Throw _ => {| shownHealth := None; health_load := load_error; health_requests := requests |}
  end.

(** The end of [loadHealth]. *)
Definition healthOf (answer : result (Response Json)) : result HealthView :=
  response ← answer;
  if negb (response_ok response) then Throw (JsError "System health could not be loaded.")
  else match body response with
       | Some payload => parseSystemHealth payload
       | None => Throw (JsError "Unexpected end of JSON input")
       end.

Inductive SystemPageEvent :=
  | ClicksRefresh
  | HealthAnswers (answer : result (Response Json)).

(** The button is disabled while the status is loading. *)
Definition systemPageStep (e : SystemPageEvent) (p : SystemPage) : SystemPage :=
  match e with
  | ClicksRefresh =>
      if decide (health_load p = load_loading) then p
      else {| shownHealth := shownHealth p; health_load := load_loading; health_requests := S (health_requests p) |}
  | HealthAnswers answer =>
      match health_requests p with
      | O => p
      | S requests => setHealth (healthOf answer) requests
      end
  end.
End system.

(** [Response.json] of a report. *)
Definition statusText (s : HealthStatus) : string := match s with healthy => "healthy" | unavailable => "unavailable" end.
Definition encodeComponent (s : HealthStatus) : Json := JObject [("status", JString (statusText s))].
Definition encodeCount (name : string) (n : option nat) : list (string * Json) :=
  match n with Some n => [(name, JNumber (NInt (Z.of_nat n)))] | None => [] end.

Definition encodeSystemHealth (h : SystemHealth) : Json :=
  JObject
    [("checkedAt", JString (toISOString (checkedAt h)));
     ("database", encodeComponent (health_database h));
     ("garbageCollector", encodeComponent (health_garbageCollector h));
     ("queue", JObject (encodeCount "queuedJobs" (queuedJobs (health_queue h)) ++
                        encodeCount "runningJobs" (runningJobs (health_queue h)) ++
                        [("status", JString (statusText (queue_status (health_queue h))))]));
     ("scheduler", encodeComponent (health_scheduler h));
     ("status", JString (if health_healthy h then "healthy" else "degraded"));
     ("storage", encodeComponent (health_storage h));
     ("workers", encodeComponent (health_workers h))].

Definition reportResponse (r : Response SystemHealth) : Response Json :=
  {| status := status r; body := encodeSystemHealth <$> body r |}.

(** ** settings-workspace.tsx *)

Inductive SaveState := save_error | save_idle | save_saved.

(** [savingRequest]: the number a save in flight asks for; [isSaving] is that
    there is one. *)
Record SettingsPage := {
  page_settings : option GlobalSettingsView; page_load : LoadStatus; retentionDays : string;
  savingRequest : option jsnumber; page_saveState : SaveState; loadPending : bool }.

(** [initialSettingsLoadState] and the first effect. *)
Definition openedSettingsPage : SettingsPage :=
  {| page_settings := None; page_load := load_loading; retentionDays := ""; savingRequest := None;
     page_saveState := save_idle; loadPending := true |}.

(** The form is only there for who may manage the settings. *)
Definition formShown (p : SettingsPage) : bool :=
  match page_settings p with Some v => canManageGlobalSettings v | None => false end.

Definition settingsLoaded (r : result GlobalSettingsView) (p : SettingsPage) : SettingsPage :=
  match r with
  | Ok v => {| page_settings := Some v; page_load := load_ready; retentionDays := numberToString (runLogRetentionDays v);
               savingRequest := savingRequest p; page_saveState := page_saveState p; loadPending := false |}
  | Throw _ => {| page_settings := None; page_load := load_error; retentionDays := retentionDays p;
                  savingRequest := savingRequest p; page_saveState := page_saveState p; loadPending := false |}
  end.

Definition typeDays (text : string) (p : SettingsPage) : SettingsPage :=
  {| page_settings := page_settings p; page_load := page_load p; retentionDays := text; savingRequest := savingRequest p;
     page_saveState := page_saveState p; loadPending := loadPending p |}.

(** [saveRetention] up to its request, and after the answer. *)
Definition saveRetention (p : SettingsPage) : SettingsPage :=
  {| page_settings := page_settings p; page_load := page_load p; retentionDays := retentionDays p;
     savingRequest := Some (Number (retentionDays p)); page_saveState := save_idle; loadPending := loadPending p |}.

Definition retentionSaved (r : result GlobalSettingsView) (p : SettingsPage) : SettingsPage :=
  match r with
  | Ok v => {| page_settings := Some v; page_load := load_ready; retentionDays := numberToString (runLogRetentionDays v);
               savingRequest := None; page_saveState := save_saved; loadPending := loadPending p |}
  | Throw _ => {| page_settings := page_settings p; page_load := page_load p; retentionDays := retentionDays p;
                  savingRequest := None; page_saveState := save_error; loadPending := loadPending p |}
  end.

(** The page and the server. [SaveServed] is an answer to the save in flight,
    which may be lost on its way; [RequestLost] is a save the server never
    saw; [Changes] is what anybody else does. *)
Inductive SettingsEvent :=
  | LoadServed (session : option SessionIdentity)
  | TypesDays (text : string)
  | SubmitsDays
  | SaveServed (session : option SessionIdentity) (lost : bool) (now : Z)
  | RequestLost
  | Changes (f : Database → Database).

Definition lostAnswer : exn := JsError "Failed to fetch".

Definition settingsStep (e : SettingsEvent) (st : SettingsPage * Database) : SettingsPage * Database :=
  let '(p, d) := st in
  match e with
  | LoadServed session => if loadPending p then (settingsLoaded (getGlobalSettings session d).1 p, d) else st
  | TypesDays text => if formShown p then (typeDays text p, d) else st
  | SubmitsDays => if formShown p && bool_decide (savingRequest p = None) then (saveRetention p, d) else st
  | SaveServed session lost now =>
      match savingRequest p with
      | None => st
      | Some days =>
          let '(r, d) := updateRunLogRetention session (JObject [("runLogRetentionDays", JNumber days)]) now d in
          (retentionSaved (if lost then Throw lostAnswer else r) p, d)
      end
  | RequestLost => match savingRequest p with None => st | Some _ => (retentionSaved (Throw lostAnswer) p, d) end
  | Changes f => (p, f d)
  end.

Definition settingsRun (events : list SettingsEvent) (st : SettingsPage * Database) : SettingsPage * Database :=
  foldl (λ st e, settingsStep e st) st events.

(** ** routes/login.tsx *)

(** [validateSearch]: the [returnTo] a search has, if it is a path. *)
Definition validateSearch (returnTo : option Json) : option string :=
  match returnTo with
  | Some (JString path) => if String.prefix "/" path && negb (String.prefix "//" path) then Some path else None
  | _ => None
  end.

Record LoginPage := { login_submitting : bool; login_hasError : bool }.

(** [signIn] up to its request; the answer tells whether it has an error, and
    a sign-in leads on. *)
Definition signIn : LoginPage := {| login_submitting := true; login_hasError := false |}.

Definition signInAnswered (returnTo : option string) (error : bool) : LoginPage * option string :=
  ({| login_submitting := false; login_hasError := error |}, if error then None else Some (default "/" returnTo)).

(** ** routes/welcome.tsx *)

(** [REJECTION_MESSAGE_KEYS] *)
Definition rejectionMessageKey (reason : option AdminSetupRejection) : string :=
  match reason with
  | Some already_completed => "welcome.error.alreadyCompleted"
  | Some email_in_use => "welcome.error.emailInUse"
  | Some invalid_email => "welcome.error.invalidEmail"
  | Some reused_default_password => "welcome.error.reusedDefault"
  | None => "welcome.error.alreadyCompleted"
  | Some weak_password => "welcome.error.weakPassword"
  end.

(** [setupRequest]: the data of the call in flight; [w_left]: the page has
    sent its user home. *)
Record WelcomePage := {
  w_email : string; w_password : string; w_confirmation : string; w_submitting : bool;
  setupRequest : option (string * string); errorKey : option string; w_left : bool }.

Definition openedWelcomePage (session : SessionIdentity) : WelcomePage :=
  {| w_email := session_email session; w_password := ""; w_confirmation := ""; w_submitting := false; setupRequest := None;
     errorKey := None; w_left := false |}.

Inductive WelcomeEvent :=
  | TypesEmail (text : string)
  | TypesPassword (text : string)
  | TypesConfirmation (text : string)
  | SubmitsSetup
  | SetupServed (session : option SessionIdentity) (salt : nat) (now : Z).

Section welcome.
Context `{!Uuids, !PasswordHashing}.

(** The fields, and the state of the submission. An exception of the call
    leaves the page submitting. *)
Definition withFields (email password confirmation : string) (p : WelcomePage) : WelcomePage :=
  {| w_email := email; w_password := password; w_confirmation := confirmation; w_submitting := w_submitting p;
     setupRequest := setupRequest p; errorKey := errorKey p; w_left := w_left p |}.
Definition withSubmission (submitting : bool) (request : option (string * string)) (key : option string) (left : bool)
    (p : WelcomePage) : WelcomePage :=
  {| w_email := w_email p; w_password := w_password p; w_confirmation := w_confirmation p; w_submitting := submitting;
     setupRequest := request; errorKey := key; w_left := left |}.

Definition submitSetup (p : WelcomePage) : WelcomePage :=
  if decide (w_password p ≠ w_confirmation p)
  then withSubmission (w_submitting p) (setupRequest p) (Some "welcome.error.mismatch") (w_left p) p
  else withSubmission true (Some (w_email p, w_password p)) None (w_left p) p.

Definition setupAnswered (r : result AdminSetupOutcome) (p : WelcomePage) : WelcomePage :=
  match r with
  | Ok setup_ok => withSubmission false None None true p
  | Ok (setup_refused reason) => withSubmission false None (Some (rejectionMessageKey reason)) (w_left p) p
  | Throw _ => withSubmission true None None (w_left p) p
  end.

Definition welcomeStep (e : WelcomeEvent) (st : WelcomePage * Directory) : WelcomePage * Directory :=
  let '(p, s) := st in
  match e with
  | TypesEmail text => (withFields text (w_password p) (w_confirmation p) p, s)
  | TypesPassword text => (withFields (w_email p) text (w_confirmation p) p, s)
  | TypesConfirmation text => (withFields (w_email p) (w_password p) text p, s)
  | SubmitsSetup => if w_submitting p then st else (submitSetup p, s)
  | SetupServed session salt now =>
      match setupRequest p with
      | None => st
      | Some (email, password) =>
          let '(r, s) := completeAdminSetup session email password salt now s in (setupAnswered r p, s)
      end
  end.

Definition welcomeRun (events : list WelcomeEvent) (st : WelcomePage * Directory) : WelcomePage * Directory :=
  foldl (λ st e, welcomeStep e st) st events.
End welcome.

(** ** Preferences: locales/index.ts, locale-provider.tsx, theme-provider.tsx *)

Definition DEFAULT_LOCALE : string := "en-US".
Definition supportedLocales : list string := ["en-US"; "en-GB"].

(** The names every object has, which [in] finds as well. *)
Definition inheritedNames : list string :=
  ["constructor"; "__defineGetter__"; "__defineSetter__"; "hasOwnProperty"; "__lookupGetter__"; "__lookupSetter__";
   "isPrototypeOf"; "propertyIsEnumerable"; "toString"; "valueOf"; "__proto__"; "toLocaleString"].

(** [locale.split("-")[0].toLowerCase()] *)
Fixpoint beforeHyphen (s : string) : string :=
  match s with
  | EmptyString => ""
  | String c s => if decide (c = "-"%char) then "" else String c (beforeHyphen s)
  end.
Definition languageOf (locale : string) : string := toLowerCase (beforeHyphen locale).

Definition resolveLocale (requestedLocale : option string) : string :=
  match requestedLocale with
  | Some requested =>
      if decide (requested ∈ supportedLocales ++ inheritedNames) then requested
      else default DEFAULT_LOCALE (head (filter (λ locale, languageOf locale = languageOf requested) supportedLocales))
  | None => DEFAULT_LOCALE
  end.

Inductive Theme := light | dark.
#[export] Instance Theme_eq_dec : EqDecision Theme.
Proof. solve_decision. Defined.
Definition themeText (t : Theme) : string := match t with light => "light" | dark => "dark" end.
Definition resolveTheme (value : option string) : Theme := match value with Some "dark" => dark | _ => light end.

(** What a browser keeps and prefers, and what its page shows. *)
Record Preferences := { storedLocale : option string; storedTheme : option string }.
Record Shown := { shownLocale : string; documentLang : string; shownTheme : Theme }.

(** The first nonempty of [navigator.languages], or [navigator.language]. *)
Definition browserLocale (languages : list string) (language : string) : string :=
  default language (head (filter (λ candidate, candidate ≠ "") languages)).

(** The effects of a changed state. *)
Definition applyPreferences (locale : string) (theme : Theme) : Preferences * Shown :=
  ({| storedLocale := Some locale; storedTheme := Some (themeText theme) |},
   {| shownLocale := locale; documentLang := locale; shownTheme := theme |}).

(** The mounted providers: what is stored is read before the defaults are
    written, and the state set is rendered and written after them. *)
Definition mountProviders (languages : list string) (language : string) (p : Preferences) : Preferences * Shown :=
  applyPreferences (resolveLocale (Some (default (browserLocale languages language) (storedLocale p))))
    (resolveTheme (storedTheme p)).

Definition setLocale (locale : string) (st : Preferences * Shown) : Preferences * Shown :=
  applyPreferences locale (shownTheme st.2).
Definition setTheme (theme : Theme) (st : Preferences * Shown) : Preferences * Shown :=
  applyPreferences (shownLocale st.2) theme.
