(* ===== verification/WorkspaceProofs.v ===== *)
(** * What the pages show and send

    The system page shows the report of the server; the settings page saves
    what it shows and shows what was saved; the first-run page completes one
    setup; a preference outlives the page. *)

From S2P Require Import Prelude Js Numbers Contracts Schemas Http Database RunLogs Dates Accounts AccountProofs.
From S2P Require Import SystemStatus SystemStatusProofs Workspaces.

#[local] Open Scope Z_scope.

(** ** The system page *)

Definition viewOf (h : SystemHealth) : HealthView :=
  {| view_checkedAt := toISOString (checkedAt h); view_database := health_database h;
     view_garbageCollector := health_garbageCollector h; view_queue := queue_status (health_queue h);
     view_queuedJobs := NInt ∘ Z.of_nat <$> queuedJobs (health_queue h);
     view_runningJobs := NInt ∘ Z.of_nat <$> runningJobs (health_queue h);
     view_scheduler := health_scheduler h; view_healthy := health_healthy h; view_storage := health_storage h;
     view_workers := health_workers h |}.

Section system.
Context (readOtherDate : string → option Z).

Lemma parseComponent_encode s : parseComponent (Some (encodeComponent s)) = Ok s.
Proof. by destruct s. Qed.

Lemma parseQueue_encode q :
  parseQueue (Some (JObject (encodeCount "queuedJobs" (queuedJobs q) ++ encodeCount "runningJobs" (runningJobs q) ++
    [("status", JString (statusText (queue_status q)))]))) =
  Ok (queue_status q, NInt ∘ Z.of_nat <$> queuedJobs q, NInt ∘ Z.of_nat <$> runningJobs q).
Proof.
  destruct q as [status queued running]. assert (∀ n, isSafeCount (Some (JNumber (NInt (Z.of_nat n)))) = Some (NInt (Z.of_nat n))) as Hn.
  { intros n. simpl. by rewrite decide_True by lia. }
  unfold parseQueue. destruct status, queued, running; lazy -[isSafeCount Z.of_nat]; rewrite ?Hn; reflexivity.
Qed.

(** A report survives the trip to the browser. *)
Lemma parse_encode_health h : Z.abs (checkedAt h) <= maxTime →
  parseSystemHealth readOtherDate (encodeSystemHealth h) = Ok (viewOf h).
Proof.
  intros Ht. unfold parseSystemHealth, encodeSystemHealth.
  lazy -[toISOString readDate parseQueue encodeComponent parseComponent encodeCount app parseOverallStatus checkedAt health_database
    health_garbageCollector health_queue health_scheduler health_healthy health_storage health_workers statusText queue_status queuedJobs runningJobs viewOf].
  unfold readDate. rewrite parseInstant_toISOString by done. rewrite !parseComponent_encode, parseQueue_encode.
  by destruct h as [? ? ? ? ? [] ? ?].
Qed.

Definition systemPageRun (events : list SystemPageEvent) : SystemPage :=
  foldl (λ p e, systemPageStep readOtherDate e p) openedSystemPage events.

(** One load at a time, while the page says so. *)
Lemma systemPage_requests events : let p := systemPageRun events in
  health_requests p = if decide (health_load p = load_loading) then 1%nat else 0%nat.
Proof.
  cbv zeta. unfold systemPageRun. induction events as [|e events IH] using rev_ind; [done|].
  rewrite foldl_app. cbn [foldl]. set (p := foldl _ _ _) in *. destruct e as [|answer]; simpl.
  - destruct (decide (health_load p = load_loading)) as [Hl|Hl]; [by rewrite decide_True|].
    simpl. by rewrite IH.
  - destruct (decide (health_load p = load_loading)) as [Hl|Hl]; rewrite IH; simpl; [|by rewrite decide_False].
    by destruct (healthOf readOtherDate answer).
Qed.

(** The server's answer to a load. *)
Definition served (session : option string) (config : SystemHealthConfig) (probes : Probes) (now : Z) (d : Database) :
    SystemPageEvent :=
  HealthAnswers (Ok (reportResponse (systemHealthRoute session config probes now d))).

Lemma healthOf_served session config probes now d : Z.abs now <= maxTime →
  healthOf readOtherDate (Ok (reportResponse (systemHealthRoute session config probes now d))) =
    match session with
    | Some _ => Ok (viewOf (getSystemHealth config probes now d))
    | None => Throw (JsError "System health could not be loaded.")
    end.
Proof.
  intros Hnow. destruct session; [|done]. exact (parse_encode_health (getSystemHealth config probes now d) Hnow).
Qed.

(** The rows of a report, its summary and its counts. *)
Lemma view_agrees config probes now d : let view := viewOf (getSystemHealth config probes now d) in
  (view_healthy view = true ↔ view_database view = healthy ∧ view_queue view = healthy ∧ view_scheduler view = healthy ∧
     view_workers view = healthy ∧ view_garbageCollector view = healthy ∧ view_storage view = healthy) ∧
  (view_queue view = healthy ↔ is_Some (view_queuedJobs view)) ∧
  (view_queue view = healthy ↔ is_Some (view_runningJobs view)).
Proof.
  cbv zeta. split.
  - unfold getSystemHealth. simpl. rewrite !andb_true_iff, !bool_decide_eq_true. tauto.
  - unfold getSystemHealth, getQueueHealth. simpl. destruct (countQueries probes); simpl.
    + by split; split; eauto.
    + split; split; (discriminate || by intros [? ?]).
Qed.

(** C16: the system page: one load is in flight while the page is loading,
    and none otherwise, so an answer never replaces a later one. An answered
    load shows the report of the server, every state and count of it with the
    time it was taken at, or the error when nobody is signed in; until then
    the last report stays. What is shown agrees with itself: the
    summary says healthy exactly when every row does and the queue can be
    counted. *)
Theorem system_page_spec events session config probes now d : Z.abs now <= maxTime →
  let p := systemPageRun events in
  let refreshed := systemPageRun (events ++ [ClicksRefresh]) in
  let answered := systemPageRun (events ++ [served session config probes now d]) in
  (health_requests p <= 1)%nat ∧ (health_requests p = 1%nat ↔ health_load p = load_loading) ∧
  shownHealth refreshed = shownHealth p ∧ health_load refreshed = load_loading ∧
  (health_load p ≠ load_loading → answered = p) ∧
  (health_load p = load_loading →
     match session with
     | None => answered = {| shownHealth := None; health_load := load_error; health_requests := 0 |}
     | Some _ => ∃ view, view = viewOf (getSystemHealth config probes now d) ∧
         answered = {| shownHealth := Some view; health_load := load_ready; health_requests := 0 |} ∧
         parseInstant (view_checkedAt view) = Some now ∧
         (view_healthy view = true ↔ view_database view = healthy ∧ view_queue view = healthy ∧ view_scheduler view = healthy ∧
            view_workers view = healthy ∧ view_garbageCollector view = healthy ∧ view_storage view = healthy) ∧
         (view_queue view = healthy ↔ is_Some (view_queuedJobs view)) ∧
         (view_queue view = healthy ↔ is_Some (view_runningJobs view))
     end).
Proof.
  intros Hnow p refreshed answered. pose proof (systemPage_requests events) as Hr. cbv zeta in Hr. fold p in Hr.
  assert (refreshed = systemPageStep readOtherDate ClicksRefresh p) as Href by (unfold refreshed, systemPageRun; by rewrite foldl_app).
  assert (answered = systemPageStep readOtherDate (served session config probes now d) p) as Hans
    by (unfold answered, systemPageRun; by rewrite foldl_app).
  rewrite Href, Hans. clear Href Hans refreshed answered.
  unfold systemPageStep, served. rewrite healthOf_served by done.
  destruct (decide (health_load p = load_loading)) as [Hl|Hl]; rewrite Hr; split_and!; try lia; try done.
  intros _. destruct session as [owner|]; [|done]. eexists. split; [done|]. split; [done|].
  split; [by apply parseInstant_toISOString|apply view_agrees].
Qed.
End system.

(** ** The settings page *)

Definition asksDays (n : Z) : Json := JObject [("runLogRetentionDays", JNumber (NInt n))].

(** Only a page that shows the form saves, and its load is over. *)
Definition settings_inv (p : SettingsPage) : Prop :=
  (savingRequest p ≠ None → formShown p = true) ∧ (formShown p = true → loadPending p = false ∧ page_load p = load_ready).

Lemma update_manages session value now d v d' :
  updateRunLogRetention session value now d = (Ok v, d') → canManageGlobalSettings v = true.
Proof.
  unfold updateRunLogRetention. intros (days & d1 & _ & Hm)%bind_ok. destruct (negb _); [done|].
  apply bind_ok in Hm as (? & ? & _ & [<- _]%ret_ok). done.
Qed.

Lemma settingsStep_inv e st : settings_inv st.1 → settings_inv (settingsStep e st).1.
Proof.
  destruct st as [p d]. unfold settings_inv. simpl. intros [Hsave Hform]. destruct e as [session|text| |session lost now| |f]; simpl.
  - destruct (loadPending p) eqn:Hpending; simpl; [|naive_solver]. assert (formShown p = false) as Hno by (destruct (formShown p); naive_solver).
    rewrite Hno in Hsave. destruct (getGlobalSettings session d).1 as [v|e]; unfold formShown; simpl; naive_solver.
  - destruct (formShown p) eqn:E; simpl; [|naive_solver]. unfold formShown in *. simpl. rewrite E. naive_solver.
  - destruct (formShown p) eqn:E; simpl; [|naive_solver]. case_bool_decide; simpl; unfold formShown in *; simpl; rewrite ?E; naive_solver.
  - destruct (savingRequest p) eqn:Es; simpl; [|by rewrite Es]. destruct Hform as [? ?]; [by apply Hsave|].
    destruct (updateRunLogRetention session _ now d) as [[v|x] d'] eqn:Hu; destruct lost; simpl; split; try done.
  - destruct (savingRequest p) eqn:Es; simpl; [|by rewrite Es]. destruct Hform as [? ?]; [by apply Hsave|]. by split.
  - done.
Qed.

Lemma settingsRun_inv events d : settings_inv (settingsRun events (openedSettingsPage, d)).1.
Proof.
  unfold settingsRun. induction events as [|e events IH] using rev_ind; [done|].
  rewrite foldl_app. cbn [foldl]. by apply settingsStep_inv.
Qed.

(** A save that is served, of the text the form has. *)
Lemma save_served p d session lost now : formShown p = true → savingRequest p = None →
  settingsRun [SubmitsDays; SaveServed session lost now] (p, d) =
    let '(r, d') := updateRunLogRetention session (JObject [("runLogRetentionDays", JNumber (Number (retentionDays p)))]) now d in
    (retentionSaved (if lost then Throw lostAnswer else r) (saveRetention p), d').
Proof. intros Hform Hsave. unfold settingsRun. simpl. rewrite Hform, bool_decide_true by done. done. Qed.

Definition wholeDays (text : string) (n : Z) : Prop := Number text = NInt n ∧ 1 <= n.

Lemma asks_wholeDays text n : asks (JObject [("runLogRetentionDays", JNumber (Number text))]) n ↔ wholeDays text n.
Proof.
  assert (get_field [("runLogRetentionDays", JNumber (Number text))] "runLogRetentionDays" = Some (JNumber (Number text))) as Hget by done.
  unfold asks, wholeDays. split.
  - intros (fields & [= <-] & Hf & Hn). rewrite Hget in Hf. by injection Hf.
  - intros [Ht Hn]. eexists. split; [done|]. by rewrite Hget, Ht.
Qed.

(** The settings page, after any history: only a page that shows the
    form, for an administrator, saves, one request at a time, and its load is
    over by then, so no late answer overwrites what is typed. A save by an
    administrator of a text that is a whole number of days from 1 is shown
    as saved, with the text of that number, and everybody reads that number
    from then on; any other save is shown as an error, with the text as it
    was typed, and the store is unchanged. When the answer is lost on its way
    the page reports an error and shows the old period, though it was
    replaced. Saving a page that shows the stored period, up to [2^53] days,
    stores it again. *)
Theorem settings_page_spec events d0 text session now :
  let '(p, d) := settingsRun events (openedSettingsPage, d0) in
  let save lost := settingsRun [TypesDays text; SubmitsDays; SaveServed session lost now] (p, d) in
  let page := (save false).1 in let store := (save false).2 in
  (savingRequest p ≠ None → formShown p = true) ∧
  (formShown p = true → loadPending p = false) ∧
  (formShown p = true → savingRequest p = None →
     savingRequest page = None ∧
     (∀ n, is_admin session → wholeDays text n →
        page_saveState page = save_saved ∧ retentionDays page = numberToString (NInt n) ∧
        page_settings page = Some {| canManageGlobalSettings := true; runLogRetentionDays := NInt n |} ∧
        ∀ reader, getGlobalSettings (Some reader) store =
          (Ok {| canManageGlobalSettings := session_isAdmin reader; runLogRetentionDays := NInt n |}, store)) ∧
     (¬ (is_admin session ∧ ∃ n, wholeDays text n) →
        page_saveState page = save_error ∧ retentionDays page = text ∧ page_settings page = page_settings p ∧ store = d) ∧
     (page_saveState (save true).1 = save_error ∧ page_settings (save true).1 = page_settings p ∧ (save true).2 = store) ∧
     (∀ n, is_admin session → 1 <= n <= 2 ^ 53 → text = numberToString (NInt n) → getRunLogRetentionDays d = (Ok n, d) →
        retentionDays page = text ∧ getRunLogRetentionDays store = (Ok n, store))).
Proof.
  pose proof (settingsRun_inv events d0) as Hinv. destruct (settingsRun events (openedSettingsPage, d0)) as [p d].
  destruct Hinv as [Hsave Hform]. simpl in Hsave, Hform. cbv zeta. split; [done|]. split; [intros H; by apply Hform in H as [? _]|]. intros Hf Hs.
  assert (∀ lost, settingsRun [TypesDays text; SubmitsDays; SaveServed session lost now] (p, d) =
    settingsRun [SubmitsDays; SaveServed session lost now] (typeDays text p, d)) as Htype by (intros lost; unfold settingsRun; simpl; by rewrite Hf).
  rewrite !Htype, !save_served by done. clear Htype Hsave Hform.
  change (retentionDays (typeDays text p)) with text.
  set (update := updateRunLogRetention _ _ _ _).
  assert (∀ n, is_admin session → wholeDays text n → ∃ d', update = (Ok {| canManageGlobalSettings := true; runLogRetentionDays := NInt n |}, d') ∧
    getRunLogRetentionDays d' = (Ok n, d')) as Hok.
  { intros n Hadmin Hn%asks_wholeDays. destruct (retention_accepted session _ now d n Hadmin Hn) as (l & Hu & Hget).
    exists (set_settings l d). split; [exact Hu|]. by apply Hget. }
  assert (¬ (is_admin session ∧ ∃ n, wholeDays text n) → ∃ e, update = (Throw e, d)) as Hno.
  { intros Hno. apply retention_refused. intros [Hadmin [n Hn%asks_wholeDays]]. apply Hno. eauto. }
  split; [by destruct update as [[]]|]. split; [|split; [|split]].
  - intros n Hadmin Hn. destruct (Hok n Hadmin Hn) as (d' & -> & Hget). split_and!; [done..|]. intros reader.
    unfold getGlobalSettings. simpl. by rewrite bind_run, Hget.
  - intros [e ->]%Hno. done.
  - by destruct update as [r d'].
  - intros n Hadmin Hn -> Hd. destruct (Hok n Hadmin) as (d' & -> & Hget); [split; [apply Number_String|]; lia|done].
Qed.

(** ** The first-run page *)

Section welcome.
Context `{!Uuids, !PasswordHashing, !PasswordVerification}.

(** A call is in flight only while the page is submitting. *)
Lemma welcome_inv events st : (setupRequest st.1 ≠ None → w_submitting st.1 = true) →
  setupRequest (welcomeRun events st).1 ≠ None → w_submitting (welcomeRun events st).1 = true.
Proof.
  intros Hst. unfold welcomeRun. induction events as [|e events IH] using rev_ind; [done|].
  rewrite foldl_app. cbn [foldl]. destruct (foldl _ st events) as [p s]. simpl in IH.
  destruct e as [text|text|text| |session salt now]; simpl; try exact IH.
  - destruct (w_submitting p) eqn:E; simpl; [by rewrite E|]. unfold submitSetup. case_decide; simpl; [|done]. naive_solver.
  - destruct (setupRequest p) as [[email password]|] eqn:E; simpl; [|naive_solver].
    by destruct (completeAdminSetup session email password salt now s) as [[[|reason]|x] s'].
Qed.

(** A setup that is submitted and served. *)
Lemma submit_served p session salt now s : w_submitting p = false → setupRequest p = None →
  welcomeRun [SubmitsSetup; SetupServed (Some session) salt now] (p, s) =
    if decide (w_password p = w_confirmation p) then
      let '(r, s') := completeAdminSetup (Some session) (w_email p) (w_password p) salt now s in
      (setupAnswered r (submitSetup p), s')
    else (submitSetup p, s).
Proof.
  intros Hp Hr. unfold welcomeRun. cbn [foldl welcomeStep]. rewrite Hp. unfold submitSetup.
  destruct (decide (w_password p = w_confirmation p)) as [Heq|Hne].
  - by rewrite decide_False by (intros Hc; by apply Hc).
  - rewrite decide_True by done. simpl. by rewrite Hr.
Qed.

Lemma completed_admits email password userId now s s' u href :
  setup_completed email password userId now s s' → u ∈ users (tables s') → u_id u = userId →
  requireSession (Some (sessionOf u)) href = inr (sessionOf u) ∧ requireInitialSetup (Some (sessionOf u)) href = inl to_home ∧
  u_email u = address email.
Proof.
  intros [Hu _ _ _] Hin Hid. rewrite Hu in Hin. apply list_elem_of_fmap in Hin as (v & -> & Hv).
  unfold updateIf in *. case_decide; [|done]. done.
Qed.

(** The first-run page, whatever was typed before: a submission is
    refused in the browser when the confirmation differs, and by the server
    for the first of its reasons, each shown as its message; nothing changes
    and nothing that was typed is lost. Otherwise the page leads home: the
    account has the address and the password that were typed, and no other
    password, and its session passes the guard of every page while the
    first-run page turns it away. *)
Theorem welcome_page_spec events session salt now s0 :
  let '(p, s) := welcomeRun events (openedWelcomePage session, s0) in
  let '(q, s') := welcomeRun [SubmitsSetup; SetupServed (Some session) salt now] (p, s) in
  let user := session_id session in
  let shows key := errorKey q = Some key ∧ w_submitting q = false ∧ w_left q = w_left p ∧ s' = s in
  let valid := isValidAdminEmail (address (w_email p)) = true in
  let pending := Exists (isPending user) (users (tables s)) in
  let taken := Exists (λ u, u_email u = address (w_email p) ∧ u_id u ≠ user) (users (tables s)) in
  let password := w_password p in
  w_submitting p = false → session_requiresPasswordChange session = true →
  users_keyed s → uuid (nextId (tables s)) ∉ ac_id <$> accounts s →
  (w_email q, w_password q, w_confirmation q) = (w_email p, w_password p, w_confirmation p) ∧
  (password ≠ w_confirmation p → shows "welcome.error.mismatch") ∧
  (password = w_confirmation p →
     (¬ valid → shows "welcome.error.invalidEmail") ∧
     (valid → password = DEFAULT_ADMIN_PASSWORD → shows "welcome.error.reusedDefault") ∧
     (valid → password ≠ DEFAULT_ADMIN_PASSWORD → ¬ strong password → shows "welcome.error.weakPassword") ∧
     (valid → strong password → ¬ pending → shows "welcome.error.alreadyCompleted") ∧
     (valid → strong password → pending → taken → shows "welcome.error.emailInUse") ∧
     (valid → strong password → pending → ¬ taken →
        w_left q = true ∧ errorKey q = None ∧ w_submitting q = false ∧ setup_completed (w_email p) password user now s s' ∧
        ∀ u href, u ∈ users (tables s') → u_id u = user → u_email u = address (w_email p) ∧
          requireSession (Some (sessionOf u)) href = inr (sessionOf u) ∧
          requireInitialSetup (Some (sessionOf u)) href = inl to_home)).
Proof.
  pose proof (welcome_inv events (openedWelcomePage session, s0)) as Hinv. simpl in Hinv.
  destruct (welcomeRun events (openedWelcomePage session, s0)) as [p s]. simpl in Hinv.
  destruct (welcomeRun _ (p, s)) as [q s'] eqn:E. cbv zeta. intros Hp Hreq Hk Hid.
  rewrite submit_served in E; [|done|destruct (setupRequest p); [|done]; rewrite Hp in Hinv; by discriminate Hinv].
  case_decide as Heq; cycle 1.
  { injection E as <- <-. unfold submitSetup. rewrite decide_True by done. by split_and!. }
  pose proof (completeAdminSetup_spec session (w_email p) (w_password p) salt now s Hk Hid) as Hspec. cbv zeta in Hspec.
  destruct (completeAdminSetup (Some session) (w_email p) (w_password p) salt now s) as [r s1] eqn:Er.
  injection E as <- <-. unfold submitSetup. rewrite decide_False by (intros Hc; by apply Hc).
  destruct Hspec as (_ & _ & Hinvalid & Hreused & Hweak & Hdone & Htaken & Hok).
  assert (∀ reason, (r, s1) = (Ok (setup_refused reason), s) →
    errorKey (setupAnswered r (withSubmission true (Some (w_email p, w_password p)) None (w_left p) p)) = Some (rejectionMessageKey reason) ∧
    w_submitting (setupAnswered r (withSubmission true (Some (w_email p, w_password p)) None (w_left p) p)) = false ∧
    w_left (setupAnswered r (withSubmission true (Some (w_email p, w_password p)) None (w_left p) p)) = w_left p ∧ s1 = s) as Hshow
    by (by intros reason [= -> ->]).
  split; [by destruct r as [[|reason]|x]|]. split; [done|]. intros _.
  split; [intros; apply (Hshow (Some invalid_email)); auto|]. split; [intros; apply (Hshow (Some reused_default_password)); auto|].
  split; [intros; apply (Hshow (Some weak_password)); auto|]. split; [intros; apply (Hshow (Some already_completed)); auto|].
  split; [intros; apply (Hshow (Some email_in_use)); auto|]. intros Hvalid Hstrong Hpending Hfree.
  destruct Hok as (s2 & [= -> ->] & Hs2 & _); [done..|]. split_and!; [done..|]. intros u href Hu Huid.
  destruct (completed_admits _ _ _ _ _ _ u href Hs2 Hu Huid) as (? & ? & ?). done.
Qed.
End welcome.

(** ** Sign-in *)

(** Where a sign-in leads: back to the page that asked for it, when the guard
    was given a path of this site, and otherwise home. *)
Theorem sign_in_leads_back search href :
  (String.prefix "/" href = true → String.prefix "//" href = false →
     requireSession None href = inl (to_login href) ∧
     signInAnswered (validateSearch (Some (JString href))) false = ({| login_submitting := false; login_hasError := false |}, Some href)) ∧
  (∃ target, (signInAnswered (validateSearch search) false).2 = Some target ∧
     String.prefix "/" target = true ∧ String.prefix "//" target = false) ∧
  signInAnswered (validateSearch search) true = ({| login_submitting := false; login_hasError := true |}, None).
Proof.
  split; [|split; [|done]].
  - intros H1 H2. unfold validateSearch. by rewrite H1, H2.
  - unfold validateSearch. destruct search as [[| | |text| |]|]; try (by exists "/").
    destruct (String.prefix "/" text) eqn:E1, (String.prefix "//" text) eqn:E2; simpl; by eexists.
Qed.

(** ** Preferences *)

(** A supported locale resolves to itself, whatever else resolves to a
    supported one, save the names every object has. *)
Theorem resolveLocale_spec requested :
  (requested ∈ supportedLocales → resolveLocale (Some requested) = requested) ∧
  (requested ∉ inheritedNames → resolveLocale (Some requested) ∈ supportedLocales) ∧
  (requested ∈ inheritedNames → resolveLocale (Some requested) = requested ∧ requested ∉ supportedLocales) ∧
  resolveLocale None = DEFAULT_LOCALE.
Proof.
  unfold resolveLocale. split_and!; [| | |done].
  - intros Hin. rewrite decide_True; [done|]. set_solver.
  - intros Hno. case_decide as Hin; [apply elem_of_app in Hin as [?|?]; done|].
    destruct (head _) as [locale|] eqn:E; simpl; [|by left].
    by apply head_elem_of, list_elem_of_filter in E as [_ ?].
  - intros Hin. rewrite decide_True by set_solver. split; [done|]. intros Hs.
    unfold supportedLocales, inheritedNames in *. set_solver.
Qed.

(** What was chosen last is what the next page shows, whatever the browser
    prefers. *)
Theorem preferences_outlive_the_page locale theme st languages language :
  locale ∈ supportedLocales →
  let chosen := setTheme theme (setLocale locale st) in
  (mountProviders languages language chosen.1).2 = {| shownLocale := locale; documentLang := locale; shownTheme := theme |} ∧
  mountProviders languages language chosen.1 = chosen.
Proof.
  intros Hin. destruct (resolveLocale_spec locale) as [Hr _]. specialize (Hr Hin).
  unfold mountProviders, setTheme, setLocale, applyPreferences. cbn -[resolveLocale]. rewrite Hr. by destruct theme.
Qed.
