(* ===== verification/BuilderProofs.v ===== *)
(** * The wizard only builds pipelines

    The drafts the editing operations of the pipeline builder can produce are
    well formed; a saved draft reads back as itself. *)

From S2P Require Import Prelude Js Contracts Schemas Compatibility Topology Graph BuilderDraft.
From S2P Require Import Database Integrity Repository RepositoryProofs.

(** ** Well-formed drafts *)

Definition plain_id (id : string) : Prop := id ≠ "" ∧ has_char ":" id = false.

Definition ids (draft : PipelineBuilderDraft) : list string := selection_id <$> selections draft.

Definition of_kind (kind : ComponentKind.t) (s : Selection) : Prop := meta_kind (metadata s) = kind.

Record draft_wf (draft : PipelineBuilderDraft) : Prop := {
  wf_source : Forall (of_kind ComponentKind.source) (option_list (draft_source draft));
  wf_transforms : Forall (of_kind ComponentKind.transform) (transforms draft);
  wf_export : Forall (of_kind ComponentKind.export) (option_list (draft_export draft));
  wf_ids : NoDup (ids draft);
  wf_plain : Forall plain_id (ids draft) }.

(** What the wizard and the editor do to a draft: the pickers offer the
    components of their stage, and [crypto.randomUUID()] gives an identifier
    that is not used yet. *)
Definition fresh (draft : PipelineBuilderDraft) (newId : string) : Prop :=
  plain_id newId ∧ newId ∉ ids draft.

Inductive edit (draft : PipelineBuilderDraft) : PipelineBuilderDraft → Prop :=
  | edit_name name : edit draft (updatePipelineBuilderDraft draft (changing_name name))
  | edit_source m newId :
      meta_kind m = ComponentKind.source → fresh draft newId →
      edit draft (setPipelineBuilderSource draft m newId)
  | edit_source_values v : edit draft (setPipelineBuilderSourceValues draft v)
  | edit_export m newId :
      meta_kind m = ComponentKind.export → fresh draft newId →
      edit draft (setPipelineBuilderExport draft m newId)
  | edit_export_values v : edit draft (setPipelineBuilderExportValues draft v)
  | edit_add m newId :
      meta_kind m = ComponentKind.transform → fresh draft newId →
      edit draft (addPipelineBuilderTransform draft m newId)
  | edit_transform_values id v : edit draft (setPipelineBuilderTransformValues draft id v)
  | edit_remove id : edit draft (removePipelineBuilderTransform draft id)
  | edit_move id direction : edit draft (movePipelineBuilderTransform draft id direction)
  | edit_saved : edit draft (markPipelineBuilderDraftSaved draft).

Lemma omap_id_fmap {A} (l : list A) : omap id (Some <$> l) = l.
Proof. induction l as [|x l IH]; csimpl; [done|by rewrite IH]. Qed.

Lemma elem_of_option_list {A} (x : A) o : x ∈ option_list o ↔ o = Some x.
Proof. destruct o; cbn; [rewrite list_elem_of_singleton|rewrite elem_of_nil]; naive_solver. Qed.

Lemma selections_eq draft :
  selections draft = option_list (draft_source draft) ++ transforms draft ++ option_list (draft_export draft).
Proof.
  unfold selections. rewrite !omap_app, omap_id_fmap.
  by destruct (draft_source draft), (draft_export draft).
Qed.

Lemma ids_eq draft :
  ids draft = (selection_id <$> option_list (draft_source draft)) ++
              (selection_id <$> transforms draft) ++ (selection_id <$> option_list (draft_export draft)).
Proof. unfold ids. by rewrite selections_eq, !fmap_app. Qed.

(** Changing one slot, or only the order of the transforms. *)
Lemma wf_change draft draft' :
  draft_wf draft →
  Forall (of_kind ComponentKind.source) (option_list (draft_source draft')) →
  Forall (of_kind ComponentKind.transform) (transforms draft') →
  Forall (of_kind ComponentKind.export) (option_list (draft_export draft')) →
  (NoDup (ids draft) → Forall plain_id (ids draft) → NoDup (ids draft') ∧ Forall plain_id (ids draft')) →
  draft_wf draft'.
Proof. intros [] ??? H. destruct H; try done. Qed.

Lemma move_permutation draft id direction :
  let draft' := movePipelineBuilderTransform draft id direction in
  draft_source draft' = draft_source draft ∧ draft_export draft' = draft_export draft ∧
  transforms draft' ≡ₚ transforms draft.
Proof.
  cbv zeta. unfold movePipelineBuilderTransform.
  destruct (fst <$> _) as [i|]; [|done]. case_decide as Hd; [done|].
  set (j := Z.to_nat _). assert (i ≠ j) as Hij by (unfold j; destruct direction; lia). clearbody j.
  destruct (transforms draft !! i) as [a|] eqn:Ha; [|done].
  destruct (transforms draft !! j) as [b|] eqn:Hb; [|done]. simpl. split_and!; [done..|].
  etransitivity; [|by apply (Permutation_insert_swap (transforms draft) j i b a)].
  match goal with |- ?a ≡ₚ ?b => assert (a = b) as ->; [|done] end. apply list_eq. intros k. rewrite list_lookup_imap.
  assert (i < length (transforms draft)) by (by eapply lookup_lt_Some).
  assert (j < length (transforms draft)) by (by eapply lookup_lt_Some).
  rewrite list_lookup_insert, list_lookup_insert. repeat case_decide; simplify_eq/=; try lia;
    rewrite ?Ha, ?Hb; try done; [|by rewrite option_fmap_id].
  rewrite length_insert in *. naive_solver.
Qed.

Lemma next_selection kind current m newId :
  meta_kind m = kind →
  of_kind kind (nextPipelineBuilderComponentSelection current m newId) ∧
  selection_id (nextPipelineBuilderComponentSelection current m newId) =
    default newId (selection_id <$> current).
Proof.
  intros Hm. unfold nextPipelineBuilderComponentSelection. destruct current; [case_decide|]; done.
Qed.

Lemma Forall_of_sublist {A} (P : A → Prop) l l' : l `sublist_of` l' → Forall P l' → Forall P l.
Proof. rewrite !Forall_forall. intros Hl H x Hx. by eapply H, elem_of_submseteq, sublist_submseteq. Qed.

(** A slot is filled with a new identifier or keeps the one it has. *)
Lemma ids_added draft draft' newId : ids draft' ≡ₚ newId :: ids draft → plain_id newId → newId ∉ ids draft →
  NoDup (ids draft) → Forall plain_id (ids draft) → NoDup (ids draft') ∧ Forall plain_id (ids draft').
Proof. intros -> Hp Hf. by rewrite Forall_cons, NoDup_cons. Qed.

Lemma setSource_wf draft m newId : draft_wf draft → meta_kind m = ComponentKind.source → plain_id newId → newId ∉ ids draft →
  draft_wf (setPipelineBuilderSource draft m newId).
Proof.
  intros Hwf Hm Hp Hf. pose proof Hwf as [Hs Ht He _ _]. destruct (next_selection _ (draft_source draft) m newId Hm) as [Hk Hid].
  apply (wf_change draft); simpl; [done|by repeat constructor|done..|].
  destruct (draft_source draft) as [s|] eqn:Es; [by rewrite !ids_eq; simpl; rewrite Es, Hid|].
  apply (ids_added _ _ newId); [|done..]. rewrite !ids_eq. simpl. by rewrite Es, Hid.
Qed.

Lemma setExport_wf draft m newId : draft_wf draft → meta_kind m = ComponentKind.export → plain_id newId → newId ∉ ids draft →
  draft_wf (setPipelineBuilderExport draft m newId).
Proof.
  intros Hwf Hm Hp Hf. pose proof Hwf as [Hs Ht He _ _]. destruct (next_selection _ (draft_export draft) m newId Hm) as [Hk Hid].
  apply (wf_change draft); simpl; [done..|by repeat constructor|].
  destruct (draft_export draft) as [s|] eqn:Es; [by rewrite !ids_eq; simpl; rewrite Es, Hid|].
  apply (ids_added _ _ newId); [|done..]. rewrite !ids_eq. simpl. rewrite Es, Hid. simpl. rewrite app_nil_r. solve_Permutation.
Qed.

Lemma addTransform_wf draft m newId : draft_wf draft → meta_kind m = ComponentKind.transform → plain_id newId → newId ∉ ids draft →
  draft_wf (addPipelineBuilderTransform draft m newId).
Proof.
  intros Hwf Hm Hp Hf. pose proof Hwf as [Hs Ht He _ _].
  apply (wf_change draft); simpl; [done..|by apply Forall_app; repeat constructor|done|].
  apply (ids_added _ _ newId); [|done..]. rewrite !ids_eq. simpl. rewrite fmap_app. simpl. solve_Permutation.
Qed.

Lemma removeTransform_wf draft id : draft_wf draft → draft_wf (removePipelineBuilderTransform draft id).
Proof.
  intros Hwf. pose proof Hwf as [Hs Ht He _ _].
  apply (wf_change draft); simpl; [done..|by eapply Forall_of_sublist, Ht; apply sublist_filter|done|].
  assert (ids (removePipelineBuilderTransform draft id) `sublist_of` ids draft) as Hsub.
  { rewrite !ids_eq. apply sublist_app; [done|]. apply sublist_app; [|done]. apply fmap_sublist, sublist_filter. }
  intros Hn Hpl. split; [by eapply sublist_NoDup|by eapply Forall_of_sublist].
Qed.

Lemma edit_wf draft draft' : draft_wf draft → edit draft draft' → draft_wf draft'.
Proof.
  intros Hwf Hedit. pose proof Hwf as [Hs Ht He _ _].
  destruct Hedit as [name|m newId Hm [Hp Hf]|v|m newId Hm [Hp Hf]|v|m newId Hm [Hp Hf]|id v|id|id dir|].
  - by apply (wf_change draft).
  - by apply setSource_wf.
  - unfold setPipelineBuilderSourceValues.
    destruct (draft_source draft) as [s|] eqn:Es; [|done].
    cbn in Hs. rewrite Forall_singleton in Hs.
    apply (wf_change draft); simpl; [done|by rewrite Forall_singleton|done..|]. by rewrite !ids_eq, Es.
  - by apply setExport_wf.
  - unfold setPipelineBuilderExportValues.
    destruct (draft_export draft) as [s|] eqn:Es; [|done].
    cbn in He. rewrite Forall_singleton in He.
    apply (wf_change draft); simpl; [done..|by rewrite Forall_singleton|]. by rewrite !ids_eq, Es.
  - by apply addTransform_wf.
  - apply (wf_change draft); simpl; [done..| |done|].
    + apply Forall_fmap. eapply Forall_impl; [done|]. intros s ?; simpl. by case_decide.
    + rewrite !ids_eq. simpl. rewrite <-list_fmap_compose.
      erewrite (list_fmap_ext (selection_id ∘ _) selection_id (transforms draft)); [done|].
      intros ? s _. simpl. by case_decide.
  - by apply removeTransform_wf.
  - destruct (move_permutation draft id dir) as (Hsrc & Hexp & Htr).
    apply (wf_change draft); rewrite ?Hsrc, ?Hexp, ?Htr; try done.
    assert (ids (movePipelineBuilderTransform draft id dir) ≡ₚ ids draft) as Hids.
    { rewrite !ids_eq, Hsrc, Hexp. by rewrite Htr. }
    by rewrite Hids.
  - by apply (wf_change draft).
Qed.

Lemma empty_wf : draft_wf createEmptyPipelineBuilderDraft.
Proof. split; repeat constructor. Qed.

Lemma edited_wf draft draft' : draft_wf draft → rtc edit draft draft' → draft_wf draft'.
Proof. intros Hwf Hr. induction Hr; [done|]. by eauto using edit_wf. Qed.

(** ** The graph of a chain *)

Section chain.
Context (l : list PipelineStep) (Hnd : NoDup (step_id <$> l)).
Let edge (x y : string) : Prop :=
  ∃ e, e ∈ derivePipelineBuilderEdges l ∧ fromStepId e = x ∧ toStepId e = y.

Lemma elem_of_derived e :
  e ∈ derivePipelineBuilderEdges l ↔
  ∃ i u v, l !! i = Some u ∧ l !! S i = Some v ∧ fromStepId e = step_id u ∧ toStepId e = step_id v.
Proof.
  unfold derivePipelineBuilderEdges. rewrite list_elem_of_lookup. split.
  - intros (i & (u & v & -> & Hu & Hv)%lookup_zip_with_Some). rewrite lookup_tail in Hv. by exists i, u, v.
  - intros (i & u & v & Hu & Hv & Hf & Ht). exists i. apply lookup_zip_with_Some.
    exists u, v. rewrite lookup_tail. split_and!; try done. destruct e. by simplify_eq/=.
Qed.

Lemma derived_edge x y :
  edge x y ↔ ∃ i u v, l !! i = Some u ∧ l !! S i = Some v ∧ x = step_id u ∧ y = step_id v.
Proof.
  unfold edge. setoid_rewrite elem_of_derived. split.
  - intros (e & (i & u & v & ? & ? & ? & ?) & <- & <-). by exists i, u, v.
  - intros (i & u & v & ? & ? & -> & ->).
    exists {| fromStepId := step_id u; toStepId := step_id v |}. split; [by exists i, u, v|done].
Qed.

Lemma same_position i j u v : l !! i = Some u → l !! j = Some v → step_id u = step_id v → i = j.
Proof.
  intros Hu Hv Heq. eapply (NoDup_lookup _ _ _ (step_id u) Hnd); rewrite list_lookup_fmap, ?Hu, ?Hv; simpl;
    congruence.
Qed.

Lemma chain_reaches i j u v : l !! i = Some u → l !! j = Some v → i ≤ j → rtc edge (step_id u) (step_id v).
Proof.
  intros Hu Hv. revert v Hv. induction j as [|j IH]; intros v Hv Hij.
  - assert (i = 0) as -> by lia. by simplify_eq.
  - destruct (decide (i = S j)) as [->|]; [by simplify_eq|].
    destruct (lookup_lt_is_Some_2 l j) as [w Hw]; [apply lookup_lt_Some in Hv; lia|].
    eapply rtc_r; [apply (IH w Hw); lia|]. apply derived_edge. by exists j, w, v.
Qed.

Lemma chain_forwards x y :
  tc edge x y → ∃ i j u v, l !! i = Some u ∧ l !! j = Some v ∧ x = step_id u ∧ y = step_id v ∧ i < j.
Proof.
  induction 1 as [x y (i & u & v & ? & ? & -> & ->)%derived_edge
                 |x y z (i & u & v & Hi & Hv & -> & ->)%derived_edge _ (i' & j & v' & w & Hv' & ? & Heq & -> & ?)].
  - exists i, (S i), u, v. split_and!; try done. lia.
  - pose proof (same_position _ _ _ _ Hv Hv' Heq). exists i, j, u, w. split_and!; try done. lia.
Qed.

Lemma chain_acyclic x : ¬ tc edge x x.
Proof.
  intros (i & j & u & v & Hu & Hv & -> & Heq & ?)%chain_forwards.
  pose proof (same_position _ _ _ _ Hu Hv Heq). lia.
Qed.
End chain.

Lemma derived_cons u v l :
  derivePipelineBuilderEdges (u :: v :: l) =
  {| fromStepId := step_id u; toStepId := step_id v |} :: derivePipelineBuilderEdges (v :: l).
Proof. done. Qed.

(** The edges leave the steps in order, all but the last, and enter them in
    order, all but the first. *)
Lemma derived_from l : fromStepId <$> derivePipelineBuilderEdges l `sublist_of` step_id <$> l.
Proof.
  induction l as [|u [|v l] IH]; [constructor|repeat constructor|].
  rewrite derived_cons. csimpl in *. by apply sublist_skip.
Qed.

Lemma derived_to l : toStepId <$> derivePipelineBuilderEdges l = tail (step_id <$> l).
Proof.
  induction l as [|u [|v l] IH]; [done..|].
  rewrite derived_cons. csimpl in *. by rewrite IH.
Qed.

Lemma derived_NoDup l : NoDup (step_id <$> l) → NoDup (derivePipelineBuilderEdges l).
Proof. intros Hnd. eapply NoDup_fmap_1, sublist_NoDup, derived_from. done. Qed.

(** ** A complete draft stands for a valid graph *)

Section complete.
Context (draft : PipelineBuilderDraft) (Hwf : draft_wf draft).
Let l := derivePipelineBuilderSteps draft.

Lemma derived_ids : step_id <$> l = ids draft.
Proof. unfold l, derivePipelineBuilderSteps, ids. by rewrite <-list_fmap_compose. Qed.

Lemma draft_plain_ids : plain_ids (createPipelineCreateRequestFromDraft draft).
Proof.
  intros step Hstep. apply (proj1 (Forall_forall plain_id (ids draft)) (wf_plain _ Hwf)).
  rewrite <-derived_ids. by apply list_elem_of_fmap_2.
Qed.

(** A step of a kind comes from the slot of that kind. *)
Lemma elem_of_derived_steps step :
  step ∈ l ↔ ∃ s, step = pipelineStepFromSelection s ∧
    ((draft_source draft = Some s ∧ of_kind ComponentKind.source s) ∨
     (s ∈ transforms draft ∧ of_kind ComponentKind.transform s) ∨
     (draft_export draft = Some s ∧ of_kind ComponentKind.export s)).
Proof.
  destruct Hwf as [Hs Ht He _ _]. rewrite Forall_forall in Hs, Ht, He.
  unfold l, derivePipelineBuilderSteps. rewrite selections_eq, list_elem_of_fmap.
  setoid_rewrite elem_of_app. setoid_rewrite elem_of_app.
  setoid_rewrite elem_of_option_list in Hs. setoid_rewrite elem_of_option_list in He.
  setoid_rewrite elem_of_option_list. naive_solver.
Qed.

Lemma only_complete_valid :
  valid_graph (createPipelineCreateRequestFromDraft draft) → isPipelineBuilderDraftComplete draft = true.
Proof.
  intros [Hne _ _ _ Hconn _]. destruct (nonempty_elem _ Hne) as [x Hx].
  destruct (Hconn x Hx) as (s & t & Hs & Ht & Hks & Hkt & _).
  apply elem_of_derived_steps in Hs as (s' & -> & Hs), Ht as (t' & -> & Ht).
  unfold of_kind in *. simpl in *. unfold isPipelineBuilderDraftComplete.
  rewrite andb_true_iff, !bool_decide_eq_true. split.
  - destruct Hs as [[-> _]|[[_ ?]|[_ ?]]]; [by eexists|congruence..].
  - destruct Ht as [[_ ?]|[[_ ?]|[-> _]]]; [congruence..|by eexists].
Qed.

Context (s e : Selection) (Hs : draft_source draft = Some s) (He : draft_export draft = Some e).

Lemma complete_steps :
  l = pipelineStepFromSelection s :: (pipelineStepFromSelection <$> transforms draft) ++
        [pipelineStepFromSelection e].
Proof.
  unfold l, derivePipelineBuilderSteps. by rewrite selections_eq, Hs, He, !fmap_app.
Qed.

Let n := length (transforms draft).

Lemma slot_position i step :
  l !! i = Some step →
  i ≤ S n ∧ (step_kind step = ComponentKind.source → i = 0) ∧ (step_kind step = ComponentKind.export → i = S n).
Proof.
  rewrite complete_steps. destruct Hwf as [Hks Hkt Hke _ _]. unfold n.
  rewrite Hs, He in *. cbn in Hks, Hke. rewrite Forall_singleton in Hks, Hke. unfold of_kind in *.
  destruct i as [|i]; simpl; [intros ?; simplify_eq; simpl; split_and!; [lia|done|congruence]|].
  intros [Hl|[Hlen Hl]]%lookup_app_Some.
  - pose proof (lookup_lt_Some _ _ _ Hl) as Hlt. rewrite length_fmap in Hlt.
    apply list_lookup_fmap_Some in Hl as (t & -> & Ht). simpl.
    rewrite Forall_lookup in Hkt. rewrite (Hkt _ _ Ht). split_and!; [lia|done..].
  - rewrite length_fmap in *. destruct (i - length (transforms draft)) as [|k] eqn:E; [|done].
    simplify_eq/=. split_and!; [lia|congruence|lia].
Qed.

Lemma slot_ends : l !! 0 = Some (pipelineStepFromSelection s) ∧ l !! S n = Some (pipelineStepFromSelection e).
Proof.
  rewrite complete_steps. split; [done|]. simpl.
  rewrite lookup_app_r; rewrite length_fmap; unfold n; [by rewrite Nat.sub_diag|done].
Qed.

Lemma complete_valid : valid_graph (createPipelineCreateRequestFromDraft draft).
Proof.
  pose proof (wf_ids _ Hwf) as Hnd. rewrite <-derived_ids in Hnd. destruct slot_ends as [H0 Hn].
  assert (of_kind ComponentKind.source s ∧ of_kind ComponentKind.export e) as [Hks Hke].
  { destruct Hwf as [Hks _ Hke _ _]. rewrite Hs, He in *. cbn in Hks, Hke.
    by rewrite Forall_singleton in Hks, Hke. }
  split; simpl; fold l.
  - rewrite complete_steps. done.
  - done.
  - by apply derived_NoDup.
  - intros ed (i & u & v & Hu & Hv & Hf & Ht)%elem_of_derived. exists u, v.
    destruct (slot_position _ _ Hu) as (_ & _ & Hue), (slot_position _ _ Hv) as (Hle & Hvs & _).
    split_and!; [by eapply list_elem_of_lookup_2..|done|done| |].
    + intros Hk%Hue. lia.
    + intros Hk%Hvs. lia.
  - intros step (i & Hi)%list_elem_of_lookup. destruct (slot_position _ _ Hi) as (Hle & _).
    exists (pipelineStepFromSelection s), (pipelineStepFromSelection e).
    split_and!; [by eapply list_elem_of_lookup_2..|done|done| |].
    + apply (chain_reaches l) with 0 i; [done..|lia].
    + apply (chain_reaches l) with i (S n); done.
  - intros x. by apply chain_acyclic.
Qed.
End complete.

Lemma validated_iff_complete draft :
  draft_wf draft →
  validatePipelineGraph (createPipelineCreateRequestFromDraft draft) = Ok () ↔
  isPipelineBuilderDraftComplete draft = true.
Proof.
  intros Hwf. pose proof (draft_plain_ids draft Hwf) as Hplain. split.
  - intros Hok. by apply only_complete_valid, accepted_valid.
  - unfold isPipelineBuilderDraftComplete. rewrite andb_true_iff, !bool_decide_eq_true.
    intros [[s Hs] [e He]]. apply valid_accepted; [done|]. by eapply complete_valid.
Qed.

(** C32: whatever is done in the wizard, starting from nothing, each slot
    holds components of its kind under distinct identifiers, and saving the
    draft is accepted by the graph validation exactly when the draft is
    complete: a persistable draft that is not complete yet is refused with a
    topology error. *)
Theorem builder_saves_pipelines draft :
  rtc edit createEmptyPipelineBuilderDraft draft →
  draft_wf draft ∧
  (validatePipelineGraph (createPipelineCreateRequestFromDraft draft) = Ok () ↔
   isPipelineBuilderDraftComplete draft = true) ∧
  (isPipelineBuilderDraftComplete draft = false →
   ∃ message, validatePipelineGraph (createPipelineCreateRequestFromDraft draft) =
     Throw (InvalidPipelineTopologyError message)).
Proof.
  intros Hr. pose proof (edited_wf _ _ empty_wf Hr) as Hwf.
  pose proof (validated_iff_complete draft Hwf) as Hiff. split_and!; [done|apply Hiff..|].
  intros Hno. pose proof (validate_raises _ (draft_plain_ids draft Hwf)) as Hraises.
  destruct (validatePipelineGraph _) as [[]|err]; [|by destruct Hraises as [message ->]; exists message].
  by rewrite (proj1 Hiff) in Hno.
Qed.

(** ** Reopening a saved draft *)

Lemma keyed_lookup {A} (key : A → string) (l : list A) k x :
  NoDup (key <$> l) →
  foldl (λ m x, <[key x := x]> m) (∅ : gmap string A) l !! k = Some x ↔ x ∈ l ∧ key x = k.
Proof.
  intros Hnd. split.
  - intros [?|?]%(foldl_insert_lookup key); [done|by simplify_map_eq].
  - intros [Hx <-]. destruct (proj2 (foldl_insert_dom key l ∅ (key x))) as [y Hy];
      [left; by apply list_elem_of_fmap_2|].
    rewrite Hy. apply (foldl_insert_lookup key) in Hy as [[Hin Heq]|?]; [|by simplify_map_eq].
    f_equal. by apply (NoDup_fmap_eq key l).
Qed.

Lemma keyed_fmap {A B} (key : A → string) (f : A → B) (l : list A) (m : gmap string A) :
  foldl (λ m x, <[key x := f x]> m) (f <$> m) l = f <$> foldl (λ m x, <[key x := x]> m) m l.
Proof.
  revert m. induction l as [|x l IH]; intros m; [done|]. simpl. by rewrite <-IH, fmap_insert.
Qed.

Section order.
Context (l : list PipelineStep) (Hnd : NoDup (step_id <$> l)).
Context (steps : list PipelineStep) (Hsteps : steps ≡ₚ l).
Context (edges : list PipelineEdge) (Hedges : edges ≡ₚ derivePipelineBuilderEdges l).
Let byId : gmap string PipelineStep := foldl (λ m step, <[step_id step := step]> m) ∅ steps.
Let nextId : gmap string string := foldl (λ m e, <[fromStepId e := toStepId e]> m) ∅ edges.

Lemma byId_lookup i u : l !! i = Some u → byId !! step_id u = Some u.
Proof.
  intros Hu. apply (keyed_lookup step_id); [by rewrite Hsteps|].
  split; [|done]. rewrite Hsteps. by eapply list_elem_of_lookup_2.
Qed.

Lemma nextId_lookup i u : l !! i = Some u → nextId !! step_id u = step_id <$> l !! S i.
Proof.
  intros Hu. unfold nextId. rewrite <-(fmap_empty toStepId), (keyed_fmap fromStepId toStepId), lookup_fmap.
  assert (NoDup (fromStepId <$> edges)) as Hfrom
    by (rewrite Hedges; eapply sublist_NoDup, derived_from; done).
  destruct (foldl _ ∅ edges !! step_id u) as [e|] eqn:Ee; simpl.
  - apply (keyed_lookup fromStepId) in Ee as [He Hf]; [|done].
    rewrite Hedges in He. apply elem_of_derived in He as (j & u' & v & Hu' & Hv & Hf' & ->).
    rewrite Hf' in Hf. by rewrite <-(same_position l Hnd _ _ _ _ Hu' Hu Hf), Hv.
  - destruct (l !! S i) as [v|] eqn:Hv; [exfalso|done].
    assert ({| fromStepId := step_id u; toStepId := step_id v |} ∈ edges) as He
      by (rewrite Hedges; apply elem_of_derived; by exists i, u, v).
    pose proof (proj2 (keyed_lookup fromStepId edges (step_id u) _ Hfrom) (conj He eq_refl)) as Hl.
    by rewrite Ee in Hl.
Qed.

Lemma follow_chain fuel i :
  length l ≤ fuel + i → follow fuel byId nextId (l !! i) = Some (drop i l).
Proof.
  revert i. induction fuel as [|fuel IH]; intros i Hf; destruct (l !! i) as [u|] eqn:Hu; simpl.
  - apply lookup_lt_Some in Hu. lia.
  - by rewrite drop_ge by (by apply lookup_ge_None).
  - rewrite (nextId_lookup i u Hu).
    assert ((step_id <$> l !! S i) ≫= (λ next, byId !! next) = l !! S i) as Hnext.
    { destruct (l !! S i) as [v|] eqn:Hv; [|done]. simpl. by eapply byId_lookup. }
    rewrite Hnext, (IH (S i)) by lia. simpl. by rewrite (drop_S l u i).
  - by rewrite drop_ge by (by apply lookup_ge_None).
Qed.

Lemma first_step u l' : l = u :: l' → filter (λ step, step_id step ∉ toStepId <$> edges) steps = [u].
Proof.
  intros El. apply Permutation_singleton_r. rewrite Hsteps, El.
  assert (∀ id, id ∈ toStepId <$> edges ↔ id ∈ step_id <$> l') as Hto.
  { intros id. by rewrite Hedges, derived_to, El. }
  rewrite El in Hnd. apply NoDup_cons in Hnd as [Hu _].
  rewrite filter_cons, decide_True by (by rewrite Hto).
  rewrite filter_none; [done|]. intros v Hv Hn. apply Hn, Hto. by apply list_elem_of_fmap_2.
Qed.

Lemma orderStepsByEdges_chain : orderStepsByEdges steps edges = Some l.
Proof.
  unfold orderStepsByEdges. fold byId nextId. case_decide as Hlen.
  - apply nil_length_inv in Hlen. rewrite Hlen in *. symmetry in Hsteps. by apply Permutation_nil_r in Hsteps as ->.
  - assert (∃ u l', l = u :: l') as (u & l' & El).
    { rewrite Hsteps in Hlen. destruct l as [|u l']; [done|by exists u, l']. }
    rewrite (first_step u l' El). simpl. pose proof (follow_chain (S (length steps)) 0) as Hf. rewrite drop_0 in Hf.
    rewrite <-Hf by (rewrite Hsteps; lia). by rewrite El.
Qed.
End order.

Lemma selectionOf_step resolve s :
  resolve (pipelineStepFromSelection s) = Some (metadata s) →
  selectionOf resolve (pipelineStepFromSelection s) = Some s.
Proof. intros Hr. unfold selectionOf. rewrite Hr. by destruct s. Qed.

Lemma selectionOf_steps resolve l :
  (∀ s, s ∈ l → resolve (pipelineStepFromSelection s) = Some (metadata s)) →
  mapM (selectionOf resolve) (pipelineStepFromSelection <$> l) = Some l.
Proof.
  intros Hr. apply mapM_fmap_Forall_Some, Forall_forall. intros s Hs. by apply selectionOf_step, Hr.
Qed.

Lemma ofKind_app kind l l' : ofKind kind (l ++ l') = ofKind kind l ++ ofKind kind l'.
Proof. apply filter_app. Qed.

Lemma ofKind_all kind l : Forall (of_kind kind) l → ofKind kind l = l.
Proof. intros Hl. apply filter_all. by apply Forall_forall. Qed.

Lemma ofKind_none kind kind' l : Forall (of_kind kind') l → kind ≠ kind' → ofKind kind l = [].
Proof.
  rewrite Forall_forall. intros Hl Hk. apply filter_none. intros s Hs Heq.
  apply Hk. rewrite <-Heq. by apply Hl.
Qed.

Lemma head_option_list {A} (o : option A) : head (option_list o) = o.
Proof. by destruct o. Qed.

(** The saved draft, from any pipeline that lists its chain in some order. *)
Lemma reopen_chain draft resolve p :
  draft_wf draft →
  (∀ s, s ∈ selections draft → resolve (pipelineStepFromSelection s) = Some (metadata s)) →
  steps p ≡ₚ derivePipelineBuilderSteps draft →
  edges p ≡ₚ derivePipelineBuilderEdges (derivePipelineBuilderSteps draft) →
  createPipelineBuilderDraftFromPipeline p resolve =
    Some (Some (markPipelineBuilderDraftSaved
      (updatePipelineBuilderDraft draft (changing_name (pipeline_name p))))).
Proof.
  intros Hwf Hr Hs He. unfold createPipelineBuilderDraftFromPipeline.
  rewrite (orderStepsByEdges_chain (derivePipelineBuilderSteps draft)); try done;
    [|rewrite derived_ids; apply Hwf].
  simpl. unfold derivePipelineBuilderSteps. rewrite (selectionOf_steps resolve) by done. simpl.
  rewrite selections_eq, !ofKind_app. destruct Hwf as [Hks Hkt Hke _ _].
  rewrite (ofKind_all _ _ Hks), (ofKind_all _ _ Hkt), (ofKind_all _ _ Hke).
  rewrite (ofKind_none ComponentKind.source _ _ Hkt), (ofKind_none ComponentKind.source _ _ Hke),
    (ofKind_none ComponentKind.transform _ _ Hks), (ofKind_none ComponentKind.transform _ _ Hke),
    (ofKind_none ComponentKind.export _ _ Hks), (ofKind_none ComponentKind.export _ _ Hkt) by done.
  simpl. by rewrite !app_nil_r, !head_option_list.
Qed.

Section saving.
Context `{!Uuids, !Formats}.

(** C33: a draft of the wizard that was saved opens again as itself: the
    created pipeline, read back by its owner with its steps and edges in
    whatever order, gives the editor the same slots, configurations and
    secret bindings under the trimmed name, and nothing to save. *)
Theorem saved_draft_reopens owner draft resolve d p d' :
  rtc edit createEmptyPipelineBuilderDraft draft → integrity d →
  createPipeline owner (createPipelineCreateRequestFromDraft draft) d = (Ok p, d') →
  (∀ s, s ∈ selections draft → resolve (pipelineStepFromSelection s) = Some (metadata s)) →
  isPipelineBuilderDraftComplete draft = true ∧
  getPipeline owner (pipeline_id p) d' = (Ok (Some p), d') ∧
  ∀ q, pipeline_name q = pipeline_name p → steps q ≡ₚ steps p → edges q ≡ₚ edges p →
    createPipelineBuilderDraftFromPipeline q resolve =
      Some (Some {| dirty := false; draft_export := draft_export draft; draft_name := trim (draft_name draft);
                    draft_source := draft_source draft; transforms := transforms draft |}).
Proof.
  intros Hr Hd (_ & _ & Hg & Hc)%createPipeline_ok Hres.
  pose proof (edited_wf _ _ empty_wf Hr) as Hwf.
  destruct (created_views _ _ _ _ _ Hd Hc) as (Hown & _ & _ & Hname & _ & Hsteps & Hedges & _).
  split; [by apply validated_iff_complete|].
  split; [by rewrite getPipeline_run, Hown, decide_True|].
  intros q Hqn Hqs Hqe. rewrite (reopen_chain draft); rewrite ?Hqs, ?Hqe, ?Hqn, ?Hname; try done.
  - by rewrite Hsteps.
  - by rewrite Hedges.
Qed.
End saving.

(** ** Reopening any pipeline the repository accepts *)

Section accepted.
Context (request : PipelineCreateRequest) (Hvalid : valid_graph request).
Let byId : gmap string PipelineStep := foldl (λ m step, <[step_id step := step]> m) ∅ (create_steps request).
Let nextId : gmap string string := foldl (λ m e, <[fromStepId e := toStepId e]> m) ∅ (create_edges request).
Let edge := edge_between (graph_of request).

Lemma next_edge u v : nextId !! step_id u ≫= (λ next, byId !! next) = Some v → edge (step_id u) (step_id v).
Proof.
  intros (next & Hn & Hv)%bind_Some. unfold nextId in Hn.
  rewrite <-(fmap_empty toStepId), (keyed_fmap fromStepId toStepId), lookup_fmap in Hn.
  apply fmap_Some in Hn as (e & He & ->).
  apply (foldl_insert_lookup fromStepId) in He as [[He Hf]|He]; [|by simplify_map_eq].
  apply (foldl_insert_lookup step_id) in Hv as [[_ Hv]|Hv]; [|by simplify_map_eq].
  by exists e.
Qed.

(** The visited steps are distinct, because all reach the current one. *)
Lemma follow_terminates fuel visited current :
  NoDup visited → visited ⊆ step_id <$> create_steps request →
  (∀ u, current = Some u → u ∈ create_steps request ∧ ∀ x, x ∈ visited → tc edge x (step_id u)) →
  length (create_steps request) < fuel + length visited →
  ∃ ordered, follow fuel byId nextId current = Some ordered ∧ ordered ⊆ create_steps request.
Proof.
  revert visited current. induction fuel as [|fuel IH]; intros V [u|] Hnd Hsub Hcur Hf; simpl;
    try (by exists []; split; [done|apply list_subseteq_nil]).
  - exfalso. pose proof (submseteq_length _ _ (NoDup_submseteq _ _ Hnd Hsub)) as Hlen.
    rewrite length_fmap in Hlen. lia.
  - destruct (Hcur u eq_refl) as [Hu HV].
    assert (step_id u ∉ V) as Hfresh by (intros Hin; by eapply (valid_acyclic _ Hvalid), HV).
    destruct (IH (step_id u :: V) (nextId !! step_id u ≫= (λ next, byId !! next))) as (ordered & -> & Hord).
    + by constructor.
    + intros x [->|?]%elem_of_cons; [by apply list_elem_of_fmap_2|by apply Hsub].
    + intros v Hv. pose proof (next_edge u v Hv) as He. split.
      * apply bind_Some in Hv as (next & _ & Hv).
        apply (foldl_insert_lookup step_id) in Hv as [[? _]|?]; [done|by simplify_map_eq].
      * intros x [->|Hx]%elem_of_cons; [by apply tc_once|]. eapply tc_r; [by apply HV|done].
    + simpl. lia.
    + exists (u :: ordered). split; [done|]. intros x [->|?]%elem_of_cons; [done|by apply Hord].
Qed.
End accepted.

(** Opening a pipeline in the editor always returns: the walk along its
    edges ends for every graph the repository accepts, each step it selects
    is a step of the pipeline with the configuration it has there, and when
    a component is not resolved there is no draft rather than a partial one. *)
Theorem reopening_terminates request p resolve :
  plain_ids request → validatePipelineGraph request = Ok () →
  steps p = create_steps request → edges p = create_edges request →
  ∃ opened, createPipelineBuilderDraftFromPipeline p resolve = Some opened ∧
    ∀ draft, opened = Some draft → dirty draft = false ∧ draft_name draft = pipeline_name p ∧
      ∀ s, s ∈ selections draft → ∃ step, step ∈ steps p ∧ selectionOf resolve step = Some s.
Proof.
  intros Hplain Hok%accepted_valid Hs He; [|done].
  assert (∃ ordered, orderStepsByEdges (steps p) (edges p) = Some ordered ∧ ordered ⊆ steps p)
    as (ordered & Hord & Hsub).
  { unfold orderStepsByEdges. rewrite Hs, He. case_decide; [by eexists|].
    destruct (head _) as [first|] eqn:Hh; [|by eexists].
    apply head_Some_elem_of, list_elem_of_filter in Hh as [_ Hh].
    apply (follow_terminates request Hok _ []); [constructor|apply list_subseteq_nil| |simpl; lia].
    intros u [= <-]. split; [done|]. by intros x ?%elem_of_nil. }
  unfold createPipelineBuilderDraftFromPipeline. rewrite Hord. simpl.
  eexists. split; [done|]. intros draft Hd.
  destruct (mapM (selectionOf resolve) ordered) as [chosen|] eqn:Hm; simplify_eq/=.
  split_and!; [done..|]. intros s Hin.
  assert (s ∈ chosen) as Hc.
  { rewrite selections_eq in Hin. simpl in Hin. rewrite !elem_of_app, !elem_of_option_list in Hin.
    destruct Hin as [Hin%head_Some_elem_of|[Hin|Hin%head_Some_elem_of]];
      by apply list_elem_of_filter in Hin as [_ ?]. }
  apply mapM_Some in Hm. apply list_elem_of_lookup in Hc as [i Hi].
  destruct (Forall2_lookup_r _ _ _ _ _ Hm Hi) as (step & Hstep & Hsel).
  exists step. split; [|done]. apply Hsub. by eapply list_elem_of_lookup_2.
Qed.
