(* ===== verification/TriggerDraft.v ===== *)
(** * The trigger editor

    [apps/web/src/components/pipeline/pipeline-trigger-draft.ts]: cron
    expressions of the common shapes as friendly schedules and back, and the
    editing state of a pipeline's triggers. Numbers are those of at most two
    digits the patterns read, as [nat]; the identifiers [createId()] returns
    are a function of the position of the call, and the browser's time zone
    is an argument. *)

From stdpp Require Import pretty.
From S2P Require Import Prelude Js Contracts Repository.

(** ** Friendly schedules *)

Inductive PipelineFriendlySchedule :=
  | hourly (minute : nat)
  | daily (hour minute : nat)
  | weekly (dayOfWeek hour minute : nat)
  | custom (cron : string).

Definition digit_value (c : ascii) : nat := nat_of_ascii c - 48.

(** [\d{1,2}]: what follows it in the patterns is not a digit, so the
    longest match is the only one. *)
Definition digits12 (s : string) : option (nat * string) :=
  match s with
  | String a s =>
      if is_digit a then
        match s with
        | String b rest => if is_digit b then Some (10 * digit_value a + digit_value b, rest)
                           else Some (digit_value a, s)
        | EmptyString => Some (digit_value a, s)
        end
      else None
  | EmptyString => None
  end.

(** What follows the literal [p]. *)
Fixpoint literal (p s : string) : option string :=
  match p, s with
  | EmptyString, _ => Some s
  | String a p, String b s => if decide (a = b) then literal p s else None
  | String _ _, EmptyString => None
  end.

Definition HOURLY_PATTERN (cron : string) : option nat :=
  '(minute, rest) ← digits12 cron;
  if decide (rest = " * * * *") then Some minute else None.

Definition DAILY_PATTERN (cron : string) : option (nat * nat) :=
  '(minute, rest) ← digits12 cron;
  rest ← literal " " rest;
  '(hour, rest) ← digits12 rest;
  if decide (rest = " * * *") then Some (minute, hour) else None.

Definition WEEKLY_PATTERN (cron : string) : option (nat * nat * nat) :=
  '(minute, rest) ← digits12 cron;
  rest ← literal " " rest;
  '(hour, rest) ← digits12 rest;
  rest ← literal " * * " rest;
  match rest with
  | String d EmptyString => if is_digit d then Some (minute, hour, digit_value d) else None
  | _ => None
  end.

Definition friendlyScheduleFromCron (cron : string) : PipelineFriendlySchedule :=
  match HOURLY_PATTERN cron with
  | Some minute => hourly minute
  | None =>
      match WEEKLY_PATTERN cron with
      | Some (minute, hour, dayOfWeek) => weekly dayOfWeek hour minute
      | None =>
          match DAILY_PATTERN cron with
          | Some (minute, hour) => daily hour minute
          | None => custom cron
          end
      end
  end.

Definition cronFromFriendlySchedule (schedule : PipelineFriendlySchedule) : string :=
  match schedule with
  | hourly minute => pretty minute +:+ " * * * *"
  | daily hour minute => pretty minute +:+ " " +:+ pretty hour +:+ " * * *"
  | weekly dayOfWeek hour minute =>
      pretty minute +:+ " " +:+ pretty hour +:+ " * * " +:+ pretty dayOfWeek
  | custom cron => cron
  end.

(** ** The editing state *)

Record PipelineScheduleTriggerDraft := {
  schedule_cron : string;
  schedule_enabled : bool;
  localId : string;
  schedule_timezone : string }.

Record PipelineTriggerDraft := {
  manualEnabled : bool;
  schedules : list PipelineScheduleTriggerDraft }.

Definition trigger_schedule (trigger : Trigger) : option (string * bool * string) :=
  match trigger with
  | ScheduleTrigger _ _ enabled cron timezone => Some (cron, enabled, timezone)
  | ManualTrigger _ _ _ => None
  end.

Definition manual_enabled (trigger : Trigger) : option bool :=
  match trigger with ManualTrigger _ _ enabled => Some enabled | ScheduleTrigger _ _ _ _ _ => None end.

Definition createPipelineTriggerDraft (createId : nat → string) (triggers : list Trigger) :
    PipelineTriggerDraft :=
  {| manualEnabled := default false (head (omap manual_enabled triggers));
     schedules :=
       imap (λ i '(cron, enabled, timezone),
         {| schedule_cron := cron; schedule_enabled := enabled; localId := createId i;
            schedule_timezone := timezone |}) (omap trigger_schedule triggers) |}.

Definition addPipelineScheduleTrigger (detectedTimezone newId : string) (draft : PipelineTriggerDraft) :
    PipelineTriggerDraft :=
  let schedule := {| schedule_cron := cronFromFriendlySchedule (daily 0 0); schedule_enabled := true;
                     localId := newId; schedule_timezone := detectedTimezone |} in
  {| manualEnabled := manualEnabled draft; schedules := schedules draft ++ [schedule] |}.

Definition removePipelineScheduleTrigger (draft : PipelineTriggerDraft) (id : string) : PipelineTriggerDraft :=
  {| manualEnabled := manualEnabled draft; schedules := filter (λ s, localId s ≠ id) (schedules draft) |}.

(** [Partial<Omit<PipelineScheduleTriggerDraft, "localId">>] *)
Record ScheduleChanges := {
  change_cron : option string;
  change_enabled : option bool;
  change_timezone : option string }.

Definition updatePipelineScheduleTrigger (draft : PipelineTriggerDraft) (id : string)
    (changes : ScheduleChanges) : PipelineTriggerDraft :=
  {| manualEnabled := manualEnabled draft;
     schedules := (λ s, if decide (localId s = id) then
       {| schedule_cron := default (schedule_cron s) (change_cron changes);
          schedule_enabled := default (schedule_enabled s) (change_enabled changes);
          localId := localId s;
          schedule_timezone := default (schedule_timezone s) (change_timezone changes) |}
       else s) <$> schedules draft |}.

Definition setPipelineManualTriggerEnabled (draft : PipelineTriggerDraft) (enabled : bool) :
    PipelineTriggerDraft :=
  {| manualEnabled := enabled; schedules := schedules draft |}.

Definition writablePipelineTriggersFromDraft (draft : PipelineTriggerDraft) : list WritablePipelineTrigger :=
  WritableManual (manualEnabled draft) ::
  ((λ s, WritableSchedule (schedule_cron s) (schedule_enabled s) (schedule_timezone s)) <$> schedules draft).

(** ** Lemmas *)

(** The numbers the patterns can read. *)
Definition shown (schedule : PipelineFriendlySchedule) : Prop :=
  match schedule with
  | hourly minute => minute < 100
  | daily hour minute => hour < 100 ∧ minute < 100
  | weekly dayOfWeek hour minute => dayOfWeek < 10 ∧ hour < 100 ∧ minute < 100
  | custom cron => friendlyScheduleFromCron cron = custom cron
  end.

Lemma digits12_pretty n rest :
  n < 100 → digits12 (pretty n +:+ String " " rest) = Some (n, String " " rest).
Proof. intros ?. do 100 (destruct n as [|n]; [reflexivity|]). lia. Qed.

Lemma digit_pretty n : n < 10 → ∃ d, pretty n = String d EmptyString ∧ is_digit d = true ∧ digit_value d = n.
Proof. intros ?. do 10 (destruct n as [|n]; [eexists; split_and!; reflexivity|]). lia. Qed.

Lemma digit_small c : is_digit c = true → digit_value c < 10.
Proof.
  unfold is_digit, digit_value. rewrite andb_true_iff, !Nat.leb_le. simpl. lia.
Qed.

Lemma digits12_small s n rest : digits12 s = Some (n, rest) → n < 100.
Proof.
  destruct s as [|a [|b s]]; simpl; [done|..];
    (destruct (is_digit a) eqn:Ha; [|done]); apply digit_small in Ha; [intros ?; simplify_eq; lia|].
  destruct (is_digit b) eqn:Hb; intros ?; simplify_eq; [apply digit_small in Hb|]; lia.
Qed.

Lemma pretty_digit n : n < 100 → ∃ c s, pretty n = String c s ∧ c ≠ "*"%char.
Proof. intros ?. do 100 (destruct n as [|n]; [by do 2 eexists|]). lia. Qed.

Lemma not_hourly h s : h < 100 → " " +:+ pretty h +:+ s ≠ " * * * *".
Proof. intros Hh. destruct (pretty_digit h Hh) as (c & p & -> & Hc). intros [= Heq _]. done. Qed.

Lemma space_app s : " " +:+ s = String " " s.
Proof. done. Qed.

Lemma stars_app s : " * * " +:+ s = String " " ("* * " +:+ s).
Proof. done. Qed.

Lemma literal_space s : literal " " (String " " s) = Some s.
Proof. done. Qed.

Lemma literal_stars s : literal " * * " (String " " ("* * " +:+ s)) = Some s.
Proof. done. Qed.

Lemma friendly_of_shown schedule :
  shown schedule → friendlyScheduleFromCron (cronFromFriendlySchedule schedule) = schedule.
Proof.
  unfold friendlyScheduleFromCron, HOURLY_PATTERN, WEEKLY_PATTERN, DAILY_PATTERN.
  destruct schedule as [m|h m|d h m|c]; cbn [shown cronFromFriendlySchedule]; [| | |done].
  - intros Hm. by rewrite digits12_pretty.
  - intros [Hh Hm]. pose proof (not_hourly h " * * *" Hh) as Hn. rewrite space_app in *.
    rewrite digits12_pretty by done. cbn -[digits12 decide pretty literal String.append].
    rewrite decide_False, literal_space by done. cbn -[digits12 pretty literal String.append].
    by rewrite digits12_pretty.
  - intros (Hd & Hh & Hm). destruct (digit_pretty d Hd) as (c & -> & Hc & <-).
    pose proof (not_hourly h (" * * " +:+ String c "") Hh) as Hn. rewrite stars_app, space_app in *.
    rewrite digits12_pretty by done. cbn -[digits12 decide pretty literal String.append is_digit].
    rewrite decide_False, literal_space by done. cbn -[digits12 pretty literal String.append is_digit].
    rewrite digits12_pretty by done. cbn -[literal String.append is_digit].
    rewrite literal_stars. cbn -[is_digit]. by rewrite Hc.
Qed.

Lemma friendly_shown cron : shown (friendlyScheduleFromCron cron).
Proof.
  unfold friendlyScheduleFromCron.
  destruct (HOURLY_PATTERN cron) as [m|] eqn:Eh.
  { apply bind_Some in Eh as ([m' r] & Hm%digits12_small & Eh). case_decide; by simplify_eq/=. }
  destruct (WEEKLY_PATTERN cron) as [[[m h] d]|] eqn:Ew.
  { apply bind_Some in Ew as ([m' r] & Hm%digits12_small & Ew).
    apply bind_Some in Ew as (r' & _ & Ew). apply bind_Some in Ew as ([h' r''] & Hh%digits12_small & Ew).
    apply bind_Some in Ew as ([|c [|]] & _ & Ew); try done.
    destruct (is_digit c) eqn:Hc; simplify_eq. by apply digit_small in Hc. }
  destruct (DAILY_PATTERN cron) as [[m h]|] eqn:Ed.
  { apply bind_Some in Ed as ([m' r] & Hm%digits12_small & Ed).
    apply bind_Some in Ed as (r' & _ & Ed). apply bind_Some in Ed as ([h' r''] & Hh%digits12_small & Ed).
    case_decide; by simplify_eq/=. }
  simpl. unfold friendlyScheduleFromCron. by rewrite Eh, Ew, Ed.
Qed.

Lemma writable_schedules (triggers : list Trigger) :
  omap manual_enabled triggers ≠ [] ∧ length (omap manual_enabled triggers) ≤ 1 →
  WritableManual (default false (head (omap manual_enabled triggers))) ::
    ((λ '(cron, enabled, timezone), WritableSchedule cron enabled timezone) <$> omap trigger_schedule triggers)
  ≡ₚ toWritableTrigger <$> triggers.
Proof.
  assert (∀ l : list Trigger,
    (WritableManual <$> omap manual_enabled l) ++
    ((λ '(cron, enabled, timezone), WritableSchedule cron enabled timezone) <$> omap trigger_schedule l)
    ≡ₚ toWritableTrigger <$> l) as Hall.
  { induction l as [|[] l IH]; csimpl; [done|by rewrite IH|]. by rewrite <-Permutation_middle, IH. }
  rewrite <-Hall. by destruct (omap manual_enabled triggers) as [|b [|]]; simpl; [intros []| |lia].
Qed.

(** Triggers that are opened and saved are the triggers there were. *)
Lemma writable_opened createId (triggers : list Trigger) : length (omap manual_enabled triggers) = 1 →
  writablePipelineTriggersFromDraft (createPipelineTriggerDraft createId triggers) ≡ₚ toWritableTrigger <$> triggers.
Proof.
  intros Hone. rewrite <-writable_schedules.
  - unfold writablePipelineTriggersFromDraft. simpl. f_equiv. rewrite fmap_imap.
    rewrite (imap_ext _ (const (λ '(cron, enabled, timezone), WritableSchedule cron enabled timezone)));
      [by rewrite imap_const|]. by intros i [[] ] _.
  - rewrite Hone. split; [|done]. by destruct (omap manual_enabled triggers).
Qed.

(** The schedule editor. A friendly schedule is read back from the cron
    expression it is stored as; whatever expression is stored, showing it
    and storing what is shown reads the same again, and an expression of no
    common shape stays as it is. Opening a pipeline with one manual trigger
    and saving its triggers unchanged writes the triggers it had. *)
Theorem trigger_editor_roundtrip :
  (∀ schedule, shown schedule → friendlyScheduleFromCron (cronFromFriendlySchedule schedule) = schedule) ∧
  (∀ cron, let schedule := friendlyScheduleFromCron cron in
     friendlyScheduleFromCron (cronFromFriendlySchedule schedule) = schedule ∧
     (∀ cron', schedule = custom cron' → cron' = cron)) ∧
  (∀ createId triggers, length (omap manual_enabled triggers) = 1 →
     writablePipelineTriggersFromDraft (createPipelineTriggerDraft createId triggers) ≡ₚ
       toWritableTrigger <$> triggers).
Proof.
  split; [apply friendly_of_shown|]. split.
  - intros cron schedule. split; [apply friendly_of_shown, friendly_shown|].
    intros cron'. unfold schedule, friendlyScheduleFromCron.
    destruct (HOURLY_PATTERN cron); [done|]. destruct (WEEKLY_PATTERN cron) as [[[]]|]; [done|].
    by destruct (DAILY_PATTERN cron) as [[]|]; intros; simplify_eq.
  - intros createId triggers. apply writable_opened.
Qed.

Lemma trigger_editor_roundtrip_witness :
  friendlyScheduleFromCron "05 9 * * 1" = weekly 1 9 5 ∧
  friendlyScheduleFromCron (cronFromFriendlySchedule (weekly 1 9 5)) = weekly 1 9 5 ∧
  writablePipelineTriggersFromDraft (createPipelineTriggerDraft pretty
    [ScheduleTrigger "t2" "p" true "05 9 * * 1" "UTC"; ManualTrigger "t1" "p" true]) =
    [WritableManual true; WritableSchedule "05 9 * * 1" true "UTC"].
Proof.
  split; [reflexivity|]. split; [|reflexivity].
  apply (proj1 trigger_editor_roundtrip). simpl. lia.
Defined.
