(* ===== verification/PipelineEditor.v ===== *)
(** * The editor of a pipeline

    [apps/web/src/components]: pipeline/pipeline-trigger-editor.tsx (the
    controls of a schedule), pipeline/pipeline-editor.tsx (the local drafts of
    one pipeline and what saving sends), pipeline/pipeline-delete-confirmation.tsx,
    pipeline/pipeline-action-controls.tsx, and pipeline-workspace.tsx (which
    pipeline is shown, and the guarded requests).

    The workspace is a state machine: user actions, answers and whatever the
    queries of the cache come to hold are events in any order, and after each
    the page is rendered again with the effects whose dependencies changed.
    Arrays of one query keep their identity while their contents stay the
    same (the structural sharing of the query library), so the dependencies
    are compared by value. The identifiers [createId()] returns and the time
    zone of the browser are arguments. *)

From stdpp Require Import pretty.
From S2P Require Import Prelude Js Numbers Contracts StateMachine Schemas BuilderDraft TriggerDraft BrowserClient QueryCache.

#[export] Instance Trigger_eq_dec : EqDecision Trigger.
Proof. solve_decision. Defined.

(** ** pipeline-trigger-editor.tsx *)

Inductive PipelineScheduleFrequency := freq_hourly | freq_daily | freq_weekly | freq_custom.

Definition frequency (schedule : PipelineFriendlySchedule) : PipelineScheduleFrequency :=
  match schedule with
  | hourly _ => freq_hourly
  | daily _ _ => freq_daily
  | weekly _ _ _ => freq_weekly
  | custom _ => freq_custom
  end.

Definition changeFrequency (cron : string) (f : PipelineScheduleFrequency) : string :=
  cronFromFriendlySchedule
    match f with
    | freq_custom => custom cron
    | freq_hourly => hourly 0
    | freq_daily => daily 0 0
    | freq_weekly => weekly 1 0 0
    end.

(** What the controls of a schedule report; texts are what was typed. *)
Inductive ScheduleEvent :=
  | ChecksEnabled (checked : bool)
  | ChoosesFrequency (f : PipelineScheduleFrequency)
  | TypesMinute (text : string)
  | TypesHour (text : string)
  | ChoosesDay (text : string)
  | TypesCron (text : string)
  | ChoosesTimezone (timezone : string).

(** The expression after an event, if its control is shown: the typed number
    goes into it as it prints. *)
Definition typedCron (cron : string) (e : ScheduleEvent) : option string :=
  let typed text := numberToString (Number text) in
  match friendlyScheduleFromCron cron, e with
  | _, ChoosesFrequency f => Some (changeFrequency cron f)
  | hourly _, TypesMinute text => Some (typed text +:+ " * * * *")
  | daily hour minute, TypesHour text => Some (pretty minute +:+ " " +:+ typed text +:+ " * * *")
  | daily hour minute, TypesMinute text => Some (typed text +:+ " " +:+ pretty hour +:+ " * * *")
  | weekly day hour minute, ChoosesDay text => Some (pretty minute +:+ " " +:+ pretty hour +:+ " * * " +:+ typed text)
  | weekly day hour minute, TypesHour text => Some (pretty minute +:+ " " +:+ typed text +:+ " * * " +:+ pretty day)
  | weekly day hour minute, TypesMinute text => Some (typed text +:+ " " +:+ pretty hour +:+ " * * " +:+ pretty day)
  | custom _, TypesCron text => Some text
  | _, _ => None
  end.

Definition scheduleChanges (cron : string) (e : ScheduleEvent) : option ScheduleChanges :=
  match e with
  | ChecksEnabled checked => Some {| change_cron := None; change_enabled := Some checked; change_timezone := None |}
  | ChoosesTimezone timezone => Some {| change_cron := None; change_enabled := None; change_timezone := Some timezone |}
  | _ => (λ cron, {| change_cron := Some cron; change_enabled := None; change_timezone := None |}) <$> typedCron cron e
  end.

Inductive TriggerEvent :=
  | ChecksManual (checked : bool)
  | AddsSchedule (newId : string)
  | RemovesSchedule (id : string)
  | ChangesSchedule (id : string) (e : ScheduleEvent).

(** The handlers [PipelineEditor] gives the trigger editor. *)
Definition changeTriggers (detectedTimezone : string) (e : TriggerEvent) (d : PipelineTriggerDraft) : PipelineTriggerDraft :=
  match e with
  | ChecksManual checked => setPipelineManualTriggerEnabled d checked
  | AddsSchedule newId => addPipelineScheduleTrigger detectedTimezone newId d
  | RemovesSchedule id => removePipelineScheduleTrigger d id
  | ChangesSchedule id e =>
      match list_find (λ s, localId s = id) (schedules d) with
      | Some (_, schedule) =>
          match scheduleChanges (schedule_cron schedule) e with
          | Some changes => updatePipelineScheduleTrigger d id changes
          | None => d
          end
      | None => d
      end
  end.

(** ** pipeline-editor.tsx *)

Inductive GraphEvent :=
  | SelectsSource (m : ComponentMetadata) (newId : string)
  | SetsSourceValues (v : list (string * Json))
  | AddsStep (m : ComponentMetadata) (newId : string)
  | MovesStep (id : string) (direction : Direction)
  | RemovesStep (id : string)
  | SetsStepValues (id : string) (v : list (string * Json))
  | SelectsExport (m : ComponentMetadata) (newId : string)
  | SetsExportValues (v : list (string * Json)).

Definition changeGraph (e : GraphEvent) (d : PipelineBuilderDraft) : PipelineBuilderDraft :=
  match e with
  | SelectsSource m newId => setPipelineBuilderSource d m newId
  | SetsSourceValues v => setPipelineBuilderSourceValues d v
  | AddsStep m newId => addPipelineBuilderTransform d m newId
  | MovesStep id direction => movePipelineBuilderTransform d id direction
  | RemovesStep id => removePipelineBuilderTransform d id
  | SetsStepValues id v => setPipelineBuilderTransformValues d id v
  | SelectsExport m newId => setPipelineBuilderExport d m newId
  | SetsExportValues v => setPipelineBuilderExportValues d v
  end.

(** The capability queries: the lists they have, and whether all of them
    succeeded the last time. *)
Record Capabilities := {
  capabilitiesByKind : ComponentKind.t → option (list ComponentMetadata);
  capabilitiesReady : bool }.

(** [confirming] is the state of the delete confirmation; the last two
    fields are the dependencies each effect has run with. *)
Record PipelineEditor := {
  draftName : string;
  submitted : bool;
  graphDraft : option PipelineBuilderDraft;
  triggerDraft : PipelineTriggerDraft;
  confirming : bool;
  formDependencies : string * string * list Trigger;
  graphDependencies : string * bool }.

Definition dependencies (pipeline : Pipeline) : string * string * list Trigger :=
  (pipeline_id pipeline, pipeline_name pipeline, triggers pipeline).

(** The first effect. *)
Definition seedForm (createId : nat → string) (pipeline : Pipeline) (e : PipelineEditor) : PipelineEditor :=
  if decide (formDependencies e = dependencies pipeline) then e
  else {| draftName := pipeline_name pipeline; submitted := false; graphDraft := graphDraft e;
          triggerDraft := createPipelineTriggerDraft createId (triggers pipeline); confirming := confirming e;
          formDependencies := dependencies pipeline; graphDependencies := graphDependencies e |}.

(** The draft of a pipeline, if its components are known. An ordering that
    does not end is of no accepted pipeline. *)
Definition openedGraph (c : Capabilities) (pipeline : Pipeline) : option PipelineBuilderDraft :=
  mjoin (createPipelineBuilderDraftFromPipeline pipeline (createPipelineBuilderMetadataResolver (capabilitiesByKind c))).

(** The second effect. *)
Definition seedGraph (c : Capabilities) (pipeline : Pipeline) (e : PipelineEditor) : PipelineEditor :=
  if decide (graphDependencies e = (pipeline_id pipeline, capabilitiesReady c)) then e
  else {| draftName := draftName e; submitted := submitted e;
          graphDraft := if capabilitiesReady c then openedGraph c pipeline else graphDraft e;
          triggerDraft := triggerDraft e; confirming := confirming e; formDependencies := formDependencies e;
          graphDependencies := (pipeline_id pipeline, capabilitiesReady c) |}.

(** The first rendering: both effects run. *)
Definition mountEditor (createId : nat → string) (c : Capabilities) (pipeline : Pipeline) : PipelineEditor :=
  {| draftName := pipeline_name pipeline; submitted := false;
     graphDraft := if capabilitiesReady c then openedGraph c pipeline else None;
     triggerDraft := createPipelineTriggerDraft createId (triggers pipeline); confirming := false;
     formDependencies := dependencies pipeline;
     graphDependencies := (pipeline_id pipeline, capabilitiesReady c) |}.

(** What [saveDraft] sends: the name and the triggers, and the graph where
    there is a draft of it. *)
Definition editorRequest (e : PipelineEditor) : PipelineUpdateRequest :=
  let graphUpdate := createPipelineUpdateRequestFromDraft <$> graphDraft e in
  {| update_edges := graphUpdate ≫= update_edges; update_name := Some (trim (draftName e)); update_state := None;
     update_steps := graphUpdate ≫= update_steps;
     update_triggers := Some (writablePipelineTriggersFromDraft (triggerDraft e)) |}.

Definition with_submitted (e : PipelineEditor) : PipelineEditor :=
  {| draftName := draftName e; submitted := true; graphDraft := graphDraft e; triggerDraft := triggerDraft e;
     confirming := confirming e; formDependencies := formDependencies e; graphDependencies := graphDependencies e |}.

Definition saveDraft (editable : bool) (e : PipelineEditor) : PipelineEditor * option PipelineUpdateRequest :=
  (with_submitted e,
   if negb editable || bool_decide (trim (draftName e) = "") then None else Some (editorRequest e)).

Inductive EditorEvent :=
  | TypesName (text : string)
  | ChangesGraph (e : GraphEvent)
  | ChangesTriggers (e : TriggerEvent)
  | OpensDelete
  | CancelsDelete.

(** The controls a pipeline shows while it is not editable change nothing;
    the confirmation, once opened, stays. *)
Definition editEditor (detectedTimezone : string) (editable : bool) (event : EditorEvent) (e : PipelineEditor) : PipelineEditor :=
  let keep name graph triggers confirming :=
    {| draftName := name; submitted := submitted e; graphDraft := graph; triggerDraft := triggers; confirming := confirming;
       formDependencies := formDependencies e; graphDependencies := graphDependencies e |} in
  match event with
  | TypesName text => if editable then keep text (graphDraft e) (triggerDraft e) (confirming e) else e
  | ChangesGraph g => if editable then keep (draftName e) (changeGraph g <$> graphDraft e) (triggerDraft e) (confirming e) else e
  | ChangesTriggers t =>
      if editable then keep (draftName e) (graphDraft e) (changeTriggers detectedTimezone t (triggerDraft e)) (confirming e) else e
  | OpensDelete => if editable then keep (draftName e) (graphDraft e) (triggerDraft e) true else e
  | CancelsDelete => keep (draftName e) (graphDraft e) (triggerDraft e) false
  end.

(** ** pipeline-workspace.tsx *)

(** What a query holds, and whether its last fetch failed. *)
Record DetailQuery := { detail_data : option Pipeline; detail_isError : bool }.

(** The queries of the workspace, as the cache has them at one moment. *)
Record Queries := {
  listData : option (list Pipeline);
  detailQuery : string → DetailQuery;
  executionStateQuery : string → option (option (string * ActivePhase));
  capabilityQueries : Capabilities }.

Record Workspace := {
  queries : Queries;
  selectedId : option string;
  lastSavedPipelineId : option string;
  updateInFlight : option (string * PipelineUpdateRequest);
  deleteInFlight : option string;
  editor : option PipelineEditor }.

Inductive WorkspaceRequest := SendsUpdate (pipelineId : string) (update : PipelineUpdateRequest) | SendsDelete (pipelineId : string).

Section workspace.
Context `{!Formats} (detectedTimezone : string).

Definition selectedPipelineId (w : Workspace) : option string :=
  match selectedId w with
  | Some id => Some id
  | None => pipeline_id <$> head (default [] (listData (queries w)))
  end.

(** [SelectedPipeline]: the pipeline whose editor is shown, if any. *)
Definition shownPipeline (w : Workspace) : option Pipeline :=
  id ← selectedPipelineId w;
  let query := detailQuery (queries w) id in
  if detail_isError query then None else detail_data query.

(** Whether it is shown as editable. A pipeline the cache holds is valid, so
    the parsing does not fail. *)
Definition shownEditable (w : Workspace) (pipeline : Pipeline) : bool :=
  match getPipelineExecutionState pipeline (selectedPipelineId w ≫= executionStateQuery (queries w)) with
  | Ok state => isPipelineEditable state
  | Throw _ => false
  end.

Definition with_editor (e : option PipelineEditor) (w : Workspace) : Workspace :=
  {| queries := queries w; selectedId := selectedId w; lastSavedPipelineId := lastSavedPipelineId w;
     updateInFlight := updateInFlight w; deleteInFlight := deleteInFlight w; editor := e |}.

(** The editor stays mounted while some pipeline is shown. *)
Definition rerender (createId : nat → string) (w : Workspace) : Workspace :=
  let c := capabilityQueries (queries w) in
  with_editor
    (pipeline ← shownPipeline w;
     Some match editor w with
          | None => mountEditor createId c pipeline
          | Some e => seedGraph c pipeline (seedForm createId pipeline e)
          end) w.

Inductive WorkspaceEvent :=
  | QueriesChange (q : Queries)
  | SelectsPipeline (pipelineId : string)
  | Edits (e : EditorEvent)
  | Submits
  | ConfirmsDelete
  | SaveSettles (succeeded : bool)
  | DeleteSettles (succeeded : bool).

Definition openWorkspace (q : Queries) : Workspace :=
  {| queries := q; selectedId := None; lastSavedPipelineId := None; updateInFlight := None; deleteInFlight := None; editor := None |}.

(** [updatePipeline] and [deletePipeline]. *)
Definition updatePipeline (pipelineId : string) (update : PipelineUpdateRequest) (w : Workspace) : Workspace * list WorkspaceRequest :=
  match updateInFlight w with
  | Some _ => (w, [])
  | None =>
      ({| queries := queries w; selectedId := selectedId w; lastSavedPipelineId := lastSavedPipelineId w;
          updateInFlight := Some (pipelineId, update); deleteInFlight := deleteInFlight w; editor := editor w |},
       [SendsUpdate pipelineId update])
  end.

Definition deletePipeline (pipelineId : string) (w : Workspace) : Workspace * list WorkspaceRequest :=
  match deleteInFlight w with
  | Some _ => (w, [])
  | None =>
      ({| queries := queries w; selectedId := selectedId w; lastSavedPipelineId := lastSavedPipelineId w;
          updateInFlight := updateInFlight w; deleteInFlight := Some pipelineId; editor := editor w |},
       [SendsDelete pipelineId])
  end.

Definition workspaceStep (event : WorkspaceEvent) (w : Workspace) : Workspace * list WorkspaceRequest :=
  match event with
  | QueriesChange q =>
      ({| queries := q; selectedId := selectedId w; lastSavedPipelineId := lastSavedPipelineId w;
          updateInFlight := updateInFlight w; deleteInFlight := deleteInFlight w; editor := editor w |}, [])
  | SelectsPipeline pipelineId =>
      ({| queries := queries w; selectedId := Some pipelineId; lastSavedPipelineId := lastSavedPipelineId w;
          updateInFlight := updateInFlight w; deleteInFlight := deleteInFlight w; editor := editor w |}, [])
  | Edits e =>
      match shownPipeline w, editor w with
      | Some pipeline, Some ed => (with_editor (Some (editEditor detectedTimezone (shownEditable w pipeline) e ed)) w, [])
      | _, _ => (w, [])
      end
  | Submits =>
      match shownPipeline w, editor w with
      | Some pipeline, Some ed =>
          let '(ed, update) := saveDraft (shownEditable w pipeline) ed in
          let w := with_editor (Some ed) w in
          match update with Some update => updatePipeline (pipeline_id pipeline) update w | None => (w, []) end
      | _, _ => (w, [])
      end
  | ConfirmsDelete =>
      match shownPipeline w, editor w with
      | Some pipeline, Some ed => if confirming ed then deletePipeline (pipeline_id pipeline) w else (w, [])
      | _, _ => (w, [])
      end
  | SaveSettles succeeded =>
      match updateInFlight w with
      | Some (pipelineId, _) =>
          ({| queries := queries w; selectedId := selectedId w;
              lastSavedPipelineId := if succeeded : bool then Some pipelineId else lastSavedPipelineId w;
              updateInFlight := None; deleteInFlight := deleteInFlight w; editor := editor w |}, [])
      | None => (w, [])
      end
  | DeleteSettles succeeded =>
      match deleteInFlight w with
      | Some _ =>
          ({| queries := queries w; selectedId := if succeeded : bool then None else selectedId w;
              lastSavedPipelineId := lastSavedPipelineId w; updateInFlight := updateInFlight w;
              deleteInFlight := None; editor := editor w |}, [])
      | None => (w, [])
      end
  end.

(** An event, and the rendering that follows it. *)
Definition workspaceTurn (createId : nat → string) (event : WorkspaceEvent) (w : Workspace) : Workspace * list WorkspaceRequest :=
  let '(w, requests) := workspaceStep event w in (rerender createId w, requests).
End workspace.

(** ** pipeline-action-controls.tsx *)

Inductive PipelineAction := DuplicateAction | RunAction | EnableAction | DisableAction.

#[export] Instance PipelineAction_eq_dec : EqDecision PipelineAction.
Proof. solve_decision. Defined.

Inductive Feedback := FeedbackError (message : string) | FeedbackSuccess (message : string).

Record ActionControls := { feedback : option Feedback; actionInFlight : option (PipelineAction * string) }.

(** The buttons that can be pressed. *)
Definition actionOffered (editable : bool) (state : PipelineState.t) (isBusy : bool) (a : PipelineAction) : bool :=
  negb isBusy &&
  match a with
  | DuplicateAction => true
  | RunAction => editable && bool_decide (state = PipelineState.enabled)
  | EnableAction => editable && bool_decide (state ≠ PipelineState.enabled)
  | DisableAction => editable && bool_decide (state = PipelineState.enabled)
  end.

Definition successMessage (a : PipelineAction) : string :=
  match a with
  | DuplicateAction => "pipeline.actions.duplicateSuccess"
  | RunAction => "pipeline.actions.runSuccess"
  | EnableAction => "pipeline.actions.enableSuccess"
  | DisableAction => "pipeline.actions.disableSuccess"
  end.

(** [handleDuplicate], [handleRun] and [handleStateChange]. *)
Definition handleAction (a : PipelineAction) (pipelineId : string) (c : ActionControls) : ActionControls * option (PipelineAction * string) :=
  match actionInFlight c with
  | Some _ => (c, None)
  | None => ({| feedback := None; actionInFlight := Some (a, pipelineId) |}, Some (a, pipelineId))
  end.

(** [getActionErrorMessage] *)
Definition getActionErrorMessage (error : PipelineApiError) : string :=
  match error_code error with
  | PipelineApiErrorCode.pipeline_locked => "pipeline.actions.error.locked"
  | PipelineApiErrorCode.pipeline_not_enabled => "pipeline.actions.error.notEnabled"
  | PipelineApiErrorCode.pipeline_not_found => "pipeline.actions.error.notFound"
  | _ => "pipeline.actions.error.unavailable"
  end.

(** The callbacks of the mutation: the feedback, and [releaseAction]. *)
Definition actionSettled (answer : outcome PipelineApiError unit) (c : ActionControls) : ActionControls :=
  match actionInFlight c with
  | Some (a, _) =>
      {| feedback := Some match answer with Ok _ => FeedbackSuccess (successMessage a) | Throw error => FeedbackError (getActionErrorMessage error) end;
         actionInFlight := None |}
  | None => c
  end.
