(* ===== verification/EditorProofs.v ===== *)
(** * What the editor of a pipeline sends

    The controls of a schedule, and the requests of the workspace for any
    order of user actions, answers and changes of the cache. *)

From stdpp Require Import pretty.
From S2P Require Import Prelude Js Numbers Contracts StateMachine Schemas BuilderDraft TriggerDraft QueryCache PipelineEditor.

#[local] Open Scope nat_scope.

(** ** Schedules *)

Definition withMinute (n : nat) (s : PipelineFriendlySchedule) : PipelineFriendlySchedule :=
  match s with hourly _ => hourly n | daily h _ => daily h n | weekly d h _ => weekly d h n | custom c => custom c end.
Definition withHour (n : nat) (s : PipelineFriendlySchedule) : PipelineFriendlySchedule :=
  match s with daily _ m => daily n m | weekly d _ m => weekly d n m | s => s end.
Definition withDay (n : nat) (s : PipelineFriendlySchedule) : PipelineFriendlySchedule :=
  match s with weekly _ h m => weekly n h m | s => s end.

Lemma numberToString_small n : n < 100 → numberToString (NInt (Z.of_nat n)) = pretty n.
Proof.
  intros Hn. assert (Forall (λ n, numberToString (NInt (Z.of_nat n)) = pretty n) (seq 0 100)) as Hall.
  { apply (bool_decide_unpack _). vm_compute. exact I. }
  rewrite Forall_forall in Hall. apply Hall, elem_of_seq. lia.
Qed.

(** The controls of a schedule. Choosing hourly, daily or weekly shows
    that frequency; choosing the custom one changes nothing, so a schedule
    of a common shape can not be turned into a custom one. A number of at
    most two digits typed in a control that is shown becomes the minute, the
    hour or the day, and the rest of the schedule stays. *)
Theorem trigger_fields_spec cron :
  let schedule := friendlyScheduleFromCron cron in
  (∀ f, frequency (friendlyScheduleFromCron (changeFrequency cron f)) =
     match f with freq_custom => frequency schedule | _ => f end) ∧
  (∀ text n cron', Number text = NInt (Z.of_nat n) → n < 100 →
     (typedCron cron (TypesMinute text) = Some cron' → friendlyScheduleFromCron cron' = withMinute n schedule) ∧
     (typedCron cron (TypesHour text) = Some cron' → friendlyScheduleFromCron cron' = withHour n schedule) ∧
     (n < 10 → typedCron cron (ChoosesDay text) = Some cron' → friendlyScheduleFromCron cron' = withDay n schedule)).
Proof.
  intros schedule. pose proof (friendly_shown cron) as Hshown. split.
  - intros []; unfold changeFrequency; try done; (rewrite friendly_of_shown by (simpl; lia)); done.
  - intros text n cron' Htext Hn. unfold typedCron, schedule. rewrite Htext, numberToString_small by done.
    assert (∀ s, shown s → cron' = cronFromFriendlySchedule s → friendlyScheduleFromCron cron' = s) as Hread
      by (intros s Hs ->; by apply friendly_of_shown).
    destruct (friendlyScheduleFromCron cron) as [m|h m|d h m|c]; simpl in Hshown;
      split_and!; try done; intros; simplify_eq; apply Hread; simpl; auto; lia.
Qed.

Lemma trigger_fields_spec_witness :
  Number "30" = NInt 30 ∧ friendlyScheduleFromCron "30 9 * * 1" = withMinute 30 (friendlyScheduleFromCron "05 9 * * 1").
Proof.
  split; [reflexivity|].
  apply (proj1 (proj2 (trigger_fields_spec "05 9 * * 1") "30" 30 "30 9 * * 1" eq_refl ltac:(lia))). reflexivity.
Defined.

(** Beyond two digits the schedule falls out of its shape; and while a
    custom expression is typed, a prefix of a common shape takes its field
    away. *)
Example typed_shapes :
  friendlyScheduleFromCron <$> typedCron "0 9 * * *" (TypesMinute "100") = Some (custom "100 9 * * *") ∧
  friendlyScheduleFromCron <$> typedCron "0 9 * * *" (TypesHour "1.5") = Some (custom "0 1.5 * * *") ∧
  friendlyScheduleFromCron <$> typedCron "0 0 * * " (TypesCron "0 0 * * 1") = Some (weekly 1 0 0).
Proof. vm_compute. done. Qed.

(** ** The requests of the workspace *)

Section workspace.
Context `{!Formats} (detectedTimezone : string).

(** A graph that was edited from some version of the pipeline. *)
Definition stems (id : string) (draft : PipelineBuilderDraft) : Prop :=
  ∃ q c opened, pipeline_id q = id ∧ openedGraph c q = Some opened ∧
    rtc (λ a b, ∃ e, b = changeGraph e a) opened draft.

(** Triggers that were edited from those of the pipeline. *)
Definition triggers_stem (persisted : list Trigger) (draft : PipelineTriggerDraft) : Prop :=
  ∃ createId, rtc (λ a b, ∃ e, b = changeTriggers detectedTimezone e a) (createPipelineTriggerDraft createId persisted) draft.

(** An editor that works on a pipeline. *)
Record works_on (pipeline : Pipeline) (ready : bool) (e : PipelineEditor) : Prop := {
  works_form : formDependencies e = dependencies pipeline;
  works_graph : graphDependencies e = (pipeline_id pipeline, ready);
  works_triggers : triggers_stem (triggers pipeline) (triggerDraft e);
  works_draft d : graphDraft e = Some d → ready = true ∧ stems (pipeline_id pipeline) d }.

Definition ready (w : Workspace) : bool := capabilitiesReady (capabilityQueries (queries w)).

(** The cache holds pipelines under their identifiers. *)
Definition keyed (q : Queries) : Prop := ∀ id p, detail_data (detailQuery q id) = Some p → pipeline_id p = id.

(** What a rendering leaves. *)
Definition rendered_well (w : Workspace) : Prop :=
  match shownPipeline w with
  | None => editor w = None
  | Some p => ∃ e, editor w = Some e ∧ works_on p (ready w) e
  end.

(** The workspace is on the way from one rendering to the next: the editor
    works on the pipeline that was shown, and lists that were read stay
    readable. *)
Definition between (w : Workspace) : Prop :=
  ∀ e, editor w = Some e → ∃ p r, works_on p r e ∧ (r = true → ready w = true).

Lemma openedGraph_stems c p d : openedGraph c p = Some d → stems (pipeline_id p) d.
Proof. intros Ho. by exists p, c, d. Qed.

Lemma mount_works createId c p : works_on p (capabilitiesReady c) (mountEditor createId c p).
Proof.
  split; [done..|by exists createId|]. simpl. destruct (capabilitiesReady c); [|done].
  intros d Hd. split; [done|]. by eapply openedGraph_stems.
Qed.

Lemma seed_works createId c p0 r e p : works_on p0 r e → (r = true → capabilitiesReady c = true) →
  works_on p (capabilitiesReady c) (seedGraph c p (seedForm createId p e)).
Proof.
  intros [Hf Hg Ht Hd] Hr.
  assert (formDependencies (seedForm createId p e) = dependencies p ∧
    triggers_stem (triggers p) (triggerDraft (seedForm createId p e)) ∧
    graphDraft (seedForm createId p e) = graphDraft e ∧ graphDependencies (seedForm createId p e) = graphDependencies e)
    as (Hf1 & Ht1 & Hd1 & Hg1).
  { unfold seedForm. case_decide as Heq; [|by repeat split; exists createId]. split_and!; try done.
    rewrite Hf in Heq. by injection Heq as _ _ <-. }
  set (e1 := seedForm createId p e) in *. clearbody e1. unfold seedGraph. rewrite Hg1, Hg. case_decide as Heq.
  - injection Heq as Hid Hready. split; try done; rewrite ?Hg1, ?Hg, ?Hid, ?Hready; try done.
    rewrite Hd1. intros d Hdraft. rewrite <-Hready, <-Hid. by apply Hd.
  - split; try done. simpl. destruct (capabilitiesReady c) eqn:Hc.
    + intros d Ho. split; [done|]. by eapply openedGraph_stems.
    + rewrite Hd1. intros d Hdraft. destruct (Hd d Hdraft) as [Hr' _]. by specialize (Hr Hr').
Qed.

Lemma rerender_well createId w : between w → rendered_well (rerender createId w).
Proof.
  intros Hb. unfold rendered_well. change (shownPipeline (rerender createId w)) with (shownPipeline w).
  unfold rerender. destruct (shownPipeline w) as [p|]; [|done]. simpl. eexists. split; [done|].
  change (ready _) with (capabilitiesReady (capabilityQueries (queries w))).
  destruct (editor w) as [e|] eqn:He; [|apply mount_works].
  destruct (Hb e He) as (p0 & r & Hw & Hr). by eapply seed_works.
Qed.

Lemma well_between w : rendered_well w → between w.
Proof.
  unfold rendered_well. intros Hw e He. destruct (shownPipeline w) as [p|]; [|congruence].
  destruct Hw as (e' & He' & Hon). exists p, (ready w). by simplify_eq.
Qed.

Lemma edit_works p r editable event e : works_on p r e → works_on p r (editEditor detectedTimezone editable event e).
Proof.
  intros [Hf Hg Ht Hd].
  destruct event as [text|g|t| |]; simpl; try destruct editable; try (by split); split; simpl; try done.
  - intros d. destruct (graphDraft e) as [d0|]; [|done]. intros [= <-]. destruct (Hd d0 eq_refl) as [Hr (q & c & o & Hq & Ho & Hrtc)].
    split; [done|]. exists q, c, o. split_and!; [done..|]. eapply rtc_r; [exact Hrtc|]. by exists g.
  - destruct Ht as (createId & Hrtc). exists createId. eapply rtc_r; [exact Hrtc|]. by exists t.
Qed.

Lemma submitted_works p r e : works_on p r e → works_on p r (with_submitted e).
Proof. by intros []. Qed.

(** Lists that were read stay readable. *)
Definition steadily_ready (event : WorkspaceEvent) (w : Workspace) : Prop :=
  match event with QueriesChange q => keyed q ∧ (ready w = true → capabilitiesReady (capabilityQueries q) = true) | _ => True end.

Lemma between_same_editor w w' : editor w' = editor w → queries w' = queries w → between w → between w'.
Proof. intros He Hq Hb e. rewrite He. unfold ready. rewrite Hq. apply Hb. Qed.

Lemma step_between event w : rendered_well w → steadily_ready event w → between (workspaceStep detectedTimezone event w).1.
Proof.
  intros Hw Hready. pose proof (well_between w Hw) as Hb.
  assert (∀ e e', editor w = Some e → (∀ p r, works_on p r e → works_on p r e') → between (with_editor (Some e') w)) as Hedit.
  { intros e e' He Hkeep e1 [= <-]. destruct (Hb e He) as (p & r & Hon & Hr). exists p, r. split; [by apply Hkeep|done]. }
  destruct event as [q|id|event| | |b|b]; simpl.
  - intros e He. destruct (Hb e He) as (p & r & Hon & Hr). exists p, r. split; [done|]. intros Htrue. by apply Hready, Hr.
  - by eapply between_same_editor.
  - destruct (shownPipeline w) as [p|]; [|done]. destruct (editor w) as [e|] eqn:He; [|done].
    simpl. eapply Hedit; [done|]. intros. by apply edit_works.
  - destruct (shownPipeline w) as [p|]; [|done]. destruct (editor w) as [e|] eqn:He; [|done].
    assert (between (with_editor (Some (with_submitted e)) w)) as Hs by (eapply Hedit; [done|]; intros; by apply submitted_works).
    destruct (negb _ || _); simpl; [done|]. unfold updatePipeline. simpl. destruct (updateInFlight w); [done|].
    by eapply between_same_editor; [..|exact Hs].
  - destruct (shownPipeline w) as [p|]; [|done]. destruct (editor w) as [e|] eqn:He; [|done].
    destruct (confirming e); [|done]. unfold deletePipeline. destruct (deleteInFlight w); [done|]. by eapply between_same_editor.
  - destruct (updateInFlight w) as [[? ?]|]; [|done]. by eapply between_same_editor.
  - destruct (deleteInFlight w); [|done]. by eapply between_same_editor.
Qed.

(** *** Histories *)

(** The requests of a history, each with the workspace it was made in. *)
Fixpoint workspaceLog (events : list ((nat → string) * WorkspaceEvent)) (w : Workspace) : list (Workspace * WorkspaceRequest) :=
  match events with
  | [] => []
  | (createId, event) :: events =>
      let '(w', requests) := workspaceTurn detectedTimezone createId event w in
      ((λ r, (w, r)) <$> requests) ++ workspaceLog events w'
  end.

Fixpoint steadily (events : list ((nat → string) * WorkspaceEvent)) (w : Workspace) : Prop :=
  match events with
  | [] => True
  | (createId, event) :: events =>
      steadily_ready event w ∧ steadily events (workspaceTurn detectedTimezone createId event w).1
  end.

(** An update carries the name, the triggers and, where the components are
    known, the graph that are shown, and keeps the state. *)
Definition update_shown (p : Pipeline) (u : PipelineUpdateRequest) : Prop :=
  (∃ name, trim name ≠ "" ∧ update_name u = Some (trim name)) ∧ update_state u = None ∧
  (∃ t, triggers_stem (triggers p) t ∧ update_triggers u = Some (writablePipelineTriggersFromDraft t)) ∧
  ((update_steps u = None ∧ update_edges u = None) ∨
   ∃ d, stems (pipeline_id p) d ∧ let '(steps, edges) := derivePipelineBuilderGraph d in
     update_steps u = Some steps ∧ update_edges u = Some edges).

Definition request_right (w : Workspace) (r : WorkspaceRequest) : Prop :=
  ∃ p, shownPipeline w = Some p ∧ selectedPipelineId w = Some (pipeline_id p) ∧
  match r with
  | SendsUpdate id u => id = pipeline_id p ∧ updateInFlight w = None ∧ shownEditable w p = true ∧ update_shown p u
  | SendsDelete id => id = pipeline_id p ∧ deleteInFlight w = None ∧ ∃ e, editor w = Some e ∧ confirming e = true
  end.

Lemma shown_selected w p : keyed (queries w) → shownPipeline w = Some p → selectedPipelineId w = Some (pipeline_id p).
Proof.
  intros Hk. unfold shownPipeline. intros (id & Hid & Hp)%bind_Some. destruct (detail_isError _); [done|].
  by rewrite (Hk _ _ Hp).
Qed.

Lemma editorRequest_shown p r e : works_on p r e → trim (draftName e) ≠ "" → update_shown p (editorRequest e).
Proof.
  intros [_ _ Ht Hd] Hname. split; [by exists (draftName e)|]. split; [done|]. split; [by exists (triggerDraft e)|].
  unfold editorRequest. destruct (graphDraft e) as [d|]; [|by left]. right. exists d. split; [by apply Hd|done].
Qed.

Lemma step_requests event w r : keyed (queries w) → rendered_well w →
  r ∈ (workspaceStep detectedTimezone event w).2 → request_right w r.
Proof.
  intros Hk Hw Hr. unfold rendered_well in Hw.
  destruct event as [q|id|event| | |b|b]; simpl in Hr; try by apply elem_of_nil in Hr.
  - destruct (shownPipeline w), (editor w); by apply elem_of_nil in Hr.
  - destruct (shownPipeline w) as [p|] eqn:Hp; [|by apply elem_of_nil in Hr]. destruct Hw as (e & He & Hon). rewrite He in Hr.
    destruct (negb (shownEditable w p) || bool_decide (trim (draftName e) = "")) eqn:Hguard; [by apply elem_of_nil in Hr|].
    apply orb_false_iff in Hguard as [Hed%negb_false_iff Hname%bool_decide_eq_false].
    unfold updatePipeline in Hr. simpl in Hr. destruct (updateInFlight w) eqn:Hu; [by apply elem_of_nil in Hr|].
    apply list_elem_of_singleton in Hr as ->. exists p. split; [done|]. split; [by apply shown_selected|].
    split_and!; try done. by eapply editorRequest_shown.
  - destruct (shownPipeline w) as [p|] eqn:Hp; [|by apply elem_of_nil in Hr]. destruct Hw as (e & He & Hon). rewrite He in Hr.
    destruct (confirming e) eqn:Hc; [|by apply elem_of_nil in Hr].
    unfold deletePipeline in Hr. destruct (deleteInFlight w) eqn:Hdel; [by apply elem_of_nil in Hr|].
    apply list_elem_of_singleton in Hr as ->. exists p. split; [done|]. split; [by apply shown_selected|].
    split_and!; try done. by exists e.
  - destruct (updateInFlight w) as [[? ?]|]; by apply elem_of_nil in Hr.
  - destruct (deleteInFlight w); by apply elem_of_nil in Hr.
Qed.

Lemma step_keyed event w : keyed (queries w) → steadily_ready event w → keyed (queries (workspaceStep detectedTimezone event w).1).
Proof.
  intros Hk Hr. destruct event as [q|id|event| | |b|b]; simpl; try done.
  - apply Hr.
  - by destruct (shownPipeline w), (editor w).
  - destruct (shownPipeline w); [|done]. destruct (editor w); [|done]. destruct (negb _ || _); [done|].
    unfold updatePipeline. simpl. by destruct (updateInFlight w).
  - destruct (shownPipeline w); [|done]. destruct (editor w) as [e|]; [|done]. destruct (confirming e); [|done].
    unfold deletePipeline. by destruct (deleteInFlight w).
  - by destruct (updateInFlight w) as [[? ?]|].
  - by destruct (deleteInFlight w).
Qed.

Lemma log_right events w : keyed (queries w) → rendered_well w → steadily events w →
  Forall (λ x, request_right x.1 x.2) (workspaceLog events w).
Proof.
  revert w. induction events as [|[createId event] events IH]; intros w Hk Hw Hs; [constructor|].
  destruct Hs as [Hready Hs]. simpl. unfold workspaceTurn in *.
  pose proof (step_requests event w) as Hreq. pose proof (step_between event w Hw Hready) as Hb.
  pose proof (step_keyed event w Hk Hready) as Hk'.
  destruct (workspaceStep detectedTimezone event w) as [w' requests]. cbn [fst snd] in *.
  apply Forall_app. split; [|apply IH; [done|by apply rerender_well|done]].
  apply Forall_fmap, Forall_forall. intros r Hr. by apply Hreq.
Qed.

End workspace.
