(* ===== verification/EditorSaves.v ===== *)
(** * Saving an existing pipeline

    What the editor's requests do in the store: nothing that was not edited
    changes, and a pipeline that ran is not saved at all. *)

From S2P Require Import Prelude Js Contracts StateMachine Schemas Graph Database Integrity Statements.
From S2P Require Import RunLogs RunQueue RunCreation Repository RepositoryProofs.
From S2P Require Import BuilderDraft BuilderProofs CachedControlPlane TriggerDraft PipelineEditor.

#[local] Open Scope nat_scope.

(** ** Opening and saving *)

Section saving.
Context `{!Uuids, !Formats}.

Lemma derived_renamed draft name :
  derivePipelineBuilderGraph (markPipelineBuilderDraftSaved (updatePipelineBuilderDraft draft (changing_name name))) =
  derivePipelineBuilderGraph draft.
Proof. done. Qed.

(** The request of an editor in which nothing was edited. *)
Lemma unedited_request createId c p draft u :
  draft_wf draft →
  (∀ s, s ∈ selections draft →
     createPipelineBuilderMetadataResolver (capabilitiesByKind c) (pipelineStepFromSelection s) = Some (metadata s)) →
  steps p ≡ₚ derivePipelineBuilderSteps draft →
  edges p ≡ₚ derivePipelineBuilderEdges (derivePipelineBuilderSteps draft) →
  capabilitiesReady c = true →
  (saveDraft true (mountEditor createId c p)).2 = Some u →
  update_name u = Some (trim (pipeline_name p)) ∧ update_state u = None ∧
  update_steps u = Some (derivePipelineBuilderSteps draft) ∧
  update_edges u = Some (derivePipelineBuilderEdges (derivePipelineBuilderSteps draft)) ∧
  update_triggers u = Some (writablePipelineTriggersFromDraft (createPipelineTriggerDraft createId (triggers p))).
Proof.
  intros Hwf Hres Hs He Hready. unfold saveDraft. simpl. case_bool_decide; [done|]. intros [= <-].
  unfold editorRequest. simpl. rewrite Hready. unfold openedGraph. rewrite (reopen_chain draft) by done. done.
Qed.

(** Opening a pipeline that is a chain of known components in the editor
    and saving it without an edit, when the repository accepts it, keeps
    what it is: its state, its owner, its steps with their configuration,
    its edges and its triggers; the name loses surrounding blanks. *)
Theorem editor_saves_unchanged owner id now createId c draft d p u q d' :
  integrity d → getPipeline owner id d = (Ok (Some p), d) →
  draft_wf draft →
  (∀ s, s ∈ selections draft →
     createPipelineBuilderMetadataResolver (capabilitiesByKind c) (pipelineStepFromSelection s) = Some (metadata s)) →
  steps p ≡ₚ derivePipelineBuilderSteps draft →
  edges p ≡ₚ derivePipelineBuilderEdges (derivePipelineBuilderSteps draft) →
  capabilitiesReady c = true → length (omap manual_enabled (triggers p)) = 1 →
  (saveDraft true (mountEditor createId c p)).2 = Some u →
  Repository.updatePipeline owner id u now d = (Ok (Some q), d') →
  getPipeline owner id d' = (Ok (Some q), d') ∧
  pipeline_name q = trim (pipeline_name p) ∧ pipeline_state q = pipeline_state p ∧ ownerUserId q = ownerUserId p ∧
  createdAt q = createdAt p ∧ steps q ≡ₚ steps p ∧ edges q ≡ₚ edges p ∧
  toWritableTrigger <$> triggers q ≡ₚ toWritableTrigger <$> triggers p.
Proof.
  intros Hd Hget Hwf Hres Hs He Hready Hmanual Hsave Hup.
  destruct (unedited_request _ _ _ _ _ Hwf Hres Hs He Hready Hsave) as (Hname & Hstate & Hsteps & Hedges & Htriggers).
  destruct (updatePipeline_effect _ _ _ _ _ _ _ Hd Hup) as (_ & old & Hold & Hnew & _ & Heff). cbv zeta in Heff.
  rewrite Hget in Hold. injection Hold as <-.
  destruct Heff as (_ & Hn & Hst & Hed & Htr & Hsta & Hown & Hcreated & _).
  unfold mergeUpdate in *. rewrite Hname, Hsteps, Hedges, Htriggers in *. rewrite Hstate in Hsta. simpl in *.
  split_and!; try done.
  - by rewrite Hst, Hs.
  - by rewrite Hed, He.
  - rewrite Htr. by apply writable_opened.
Qed.

(** ** Pipelines that ran *)

(** A step of a run refers to a component of the pipeline. *)
Definition has_run (id : string) (d : Database) : Prop :=
  ∃ c s, c ∈ pipelineComponents d ∧ c_pipelineId c = id ∧ s ∈ runSteps d ∧ s_componentId s = c_id c.

Lemma replaceGraph_refused row replacement update d :
  has_run (p_id row) d → update_steps update ≠ None →
  ∃ e d', replaceGraphRecords row replacement update d = (Throw e, d').
Proof.
  intros (c & s & Hc & Hp & Hs & Heq) Hsteps. unfold replaceGraphRecords.
  destruct (update_steps update) as [st|]; [|done]. simpl.
  rewrite bind_run. unfold deleteEdges, puts. simpl. rewrite bind_run. unfold replaceComponents. rewrite bind_run, deleteComponents_run.
  rewrite decide_False; [by eexists _, _|].
  intros Hfree. unfold unreferenced in Hfree. simpl in Hfree. rewrite Forall_forall in Hfree.
  specialize (Hfree c Hc Hp). rewrite Forall_forall in Hfree. apply (Hfree s Hs). by rewrite Heq.
Qed.

Lemma updatePipeline_throws owner id u now d e d' :
  Repository.updatePipeline owner id u now d = (Throw e, d') → d' = d.
Proof.
  assert (rejects (λ x, x = d) (Repository.updatePipeline owner id u now)) as Hrejects.
  { unfold Repository.updatePipeline. repeat (apply rejects_lift_bind; intros ?). apply rejects_transaction. }
  by apply Hrejects.
Qed.

(** An update of the steps of such a pipeline. *)
Lemma update_refused owner id u now d : has_run id d → update_steps u ≠ None →
  let '(o, d') := Repository.updatePipeline owner id u now d in d' = d ∧ ∀ p, o ≠ Ok (Some p).
Proof.
  intros Hran Hsteps. destruct (Repository.updatePipeline owner id u now d) as [o d'] eqn:Hup.
  assert (∀ p, o ≠ Ok (Some p)) as Hno.
  { intros p ->. apply updatePipeline_ok in Hup as (_ & _ & _ & Hm).
    apply updatePipelineInTransaction_ok in Hm as (row & old & g & _ & _ & _ & _ & _ & Hm). cbv zeta in Hm.
    destruct Hm as (_ & Hhead & Hrep & _).
    assert (p_id (graph_pipeline g) = id) as Hid.
    { apply head_elem_of, list_elem_of_fmap in Hhead as (r & -> & [<- _]%list_elem_of_filter). done. }
    edestruct (replaceGraph_refused (graph_pipeline g)) as (e & d1 & He); [|exact Hsteps|rewrite Hrep in He; discriminate He].
    by rewrite Hid. }
  split; [|done]. destruct o as [[p|]|e].
  - by destruct (Hno p).
  - by eapply updatePipeline_none.
  - by eapply updatePipeline_throws.
Qed.

Lemma started_ran p r now d d' : sourcesOf p d ≠ [] → startedWith p r now d d' → has_run p d'.
Proof.
  intros Hsrc (newSteps & ev & js & -> & Hids & _). destruct (sourcesOf p d) as [|c rest] eqn:Hc; [done|].
  assert (c ∈ componentsOf p d) as Hin.
  { assert (c ∈ sourcesOf p d) as Hsource by (rewrite Hc; left). unfold sourcesOf in Hsource. by apply list_elem_of_filter in Hsource as [_ ?]. }
  assert (c_id c ∈ s_componentId <$> newSteps) as (s & Hs & Hin')%list_elem_of_fmap
    by (rewrite Hids; by apply list_elem_of_fmap_2).
  apply list_elem_of_filter in Hin as [Hp Hin]. exists c, s. simpl. split_and!; try done.
  apply elem_of_app. by right.
Qed.

(** C13: once a run of a pipeline has started, the wizard and, where its
    components are known, the editor can not save it any more: whatever is
    edited, if only the name, the request carries the steps, the components
    of which the steps of the run hold on to, so the update is refused and
    nothing is stored. A served run request for a pipeline without an active
    run leaves it so. *)
Theorem ran_pipeline_is_not_saved `{!UuidLaws} owner id now d :
  (has_run id d →
     (∀ draft, let '(o, d') := Repository.updatePipeline owner id (createPipelineUpdateRequestFromDraft draft) now d in
        d' = d ∧ ∀ p, o ≠ Ok (Some p)) ∧
     (∀ e, graphDraft e ≠ None →
        let '(o, d') := Repository.updatePipeline owner id (editorRequest e) now d in d' = d ∧ ∀ p, o ≠ Ok (Some p))) ∧
  (∀ request expires out d', request_pipelineId request = id → integrity d → RunCreation.fresh d → servable request now expires d →
     (∀ a, a ∈ runs (releasedRuns id d) → ¬ activeOf id a) →
     createPipelineRun request now d = (Ok out, d') → has_run id d').
Proof.
  split.
  - intros Hran. split; [intros draft; by apply update_refused|]. intros e He. apply update_refused; [done|].
    unfold editorRequest. by destruct (graphDraft e).
  - intros request expires out d' <- Hd Hf Hs Hidle Hrun.
    destruct (createPipelineRun_effect request now expires d Hd Hf Hs) as (_ & Hwaiting & Hfree). cbv zeta in *.
    pose proof (servable_source _ _ _ _ Hs) as Hsrc.
    destruct (order_by waitingOrder _) as [|w rest] eqn:Hw.
    + destruct (Hfree Hidle eq_refl) as (d1 & Hst & Heq). rewrite Heq in Hrun. injection Hrun as _ <-.
      by refine (started_ran _ _ _ _ d1 _ Hst).
    + destruct (Hwaiting Hidle w rest eq_refl) as (d1 & Hst & Heq). rewrite Heq in Hrun. injection Hrun as _ <-.
      assert (has_run (request_pipelineId request) d1) as Hran by (by refine (started_ran _ _ _ _ d1 _ Hst)). exact Hran.
Qed.
End saving.
