(* ===== verification/Scenario.v ===== *)
(** * Concrete stores

    Instances of the parameters and stores on which the theorems about the
    database are run: a pipeline of one Source and one Export at rest, with a
    run in progress, with a finished run and a waiting one, and with a
    schedule that is due. *)

From S2P Require Import Prelude Js Contracts StateMachine Schemas Portability Graph Database.
From S2P Require Import Integrity Statements Repository RepositoryProofs RunLogs RunQueue.
From S2P Require Import RunQueueProofs RunCreation.

(** ** Identifiers in unary: the generator never repeats itself *)

Fixpoint tally (n : nat) : string := match n with 0 => "" | S n => String "1" (tally n) end.

Lemma tally_length n : String.length (tally n) = n.
Proof. induction n; simpl; congruence. Qed.

#[export] Instance tally_uuids : Uuids :=
  {| uuid n := example_uuid "00" +:+ tally n |}.

#[export] Instance tally_laws : UuidLaws.
Proof.
  split; [|done]. intros m n Heq%String.app_inj. by rewrite <-(tally_length m), Heq, tally_length.
Qed.

(** A schedule library for one period: every minute. *)
#[export] Instance minutely_cron : CronParser :=
  {| nextOccurrence _ _ after := Ok (60000 * (after / 60000 + 1))%Z |}.

(** ** Rows *)

Definition owner_id : string := example_uuid "20".
Definition other_owner_id : string := example_uuid "21".
Definition pipeline_10 : string := example_uuid "10".
Definition trigger_30 : string := example_uuid "30".

Definition userRow (id : string) : UserRow :=
  {| u_id := id; u_email := id; u_username := id; u_passwordHash := None; u_emailVerified := true;
     u_isAdmin := false; u_requiresPasswordChange := false; u_createdAt := 1; u_updatedAt := 1 |}.

Definition componentRow (n : string) (kind : ComponentKind.t) : ComponentRow :=
  {| c_id := example_uuid n; c_pipelineId := pipeline_10; c_kind := kind; c_componentType := "csv";
     c_componentVersion := "v1"; c_configurationValues := [("path", JString "a.csv")];
     c_secretBindings := [] |}.

Definition runRow (n : string) (state : RunState.t) (isActive : bool) (scheduledFor : option Z) : RunRow :=
  {| r_id := example_uuid n; r_pipelineId := pipeline_10; r_triggerId := None; r_contractVersion := "v1";
     r_state := state; r_isActive := isActive; r_scheduledFor := scheduledFor; r_createdAt := 10;
     r_expiresAt := 1000; r_startedAt := None; r_completedAt := Some 20%Z;
     r_cancellationRequestedAt := None; r_cancellationRequestedByUserId := None; r_warningCount := 0 |}.

Definition scheduleRow (nextRunAt : option Z) : TriggerRow :=
  {| t_id := trigger_30; t_pipelineId := pipeline_10; t_type := TriggerType.schedule; t_enabled := true;
     t_cron := Some "* * * * *"; t_timezone := Some "UTC"; t_nextRunAt := nextRunAt;
     t_lastClaimedAt := None; t_createdAt := 1; t_updatedAt := 1 |}.

Definition store (state : PipelineState.t) (l : list RunRow) (triggers : list TriggerRow) : Database :=
  {| users := [userRow owner_id; userRow other_owner_id];
     pipelines := [{| p_id := pipeline_10; p_ownerUserId := owner_id; p_contractVersion := "v1";
                      p_name := "Daily"; p_state := state; p_createdAt := 5; p_updatedAt := 6 |}];
     pipelineComponents := [componentRow "01" ComponentKind.source; componentRow "02" ComponentKind.export];
     pipelineEdges := [{| e_pipelineId := pipeline_10; e_fromComponentId := example_uuid "01";
                          e_toComponentId := example_uuid "02" |}];
     pipelineTriggers := triggers; runs := l; runLogs := []; runSteps := []; jobs := [];
     operationalEvents := []; artifacts := []; datasets := []; stagedUploads := [];
     sourceCheckpoints := []; settings := []; clock := 100; nextId := 0 |}.

Definition idle : Database := store PipelineState.enabled [] [].
Definition drafted : Database := store PipelineState.draft [] [].
Definition busy : Database := store PipelineState.enabled [runRow "40" RunState.running true None] [].
Definition backlog : Database := store PipelineState.enabled
  [runRow "40" RunState.succeeded true None; runRow "41" RunState.queued false None;
   runRow "42" RunState.queued false (Some 5%Z)] [].
Definition scheduled : Database := store PipelineState.enabled [] [scheduleRow (Some 60000%Z)].

(** ** The stores are consistent *)

Lemma fk_decidable {A B K} `{EqDecision K} (child : list A) (key : A → option K) (parent : list B)
    (id : B → K) :
  Forall (λ a, match key a with Some k => k ∈ id <$> parent | None => True end) child →
  fk child key parent id.
Proof. rewrite Forall_forall. intros Hc a k Ha Hk. specialize (Hc a Ha). by rewrite Hk in Hc. Qed.

Ltac integrity_of d :=
  unfold d; split;
  match goal with
  | |- fk ?c ?k _ _ => apply fk_decidable; repeat constructor; decide_fact
  | |- _ => decide_fact
  end.

Lemma idle_integrity : integrity idle.
Proof. integrity_of idle. Qed.
Lemma drafted_integrity : integrity drafted.
Proof. integrity_of drafted. Qed.
Lemma busy_integrity : integrity busy.
Proof. integrity_of busy. Qed.
Lemma backlog_integrity : integrity backlog.
Proof. integrity_of backlog. Qed.
Lemma scheduled_integrity : integrity scheduled.
Proof. integrity_of scheduled. Qed.
