(* ===== verification/StoreWitnesses.v ===== *)
(** * The store theorems at concrete inputs

    Each theorem about the repositories, the run queue and the actions
    applied to one of the stores of [Scenario]. *)

From S2P Require Import Prelude Js Contracts StateMachine Compatibility Executable Schemas.
From S2P Require Import Portability Graph Database Integrity Statements Repository RepositoryProofs.
From S2P Require Import RunLogs RunQueue RunQueueProofs RunCreation Actions Frames QueueClaims Scenario.

Definition csv_step (n : string) (kind : ComponentKind.t) : PipelineStep :=
  {| step_id := example_uuid n; step_kind := kind; componentType := "csv"; componentVersion := "v1";
     configuration := {| values := []; secretBindings := [] |} |}.

Definition weekly : PipelineCreateRequest :=
  {| create_contractVersion := "v1";
     create_edges := [{| fromStepId := example_uuid "51"; toStepId := example_uuid "52" |}];
     create_name := "Weekly";
     create_steps := [csv_step "51" ComponentKind.source; csv_step "52" ComponentKind.export];
     create_triggers := [WritableSchedule "0 0 * * 1" true "UTC"] |}.

Definition rename_request : PipelineUpdateRequest :=
  {| update_edges := None; update_name := Some "Nightly"; update_state := Some PipelineState.enabled;
     update_steps := None; update_triggers := Some [WritableManual true] |}.

Lemma createPipeline_then_get_witness :
  ∃ p d', createPipeline owner_id weekly idle = (Ok p, d') ∧
    getPipeline owner_id (pipeline_id p) d' = (Ok (Some p), d') ∧ pipeline_state p = PipelineState.draft.
Proof.
  assert (is_ok (createPipeline owner_id weekly idle).1 = true) as Hok by (vm_compute; reflexivity).
  destruct (createPipeline owner_id weekly idle) as [[p|e] d'] eqn:E; [|discriminate Hok].
  exists p, d'. split; [reflexivity|].
  destruct (createPipeline_then_get owner_id weekly idle p d' idle_integrity E)
    as (Hget & _ & _ & _ & Hst & _). split; [exact (Hget owner_id)|exact Hst].
Defined.

(** A graph whose Source reaches no Export. *)
Definition disconnected : PipelineCreateRequest :=
  {| create_contractVersion := "v1"; create_edges := []; create_name := "Weekly";
     create_steps := create_steps weekly; create_triggers := [] |}.

Lemma createPipeline_atomic_witness :
  ∃ e d', createPipeline owner_id disconnected idle = (Throw e, d') ∧ d' = idle.
Proof.
  assert (is_ok (createPipeline owner_id disconnected idle).1 = false) as Hok by (vm_compute; reflexivity).
  destruct (createPipeline owner_id disconnected idle) as [[p|e] d'] eqn:E; [discriminate Hok|].
  exists e, d'. split; [reflexivity|]. exact (createPipeline_atomic owner_id disconnected idle e d' E).
Defined.

Lemma updatePipeline_locked_witness :
  updatePipeline owner_id pipeline_10 rename_request 200 busy =
    (Throw (PipelineStateTransitionError
       "Pipeline configuration is locked while a run is queued or active."), busy).
Proof.
  apply (updatePipeline_locked owner_id pipeline_10 rename_request 200 busy
    (runRow "40" RunState.running true None)); [reflexivity|reflexivity|reflexivity| | |reflexivity|].
  - eexists. split; [left|]. split; reflexivity.
  - left.
  - decide_fact.
Defined.


Lemma idle_scoped : execution_scoped idle.
Proof.
  split; cbn [jobs operationalEvents artifacts datasets runSteps idle store]; intros;
    match goal with Hin : _ ∈ [] |- _ => by apply elem_of_nil in Hin end.
Qed.

Lemma deletePipeline_spec_witness :
  ∃ d', deletePipeline owner_id pipeline_10 idle = (Ok true, d') ∧ pipelineView pipeline_10 d' = ([], [], [], []).
Proof.
  destruct (deletePipeline_spec owner_id pipeline_10 idle idle_integrity idle_scoped) as (_ & _ & _ & Hdel).
  destruct Hdel as (d' & Hrun & Hview & _).
  - eexists. split; [left|]. split; reflexivity.
  - intros (r & Hr & _). by apply elem_of_nil in Hr.
  - exists d'. split; [exact Hrun|exact Hview].
Defined.


Lemma exclusive_without_jobs d : jobs d = [] → exclusive d.
Proof. intros Hj j Hin. rewrite Hj in Hin. by apply elem_of_nil in Hin. Qed.

Lemma scheduler_keeps_exclusive_witness :
  let d' := (promoteQueuedPipelineRuns 50 (NInt 10) [] backlog).2 in
  integrity d' ∧ exclusive d' ∧ jobs d' ≠ [].
Proof.
  intros d'.
  destruct (scheduler_keeps_exclusive backlog d' backlog_integrity
    (exclusive_without_jobs backlog eq_refl)) as (Hi & He & _).
  - right. left. exists 50%Z, (NInt 10), []. reflexivity.
  - split; [exact Hi|split; [exact He|vm_compute; discriminate]].
Defined.

Lemma enablePipelineForOwner_spec_witness :
  enablePipelineForOwner owner_id pipeline_10 [] 7 busy = (Throw lockedConflict, busy).
Proof.
  assert (is_uuid owner_id = true) as Ho by reflexivity.
  assert (is_uuid pipeline_10 = true) as Hp by reflexivity.
  destruct (enablePipelineForOwner_spec owner_id pipeline_10 [] 7 busy Ho Hp) as (_ & Hl & _).
  apply Hl.
  - eexists. split; [left|]. split; reflexivity.
  - eexists. split; [left|]. split; [reflexivity|decide_fact].
Defined.

(** ** Requests *)

Definition manual_request : PipelineRunRequest :=
  {| request_pipelineId := pipeline_10; request_scheduledFor := None; request_triggerId := None |}.

Lemma fresh_without_rows d :
  r_id <$> runs d = [] → runSteps d = [] → jobs d = [] → operationalEvents d = [] → fresh d.
Proof. intros E1 E2 E3 E4. split; rewrite ?E1, ?E2, ?E3, ?E4; intros n _; apply not_elem_of_nil. Qed.

Lemma createPipelineRun_total_witness :
  let run := requestedRun manual_request true 50 31536000050 (releasedRuns pipeline_10 idle) in
  ∃ d', createPipelineRun manual_request 50 idle = (Ok (created manual_request 1 false run), d') ∧
    startedWith pipeline_10 (r_id run) 50 (recordedRun run 50 (releasedRuns pipeline_10 idle)) d'.
Proof.
  intros run.
  assert (servable manual_request 50 31536000050 idle) as Hs.
  { split; [reflexivity| |vm_compute; discriminate|exact I|].
    - eexists. split; [left|]. split; reflexivity.
    - exists 365%Z. split; vm_compute; reflexivity. }
  destruct (createPipelineRun_total manual_request 50 31536000050 idle idle_integrity
    (fresh_without_rows idle eq_refl eq_refl eq_refl eq_refl) Hs) as (_ & _ & Hgo).
  destruct Hgo as (d' & Hst & Hrun).
  - intros a Ha. by apply elem_of_nil in Ha.
  - vm_compute. reflexivity.
  - exists d'. split; [exact Hrun|exact Hst].
Defined.

(** ** Claims *)

#[export] Instance minutely_later : CronLaws.
Proof. intros cron timezone after next [= <-]. by apply Z.mul_succ_div_gt. Qed.


(** Two passes over one overdue schedule. *)
Lemma claims_never_repeat_witness :
  ∃ c1 d1 c2 d2, claimDueSchedules 200000 (NInt 5) [] scheduled = (Ok [c1], d1) ∧
    claimDueSchedules 200000 (NInt 5) [] d1 = (Ok [c2], d2) ∧
    claimed_scheduledFor c2 = claimed_nextRunAt c1.
Proof.
  assert (match claimDueSchedules 200000 (NInt 5) [] scheduled with
    | (Ok [c1], d1) => match claimDueSchedules 200000 (NInt 5) [] d1 with
      | (Ok [c2], _) => bool_decide (claimed_triggerId c1 = claimed_triggerId c2) | _ => false end
    | _ => false end = true) as Hok by (vm_compute; reflexivity).
  destruct (claimDueSchedules 200000 (NInt 5) [] scheduled) as [[[|c1 [|]]|e] d1] eqn:E1;
    [discriminate Hok| |discriminate Hok|discriminate Hok].
  destruct (claimDueSchedules 200000 (NInt 5) [] d1) as [[[|c2 [|]]|e] d2] eqn:E2;
    [discriminate Hok| |discriminate Hok|discriminate Hok].
  apply bool_decide_eq_true in Hok. exists c1, d1, c2, d2. split; [reflexivity|]. split; [exact E2|].
  exact (proj1 (claims_never_repeat 200000 (NInt 5) [] 200000 (NInt 5) [] scheduled [c1] d1 [c2] d2 c1 c2
    scheduled_integrity E1 E2 (list_elem_of_here _ _) (list_elem_of_here _ _) Hok)).
Defined.

(** The store after the run of [idle] was requested has a job. *)
Definition queued_job : Database := (createPipelineRun manual_request 50 idle).2.

Lemma claimNextJob_spec_witness :
  ∃ j d', claimNextJob "worker-1" 60 [] queued_job = (Ok (Some (claimJob "worker-1" 60 j)), d') ∧
    claimable 60 [] queued_job j.
Proof.
  assert (integrity queued_job) as Hi by (apply createPipelineRun_integrity, idle_integrity).
  assert (Forall (λ j, int4 (j_attempt j + 1)) (jobs queued_job)) as Ha by decide_fact.
  assert (is_ok (claimNextJob "worker-1" 60 [] queued_job).1 &&
    match (claimNextJob "worker-1" 60 [] queued_job).1 with Ok (Some _) => true | _ => false end = true)
    as Hok by (vm_compute; reflexivity).
  destruct (claimNextJob_spec "worker-1" 60 [] queued_job Hi Ha) as [[_ Hn]|(j & Hj & _ & Hr & _)].
  - rewrite Hn in Hok. discriminate Hok.
  - exists j. eexists. split; [exact Hr|exact Hj].
Defined.

Lemma schedules_never_fire_witness :
  claimDueSchedules 100000 (NInt 5) [] (createPipeline owner_id weekly idle).2 =
    (Ok [], (createPipeline owner_id weekly idle).2).
Proof.
  apply (schedules_never_fire idle); [constructor| |unfold MAX_SAFE_INTEGER; lia].
  apply rtc_once, op_create.
Defined.
