(* ===== verification/ServiceWitnesses.v ===== *)
(** * The service theorems at concrete inputs

    Each theorem about retention, the garbage collector, uploads, documents
    and the routes applied to a concrete store, file tree or request. *)

From S2P Require Import Prelude Js Contracts StateMachine Schemas Http Documents Portability Graph Database.
From S2P Require Import Integrity Statements Repository RepositoryProofs RunLogs RunQueue RunQueueProofs.
From S2P Require Import RunCreation Actions Paths Files Retention Collector CollectorProofs Uploads UploadProofs.
From S2P Require Import SchedulerService PipelineRoutes PipelineRouteProofs ControlPlane Scenario StoreWitnesses.

(** ** Instances *)

Lemma tally_text n : all_chars is_uuid_char (tally n) = true.
Proof. induction n as [|n IH]; [done|exact IH]. Qed.

#[export] Instance tally_uuid_text : UuidText.
Proof.
  split; [|done]. intros n. change (uuid n) with (example_uuid "00" +:+ tally n).
  by rewrite all_chars_app, tally_text.
Qed.

(** An operating system that refuses nothing. *)
#[export] Instance willing : FileSystem := {| rm_error _ := None; write_error _ := None |}.

Definition srv : list string := ["srv"; "storage"].
Lemma srv_plain : Forall plain_segment srv.
Proof. repeat (apply Forall_cons; split; [done|]). apply Forall_nil. done. Qed.

(** A finished run with an expired artifact and dataset, and an upload that
    is still fresh. *)
Definition artifact_50 : ArtifactRow :=
  {| a_id := example_uuid "50"; a_pipelineId := pipeline_10; a_runId := example_uuid "40"; a_format := "csv";
     a_contentType := None; a_fileName := "out.csv"; a_sizeBytes := 10; a_storageKind := StorageKind.local;
     a_storageLocation := "artifacts/out.csv"; a_encrypted := false; a_createdAt := 20; a_expiresAt := 500 |}.
Definition upload_60 : StagedUploadRow :=
  {| up_id := example_uuid "60"; up_ownerUserId := owner_id; up_storageKind := StorageKind.local;
     up_storageLocation := "imports/uploads/a.csv"; up_createdAt := 20; up_expiresAt := 900 |}.

Definition attic : Database :=
  set_stagedUploads [upload_60] (set_artifacts [artifact_50]
    (store PipelineState.enabled [runRow "40" RunState.succeeded false None] [])).

Definition attic_world : World :=
  {| database := attic;
     files := list_to_set [srv ++ ["artifacts"; "out.csv"]; srv ++ ["imports"; "uploads"; "a.csv"]] |}.

(** ** Retention *)

Lemma listExpired_pages_witness :
  ∃ page, listExpiredArtifacts 600 (NInt 10) attic = (Ok page, attic) ∧ artifact_50 ∈ page.
Proof.
  destruct (listExpired_pages 600 (NInt 10) 10 attic) as ((page & Hrun & Hpage) & _); [reflexivity|].
  exists page. split; [exact Hrun|].
  assert (page = [artifact_50]) as -> by (vm_compute in Hrun; by injection Hrun). left.
Defined.

Lemma attic_scoped : run_scoped attic.
Proof. split; intros; repeat match goal with Hin : _ ∈ _ |- _ => by apply elem_of_nil in Hin end. Qed.


(** ** The garbage collector *)


Lemma retentionCleanup_accounts_witness :
  ∃ summary w', retentionCleanup (RetentionStorage0 := LocalRetentionStorage srv) databaseRepository (NInt 10) 600
    attic_world = (Ok summary, w') ∧ accounted summary ∧ candidates summary = 1.
Proof.
  exact (retentionCleanup_accounts (RetentionStorage0 := LocalRetentionStorage srv) databaseRepository (NInt 10) 600
    attic_world [artifactRecord artifact_50] attic_world [] attic_world [] attic_world eq_refl eq_refl eq_refl).
Defined.

Lemma collector_leaves_no_orphans_witness :
  ∃ summary w', retentionCleanup (RetentionStorage0 := LocalRetentionStorage srv) databaseRepository (NInt 10) 600
    attic_world = (Ok summary, w') ∧ files w' ⊆ files attic_world.
Proof.
  destruct (collector_leaves_no_orphans srv (NInt 10) 10 600 attic_world) as
    (as_ & ds & us & summary & w' & _ & _ & _ & Hrun & Hsub & _); [reflexivity| |].
  - decide_fact.
  - exists summary, w'. split; [exact Hrun|exact Hsub].
Defined.

(** ** Documents *)

Lemma requests_roundtrip_witness :
  safeParse decodeCreateRequest pipelineCreateRequestSchema (encodeCreateRequest weekly) = Some weekly.
Proof. destruct requests_roundtrip as [Hcreate _]. apply Hcreate. reflexivity. Defined.

(** ** Uploads *)

Lemma stored_where_collected_witness :
  ∃ w', Uploads.store srv "../../etc/Report.CSV" attic_world =
    (Ok {| sourcePath := "uploads/" +:+ uuid 0 +:+ ".csv"; stored_location := "imports/uploads/" +:+ uuid 0 +:+ ".csv" |}, w').
Proof.
  assert (is_ok (Uploads.store srv "../../etc/Report.CSV" attic_world).1 = true) as Hok by (vm_compute; reflexivity).
  destruct (stored_where_collected srv srv_plain "../../etc/Report.CSV" attic_world) as (_ & _ & Hstore).
  destruct (Uploads.store srv "../../etc/Report.CSV" attic_world) as [[stored|e] w']; [|discriminate Hok].
  destruct Hstore as (-> & _). exists w'. reflexivity.
Defined.

Definition report : UploadedFile := {| file_name := "report.CSV"; file_size := 10; file_byteLength := 10 |}.

Lemma uploadRoute_spec_witness :
  ∃ response, uploadRoute srv (Some owner_id) (Ok (Some (fileEntry report))) 1000 attic_world =
    (Ok (jsonResponse 201 (accepted response)), uploaded srv owner_id report 1000 attic_world).
Proof.
  destruct (uploadRoute_spec srv srv_plain (Some owner_id) (Ok (Some (fileEntry report))) 1000 attic_world)
    as (_ & _ & _ & Hgo).
  destruct (Hgo owner_id report eq_refl eq_refl) as [_ Hstored].
  - split; [vm_compute; discriminate|]. split; [reflexivity|vm_compute; discriminate].
  - eexists. apply Hstored; [reflexivity|decide_fact..].
Defined.

Definition reader (name : string) : Pipeline :=
  {| contractVersion := "v1"; pipeline_id := pipeline_10; ownerUserId := owner_id; pipeline_name := "Daily";
     pipeline_state := PipelineState.draft; createdAt := 5; updatedAt := 6;
     steps := [{| step_id := example_uuid "01"; step_kind := ComponentKind.source; componentType := "csv";
       componentVersion := "v1"; configuration :=
         {| values := [("path", JString (upload_path name))]; secretBindings := [] |} |}];
     edges := []; triggers := [] |}.


(** ** Routes *)

Lemma controlPlane_isolates_owners_witness :
  let history := [(Some (other_owner_id, false), 100%Z, DeletePipeline pipeline_10);
                  (Some (other_owner_id, false), 101%Z, CreatePipeline (createMessage weekly))] in
  ∃ p, getPipeline owner_id pipeline_10 (serve [] (throughScheduler "t" "t") history idle) =
    (Ok (Some p), serve [] (throughScheduler "t" "t") history idle).
Proof.
  intros history.
  assert (match getPipeline owner_id pipeline_10 idle with (Ok (Some _), _) => true | _ => false end = true) as Hok
    by (vm_compute; reflexivity).
  destruct (getPipeline owner_id pipeline_10 idle) as [[[p|]|e] d'] eqn:E; [|discriminate Hok|discriminate Hok].
  exists p. apply (controlPlane_isolates_owners [] "t" "t" history idle owner_id pipeline_10 p idle_integrity).
  - rewrite E. f_equal. rewrite getPipeline_run in E. apply (f_equal snd) in E. symmetry. exact E.
  - intros session now call Hin. apply elem_of_cons in Hin as [Heq|Hin]; [|apply list_elem_of_singleton in Hin as Heq];
      injection Heq as -> _ _; discriminate.
Defined.
