(* ===== verification/BuilderWitnesses.v ===== *)
(** * A draft built, saved and reopened

    The properties of the pipeline builder applied to a concrete session. *)

From S2P Require Import Prelude Js Contracts Schemas Portability Graph BuilderDraft BuilderProofs.
From S2P Require Import Database Integrity Repository RepositoryProofs Scenario.

Definition component_of (kind : ComponentKind.t) : ComponentMetadata :=
  {| meta_kind := kind; meta_type := "csv"; meta_version := "v1"; displayNameKey := "csv.name";
     descriptionKey := "csv.description"; configFields := []; inputFamilies := []; outputFamilies := [] |}.

Definition offered (kind : ComponentKind.t) : option (list ComponentMetadata) := Some [component_of kind].

(** A named draft with a Source and a Transform, and the same once an Export
    is chosen and the Source configured. *)
Definition started : PipelineBuilderDraft :=
  addPipelineBuilderTransform
    (setPipelineBuilderSource
       (updatePipelineBuilderDraft createEmptyPipelineBuilderDraft (changing_name " Weekly "))
       (component_of ComponentKind.source) (example_uuid "51"))
    (component_of ComponentKind.transform) (example_uuid "52").

Definition finished : PipelineBuilderDraft :=
  setPipelineBuilderSourceValues
    (setPipelineBuilderExport started (component_of ComponentKind.export) (example_uuid "53"))
    [("path", JString "a.csv")].

Ltac fresh_here := split; [split; [done|reflexivity]|apply (bool_decide_unpack _); vm_compute; exact I].

Lemma started_edited : rtc edit createEmptyPipelineBuilderDraft started.
Proof.
  eapply rtc_l; [apply (edit_name _ " Weekly ")|].
  eapply rtc_l; [apply (edit_source _ (component_of ComponentKind.source) (example_uuid "51")); [done|fresh_here]|].
  apply rtc_once, edit_add; [done|fresh_here].
Qed.

Lemma finished_edited : rtc edit createEmptyPipelineBuilderDraft finished.
Proof.
  etransitivity; [apply started_edited|].
  eapply rtc_l; [apply (edit_export _ (component_of ComponentKind.export) (example_uuid "53")); [done|fresh_here]|].
  apply rtc_once, edit_source_values.
Qed.

(** The first draft can be saved as far as the wizard is concerned, and is
    refused; the second is accepted. *)
Lemma builder_saves_pipelines_witness :
  isPipelineBuilderDraftPersistable started = true ∧
  (∃ message, validatePipelineGraph (createPipelineCreateRequestFromDraft started) =
     Throw (InvalidPipelineTopologyError message)) ∧
  validatePipelineGraph (createPipelineCreateRequestFromDraft finished) = Ok ().
Proof.
  split; [reflexivity|]. split.
  - exact (proj2 (proj2 (builder_saves_pipelines started started_edited)) eq_refl).
  - apply (proj1 (proj2 (builder_saves_pipelines finished finished_edited))). reflexivity.
Defined.

Lemma saved_draft_reopens_witness :
  ∃ p d', createPipeline owner_id (createPipelineCreateRequestFromDraft finished) idle = (Ok p, d') ∧
    createPipelineBuilderDraftFromPipeline p (createPipelineBuilderMetadataResolver offered) =
      Some (Some (markPipelineBuilderDraftSaved
        (updatePipelineBuilderDraft finished (changing_name "Weekly")))).
Proof.
  assert (is_ok (createPipeline owner_id (createPipelineCreateRequestFromDraft finished) idle).1 = true) as Hok
    by (vm_compute; reflexivity).
  destruct (createPipeline owner_id _ idle) as [[p|e] d'] eqn:E; [|discriminate Hok].
  exists p, d'. split; [reflexivity|].
  destruct (saved_draft_reopens owner_id finished (createPipelineBuilderMetadataResolver offered) idle p d'
    finished_edited idle_integrity E) as (_ & _ & Hopen).
  - apply (proj1 (Forall_forall _ _)). repeat constructor.
  - exact (Hopen p eq_refl (Permutation_refl _) (Permutation_refl _)).
Defined.

(** A graph that branches opens as one of its paths. *)
Definition branched : Pipeline :=
  {| contractVersion := "v1"; pipeline_id := "p"; ownerUserId := "o"; pipeline_name := "Diamond";
     pipeline_state := PipelineState.draft; createdAt := 0; updatedAt := 0;
     steps := create_steps diamond; edges := create_edges diamond; triggers := [] |}.

Lemma reopening_terminates_witness :
  (∃ opened, createPipelineBuilderDraftFromPipeline branched (createPipelineBuilderMetadataResolver offered) =
     Some opened) ∧
  selection_id <$> selections (default createEmptyPipelineBuilderDraft (default None
    (createPipelineBuilderDraftFromPipeline branched (createPipelineBuilderMetadataResolver offered)))) =
    ["s"; "r"; "e"].
Proof.
  split; [|reflexivity].
  assert (plain_ids diamond) as Hplain.
  { unfold plain_ids. apply (proj1 (Forall_forall _ _)). repeat constructor; done. }
  destruct (reopening_terminates diamond branched (createPipelineBuilderMetadataResolver offered) Hplain
    eq_refl eq_refl eq_refl) as (opened & Hopened & _).
  exists opened. exact Hopened.
Defined.
