(* ===== verification/AccountWitnesses.v ===== *)
(** * The account theorems at concrete inputs

    A hashing that can be evaluated, deployments at different stages of
    their first run, and the theorems about accounts and tokens applied to
    them. *)

From S2P Require Import Prelude Js Contracts Schemas Http Database PipelineRoutes ControlPlane.
From S2P Require Import Accounts AccountProofs AccountHistory TokenProofs Scenario.

#[export] Instance plain_hashing : PasswordHashing := {| hashPassword _ p := "hash:" +:+ p |}.

#[export] Instance plain_verification : PasswordVerification.
Proof.
  refine {| verifyPassword h q := bool_decide (h = "hash:" +:+ q) |}.
  intros salt p q. rewrite bool_decide_eq_true. cbn [hashPassword plain_hashing].
  split; [by intros Heq%(inj (String.append "hash:"))|by intros ->].
Defined.

#[export] Instance plain_digest : Sha256 := {| sha256hex t := t |}.

(** A deployment nobody has opened yet. *)
Definition installed : Directory :=
  {| tables := set_users [] (store PipelineState.draft [] []); accounts := []; sessions := []; apiTokens := [] |}.

(** The sign-in page was served. *)
Definition first_admin : AccountEvent := FirstAdmin defaultIdentity DEFAULT_ADMIN_PASSWORD 0.
Definition seeded : Directory := performAll [] "" "" [first_admin] installed.
Definition admin_row : UserRow :=
  {| u_id := uuid 0; u_email := DEFAULT_ADMIN_EMAIL; u_username := DEFAULT_ADMIN_USERNAME; u_passwordHash := None;
     u_emailVerified := true; u_isAdmin := true; u_requiresPasswordChange := true; u_createdAt := 100; u_updatedAt := 100 |}.

Lemma seeded_users : users (tables seeded) = [admin_row].
Proof. reflexivity. Qed.

Lemma seeded_keyed : users_keyed seeded.
Proof. split; decide_fact. Qed.

(** Two refused attempts to keep the published password, and a page call. *)
Definition kept_default : list AccountEvent :=
  [first_admin;
   CompleteSetup (Some (sessionOf admin_row)) "ops@example.org" DEFAULT_ADMIN_PASSWORD 1 200;
   CompleteSetup (Some (sessionOf admin_row)) "ops@example.org" "short" 1 200;
   ServeCall (Some (uuid 0, true)) 300 ListPipelines].


Lemma completeAdminSetup_spec_witness :
  ∃ s', completeAdminSetup (Some (sessionOf admin_row)) " Ops@Example.org" "correct horse battery" 1 200 seeded =
    (Ok setup_ok, s') ∧
  setup_completed " Ops@Example.org" "correct horse battery" (uuid 0) 200 seeded s'.
Proof.
  destruct (completeAdminSetup_spec (sessionOf admin_row) " Ops@Example.org" "correct horse battery" 1 200 seeded)
    as (_ & _ & _ & _ & _ & _ & _ & Hok); [apply seeded_keyed|decide_fact|].
  destruct Hok as (s' & Hrun & Hdone & _); [reflexivity|reflexivity|split; [discriminate|decide_fact]|..].
  - constructor. split; reflexivity.
  - intros Ht. apply Exists_cons in Ht as [[Ht _]|Ht]; [discriminate|by apply Exists_nil in Ht].
  - exists s'. split; [exact Hrun|exact Hdone].
Defined.

Lemma resetAdminPassword_spec_witness :
  ∃ s', resetAdminPassword "ADMIN@admin.com" (repeat 7 24) 2 400 seeded =
    (Ok (Some (generateTemporaryPassword (repeat 7 24))), s') ∧
  password_reset admin_row (generateTemporaryPassword (repeat 7 24)) 400 seeded s'.
Proof.
  destruct (resetAdminPassword_spec "ADMIN@admin.com" (repeat 7 24) 2 400 seeded) as (_ & _ & Hok);
    [apply seeded_keyed|decide_fact|discriminate|].
  destruct (Hok eq_refl admin_row) as (s' & Hrun & Hdone & _).
  - split; [left|]. split; reflexivity.
  - exists s'. split; [exact Hrun|exact Hdone].
Defined.

(** ** A token *)

(** Two users of a running deployment, and a token of the first. *)
Definition staffed : Directory :=
  {| tables := store PipelineState.enabled [] []; accounts := []; sessions := []; apiTokens := [] |}.
Definition secret_bytes : list nat := repeat 9 32.
Definition issued_token : CreatedApiToken :=
  {| createdToken_createdAt := 100; createdToken_id := uuid 0; createdToken_name := "ci";
     createdToken_token := generateApiToken secret_bytes |}.
Definition with_token : Directory := (createApiToken "ci" owner_id secret_bytes staffed).2.

(** Somebody else tries to revoke it, and creates one. *)
Definition interference : list AccountEvent :=
  [RevokeToken (Some other_owner_id) (uuid 0) 200;
   CreateToken (Some other_owner_id) {| request_method := "POST"; authorization := None;
     request_body := document (JObject [("name", JString "mine")]) |} (repeat 3 32)].

Lemma token_authenticates_until_revoked_witness :
  let s2 := performAll [] "" "" interference with_token in
  (authenticationRoute (bearer (generateApiToken secret_bytes)) s2).1 =
    Ok (jsonResponse 200 (identityDocument owner_id owner_id false owner_id)) ∧
  (authenticationRoute (bearer (generateApiToken secret_bytes))
    (performAll [] "" "" [RevokeToken (Some owner_id) (uuid 0) 300] s2)).1 = Ok (emptyResponse 401).
Proof.
  destruct (token_authenticates_until_revoked [] "" "" "ci" owner_id secret_bytes issued_token staffed with_token
    interference) as [(u & Hu & Hid & Hrun) Hdead]; [decide_fact|decide_fact|reflexivity|reflexivity|..].
  { intros now Hin. repeat (apply elem_of_cons in Hin as [Hin|Hin]; [discriminate|]). by apply elem_of_nil in Hin. }
  intros s2. split.
  - etransitivity; [exact (f_equal fst Hrun)|].
    assert (u ∈ [userRow owner_id; userRow other_owner_id]) as Hu' by exact Hu.
    apply elem_of_cons in Hu' as [->|Hu']; [reflexivity|]. apply list_elem_of_singleton in Hu'.
    rewrite Hu' in Hid. discriminate.
  - exact (f_equal fst (Hdead 300%Z [] eq_refl)).
Defined.
