(* ===== verification/SystemWitnesses.v ===== *)
(** * The theorems about settings, health and the pages at concrete inputs *)

From S2P Require Import Prelude Js Contracts Schemas Http Paths Database SchedulerService Collector.
From S2P Require Import RunLogs RunQueue Accounts SystemStatus SystemStatusProofs.
From S2P Require Import Database AccountProofs ServerProcess Dates Workspaces WorkspaceProofs Scenario AccountWitnesses.

(** A development environment, and two services of one working copy. *)
Definition developing : Environment := λ name, if decide (name = "PANTAETL_ENV") then Some " Development " else None.
Definition started_in (directory : list string) : Surroundings :=
  {| cwd := directory; moduleDirectory := ["home"; "ops"; "panta"; "packages"; "config"; "src"];
     existsSync path := bool_decide (path = ["home"; "ops"; "panta"; WORKSPACE_MARKER]) |}.

Lemma services_agree_on_storage_witness :
  resolveStorageRoot developing (started_in ["home"; "ops"]) = Some ["home"; "ops"; "panta"; "storage"] ∧
  resolveStorageRoot developing (started_in ["home"; "ops"]) = resolveStorageRoot developing (started_in ["tmp"]).
Proof.
  split; [vm_compute; reflexivity|].
  destruct (services_agree_on_storage developing (started_in ["home"; "ops"]) (started_in ["tmp"]))
    as (_ & Hsame & _); [reflexivity|reflexivity|exists 3; vm_compute; reflexivity|].
  apply Hsame. left. vm_compute. reflexivity.
Defined.

(** An administrator who asks for thirty days. *)
Definition thirty_days : Json := JObject [("runLogRetentionDays", JNumber (NInt 30))].

Lemma updateRunLogRetention_spec_witness :
  updateRunLogRetention (Some (sessionOf admin_row)) thirty_days 200 idle =
    (Ok {| canManageGlobalSettings := true; runLogRetentionDays := NInt 30 |},
     set_settings [{| setting_key := RUN_LOG_RETENTION_DAYS_SETTING; setting_value := JNumber (NInt 30);
       setting_updatedAt := 200 |}] idle) ∧
  ∃ e, updateRunLogRetention None thirty_days 200 idle = (Throw e, idle).
Proof.
  split.
  - destruct (proj2 (updateRunLogRetention_spec (Some (sessionOf admin_row)) thirty_days 200 idle) I 30%Z) as (l & Hrun & _).
    + exists [("runLogRetentionDays", JNumber (NInt 30))]. split; [reflexivity|]. split; [reflexivity|discriminate].
    + rewrite Hrun. f_equal. apply (f_equal (λ r, settings r.2)) in Hrun. cbv beta in Hrun. simpl in Hrun.
      rewrite <-Hrun. reflexivity.
  - apply (proj1 (updateRunLogRetention_spec None thirty_days 200 idle)). left. intros [].
Defined.

(** Both services answer, the workers do not. *)
Definition local_config : SystemHealthConfig :=
  {| garbageCollectorHealthUrl := "http://gc/health"; schedulerHealthUrl := "http://scheduler/health";
     storageRoot := ["storage"]; workerHealthUrl := "http://worker/health" |}.
Definition half_up : Probes :=
  {| selectOne := Ok (); countQueries := Ok ();
     fetchHealth url :=
       if decide (url = "http://scheduler/health") then schedulerProbe "token" (Ok ()) 0 idle
       else if decide (url = "http://gc/health") then collectorProbe (Ok ())
       else Throw (JsError "fetch failed");
     storageAccess _ := Ok () |}.

Lemma getSystemHealth_spec_witness :
  health_scheduler (getSystemHealth local_config half_up 300 idle) = healthy ∧
  health_workers (getSystemHealth local_config half_up 300 idle) = unavailable ∧
  health_healthy (getSystemHealth local_config half_up 300 idle) = false.
Proof.
  destruct (getSystemHealth_spec local_config half_up 300 idle "token" (Ok ()) 0 idle (Ok ()))
    as (Hs & _ & Hall & _ & Hw & _); [reflexivity|reflexivity|].
  split; [by apply Hs|]. split; [apply (Hw (JsError "fetch failed")); reflexivity|].
  reflexivity.
Defined.

(** Requests to the internal route: one without a token, one for a run. *)
Definition run_body : Json := JObject [("ownerUserId", JString owner_id); ("pipelineId", JString pipeline_10)].
Definition run_message (method : string) (authorization : option string) : IncomingMessage :=
  {| message_method := Some method; message_url := "/internal/pipeline-runs"; message_authorization := authorization;
     message_body := Some (document run_body) |}.

(** A retention period no date can end. *)
Definition endless : Database :=
  set_settings [{| setting_key := RUN_LOG_RETENTION_DAYS_SETTING; setting_value := JNumber (NInt 1000000000);
    setting_updatedAt := 0 |}] idle.

Lemma scheduler_process_spec_witness :
  (schedulerProcess "scheduler" "secret" (Arrives 100 (Ok ()) (run_message "TRACE" None)) (startedProcess, idle)).1.1 =
    ended 1 startedProcess ∧
  (schedulerProcess "scheduler" "secret" (Arrives 100 (Ok ()) (run_message "POST" (Some "Bearer secret"))) (startedProcess, endless)).1.1 =
    ended 1 startedProcess ∧
  (schedulerProcess "scheduler" "secret" (Arrives 100 (Ok ()) (run_message "POST" (Some "Bearer guess"))) (startedProcess, endless)).1.1 =
    startedProcess.
Proof.
  split; [|split].
  - pose proof (scheduler_process_spec "scheduler" "secret" 100 (Ok ()) (run_message "TRACE" None) startedProcess idle eq_refl) as Hs.
    destruct (schedulerProcess _ _ _ _) as [[p d] answer]. destruct Hs as (_ & _ & Hu & _). apply Hu; [reflexivity|].
    intros Hw. destruct (Hw eq_refl) as [Hm _]. apply Hm. right. left.
  - pose proof (scheduler_process_spec "scheduler" "secret" 100 (Ok ()) (run_message "POST" (Some "Bearer secret")) startedProcess
      endless eq_refl) as Hs.
    destruct (schedulerProcess _ _ _ _) as [[p d] answer]. destruct Hs as (_ & _ & _ & Hf & _).
    apply (Hf owner_id pipeline_10 (JsError "Invalid time value")); vm_compute; reflexivity.
  - pose proof (scheduler_process_spec "scheduler" "secret" 100 (Ok ()) (run_message "POST" (Some "Bearer guess")) startedProcess
      endless eq_refl) as Hs.
    destruct (schedulerProcess _ _ _ _) as [[p d] answer]. destruct Hs as (Hs & _). apply Hs. split.
    + intros _. split; [|right; right; discriminate]. intros Hm. vm_compute in Hm. repeat (inversion Hm as [? ?|? ? ? Hr]; subst; clear Hm; rename Hr into Hm).
    + intros _ o i Ha. exfalso. revert Ha. vm_compute. discriminate.
Defined.

(** ** Pages *)

(** A report a user asks for twice, of workers that do not answer. *)
Lemma system_page_spec_witness :
  shownHealth (systemPageRun (λ _, None) [ClicksRefresh; served (Some owner_id) local_config half_up 300 idle]) =
    Some (viewOf (getSystemHealth local_config half_up 300 idle)) ∧
  view_checkedAt (viewOf (getSystemHealth local_config half_up 300 idle)) = "1970-01-01T00:00:00.300Z".
Proof.
  split; [|vm_compute; reflexivity].
  destruct (system_page_spec (λ _, None) [ClicksRefresh] (Some owner_id) local_config half_up 300 idle)
    as (_ & _ & _ & _ & _ & Hans); [discriminate|].
  destruct (Hans eq_refl) as (view & -> & Hrun & _). exact (f_equal shownHealth Hrun).
Defined.

(** An administrator's page, and thirty days. *)
Definition admin_events : list SettingsEvent := [LoadServed (Some (sessionOf admin_row))].

Lemma settings_page_spec_witness :
  let '(p, d) := settingsRun admin_events (openedSettingsPage, idle) in
  retentionDays p = "365" ∧
  page_saveState (settingsRun [TypesDays " 30 "; SubmitsDays; SaveServed (Some (sessionOf admin_row)) false 200] (p, d)).1 = save_saved ∧
  page_saveState (settingsRun [TypesDays "1.5"; SubmitsDays; SaveServed (Some (sessionOf admin_row)) false 200] (p, d)).1 = save_error.
Proof.
  pose proof (settings_page_spec admin_events idle " 30 " (Some (sessionOf admin_row)) 200) as Hthirty.
  pose proof (settings_page_spec admin_events idle "1.5" (Some (sessionOf admin_row)) 200) as Hhalf.
  assert (formShown (settingsRun admin_events (openedSettingsPage, idle)).1 = true) as Hform by (vm_compute; reflexivity).
  assert (savingRequest (settingsRun admin_events (openedSettingsPage, idle)).1 = None) as Hsaving by (vm_compute; reflexivity).
  assert (retentionDays (settingsRun admin_events (openedSettingsPage, idle)).1 = "365") as Hdays by (vm_compute; reflexivity).
  destruct (settingsRun admin_events (openedSettingsPage, idle)) as [p d].
  destruct Hthirty as (_ & _ & Hthirty). destruct (Hthirty Hform Hsaving) as (_ & Hok & _).
  destruct Hhalf as (_ & _ & Hhalf). destruct (Hhalf Hform Hsaving) as (_ & _ & Hno & _).
  split; [exact Hdays|]. split.
  - apply (Hok 30%Z); [exact I|]. split; [vm_compute; reflexivity|discriminate].
  - apply Hno. intros [_ [n [Hn _]]]. vm_compute in Hn. discriminate Hn.
Defined.

(** The first visit, with a slip and then a password of one's own. *)
Definition first_visit : list WelcomeEvent :=
  [TypesEmail " Ops@Example.org"; TypesPassword "correct horse battery"; TypesConfirmation "correct horse"; SubmitsSetup;
   TypesConfirmation "correct horse battery"].

Lemma welcome_page_spec_witness :
  let st := welcomeRun first_visit (openedWelcomePage (sessionOf admin_row), seeded) in
  errorKey st.1 = Some "welcome.error.mismatch" ∧
  w_left (welcomeRun [SubmitsSetup; SetupServed (Some (sessionOf admin_row)) 1 200] st).1 = true.
Proof.
  pose proof (welcome_page_spec first_visit (sessionOf admin_row) 1 200 seeded) as Hspec.
  assert ((welcomeRun first_visit (openedWelcomePage (sessionOf admin_row), seeded)).2 = seeded) as Hs by reflexivity.
  assert (errorKey (welcomeRun first_visit (openedWelcomePage (sessionOf admin_row), seeded)).1 = Some "welcome.error.mismatch") as Hkey
    by (vm_compute; reflexivity).
  assert (∃ request, (welcomeRun first_visit (openedWelcomePage (sessionOf admin_row), seeded)).1 =
    {| w_email := " Ops@Example.org"; w_password := "correct horse battery"; w_confirmation := "correct horse battery";
       w_submitting := false; setupRequest := request; errorKey := Some "welcome.error.mismatch"; w_left := false |}) as [request Hp]
    by (eexists; vm_compute; reflexivity).
  cbv zeta. split; [exact Hkey|].
  destruct (welcomeRun first_visit (openedWelcomePage (sessionOf admin_row), seeded)) as [p s]. simpl in Hs, Hp. subst s p.
  destruct (welcomeRun _ _) as [q s'].
  destruct Hspec as (_ & _ & Hserved); [reflexivity|reflexivity|apply seeded_keyed|decide_fact|].
  destruct (Hserved eq_refl) as (_ & _ & _ & _ & _ & Hok). apply Hok.
  - reflexivity.
  - split; [discriminate|decide_fact].
  - change (Exists (isPending (uuid 0)) [admin_row]). constructor. split; reflexivity.
  - intros Ht. apply Exists_cons in Ht as [[Ht _]|Ht]; [discriminate|by apply Exists_nil in Ht].
Defined.
