(* ===== verification/CacheWitnesses.v ===== *)
(** * The browser and cache theorems at concrete inputs

    A query library over a finite map, and the browser of the owner of
    [Scenario.idle]. *)

From S2P Require Import Prelude Js Contracts StateMachine Schemas Http Graph Database Integrity RunQueue.
From S2P Require Import Repository RepositoryProofs Actions SchedulerService PipelineRoutes ControlPlane.
From S2P Require Import BrowserClient BrowserProofs QueryCache QueryCacheProofs CachedControlPlane.
From S2P Require Import Portability Graph BuilderDraft Wizard WizardProofs Scenario StoreWitnesses ServiceWitnesses BuilderWitnesses.

(** ** A query library: entries with their data and whether they are
    invalidated *)

Abbreviation QueryMap := (gmap (list string) (CachedData * bool)).

#[export] Instance queryMap : QueryClient QueryMap := {
  getQueryData k c := fst <$> c !! k;
  isInvalidated k c := default false (snd <$> c !! k);
  setQueryData k v c := <[k := (v, false)]> c;
  removeQueries k c := filter (λ entry, ¬ k `prefix_of` entry.1) c;
  invalidateQueries k c := map_imap (λ k' entry, Some (entry.1, if decide (k `prefix_of` k') then true else entry.2)) c }.

#[export] Instance queryMap_laws : QueryClientLaws QueryMap.
Proof.
  split; simpl; intros.
  - by rewrite lookup_insert_eq.
  - by rewrite lookup_insert_eq.
  - by rewrite lookup_insert_ne.
  - by rewrite lookup_insert_ne.
  - rewrite map_lookup_filter_None_2; [done|]. right. intros entry _ Hk. by apply Hk.
  - rewrite map_lookup_filter. destruct (c !! k') as [entry|]; simpl; [|done]. by rewrite option_guard_True.
  - rewrite map_lookup_filter. destruct (c !! k') as [entry|]; simpl; [|done]. by rewrite option_guard_True.
  - rewrite map_lookup_imap. by destruct (c !! k').
  - rewrite map_lookup_imap. destruct (c !! k') as [entry|]; simpl in *; [by rewrite decide_True|done].
  - rewrite map_lookup_imap. destruct (c !! k') as [entry|]; simpl; [by rewrite decide_False|done].
Qed.

(** ** The store can be read *)

Lemma readable_rows owner d :
  Forall (λ row, is_ok (hydrateView owner (p_id row) d) = true) (pipelines d) → readable owner d.
Proof.
  intros Hrows id. destruct (decide (id ∈ p_id <$> pipelines d)) as [(row & -> & Hin)%list_elem_of_fmap|Hno].
  - rewrite Forall_forall in Hrows. specialize (Hrows row Hin). destruct (hydrateView _ _ _) as [o|e]; [by exists o|done].
  - exists None. unfold hydrateView. rewrite (filter_none (λ p, p_id p = id)); [done|]. intros row Hrow Hid. apply Hno.
    rewrite <-Hid. by apply list_elem_of_fmap_2.
Qed.

Lemma idle_readable : readable owner_id idle.
Proof. apply readable_rows. repeat constructor. Qed.

Definition token_32 : string := "0123456789abcdef0123456789abcdef".

Abbreviation api := (pipelineApiClient [] token_32 token_32 owner_id).
Abbreviation actions := (pipelineActionApiClient [] token_32 token_32 owner_id).

(** A session: the owner opens its pipelines, creates one and runs another. *)
Definition session : list (Z * Interaction) :=
  [(100, ViewsList); (101, ViewsDetail pipeline_10); (102, Creates weekly); (103, Runs pipeline_10)]%Z.

Lemma browser_shows_the_server_witness :
  let st := browse [] token_32 token_32 owner_id session (idle, ∅ : QueryMap) in
  (∀ id p now, holds (pipelineQueryKeys.detail id) (CachedPipeline p) st.2 → get (api now) id st.1 = (Ok p, st.1)) ∧
  getQueryData pipelineQueryKeys.list_ st.2 ≠ None.
Proof.
  intros st. assert (is_uuid owner_id = true) as Ho by reflexivity.
  assert (@coherent _ _ (controlPlaneServer owner_id) _ idle (∅ : QueryMap)) as Hco.
  { split; intros ? ? [Hget _] || intros ? [Hget _]; simpl in Hget; rewrite lookup_empty in Hget; discriminate Hget. }
  destruct (browser_shows_the_server [] token_32 token_32 owner_id Ho session idle (∅ : QueryMap)
    idle_integrity idle_readable Hco) as [Hdetail _].
  split; [exact Hdetail|]. vm_compute. discriminate.
Defined.

(** The owner opened the idle pipeline, runs it, and edits on. *)
Lemma run_leaves_editor_open_witness :
  let opened : QueryMap := setQueryData (pipelineQueryKeys.executionState pipeline_10) (CachedExecutionState None) ∅ in
  let st := interact (api 100) (actions 100) (Runs pipeline_10) (idle, opened) in
  holds (pipelineQueryKeys.executionState pipeline_10) (CachedExecutionState None) st.2 ∧
  update (api 101) pipeline_10 rename_request st.1 =
    (Throw {| error_code := PipelineApiErrorCode.pipeline_locked; error_status := Some 409%Z |}, st.1).
Proof.
  intros opened st. assert (is_uuid owner_id = true) as Ho by reflexivity.
  assert (is_ok (run (actions 100) pipeline_10 idle).1 = true) as Hrun by (vm_compute; reflexivity).
  destruct (run (actions 100) pipeline_10 idle).1 as [r|e] eqn:E; [|discriminate Hrun].
  assert (∃ p, getPipeline owner_id pipeline_10 idle = (Ok (Some p), idle)) as [p Hp]
    by (eexists; vm_compute; reflexivity).
  assert (holds (pipelineQueryKeys.executionState pipeline_10) (CachedExecutionState None) opened) as Hidle
    by (split; vm_compute; reflexivity).
  destruct (run_leaves_editor_open [] token_32 token_32 owner_id Ho pipeline_10 p r 100 101 rename_request idle opened
    idle_integrity idle_readable Hp Hidle E eq_refl) as (Hheld & _ & Hlocked).
  split; [exact Hheld|exact Hlocked].
Defined.

(** ** The wizard: a pipeline is composed and saved, saving twice has no
    effect while it is saved, and the next page works on it again. *)

Definition composing : list (Z * BrowserEvent) := map (λ e, (100%Z, e))
  [Opens; Changes (ChangesName " Weekly "); Changes (ChangesSource (component_of ComponentKind.source) (example_uuid "51"));
   Changes (AddsTransform (component_of ComponentKind.transform) (example_uuid "52")); Changes GoesNext;
   Changes (ChangesExport (component_of ComponentKind.export) (example_uuid "53"));
   Saves; Saves; Settles 0].

Definition reopening : list (Z * BrowserEvent) := map (λ e, (200%Z, e))
  [Leaves; Opens; Resumes offered; Refetches false; Changes (ChangesName "Monthly"); Saves; Settles 0].

Definition wizard_names (results : list SaveResult) : list (bool * string * string) :=
  (λ r : SaveCall * Pipeline, (match r.1 with CallCreate _ => true | _ => false end, pipeline_id r.2, pipeline_name r.2)) <$>
    successes results.

Lemma one_pipeline_per_browser_witness :
  let out := pageRun api (composing ++ reopening) (newBrowser, (idle, ∅ : QueryMap)) in
  one_pipeline out.2 ∧ length (inFlight out.1.1) ≤ 1 ∧
  (λ r, (r.1.1, r.2)) <$> wizard_names out.2 = [(true, "Weekly"); (false, "Monthly")].
Proof.
  intros out.
  assert (calmly (createPipeline api) (updatePipeline api) (detailQuery api) (composing ++ reopening)
    (newBrowser, (idle, ∅ : QueryMap))) as Hcalm.
  { repeat split; try reflexivity. intros id Hid. vm_compute in Hid. injection Hid as <-. vm_compute. discriminate. }
  pose proof (one_pipeline_per_browser [] token_32 token_32 owner_id (composing ++ reopening) idle (∅ : QueryMap) Hcalm) as H.
  unfold out. destruct (pageRun api _ _) as [[b w] results] eqn:E. destruct H as (Hone & Hlen & _).
  split; [exact Hone|]. split; [exact Hlen|]. cbn [snd].
  assert (results = (pageRun api (composing ++ reopening) (newBrowser, (idle, ∅ : QueryMap))).2) as -> by (by rewrite E).
  vm_compute. reflexivity.
Defined.

(** Beyond these histories: a page that could not read a component list lets
    the pipeline go, and what it saves is a second one; and what it stored is
    forgotten again when the page is rendered. *)
Definition failing : list (Z * BrowserEvent) := map (λ e, (200%Z, e))
  [Leaves; Opens; Resumes (λ _, None); Changes (ChangesName "Monthly");
   Changes (ChangesSource (component_of ComponentKind.source) (example_uuid "61"));
   Changes (AddsTransform (component_of ComponentKind.transform) (example_uuid "62"));
   Changes (ChangesExport (component_of ComponentKind.export) (example_uuid "63")); Saves; Settles 0].

Example failed_resume_saves_another :
  let out := pageRun api (composing ++ failing) (newBrowser, (idle, ∅ : QueryMap)) in
  (λ r, (r.1.1, r.2)) <$> wizard_names out.2 = [(true, "Weekly"); (true, "Monthly")] ∧ storedId out.1.1 = None.
Proof. vm_compute. by split. Qed.

(** ** The clients *)

Lemma client_create_then_get_witness :
  ∃ p d2, BrowserClient.client_create (service [] "t" "t" (signed_in owner_id) 100) weekly idle = (Ok p, d2) ∧
    BrowserClient.client_get (service [] "t" "t" (signed_in owner_id) 100) (pipeline_id p) d2 = (Ok p, d2) ∧
    BrowserClient.client_get (service [] "t" "t" None 100) (pipeline_id p) d2 =
      (Throw {| error_code := PipelineApiErrorCode.unauthenticated; error_status := Some 401%Z |}, d2).
Proof.
  assert (is_ok (Repository.createPipeline owner_id weekly idle).1 = true) as Hok by (vm_compute; reflexivity).
  destruct (Repository.createPipeline owner_id weekly idle) as [[p|e] d1] eqn:E; [|discriminate Hok].
  assert (is_uuid owner_id = true) as Ho by reflexivity.
  destruct (client_create_then_get [] "t" "t" owner_id weekly 100 idle idle_integrity Ho) as [_ Hgo].
  destruct (Hgo eq_refl) as [_ Hcreated]. destruct (Hcreated p d1 E) as (d2 & Hc & Hget & _ & Hout).
  exists p, d2. split; [exact Hc|]. split; [exact Hget|]. apply Hout. reflexivity.
Defined.

Lemma client_run_end_to_end_witness :
  let token := "0123456789abcdef0123456789abcdef" in
  BrowserClient.client_run (service [] token token (signed_in owner_id) 100) pipeline_10 drafted =
    (Throw {| error_code := PipelineApiErrorCode.pipeline_not_enabled; error_status := Some 409%Z |}, drafted).
Proof.
  intros token. assert (is_uuid owner_id = true) as Ho by reflexivity.
  assert (is_uuid pipeline_10 = true) as Hi by reflexivity.
  destruct (client_run_end_to_end [] token token owner_id pipeline_10 100 drafted Ho Hi) as [Hrun _].
  etransitivity; [exact (Hrun eq_refl)|]. vm_compute. reflexivity.
Defined.

(** A pipeline of components the catalog does not have. *)
Lemma client_enable_outcomes_witness :
  BrowserClient.client_enable (service [] "t" "t" (signed_in owner_id) 100) pipeline_10 drafted =
    (Throw {| error_code := PipelineApiErrorCode.unknown_error; error_status := Some 409%Z |}, drafted).
Proof.
  assert (is_uuid owner_id = true) as Ho by reflexivity.
  assert (is_uuid pipeline_10 = true) as Hi by reflexivity.
  destruct (client_enable_outcomes [] "t" "t" owner_id pipeline_10 100 drafted Ho Hi) as (_ & Hrefused & _).
  assert (match enablePipelineForOwner owner_id pipeline_10 [] 100 drafted with
    | (Throw (PipelineActionConflictError not_executable _ _), _) => True | _ => False end) as Hen
    by (vm_compute; exact I).
  destruct (enablePipelineForOwner owner_id pipeline_10 [] 100 drafted) as [[o|e] d'] eqn:E; [destruct Hen|].
  assert (d' = drafted) as -> by (apply (f_equal snd) in E; vm_compute in E; symmetry; exact E).
  destruct e as [| | | | | | | |[] m violations| | | | |]; try (destruct Hen; fail).
  exact (Hrefused not_executable m violations drafted eq_refl).
Defined.
