(* ===== verification/EditorWitnesses.v ===== *)
(** * The editor of a pipeline at concrete inputs

    The theorems about the editor applied to two pipelines, and histories
    beyond their hypotheses. *)

From stdpp Require Import pretty.
From S2P Require Import Prelude Js Contracts StateMachine Schemas Portability Graph Database Integrity Statements RunLogs RunQueue RunCreation.
From S2P Require Import Repository RepositoryProofs Actions BuilderDraft BuilderProofs TriggerDraft QueryCache.
From S2P Require Import PipelineEditor EditorProofs EditorSaves Scenario StoreWitnesses BuilderWitnesses.

#[local] Open Scope nat_scope.

Definition editable_pipeline (id name : string) (ids : list string) : Pipeline :=
  {| contractVersion := "v1"; pipeline_id := example_uuid id; ownerUserId := owner_id; pipeline_name := name;
     pipeline_state := PipelineState.draft; createdAt := 0; updatedAt := 0;
     steps := zip_with (λ n kind, pipelineStepFromSelection {| selection_id := example_uuid n; metadata := component_of kind;
       selection_secretBindings := []; selection_values := [] |}) ids [ComponentKind.source; ComponentKind.transform; ComponentKind.export];
     edges := zip_with (λ a b, {| fromStepId := example_uuid a; toStepId := example_uuid b |}) ids (tail ids);
     triggers := [ManualTrigger (example_uuid (String.append id "")) (example_uuid id) true] |}.

Definition weekly_report : Pipeline := editable_pipeline "71" "Weekly" ["72"; "73"; "74"].
Definition monthly_report : Pipeline := editable_pipeline "81" "Monthly" ["82"; "83"; "84"].

Definition loaded (ready : bool) : Queries :=
  {| listData := Some [weekly_report; monthly_report];
     detailQuery := λ id,
       {| detail_data := head (filter (λ p, pipeline_id p = id) [weekly_report; monthly_report]); detail_isError := false |};
     executionStateQuery := λ _, Some None;
     capabilityQueries := {| capabilitiesByKind := offered; capabilitiesReady := ready |} |}.

Lemma loaded_keyed ready : keyed (loaded ready).
Proof. intros id p Hp. simpl in Hp. destruct (head_filter_Some _ _ _ Hp) as [_ Heq]. exact Heq. Qed.

Definition later (events : list WorkspaceEvent) : list ((nat → string) * WorkspaceEvent) := (λ e, (pretty, e)) <$> events.

Definition opened (ready : bool) : Workspace := rerender pretty (openWorkspace (loaded ready)).

(** The second pipeline is renamed, a schedule is added and a step removed;
    it is saved, and saving again has no effect while it is saved. *)
Definition renaming : list ((nat → string) * WorkspaceEvent) := later
  [SelectsPipeline (pipeline_id monthly_report); Edits (TypesName " Quarterly "); Edits (ChangesTriggers (AddsSchedule "s"));
   Edits (ChangesTriggers (ChangesSchedule "s" (TypesHour "6"))); Edits (ChangesGraph (RemovesStep (example_uuid "83")));
   Submits; Submits; SaveSettles true; Edits OpensDelete; ConfirmsDelete].

Definition sent (log : list (Workspace * WorkspaceRequest)) : list (string * option (string * nat * nat)) :=
  (λ x, match x.2 with
        | SendsUpdate id u => (id, Some (default "" (update_name u), length (default [] (update_steps u)), length (default [] (update_triggers u))))
        | SendsDelete id => (id, None)
        end) <$> log.


(** Beyond these histories. A component list that can not be refreshed keeps
    the graph of the pipeline shown before, which is then sent for the one
    that is shown. *)
Example stale_graph_is_sent :
  let log := workspaceLog "UTC" (later [QueriesChange (loaded false); SelectsPipeline (pipeline_id monthly_report); Submits]) (opened true) in
  (λ x, match x.2 with SendsUpdate id u => Some (id, step_id <$> default [] (update_steps u)) | SendsDelete _ => None end) <$> log =
    [Some (pipeline_id monthly_report, step_id <$> steps weekly_report)].
Proof. vm_compute. reflexivity. Qed.

(** A confirmation that was opened for one pipeline deletes the next that is
    selected. *)
Example confirmation_carries_over :
  let log := workspaceLog "UTC" (later [Edits OpensDelete; SelectsPipeline (pipeline_id monthly_report); ConfirmsDelete]) (opened true) in
  sent log = [(pipeline_id monthly_report, None)].
Proof. vm_compute. reflexivity. Qed.

(** Lists that are read again after a failure put the edited graph back. *)
Example refreshed_lists_drop_edits :
  let log := workspaceLog "UTC" (later [Edits (ChangesGraph (RemovesStep (example_uuid "73")));
    QueriesChange (loaded false); QueriesChange (loaded true); Submits]) (opened true) in
  sent log = [(pipeline_id weekly_report, Some ("Weekly", 3, 1))].
Proof. vm_compute. reflexivity. Qed.

(** Of a pipeline that branches, saving the name drops the other branch. *)
Example branches_are_dropped :
  let e := mountEditor pretty {| capabilitiesByKind := offered; capabilitiesReady := true |} branched in
  length (steps branched) = 4 ∧ (λ u, length (default [] (update_steps u))) <$> (saveDraft true e).2 = Some 3.
Proof. vm_compute. done. Qed.

(** ** Saving without an edit, and after a run *)

Definition known : Capabilities := {| capabilitiesByKind := offered; capabilitiesReady := true |}.

Lemma editor_saves_unchanged_witness :
  ∃ p d u q d', createPipeline owner_id (createPipelineCreateRequestFromDraft finished) idle = (Ok p, d) ∧
    (saveDraft true (mountEditor pretty known p)).2 = Some u ∧
    Repository.updatePipeline owner_id (pipeline_id p) u 60 d = (Ok (Some q), d') ∧ steps q ≡ₚ steps p ∧ edges q ≡ₚ edges p.
Proof.
  assert (let '(o, d) := createPipeline owner_id (createPipelineCreateRequestFromDraft finished) idle in
    match o with
    | Ok p => match (saveDraft true (mountEditor pretty known p)).2 with
              | Some u => match Repository.updatePipeline owner_id (pipeline_id p) u 60 d with (Ok (Some _), _) => True | _ => False end
              | None => False
              end
    | Throw _ => False
    end) as Hok by (vm_compute; exact I).
  destruct (createPipeline owner_id _ idle) as [[p|e] d] eqn:E; [|destruct Hok].
  destruct (saveDraft true (mountEditor pretty known p)).2 as [u|] eqn:Eu; [|destruct Hok].
  destruct (Repository.updatePipeline owner_id (pipeline_id p) u 60 d) as [[[q|]|e] d'] eqn:Eq; [|destruct Hok|destruct Hok].
  exists p, d, u, q, d'.
  pose proof (createPipeline_integrity owner_id (createPipelineCreateRequestFromDraft finished) idle idle_integrity) as Hd.
  rewrite E in Hd. simpl in Hd.
  pose proof E as (_ & _ & _ & Hc)%createPipeline_ok.
  destruct (created_views _ _ _ _ _ idle_integrity Hc) as (Hown & _ & _ & _ & _ & Hsteps & Hedges & _).
  assert (length (omap manual_enabled (triggers p)) = 1) as Hmanual.
  { assert (match createPipeline owner_id (createPipelineCreateRequestFromDraft finished) idle with
      (Ok p, _) => length (omap manual_enabled (triggers p)) = 1 | _ => False end) as H by (vm_compute; reflexivity).
    by rewrite E in H. }
  destruct (editor_saves_unchanged owner_id (pipeline_id p) 60 pretty known finished d p u q d' Hd) as (_ & _ & _ & _ & _ & Hst & Hed & _);
    [rewrite getPipeline_run, Hown; reflexivity|exact (edited_wf _ _ empty_wf finished_edited)|
     apply (proj1 (Forall_forall _ _)); repeat constructor|by rewrite Hsteps|by rewrite Hedges|reflexivity|exact Hmanual|exact Eu|exact Eq|].
  split; [reflexivity|]. split; [exact Eu|]. split; [exact Eq|]. split; [exact Hst|exact Hed].
Defined.

Lemma ran_pipeline_is_not_saved_witness :
  ∃ out d', createPipelineRun manual_request 50 idle = (Ok out, d') ∧
    let '(o, d2) := Repository.updatePipeline owner_id pipeline_10 (createPipelineUpdateRequestFromDraft finished) 60 d' in
    d2 = d' ∧ ∀ p, o ≠ Ok (Some p).
Proof.
  assert (servable manual_request 50 31536000050 idle) as Hs.
  { split; [reflexivity| |vm_compute; discriminate|exact I|].
    - eexists. split; [left|]. split; reflexivity.
    - exists 365%Z. split; vm_compute; reflexivity. }
  assert (is_ok (createPipelineRun manual_request 50 idle).1 = true) as Hok by (vm_compute; reflexivity).
  destruct (createPipelineRun manual_request 50 idle) as [[out|e] d'] eqn:E; [|discriminate Hok].
  exists out, d'. split; [reflexivity|].
  destruct (ran_pipeline_is_not_saved owner_id pipeline_10 60 d') as [Hrefused _].
  destruct (ran_pipeline_is_not_saved owner_id pipeline_10 50 idle) as [_ Hran].
  assert (has_run pipeline_10 d') as Hhas.
  { apply (Hran manual_request 31536000050%Z out d' eq_refl idle_integrity
      (fresh_without_rows idle eq_refl eq_refl eq_refl eq_refl) Hs); [|exact E].
    intros a Ha. by apply elem_of_nil in Ha. }
  exact (proj1 (Hrefused Hhas) finished).
Defined.
